(* ===== verification/_CoqProject ===== *)
-Q . S2P
Prelude.v
Bytes.v
State.v
Backend.v
PutQueue.v
Reentrant.v
Frame.v
HierarchyCache.v
ValueGetters.v
ValueSetters.v
ValueQueued.v
Handles.v
Lifecycle.v
Callbacks.v
ChunkTask.v
NativeClock.v
EdgeEngine.v
System.v
SystemApi.v
SystemOps.v
SystemEvents.v
VerilatorHelper.v
Running.v
Startup.v
WaveValue.v
WaveData.v
WaveImpl.v
WaveSession.v
WaveRead.v
WaveFiles.v
Wave.v
WaveLookup.v
WaveJit.v
WaveKernel.v
WaveKernelFacts.v
WaveContract.v
WaveSystem.v
WaveBinding.v
WaveHandles.v
WaveHandlesFacts.v
WaveVpi.v
WaveControl.v
TursoFfi.v
BundleCrypto.v
HierarchyCollect.v
WaveNames.v
HierarchyQuery.v
WaveHierarchy.v
Utils.v
