(* ===== verification/Prelude.v ===== *)
(** * Verification of verilua: the simulation library and its waveform simulator

    Verilua runs Lua test benches inside a hardware simulator, or against a
    recorded waveform.  The crate [libverilua] (under [src/libverilua/src]) is
    loaded by the simulator through VPI; Lua code calls its exported functions, and
    the simulator calls the callbacks it registers.  [wellen_impl] (under
    [src/src/wave_vpi]) reads a waveform file for the C++ program [wave_vpi] beside
    it, which stands in for the simulator: its kernel walks the time indices of the
    waveform, calls the callbacks that are due and answers the VPI calls.
    [turso_ffi] (under [src/src/turso_ffi]) gives Lua a database.  This development
    models the three crates and the kernel, and proves what their parts promise.

    ** The program and its parts

    - A [ComplexHandle] ([complex_handle.rs]) wraps a signal: its buffers hold the
      value of the next write.  Deferred writes ([value_setters.rs]) fill the
      buffers and queue the handle in [hdl_put_value] ([verilua_env.rs]); the
      flush hands them to the simulator with [vpi_put_value].  On VCS and Icarus a
      put may run callbacks that write again: those go to a second queue.
    - The callback engine ([vpi_callback.rs], and its generated part under [gen/])
      drives time: the next-time-step callback registers the edge callbacks that
      were asked for and requests the ReadWrite flush; the flush writes the queue
      and requests the next time step.  Tasks wait for edges, for time, for the
      ReadWrite and ReadOnly points.  On Verilator the C++ main program calls
      [verilator_helper.rs] instead of some of the callbacks.
    - [native_clock.rs] toggles a signal without Lua; [hierarchy_collect.rs]
      answers queries on the design hierarchy, from a walk over VPI or from a
      binary cache file; [value_getters.rs], [handle_getters.rs],
      [meta_getters.rs] read values and look handles up.
    - [verilua_env.rs] and [lib.rs] hold the life cycle: bootstrap, initialisation,
      the step functions of an embedding simulator, finalisation.
    - [utils/mod.rs] looks up symbol addresses, detects the simulator and calls the
      operating system; [utils/bundle_crypto.rs] seals script bundles.
    - The waveform backend ([wellen_impl/src/lib.rs]) keeps the hierarchy, the
      signals loaded so far, module handles and iterators in statics, and saves its
      caches for the next run.  The waveform kernel ([wave_vpi/src/wave_vpi.cpp],
      [vpi_compat_wellen.cpp]) queues registrations and removals while callbacks
      run, wraps the handles of the backend in its own and remembers in sets which
      pointer is which, and reads often-used signals ahead in a thread.  The database
      FFI ([turso_ffi/src/lib.rs]) keeps registries of the handles it gave out.

    ** The files, in dependency order

    - [Prelude.v]: the state/outcome monad ([Ret], [Panic], [UB], [NoFuel]), the
      [keeps] logic, machine integers as [Z] with the width in the operation, and
      the rewrite and hint databases.  [Bytes.v]: bytes, little and big endian,
      strings and UTF-8.
    - [State.v]: the data of [libverilua] ([VeriluaEnv], [ComplexHandle],
      [NativeClock], VPI constants and structures) and the world: environment,
      heap of boxed handles, clocks, callbacks held by the simulator, trace.
      [Backend.v]: the simulator, Lua and the container crates as type classes of
      operations, with the properties theorems may assume as named predicates.
    - [PutQueue.v]: [ComplexHandle::new], [try_put_value], the queue and its flush;
      the abstract queue ([abs_queue], [abs_put]) they refine.  [Reentrant.v]: the
      flush when puts run callbacks.  [Frame.v]: what a write may change.
    - [HierarchyCache.v]: the cache file format.  [ValueGetters.v],
      [ValueSetters.v], [ValueQueued.v] (what value a deferred write queues),
      [Handles.v]: reads, writes, lookups and meta data.
    - [Lifecycle.v]: bootstrap, [initialize], [finalize], step functions.
      [Callbacks.v], [ChunkTask.v]: the callback handlers, registration functions
      and the sixteen generated variants.  [NativeClock.v]: the clocks.
    - [EdgeEngine.v]: the invariant of the edge callbacks and wait counters.
      [System.v]: events, scripts and the system invariant; [SystemApi.v],
      [SystemOps.v], [SystemEvents.v]: every exported function and every handler
      keeps it.  [VerilatorHelper.v]: what the Verilator main program calls.
      [Running.v]: the theorems on the running system.  [Startup.v]: how a fresh
      process gets there.
    - The waveform backend: [WaveValue.v] (conversions of values and times, no
      state), [WaveData.v] (the statics and the [wellen] crate as a class),
      [WaveImpl.v] (the exported functions), [WaveSession.v] (the invariant of the
      statics and boxes), [WaveRead.v] (value reads), [WaveFiles.v] (the cache
      files), [Wave.v] (sessions and a concrete waveform), [WaveLookup.v] (lookups by name
      over any number of processes).
    - The waveform kernel: [WaveJit.v] (the prefetch thread as a state machine, and
      the reads that race with it), [WaveKernel.v] (queues, registration, removal and
      the evaluation loop; the code behind the callbacks is the class [Client], the
      waveform the class [WaveSource]), [WaveKernelFacts.v] (what an iteration calls,
      and that the loop ends), [WaveContract.v] (only registered callbacks are
      called, from the start callback to the end callback), [WaveSystem.v] (the
      instance of [Client] that is [libverilua]: a run of the kernel is a run of the
      events of [Running.v], from the first instruction of the process on),
      [WaveBinding.v] (the instance of [WaveSource] that is [wellen_impl]).
      [WaveHandles.v] has the functions that look up, iterate and read objects, with
      the C++ handles beside the statics of the backend; [WaveHandlesFacts.v] their
      invariant ([good]) and the logic of calls that return ([vruns]); [WaveVpi.v] the
      process of calls, interrupted reads, thread steps, cursor moves and option changes.
      [WaveControl.v]: the options of
      the prefetch threads and the cursor controls.
    - [TursoFfi.v]: the database FFI over the engine as a class.
      [BundleCrypto.v]: sealed bundles over AES-GCM and SHA-256 as a class.
      [HierarchyCollect.v]: the walk, the merge and the filters of a hierarchy
      query; [HierarchyQuery.v]: what the query answers; [WaveHierarchy.v]: the same
      walk call by call on the state of the waveform kernel, which implements the
      object model of [HierarchyCollect.v].  [WaveNames.v]: the names suggested for an
      unknown signal.  [Utils.v]: the utilities.

    Definitions keep the source's names; where Rust uses a macro ([set]/[force],
    [posedge]/[negedge]/[edge]) the model has a parameter for what the macro
    selects, and cargo features are the class [Features].

    ** What the theorems show

    - The running system: from process start the library reaches its invariant or
      panics for want of configuration ([process_start_safe]); along every sequence
      of events the invariant holds and each handler returns or, in two stated
      cases, panics ([running_system_safe]), no deferred write is stranded
      (in a build with the heartbeat, [no_write_stranded]), no edge wait is lost or served twice
      ([no_wait_lost]), an edge serves exactly the waiting task
      ([edge_wait_served]), [await_rw] resumes only after the design settled
      ([rw_wakeup_discipline]), the ReadWrite loop of Verilator makes progress
      ([verilator_loop_progress]), and a callback finds behind its untyped pointer
      the live data its handler expects ([callback_data_typed]).
    - The waveform kernel: what an iteration calls, in which order, and what it leaves
      for the next ([iteration_spec]); the loop ends ([evaluation_loop_ends]); a
      callback of a disciplined client is called only while it is registered
      ([calls_only_registered]); with [libverilua] behind the callbacks every run of the
      process that returns, from the startup routines to the end callback, is one of the
      running system ([wave_process_is_system_run], [kernel_run_is_system_run]), whose
      theorems thus hold on this backend; the number a value change reports ([value_change_number])
      and the index a delay is served at ([delayed_callback_index]); prefetched reads
      are exact between steps of the thread ([prefetched_read_sound],
      [hot_read_agrees]).
    - The VPI of the waveform kernel: calls, interrupted reads, threads, options and a
      cursor that moves anywhere may interleave and the handles stay what they are
      ([vpi_process_safe]); while the cursor only moves ahead, a read that no thread
      interrupts is the recorded value, prefetched or not ([vpi_value_at_cursor]); the
      walk of [libverilua] over these functions collects the hierarchy of a waveform
      whose signals are bit vectors ([wave_hierarchy_collected]); what handles are worth after the end
      ([finished_handles]).  The options a start accepts ([initialized_windows]), where
      a time puts the cursor ([set_cursor_time_spec]), the names suggested
      ([suggested_names]).
    - Writes: a deferred write refines the abstract queue ([put_deferred_refines],
      [exported_deferred_write_refines]), the flush drains it in order
      ([flush_drains_in_order]), and under re-entrancy it drains both queues, or a
      callback wrote a handle that is being flushed, or callbacks keep writing
      ([reentrant_flush_outcome]); every exported write is total and stays in its
      frame ([exported_write_safe]); what value reaches the simulator
      ([value64_queued_exactly], [value_multi_queued_exactly],
      [freeze_forces_current_value]); the ReadOnly phase and pending forces
      ([no_write_in_rd_phase], [force_shields_from_set]).
    - Reads and lookups ([get_value64_spec], [get_value_multi_spec],
      [get_value_fmt_str_spec], [get_value_dec_str_verilator],
      [handle_by_name_spec], [ComplexHandle_new_bounds]).
    - Registration of chunked waits ([policy_registers_every_task]), clocks
      ([clock_start_branches], [clock_timers_never_dangle], [clock_waveform]), life
      cycle ([startup_registers_once], [lifecycle_once],
      [step_runs_lua_then_flushes]).
    - The hierarchy: the cache file round trip, rejection of truncated files,
      well-formedness of anything accepted, stability across runs; the walk
      terminates and what it collects ([collected_hierarchy_spec]), what a query
      answers ([hierarchy_query_spec]), and that the cache does not change answers
      ([cached_query_agrees]).
    - The waveform backend: sessions are safe ([wave_session_safe]), iterations
      complete ([wave_iteration_complete]), lookups answer what the hierarchy says in
      every process over the waveform ([wave_handle_by_name_spec]), reads described
      format by format ([wave_value_spec], [int_read_agrees], [text_of_bits_spec], [wave_time_cursor]), caches
      persistent ([wave_caches_persist]).
    - The database FFI tolerates any handle ([turso_handles_safe]) and executing a
      script ends ([turso_exec_terminates]).  Bundles round-trip
      ([bundle_roundtrip]) and nothing else unseals
      ([unseal_accepts_exactly_sealed], [key_material_spec]).  Symbol tables are
      loaded once ([symbol_lookup_spec]), the simulator is detected once
      ([simulator_detected_once]).
    - Behaviours the code does not mean to have: [repeated_edge_panics],
      [reentrant_double_write_undefined], [deferred_value_keeps_upper_words],
      [immediate_write_replaces_pending_value], [refused_clock_unregisters_driver], [null_timer_dangles],
      [stale_signal_cache_panics], [default_vector_too_short],
      [decimal_keeps_low_word], [nine_state_hex_garbage],
      [control_check_depends_on_log], [undefined_symbol_found],
      [top_module_aborts], [delayed_callback_late], [early_removal_lost],
      [removed_still_called], [lost_wakeup], [interrupted_read_out_of_range],
      [interrupted_read_wrong_value], [unchecked_windows_wrong_value],
      [skipped_index_reads_zero], [unsized_lookup_panics], [unsized_leaf_aborts], the module handles of [finished_handles], the single
      index of [set_cursor_time_spec], [documented_option_unknown].

    ** Assumptions, fuel and what is left out

    The simulator, Lua, [hashbrown] iteration order, [slab], [wellen], the turso
    engine, the cryptographic crates, [goblin] and [wildmatch] are parameters.  The
    theorems name what they assume: [quiet_put] (a put runs no callback; the
    re-entrant case is [Reentrant.v]), [accepting_registration] and
    [fresh_registration] (a registration succeeds and the callback is held under an
    identity not in use; value changes get a handle, other reasons a handle or, where
    [vpi_null_handle] says so, a null one), [gives_handle cbAfterDelay] for native clocks,
    [slab_ok], [hash_iter_ok], and for the running system [lua_scripted] (Lua
    reaches the library only through the exported calls of [ApiOp], with live handles; an
    error it raises makes the handler panic, [raised]) and [build_ok] (the features respect the dependencies Cargo enforces).
    Builds with both [chunk_task] and [merge_cb] are covered, but there the counters
    of merged waits do not always agree with the registered chunks ([counted]), and
    a chunk whose task has no counter panics ([stale_chunk],
    [repeated_edge_panics]).  A simulator that puts and registers, and a Lua runtime
    that waits again, instantiate them in the witnesses; the other parameters have
    small concrete instances in the last module of their file.

    Loops have fuel where the recursion is not structural: [apply_loop] runs with
    any fuel of at least two when puts are quiet (one round and the test); under
    re-entrancy a run of [fuel] rounds that is not done had at least [fuel - 1] writes
    from callbacks; [register_loop] has the length of
    the list plus one; the walk over the design needs the depth of the design or the
    level limit, and on the waveform kernel as many scans per iteration as a scope has
    members ([narrow]); [scan_loop] returns in its first round, since every signal has a
    name; [exec_loop] has the length of the script.

    The evaluation loop of the waveform kernel needs as much fuel as indices are
    left.  A callback of the kernel answers with the VPI calls it made, in order:
    they only touch queues the loop around it does not read, so that making them
    after the callback is the same; the cursor is the exception, and the theorems
    say when they need it left alone.  The kernel returns a handle for value changes
    and null for every other reason; a simulator of the model names each registration
    it holds and says for which reasons the library is given null instead
    ([vpi_null_handle], [vpi_returned], [kernel_backend]).  A native clock takes null
    for a failed registration while the kernel keeps the timer, so scripts of the
    kernel's theorems start no clock ([op_ok]).

    A panic is an outcome with the state it was raised in; the release profile
    aborts.  Integers wrap at their width, as in the release profile.  Names are
    valid UTF-8 and C strings have no inner NUL, except where a file says
    otherwise.  Not modelled: wall-clock statistics, logging and tables, the freeing
    of callback boxes, symbol promotion with [dlopen], the declarations of the
    generated VPI bindings that the code does not use; of [wave_vpi],
    [vpi_control] called from inside a callback (it runs the end-of-simulation
    callback in the middle of another), the cursor in percent (floating point), the
    signal handlers, the profiling counters and the FSDB variant; the Lua framework,
    the generators and the scripts. *)

From stdpp Require Export base tactics numbers list gmap strings sets.
From Stdlib Require Export ZArith Lia.

#[export] Set Default Goal Selector "!".

Create HintDb verilua.

Declare Scope verilua_scope.
Delimit Scope verilua_scope with verilua.
#[global] Open Scope Z_scope.

(* ------------------------------------------------------------------ *)
(** ** Outcomes and the state/outcome monad

    A Rust call either returns, panics (the release profile aborts), or has
    undefined behaviour; a loop run with too little fuel yields [NoFuel].  A
    panic keeps the state it was raised in, so that what a handler did before
    panicking can be stated. *)

Inductive Res (S A : Type) : Type :=
| Ret (a : A) (s : S)
| Panic (msg : string) (s : S)
| UB (why : string)
| NoFuel.
Arguments Ret {S A} a s.
Arguments Panic {S A} msg s.
Arguments UB {S A} why.
Arguments NoFuel {S A}.

Definition M (S A : Type) : Type := S -> Res S A.

Definition ret {S A} (a : A) : M S A := fun s => Ret a s.

Definition bind {S A B} (m : M S A) (k : A -> M S B) : M S B :=
  fun s => match m s with
           | Ret a s' => k a s'
           | Panic msg s' => Panic msg s'
           | UB why => UB why
           | NoFuel => NoFuel
           end.

Definition get {S} : M S S := fun s => Ret s s.
Definition gets {S A} (f : S -> A) : M S A := fun s => Ret (f s) s.
Definition modify {S} (f : S -> S) : M S unit := fun s => Ret tt (f s).
Definition panic {S A} (msg : string) : M S A := fun s => Panic msg s.
Definition undefined {S A} (why : string) : M S A := fun _ => UB why.
Definition out_of_fuel {S A} : M S A := fun _ => NoFuel.

(** [assert!(b, msg)]. *)
Definition assert_ {S} (b : bool) (msg : string) : M S unit :=
  if b then ret tt else panic msg.

Notation "'let!' x ':=' m 'in' k" := (bind m (fun x => k))
  (at level 10, x binder, m at level 100, k at level 200) : verilua_scope.
Notation "m ';;' k" := (bind m (fun _ => k))
  (at level 100, k at level 200, right associativity) : verilua_scope.
#[global] Open Scope verilua_scope.

Definition when {S} (b : bool) (m : M S unit) : M S unit := if b then m else ret tt.

Fixpoint for_each {S A} (l : list A) (f : A -> M S unit) : M S unit :=
  match l with
  | [] => ret tt
  | x :: l' => f x ;; for_each l' f
  end.

Lemma bind_ret {S A B} (a : A) (k : A -> M S B) s : bind (ret a) k s = k a s.
Proof. done. Qed.

Lemma bind_assoc {S A B C} (m : M S A) (k : A -> M S B) (h : B -> M S C) s :
  bind (bind m k) h s = bind m (fun a => bind (k a) h) s.
Proof. unfold bind. by destruct (m s). Qed.

Lemma bind_Ret_inv {S A B} (m : M S A) (k : A -> M S B) s b s' :
  bind m k s = Ret b s' -> exists a s1, m s = Ret a s1 /\ k a s1 = Ret b s'.
Proof. unfold bind. destruct (m s) eqn:E; naive_solver. Qed.

Lemma bind_Ret {S A B} (m : M S A) (k : A -> M S B) s a s1 :
  m s = Ret a s1 -> bind m k s = k a s1.
Proof. unfold bind. by intros ->. Qed.

Lemma bind_Panic {S A B} (m : M S A) (k : A -> M S B) s msg s1 :
  m s = Panic msg s1 -> bind m k s = Panic msg s1.
Proof. unfold bind. by intros ->. Qed.

Lemma for_each_app {S A} (l1 l2 : list A) (f : A -> M S unit) s :
  for_each (l1 ++ l2) f s = bind (for_each l1 f) (fun _ => for_each l2 f) s.
Proof.
  revert s. induction l1 as [|x l1 IH]; intros s; [done|].
  cbn. unfold bind at 1 2. destruct (f x s) as [[] s1| | |] eqn:E; cbn;
    [rewrite IH| | |]; unfold bind; by rewrite E.
Qed.

Lemma bind_gets {S A B} (f : S -> A) (k : A -> M S B) s : bind (gets f) k s = k (f s) s.
Proof. done. Qed.

Lemma bind_get {S B} (k : S -> M S B) s : bind get k s = k s s.
Proof. done. Qed.

Lemma bind_modify {S B} (f : S -> S) (k : unit -> M S B) s : bind (modify f) k s = k tt (f s).
Proof. done. Qed.

Lemma bind_panic {S A B} msg (k : A -> M S B) s : bind (panic msg) k s = Panic msg s.
Proof. done. Qed.

Create Rewrite HintDb mon.
#[export] Hint Rewrite @bind_assoc @bind_ret @bind_gets @bind_get @bind_modify @bind_panic : mon.

(** Runs the monad as far as the equations allow; [mrun E] also uses [E : m s = Ret a s']. *)
Ltac mrun0 := repeat (progress autorewrite with mon).
Tactic Notation "mrun" := mrun0.
Tactic Notation "mrun" uconstr(E) := mrun0; rewrite (bind_Ret _ _ _ _ _ E); mrun0.

(** Inverts hypotheses of the form [m s = Ret a s'] built from binds. *)
Ltac mon_inv :=
  repeat match goal with
  | H : bind _ _ _ = Ret _ _ |- _ =>
      let H1 := fresh H in let H2 := fresh H in
      apply bind_Ret_inv in H as (? & ? & H1 & H2)
  | H : ret _ _ = Ret _ _ |- _ => unfold ret in H; simplify_eq
  | H : modify _ _ = Ret _ _ |- _ => unfold modify in H; simplify_eq
  | H : gets _ _ = Ret _ _ |- _ => unfold gets in H; simplify_eq
  | H : get _ = Ret _ _ |- _ => unfold get in H; simplify_eq
  | H : panic _ _ = Ret _ _ |- _ => discriminate H
  | H : undefined _ _ = Ret _ _ |- _ => discriminate H
  end.

(* ------------------------------------------------------------------ *)
(** ** Relations every outcome of a computation satisfies *)

(** [keeps R m]: whether [m] returns or panics, [R] relates the states before
    and after.  With a preorder [R] this composes. *)
Definition keeps {S A} (R : S -> S -> Prop) (m : M S A) : Prop :=
  forall s, match m s with Ret _ s' | Panic _ s' => R s s' | _ => True end.

Section Keeps.
Context {S : Type} (R : S -> S -> Prop) `{!PreOrder R}.

Lemma keeps_ret {A} (a : A) : keeps R (ret a).
Proof. intros s. cbn. reflexivity. Qed.
Lemma keeps_gets {A} (f : S -> A) : keeps R (gets f).
Proof. intros s. cbn. reflexivity. Qed.
Lemma keeps_panic {A} msg : keeps R (panic (A := A) msg).
Proof. intros s. cbn. reflexivity. Qed.
Lemma keeps_undefined {A} why : keeps R (undefined (A := A) why).
Proof. intros s. exact I. Qed.
Lemma keeps_out_of_fuel {A} : keeps R (out_of_fuel (A := A)).
Proof. intros s. exact I. Qed.
Lemma keeps_assert b msg : keeps R (assert_ b msg).
Proof. destruct b; intros s; cbn; reflexivity. Qed.
Lemma keeps_bind {A B} (m : M S A) (k : A -> M S B) :
  keeps R m -> (forall a, keeps R (k a)) -> keeps R (bind m k).
Proof.
  intros Hm Hk s. specialize (Hm s). unfold bind. destruct (m s) as [a s1|msg s1| |]; try done.
  specialize (Hk a s1). destruct (k a s1); try done; by transitivity s1.
Qed.
Lemma keeps_when b m : keeps R m -> keeps R (when b m).
Proof. intros Hm. destruct b; [done|apply keeps_ret]. Qed.
Lemma keeps_for_each {A} (l : list A) f : (forall x, keeps R (f x)) -> keeps R (for_each l f).
Proof. intros Hf. induction l; cbn; [apply keeps_ret|by apply keeps_bind]. Qed.
Lemma keeps_modify f : (forall s, R s (f s)) -> keeps R (modify f).
Proof. intros Hf s. apply Hf. Qed.
End Keeps.

(** Decomposes [keeps] along the structure of a program; side lemmas come from
    the hint database. *)
Create HintDb keeps.
Ltac keeps_step :=
  first
    [ solve [eauto 2 with keeps]
    | apply keeps_ret; apply _ | apply keeps_gets; apply _ | apply keeps_panic; apply _
    | apply keeps_undefined | apply keeps_out_of_fuel | apply keeps_assert; apply _
    | apply keeps_bind; [apply _| |intros ?] | apply keeps_when; [apply _|]
    | apply keeps_for_each; [apply _|intros ?]
    | match goal with
      | |- keeps _ (if ?b then _ else _) => destruct b
      | |- keeps _ (match ?x with _ => _ end) => destruct x
      | |- keeps _ (let '(_, _) := ?x in _) => destruct x
      end ].
Ltac keeps_tac := repeat keeps_step.

(* ------------------------------------------------------------------ *)
(** ** Lists *)

Lemma filter_Forall_iff {A} (P Q : A -> Prop) `{!forall x, Decision (P x), !forall x, Decision (Q x)} (l : list A) :
  Forall (fun x => P x <-> Q x) l -> filter P l = filter Q l.
Proof.
  induction 1 as [|x l Hx Hl IH]; [done|]. rewrite !filter_cons, IH. repeat case_decide; tauto.
Qed.

Lemma omap_cons {A B} (f : A -> option B) x (l : list A) :
  omap f (x :: l) = match f x with Some y => y :: omap f l | None => omap f l end.
Proof. done. Qed.

(* ------------------------------------------------------------------ *)
(** ** Machine integers: values are [Z], the width is in the operation *)

Definition wrap (w z : Z) : Z := z mod 2 ^ w.
Definition u8 (z : Z) : Z := wrap 8 z.
Definition u16 (z : Z) : Z := wrap 16 z.
Definition u32 (z : Z) : Z := wrap 32 z.
Definition u64 (z : Z) : Z := wrap 64 z.

(** [z as i32]: two's complement reading of the low 32 bits. *)
Definition i32 (z : Z) : Z := let r := z mod 2 ^ 32 in if r <? 2 ^ 31 then r else r - 2 ^ 32.

Definition in_width (w z : Z) : Prop := 0 <= z < 2 ^ w.

Lemma wrap_bound w z : 0 <= w -> in_width w (wrap w z).
Proof. intros. unfold in_width, wrap. apply Z.mod_pos_bound. lia. Qed.

Lemma wrap_small w z : in_width w z -> wrap w z = z.
Proof. unfold in_width, wrap. intros. by apply Z.mod_small. Qed.

Lemma u32_i32 z : u32 (i32 z) = u32 z.
Proof.
  unfold u32, wrap, i32. destruct (Z.ltb_spec (z mod 2 ^ 32) (2 ^ 31)).
  - by rewrite Zmod_mod.
  - rewrite Zminus_mod, Z_mod_same_full, Z.sub_0_r, !Zmod_mod. done.
Qed.

Lemma i32_small z : in_width 31 z -> i32 z = z.
Proof.
  unfold in_width, i32. intros. rewrite Z.mod_small by lia.
  destruct (Z.ltb_spec z (2 ^ 31)); lia.
Qed.

Lemma i32_range z : - 2 ^ 31 <= i32 z < 2 ^ 31.
Proof.
  unfold i32. pose proof (Z.mod_pos_bound z (2 ^ 32) eq_refl).
  destruct (Z.ltb_spec (z mod 2 ^ 32) (2 ^ 31)); lia.
Qed.

Lemma i32_u32 z : - 2 ^ 31 <= z < 2 ^ 31 -> i32 (u32 z) = z.
Proof.
  intros Hz. unfold i32, u32, wrap. rewrite Zmod_mod.
  destruct (decide (0 <= z)).
  - rewrite Z.mod_small by lia. destruct (Z.ltb_spec z (2 ^ 31)); lia.
  - replace (z mod 2 ^ 32) with (z + 2 ^ 32).
    + destruct (Z.ltb_spec (z + 2 ^ 32) (2 ^ 31)); lia.
    + rewrite <- (Z.mod_small (z + 2 ^ 32) (2 ^ 32)) by lia.
      by rewrite Z.add_mod, Z_mod_same_full, Z.add_0_r, Zmod_mod by lia.
Qed.

(** The low/high split of a [u64] the code writes as [v & 0xFFFFFFFF] and
    [v >> 32], and its inverse [(hi << 32) | lo]. *)
Definition lo32 (v : Z) : Z := Z.land v 0xFFFFFFFF.
Definition hi32 (v : Z) : Z := Z.shiftr v 32.
Definition join64 (hi lo : Z) : Z := Z.lor (Z.shiftl hi 32) lo.

Lemma lo32_mod v : lo32 v = v mod 2 ^ 32.
Proof. unfold lo32. change 0xFFFFFFFF with (Z.ones 32). by rewrite Z.land_ones by lia. Qed.

Lemma hi32_div v : hi32 v = v / 2 ^ 32.
Proof. unfold hi32. by rewrite Z.shiftr_div_pow2 by lia. Qed.

Lemma land_shiftl_low hi lo : in_width 32 lo -> Z.land (Z.shiftl hi 32) lo = 0.
Proof.
  intros Hlo. rewrite <- (wrap_small 32 lo Hlo). unfold wrap.
  apply Z.bits_inj_0. intros n. rewrite Z.land_spec.
  destruct (decide (n < 0)); [by rewrite !Z.testbit_neg_r by lia|].
  destruct (decide (n < 32)).
  - by rewrite Z.shiftl_spec_low by lia.
  - by rewrite Z.mod_pow2_bits_high, andb_false_r by lia.
Qed.

Lemma join64_add hi lo : in_width 32 lo -> join64 hi lo = hi * 2 ^ 32 + lo.
Proof.
  intros Hlo. unfold join64. rewrite <- Z.shiftl_mul_pow2 by lia.
  pose proof (land_shiftl_low hi lo Hlo) as Hl.
  by rewrite (Z.add_nocarry_lxor _ _ Hl), (Z.lxor_lor _ _ Hl).
Qed.

Lemma join64_split v : in_width 64 v -> join64 (hi32 v) (lo32 v) = v.
Proof.
  unfold in_width. intros Hv. rewrite join64_add.
  - rewrite hi32_div, lo32_mod. pose proof (Z.div_mod v (2 ^ 32)). lia.
  - rewrite lo32_mod. apply wrap_bound. lia.
Qed.

#[export] Hint Resolve wrap_bound i32_range : verilua.
