(* ===== verification/Bytes.v ===== *)
(** * Bytes

    [u8] slices as [list byte], little- and big-endian integers, Rust strings
    as Rocq strings of bytes with UTF-8 validity, and the bounds-checked slice
    access [data.get(pos..pos + n)].  Nothing here is specific to verilua: the
    definitions are the standard-library operations the code uses. *)

From S2P Require Import Prelude.
From Stdlib Require Export Strings.Byte.
From Stdlib Require Strings.String.
From stdpp Require pretty.
#[local] Open Scope Z_scope.

#[export] Instance byte_eq_decision : EqDecision byte := Byte.byte_eq_dec.

Definition byteZ (b : byte) : Z := Z.of_N (Byte.to_N b).
Definition Zbyte (z : Z) : byte :=
  match Byte.of_N (Z.to_N (u8 z)) with Some b => b | None => x00 end.

Lemma byteZ_bound b : 0 <= byteZ b < 256.
Proof. unfold byteZ. pose proof (Byte.to_N_bounded b). lia. Qed.

Lemma Zbyte_byteZ b : Zbyte (byteZ b) = b.
Proof. by destruct b. Qed.

Lemma byteZ_Zbyte z : byteZ (Zbyte z) = z mod 256.
Proof.
  unfold Zbyte, u8, wrap. change (2 ^ 8) with 256.
  pose proof (Z.mod_pos_bound z 256 eq_refl) as Hb.
  destruct (Byte.of_N (Z.to_N (z mod 256))) as [b|] eqn:E.
  - apply Byte.to_of_N in E. unfold byteZ. rewrite E. lia.
  - apply Byte.of_N_None_iff in E. lia.
Qed.

Lemma byteZ_inj b1 b2 : byteZ b1 = byteZ b2 -> b1 = b2.
Proof. intros H. by rewrite <- (Zbyte_byteZ b1), H, Zbyte_byteZ. Qed.

(** [x.to_le_bytes()] of an [n]-byte integer and [from_le_bytes]. *)
Fixpoint le_bytes (n : nat) (z : Z) : list byte :=
  match n with
  | O => []
  | S n => Zbyte z :: le_bytes n (z / 256)
  end.

Fixpoint le_value (l : list byte) : Z :=
  match l with
  | [] => 0
  | b :: l => byteZ b + 256 * le_value l
  end.

Lemma length_le_bytes n z : length (le_bytes n z) = n.
Proof. revert z. induction n; intros; cbn; auto. Qed.

Lemma le_value_bound l : 0 <= le_value l < 256 ^ Z.of_nat (length l).
Proof.
  induction l as [|b l IH]; [done|]. cbn [le_value length].
  rewrite Nat2Z.inj_succ, Z.pow_succ_r by lia. pose proof (byteZ_bound b). lia.
Qed.

Lemma le_value_le_bytes n z : le_value (le_bytes n z) = z mod 256 ^ Z.of_nat n.
Proof.
  revert z. induction n as [|n IH]; intros z; cbn [le_bytes le_value].
  - by rewrite Z.mod_1_r.
  - rewrite IH, byteZ_Zbyte, Nat2Z.inj_succ, Z.pow_succ_r by lia.
    rewrite Z.rem_mul_r by lia. lia.
Qed.

Lemma le_bytes_le_value l : le_bytes (length l) (le_value l) = l.
Proof.
  induction l as [|b l IH]; [done|]. cbn [length le_bytes le_value].
  pose proof (byteZ_bound b). f_equal.
  - apply byteZ_inj. rewrite byteZ_Zbyte, Z.mul_comm, Z_mod_plus_full.
    by rewrite Z.mod_small by lia.
  - rewrite Z.mul_comm, Z.div_add, Z.div_small by lia. by rewrite Z.add_0_l.
Qed.

(** Big-endian value of a slice. *)
Definition be_value (l : list byte) : Z := le_value (rev l).

Lemma le_value_app l1 l2 :
  le_value (l1 ++ l2) = le_value l1 + 256 ^ Z.of_nat (length l1) * le_value l2.
Proof.
  induction l1 as [|b l1 IH]; cbn [app le_value length].
  - lia.
  - rewrite IH, Nat2Z.inj_succ, Z.pow_succ_r by lia. ring.
Qed.

Lemma be_value_app l1 l2 :
  be_value (l1 ++ l2) = be_value l1 * 256 ^ Z.of_nat (length l2) + be_value l2.
Proof. unfold be_value. rewrite rev_app_distr, le_value_app, length_rev. ring. Qed.

Lemma be_value_bound l : 0 <= be_value l < 256 ^ Z.of_nat (length l).
Proof. unfold be_value. rewrite <- (length_rev l). apply le_value_bound. Qed.

(** Rust [String]/[&str] bytes. *)
Definition empty_str : string := String.EmptyString.

Definition as_bytes (s : string) : list byte := String.list_byte_of_string s.
Definition of_bytes (l : list byte) : string := String.string_of_list_byte l.

Lemma of_bytes_as_bytes s : of_bytes (as_bytes s) = s.
Proof. apply String.string_of_list_byte_of_string. Qed.

Lemma as_bytes_of_bytes l : as_bytes (of_bytes l) = l.
Proof. apply String.list_byte_of_string_of_list_byte. Qed.

Lemma as_bytes_inj s1 s2 : as_bytes s1 = as_bytes s2 -> s1 = s2.
Proof. intros H. by rewrite <- (of_bytes_as_bytes s1), H, of_bytes_as_bytes. Qed.

(** [s.len()] is the number of bytes. *)
Definition str_len (s : string) : nat := length (as_bytes s).

Lemma str_len_0 s : str_len s = O -> s = empty_str.
Proof. intros H. apply as_bytes_inj. by apply nil_length_inv. Qed.

(** [z.to_string()] for an integer, and hexadecimal digits. *)
Definition to_decimal (z : Z) : string := pretty.pretty z.

Definition hex_digit (b : byte) : option Z :=
  let z := byteZ b in
  if (0x30 <=? z) && (z <=? 0x39) then Some (z - 0x30)
  else if (0x61 <=? z) && (z <=? 0x66) then Some (z - 0x61 + 10)
  else if (0x41 <=? z) && (z <=? 0x46) then Some (z - 0x41 + 10)
  else None.

Definition hex_value (l : list byte) : Z :=
  fold_left (fun a b => 16 * a + default 0 (hex_digit b)) l 0.

(** [str::from_utf8]: the well-formed byte sequences of the Unicode standard,
    table 3-7. *)
Definition cont_in (lo hi : Z) (b : byte) : bool := (lo <=? byteZ b) && (byteZ b <=? hi).
Definition cont (b : byte) : bool := cont_in 0x80 0xBF b.

Fixpoint utf8_valid (l : list byte) : bool :=
  match l with
  | [] => true
  | b0 :: l1 =>
      if byteZ b0 <=? 0x7F then utf8_valid l1 else
      match l1 with
      | [] => false
      | b1 :: l2 =>
          if cont_in 0xC2 0xDF b0 then cont b1 && utf8_valid l2 else
          match l2 with
          | [] => false
          | b2 :: l3 =>
              if byteZ b0 =? 0xE0 then cont_in 0xA0 0xBF b1 && cont b2 && utf8_valid l3 else
              if byteZ b0 =? 0xED then cont_in 0x80 0x9F b1 && cont b2 && utf8_valid l3 else
              if cont_in 0xE1 0xEF b0 then cont b1 && cont b2 && utf8_valid l3 else
              match l3 with
              | [] => false
              | b3 :: l4 =>
                  if byteZ b0 =? 0xF0 then cont_in 0x90 0xBF b1 && cont b2 && cont b3 && utf8_valid l4 else
                  if cont_in 0xF1 0xF3 b0 then cont b1 && cont b2 && cont b3 && utf8_valid l4 else
                  if byteZ b0 =? 0xF4 then cont_in 0x80 0x8F b1 && cont b2 && cont b3 && utf8_valid l4 else
                  false
              end
          end
      end
  end.

Definition is_str (s : string) : bool := utf8_valid (as_bytes s).

(** [str::from_utf8(bytes).ok()]. *)
Definition from_utf8 (l : list byte) : option string :=
  if utf8_valid l then Some (of_bytes l) else None.

Lemma from_utf8_as_bytes s : is_str s = true -> from_utf8 (as_bytes s) = Some s.
Proof. unfold is_str, from_utf8. intros ->. by rewrite of_bytes_as_bytes. Qed.

Definition ascii (l : list byte) : Prop := Forall (fun b => byteZ b <= 0x7F) l.

Lemma ascii_utf8 l : ascii l -> utf8_valid l = true.
Proof.
  induction 1 as [|b l Hb Hl IH]; [done|]. unfold utf8_valid. fold utf8_valid.
  by destruct (Z.leb_spec (byteZ b) 0x7F); [|lia].
Qed.

(** White space of [str::trim]: the number of bytes of the character of the
    Unicode property White_Space that a UTF-8 text starts with, 0 if none. *)
Definition space_width (l : list byte) : nat :=
  match l with
  | [] => O
  | b :: l =>
      if ((0x09 <=? byteZ b) && (byteZ b <=? 0x0D)) || (byteZ b =? 0x20) then 1%nat
      else match l with
           | b1 :: l1 =>
               if bool_decide (b = xc2) && bool_decide (b1 ∈ [x85; xa0]) then 2%nat
               else match l1 with
                    | b2 :: _ =>
                        if bool_decide ([b; b1; b2] ∈ [[xe1; x9a; x80]; [xe2; x80; xa8]; [xe2; x80; xa9];
                                                       [xe2; x80; xaf]; [xe2; x81; x9f]; [xe3; x80; x80]])
                           || (bool_decide ([b; b1] = [xe2; x80]) && (0x80 <=? byteZ b2) && (byteZ b2 <=? 0x8A))
                        then 3%nat else O
                    | [] => O
                    end
           | [] => O
           end
  end.

(** [trim_start] with fuel for the characters, [trim_end]: the shortest prefix
    whose rest is white space. *)
Fixpoint trim_start (fuel : nat) (l : list byte) : list byte :=
  match fuel, space_width l with
  | S fuel, S n => trim_start fuel (drop (S n) l)
  | _, _ => l
  end.
Definition all_space (l : list byte) : bool := (length (trim_start (length l) l) =? 0)%nat.
Fixpoint trim_end (l : list byte) : list byte :=
  if all_space l then [] else match l with [] => [] | b :: l' => b :: trim_end l' end.
Definition trim (l : list byte) : list byte := trim_end (trim_start (length l) l).

(** [data.get(pos..pos + n)]. *)
Definition slice_get (data : list byte) (pos n : nat) : option (list byte) :=
  if (pos + n <=? length data)%nat then Some (take n (drop pos data)) else None.

Lemma slice_get_app pre x post :
  slice_get (pre ++ x ++ post) (length pre) (length x) = Some x.
Proof.
  unfold slice_get. rewrite !length_app.
  destruct (Nat.leb_spec (length pre + length x) (length pre + (length x + length post)));
    [|lia].
  by rewrite drop_app_length, take_app_length.
Qed.

Lemma slice_get_short data pos n : (length data < pos + n)%nat -> slice_get data pos n = None.
Proof. intros. unfold slice_get. destruct (Nat.leb_spec (pos + n) (length data)); [lia|done]. Qed.

Lemma slice_get_Some data pos n l :
  slice_get data pos n = Some l -> (pos + n <= length data)%nat /\ length l = n.
Proof.
  unfold slice_get. destruct (Nat.leb_spec (pos + n) (length data)); [|done].
  intros [= <-]. rewrite length_take, length_drop. lia.
Qed.

#[global] Arguments le_bytes : simpl never.
#[global] Arguments le_value : simpl never.
#[global] Arguments utf8_valid : simpl never.
