(* ===== verification/State.v ===== *)
(** * State

    The data of libverilua as the source declares it: the VPI constants and
    structures of [vpi_user.rs] the code uses, the cargo features, the
    [ComplexHandle], [VeriluaEnv] and [NativeClock] structs, and the world the
    handlers run in: the environment, the heap of boxed handles and clocks, the
    callbacks the simulator holds for the library, the process environment
    variables, and a trace of the calls made to the simulator and to Lua.

    Pointers ([ComplexHandleRaw], [vpiHandle], [NativeClockHandle]) are
    addresses in [Z] with [0] the null pointer.  A [HashMap] is a [gmap].  The
    two build variants of [pending_edge_cb_map] are two fields:
    [pending_edge_cb_map] under [chunk_task], [pending_edge_cb_infos] without.
    [start_time] and [lua_time] (wall-clock statistics) are not modelled. *)

From S2P Require Import Prelude Bytes.
#[local] Open Scope Z_scope.

(** ** VPI constants *)

Definition vpiBinStrVal : Z := 1.
Definition vpiOctStrVal : Z := 2.
Definition vpiDecStrVal : Z := 3.
Definition vpiHexStrVal : Z := 4.
Definition vpiScalarVal : Z := 5.
Definition vpiIntVal : Z := 6.
Definition vpiVectorVal : Z := 9.
Definition vpiSuppressVal : Z := 13.
Definition vpiNoDelay : Z := 1.
Definition vpiInertialDelay : Z := 2.
Definition vpiForceFlag : Z := 5.
Definition vpiReleaseFlag : Z := 6.
Definition vpiSimTime : Z := 2.
Definition vpiSuppressTime : Z := 3.
Definition cbValueChange : Z := 1.
Definition cbReadWriteSynch : Z := 6.
Definition cbReadOnlySynch : Z := 7.
Definition cbNextSimTime : Z := 8.
Definition cbAfterDelay : Z := 9.
Definition cbStartOfSimulation : Z := 11.
Definition cbEndOfSimulation : Z := 12.

(** ** Cargo features.  [merge_cb] and [chunk_task] each enable
    [opt_cb_task]. *)

Class Features := mkFeatures {
  vcs : bool; iverilog : bool; verilator : bool; wave_vpi : bool;
  inertial_put : bool; verilator_inner_step_callback : bool;
  opt_cb_task : bool; merge_cb : bool; chunk_task : bool; dpi : bool; nosim : bool
}.

Definition features_wf (f : Features) : Prop :=
  (merge_cb = true -> opt_cb_task = true) /\ (chunk_task = true -> opt_cb_task = true).

(** Three of the supported builds, for the witnesses. *)
Definition verilator_features : Features :=
  mkFeatures false false true false false true true false true false false.
Definition iverilog_features : Features :=
  mkFeatures false true false false false false true true true false false.
Definition wave_vpi_features : Features :=
  mkFeatures false false false true false false true false true false false.

(** ** VPI values and callbacks *)

(** [t_vpi_vecval]: both words are [i32]. *)
Record t_vpi_vecval := mkVec { aval : Z; bval : Z }.
Definition vec0 : t_vpi_vecval := mkVec 0 0.

#[export] Instance t_vpi_vecval_eq_decision : EqDecision t_vpi_vecval.
Proof. solve_decision. Defined.

(** [s_vpi_value]: the format together with the union field it selects.  The
    pointers [str_] and [vector] are replaced by what they point to at the call. *)
Inductive s_vpi_value :=
| VInt (integer : Z)
| VVec (vector : list t_vpi_vecval)
| VStr (format : Z) (str_ : string)
| VSuppress (integer : Z)
| VScalar (scalar : Z).

(** [EdgeType] and [EdgeValue]. *)
Inductive EdgeType := Posedge | Negedge | Edge.
Inductive EdgeValue := Low | High | DontCare.

#[export] Instance EdgeType_eq_decision : EqDecision EdgeType.
Proof. solve_decision. Defined.
#[export] Instance EdgeValue_eq_decision : EqDecision EdgeValue.
Proof. solve_decision. Defined.

Record CallbackInfo := mkCallbackInfo { cbi_edge_type : EdgeType; cbi_task_id : Z }.

(** [EdgeCbData] and the [EdgeCbDataChunk_n] family: [ecd_task_ids] is
    [\[task_id\]] for the former. *)
Record EdgeCbData := mkEdgeCbData {
  ecd_task_ids : list Z;
  ecd_complex_handle_raw : Z;
  ecd_edge_type : EdgeType;
  ecd_callback_id : Z
}.

(** The boxed [user_data] of each callback. *)
Inductive UserData :=
| UdNull
| UdEnv
| NormalCbData (task_id : Z)
| RwSynchCbData (task_id flush_epoch : Z)
| UdEdge (d : EdgeCbData)
| TaskIDWithEnv (task_id : Z)
| UdClock (ptr : Z).

(** The [cb_rtn] function pointers the library registers. *)
Inductive CbRtn :=
| start_callback_rtn | final_callback_rtn
| rd_synch_callback_rtn | rw_synch_callback_rtn | next_sim_time_callback_rtn
| libverilua_flush_put_values_rtn | libverilua_next_sim_time_cb_rtn
| edge_callback_rtn | edge_callback_always_rtn | edge_callback_chunk_rtn (n : nat)
| time_callback_handler_rtn | native_clock_toggle_callback_rtn.

#[export] Instance CbRtn_eq_decision : EqDecision CbRtn.
Proof. solve_decision. Defined.

(** [s_cb_data]; [cb_time] is [(type_, high, low)], [None] for a null pointer. *)
Record s_cb_data := mkCb {
  reason : Z;
  cb_rtn : CbRtn;
  cb_time : option (Z * Z * Z);
  obj : Z;
  user_data : UserData
}.

(** ** ComplexHandle *)

Record ShuffledValueVec (T : Type) := mkShuffled { svec : list T; slen : Z }.
Arguments mkShuffled {T} svec slen.
Arguments svec {T} s.
Arguments slen {T} s.

Inductive ShuffledValueVecType := SvNone | SvU32 | SvU64 | SvHexStr.

(** [ch_env] says whether the [env] pointer is set (the environment is unique). *)
Record ComplexHandle := mkCH {
  ch_env : bool;
  vpi_handle : Z;
  name : string;
  width : Z;
  beat_num : nat;
  put_value_format : Z;
  put_value_flag : option Z;
  put_value_integer : Z;
  put_value_str : string;
  get_value_str_buf : list byte;
  put_value_vectors : list t_vpi_vecval;
  posedge_cb_count : gmap Z Z;
  negedge_cb_count : gmap Z Z;
  edge_cb_count : gmap Z Z;
  random_value_vec_type : ShuffledValueVecType;
  random_value_u32_vec : ShuffledValueVec Z;
  random_value_u64_vec : ShuffledValueVec Z;
  random_value_hex_str_vec : ShuffledValueVec string
}.

(** Field updates. *)
Definition set_ch_env (v : bool) (c : ComplexHandle) : ComplexHandle :=
  mkCH v (vpi_handle c) (name c) (width c) (beat_num c) (put_value_format c) (put_value_flag c) (put_value_integer c) (put_value_str c) (get_value_str_buf c) (put_value_vectors c) (posedge_cb_count c) (negedge_cb_count c) (edge_cb_count c) (random_value_vec_type c) (random_value_u32_vec c) (random_value_u64_vec c) (random_value_hex_str_vec c).
Definition set_put_value_format (v : Z) (c : ComplexHandle) : ComplexHandle :=
  mkCH (ch_env c) (vpi_handle c) (name c) (width c) (beat_num c) v (put_value_flag c) (put_value_integer c) (put_value_str c) (get_value_str_buf c) (put_value_vectors c) (posedge_cb_count c) (negedge_cb_count c) (edge_cb_count c) (random_value_vec_type c) (random_value_u32_vec c) (random_value_u64_vec c) (random_value_hex_str_vec c).
Definition set_put_value_flag (v : option Z) (c : ComplexHandle) : ComplexHandle :=
  mkCH (ch_env c) (vpi_handle c) (name c) (width c) (beat_num c) (put_value_format c) v (put_value_integer c) (put_value_str c) (get_value_str_buf c) (put_value_vectors c) (posedge_cb_count c) (negedge_cb_count c) (edge_cb_count c) (random_value_vec_type c) (random_value_u32_vec c) (random_value_u64_vec c) (random_value_hex_str_vec c).
Definition set_put_value_integer (v : Z) (c : ComplexHandle) : ComplexHandle :=
  mkCH (ch_env c) (vpi_handle c) (name c) (width c) (beat_num c) (put_value_format c) (put_value_flag c) v (put_value_str c) (get_value_str_buf c) (put_value_vectors c) (posedge_cb_count c) (negedge_cb_count c) (edge_cb_count c) (random_value_vec_type c) (random_value_u32_vec c) (random_value_u64_vec c) (random_value_hex_str_vec c).
Definition set_put_value_str (v : string) (c : ComplexHandle) : ComplexHandle :=
  mkCH (ch_env c) (vpi_handle c) (name c) (width c) (beat_num c) (put_value_format c) (put_value_flag c) (put_value_integer c) v (get_value_str_buf c) (put_value_vectors c) (posedge_cb_count c) (negedge_cb_count c) (edge_cb_count c) (random_value_vec_type c) (random_value_u32_vec c) (random_value_u64_vec c) (random_value_hex_str_vec c).
Definition set_get_value_str_buf (v : list byte) (c : ComplexHandle) : ComplexHandle :=
  mkCH (ch_env c) (vpi_handle c) (name c) (width c) (beat_num c) (put_value_format c) (put_value_flag c) (put_value_integer c) (put_value_str c) v (put_value_vectors c) (posedge_cb_count c) (negedge_cb_count c) (edge_cb_count c) (random_value_vec_type c) (random_value_u32_vec c) (random_value_u64_vec c) (random_value_hex_str_vec c).
Definition set_put_value_vectors (v : list t_vpi_vecval) (c : ComplexHandle) : ComplexHandle :=
  mkCH (ch_env c) (vpi_handle c) (name c) (width c) (beat_num c) (put_value_format c) (put_value_flag c) (put_value_integer c) (put_value_str c) (get_value_str_buf c) v (posedge_cb_count c) (negedge_cb_count c) (edge_cb_count c) (random_value_vec_type c) (random_value_u32_vec c) (random_value_u64_vec c) (random_value_hex_str_vec c).
Definition set_posedge_cb_count (v : gmap Z Z) (c : ComplexHandle) : ComplexHandle :=
  mkCH (ch_env c) (vpi_handle c) (name c) (width c) (beat_num c) (put_value_format c) (put_value_flag c) (put_value_integer c) (put_value_str c) (get_value_str_buf c) (put_value_vectors c) v (negedge_cb_count c) (edge_cb_count c) (random_value_vec_type c) (random_value_u32_vec c) (random_value_u64_vec c) (random_value_hex_str_vec c).
Definition set_negedge_cb_count (v : gmap Z Z) (c : ComplexHandle) : ComplexHandle :=
  mkCH (ch_env c) (vpi_handle c) (name c) (width c) (beat_num c) (put_value_format c) (put_value_flag c) (put_value_integer c) (put_value_str c) (get_value_str_buf c) (put_value_vectors c) (posedge_cb_count c) v (edge_cb_count c) (random_value_vec_type c) (random_value_u32_vec c) (random_value_u64_vec c) (random_value_hex_str_vec c).
Definition set_edge_cb_count (v : gmap Z Z) (c : ComplexHandle) : ComplexHandle :=
  mkCH (ch_env c) (vpi_handle c) (name c) (width c) (beat_num c) (put_value_format c) (put_value_flag c) (put_value_integer c) (put_value_str c) (get_value_str_buf c) (put_value_vectors c) (posedge_cb_count c) (negedge_cb_count c) v (random_value_vec_type c) (random_value_u32_vec c) (random_value_u64_vec c) (random_value_hex_str_vec c).
Definition set_random_value_vec_type (v : ShuffledValueVecType) (c : ComplexHandle) : ComplexHandle :=
  mkCH (ch_env c) (vpi_handle c) (name c) (width c) (beat_num c) (put_value_format c) (put_value_flag c) (put_value_integer c) (put_value_str c) (get_value_str_buf c) (put_value_vectors c) (posedge_cb_count c) (negedge_cb_count c) (edge_cb_count c) v (random_value_u32_vec c) (random_value_u64_vec c) (random_value_hex_str_vec c).
Definition set_random_value_u32_vec (v : ShuffledValueVec Z) (c : ComplexHandle) : ComplexHandle :=
  mkCH (ch_env c) (vpi_handle c) (name c) (width c) (beat_num c) (put_value_format c) (put_value_flag c) (put_value_integer c) (put_value_str c) (get_value_str_buf c) (put_value_vectors c) (posedge_cb_count c) (negedge_cb_count c) (edge_cb_count c) (random_value_vec_type c) v (random_value_u64_vec c) (random_value_hex_str_vec c).
Definition set_random_value_u64_vec (v : ShuffledValueVec Z) (c : ComplexHandle) : ComplexHandle :=
  mkCH (ch_env c) (vpi_handle c) (name c) (width c) (beat_num c) (put_value_format c) (put_value_flag c) (put_value_integer c) (put_value_str c) (get_value_str_buf c) (put_value_vectors c) (posedge_cb_count c) (negedge_cb_count c) (edge_cb_count c) (random_value_vec_type c) (random_value_u32_vec c) v (random_value_hex_str_vec c).
Definition set_random_value_hex_str_vec (v : ShuffledValueVec string) (c : ComplexHandle) : ComplexHandle :=
  mkCH (ch_env c) (vpi_handle c) (name c) (width c) (beat_num c) (put_value_format c) (put_value_flag c) (put_value_integer c) (put_value_str c) (get_value_str_buf c) (put_value_vectors c) (posedge_cb_count c) (negedge_cb_count c) (edge_cb_count c) (random_value_vec_type c) (random_value_u32_vec c) (random_value_u64_vec c) v.

(** ** VeriluaEnv *)

(** The registry ids and function references of Lua are opaque numbers. *)
Record VeriluaEnv := mkEnv {
  hdl_cache : gmap string Z;
  hdl_put_value : list Z;
  hdl_put_value_bak : list Z;
  use_hdl_put_value_bak : bool;
  pending_posedge_cb_map : gmap Z (list Z);
  pending_negedge_cb_map : gmap Z (list Z);
  pending_edge_cb_map : gmap Z (list Z);
  pending_posedge_cb_chunk : gmap Z (Z * list Z);
  pending_negedge_cb_chunk : gmap Z (Z * list Z);
  pending_edge_cb_chunk : gmap Z (Z * list Z);
  pending_edge_cb_infos : gmap Z (list CallbackInfo);
  edge_cb_slab : gmap Z Z;
  resolve_x_as_zero : bool;
  rw_phase_passed : bool;
  rw_cb_re_registered : bool;
  flush_epoch : Z;
  rd_phase_active : bool;
  acc_lua_time : bool;
  lua_sim_event : Z;
  lua_main_step : option Z;
  lua_posedge_step : option Z;
  lua_negedge_step : option Z;
  lua_sim_event_chunks : list Z;
  initialized : bool;
  finalized : bool;
  has_start_cb : bool;
  has_final_cb : bool;
  has_next_sim_time_cb : bool
}.

(** Field updates. *)
Definition set_hdl_cache (v : gmap string Z) (e : VeriluaEnv) : VeriluaEnv :=
  mkEnv v (hdl_put_value e) (hdl_put_value_bak e) (use_hdl_put_value_bak e) (pending_posedge_cb_map e) (pending_negedge_cb_map e) (pending_edge_cb_map e) (pending_posedge_cb_chunk e) (pending_negedge_cb_chunk e) (pending_edge_cb_chunk e) (pending_edge_cb_infos e) (edge_cb_slab e) (resolve_x_as_zero e) (rw_phase_passed e) (rw_cb_re_registered e) (flush_epoch e) (rd_phase_active e) (acc_lua_time e) (lua_sim_event e) (lua_main_step e) (lua_posedge_step e) (lua_negedge_step e) (lua_sim_event_chunks e) (initialized e) (finalized e) (has_start_cb e) (has_final_cb e) (has_next_sim_time_cb e).
Definition set_hdl_put_value (v : list Z) (e : VeriluaEnv) : VeriluaEnv :=
  mkEnv (hdl_cache e) v (hdl_put_value_bak e) (use_hdl_put_value_bak e) (pending_posedge_cb_map e) (pending_negedge_cb_map e) (pending_edge_cb_map e) (pending_posedge_cb_chunk e) (pending_negedge_cb_chunk e) (pending_edge_cb_chunk e) (pending_edge_cb_infos e) (edge_cb_slab e) (resolve_x_as_zero e) (rw_phase_passed e) (rw_cb_re_registered e) (flush_epoch e) (rd_phase_active e) (acc_lua_time e) (lua_sim_event e) (lua_main_step e) (lua_posedge_step e) (lua_negedge_step e) (lua_sim_event_chunks e) (initialized e) (finalized e) (has_start_cb e) (has_final_cb e) (has_next_sim_time_cb e).
Definition set_hdl_put_value_bak (v : list Z) (e : VeriluaEnv) : VeriluaEnv :=
  mkEnv (hdl_cache e) (hdl_put_value e) v (use_hdl_put_value_bak e) (pending_posedge_cb_map e) (pending_negedge_cb_map e) (pending_edge_cb_map e) (pending_posedge_cb_chunk e) (pending_negedge_cb_chunk e) (pending_edge_cb_chunk e) (pending_edge_cb_infos e) (edge_cb_slab e) (resolve_x_as_zero e) (rw_phase_passed e) (rw_cb_re_registered e) (flush_epoch e) (rd_phase_active e) (acc_lua_time e) (lua_sim_event e) (lua_main_step e) (lua_posedge_step e) (lua_negedge_step e) (lua_sim_event_chunks e) (initialized e) (finalized e) (has_start_cb e) (has_final_cb e) (has_next_sim_time_cb e).
Definition set_use_hdl_put_value_bak (v : bool) (e : VeriluaEnv) : VeriluaEnv :=
  mkEnv (hdl_cache e) (hdl_put_value e) (hdl_put_value_bak e) v (pending_posedge_cb_map e) (pending_negedge_cb_map e) (pending_edge_cb_map e) (pending_posedge_cb_chunk e) (pending_negedge_cb_chunk e) (pending_edge_cb_chunk e) (pending_edge_cb_infos e) (edge_cb_slab e) (resolve_x_as_zero e) (rw_phase_passed e) (rw_cb_re_registered e) (flush_epoch e) (rd_phase_active e) (acc_lua_time e) (lua_sim_event e) (lua_main_step e) (lua_posedge_step e) (lua_negedge_step e) (lua_sim_event_chunks e) (initialized e) (finalized e) (has_start_cb e) (has_final_cb e) (has_next_sim_time_cb e).
Definition set_pending_posedge_cb_map (v : gmap Z (list Z)) (e : VeriluaEnv) : VeriluaEnv :=
  mkEnv (hdl_cache e) (hdl_put_value e) (hdl_put_value_bak e) (use_hdl_put_value_bak e) v (pending_negedge_cb_map e) (pending_edge_cb_map e) (pending_posedge_cb_chunk e) (pending_negedge_cb_chunk e) (pending_edge_cb_chunk e) (pending_edge_cb_infos e) (edge_cb_slab e) (resolve_x_as_zero e) (rw_phase_passed e) (rw_cb_re_registered e) (flush_epoch e) (rd_phase_active e) (acc_lua_time e) (lua_sim_event e) (lua_main_step e) (lua_posedge_step e) (lua_negedge_step e) (lua_sim_event_chunks e) (initialized e) (finalized e) (has_start_cb e) (has_final_cb e) (has_next_sim_time_cb e).
Definition set_pending_negedge_cb_map (v : gmap Z (list Z)) (e : VeriluaEnv) : VeriluaEnv :=
  mkEnv (hdl_cache e) (hdl_put_value e) (hdl_put_value_bak e) (use_hdl_put_value_bak e) (pending_posedge_cb_map e) v (pending_edge_cb_map e) (pending_posedge_cb_chunk e) (pending_negedge_cb_chunk e) (pending_edge_cb_chunk e) (pending_edge_cb_infos e) (edge_cb_slab e) (resolve_x_as_zero e) (rw_phase_passed e) (rw_cb_re_registered e) (flush_epoch e) (rd_phase_active e) (acc_lua_time e) (lua_sim_event e) (lua_main_step e) (lua_posedge_step e) (lua_negedge_step e) (lua_sim_event_chunks e) (initialized e) (finalized e) (has_start_cb e) (has_final_cb e) (has_next_sim_time_cb e).
Definition set_pending_edge_cb_map (v : gmap Z (list Z)) (e : VeriluaEnv) : VeriluaEnv :=
  mkEnv (hdl_cache e) (hdl_put_value e) (hdl_put_value_bak e) (use_hdl_put_value_bak e) (pending_posedge_cb_map e) (pending_negedge_cb_map e) v (pending_posedge_cb_chunk e) (pending_negedge_cb_chunk e) (pending_edge_cb_chunk e) (pending_edge_cb_infos e) (edge_cb_slab e) (resolve_x_as_zero e) (rw_phase_passed e) (rw_cb_re_registered e) (flush_epoch e) (rd_phase_active e) (acc_lua_time e) (lua_sim_event e) (lua_main_step e) (lua_posedge_step e) (lua_negedge_step e) (lua_sim_event_chunks e) (initialized e) (finalized e) (has_start_cb e) (has_final_cb e) (has_next_sim_time_cb e).
Definition set_pending_posedge_cb_chunk (v : gmap Z (Z * list Z)) (e : VeriluaEnv) : VeriluaEnv :=
  mkEnv (hdl_cache e) (hdl_put_value e) (hdl_put_value_bak e) (use_hdl_put_value_bak e) (pending_posedge_cb_map e) (pending_negedge_cb_map e) (pending_edge_cb_map e) v (pending_negedge_cb_chunk e) (pending_edge_cb_chunk e) (pending_edge_cb_infos e) (edge_cb_slab e) (resolve_x_as_zero e) (rw_phase_passed e) (rw_cb_re_registered e) (flush_epoch e) (rd_phase_active e) (acc_lua_time e) (lua_sim_event e) (lua_main_step e) (lua_posedge_step e) (lua_negedge_step e) (lua_sim_event_chunks e) (initialized e) (finalized e) (has_start_cb e) (has_final_cb e) (has_next_sim_time_cb e).
Definition set_pending_negedge_cb_chunk (v : gmap Z (Z * list Z)) (e : VeriluaEnv) : VeriluaEnv :=
  mkEnv (hdl_cache e) (hdl_put_value e) (hdl_put_value_bak e) (use_hdl_put_value_bak e) (pending_posedge_cb_map e) (pending_negedge_cb_map e) (pending_edge_cb_map e) (pending_posedge_cb_chunk e) v (pending_edge_cb_chunk e) (pending_edge_cb_infos e) (edge_cb_slab e) (resolve_x_as_zero e) (rw_phase_passed e) (rw_cb_re_registered e) (flush_epoch e) (rd_phase_active e) (acc_lua_time e) (lua_sim_event e) (lua_main_step e) (lua_posedge_step e) (lua_negedge_step e) (lua_sim_event_chunks e) (initialized e) (finalized e) (has_start_cb e) (has_final_cb e) (has_next_sim_time_cb e).
Definition set_pending_edge_cb_chunk (v : gmap Z (Z * list Z)) (e : VeriluaEnv) : VeriluaEnv :=
  mkEnv (hdl_cache e) (hdl_put_value e) (hdl_put_value_bak e) (use_hdl_put_value_bak e) (pending_posedge_cb_map e) (pending_negedge_cb_map e) (pending_edge_cb_map e) (pending_posedge_cb_chunk e) (pending_negedge_cb_chunk e) v (pending_edge_cb_infos e) (edge_cb_slab e) (resolve_x_as_zero e) (rw_phase_passed e) (rw_cb_re_registered e) (flush_epoch e) (rd_phase_active e) (acc_lua_time e) (lua_sim_event e) (lua_main_step e) (lua_posedge_step e) (lua_negedge_step e) (lua_sim_event_chunks e) (initialized e) (finalized e) (has_start_cb e) (has_final_cb e) (has_next_sim_time_cb e).
Definition set_pending_edge_cb_infos (v : gmap Z (list CallbackInfo)) (e : VeriluaEnv) : VeriluaEnv :=
  mkEnv (hdl_cache e) (hdl_put_value e) (hdl_put_value_bak e) (use_hdl_put_value_bak e) (pending_posedge_cb_map e) (pending_negedge_cb_map e) (pending_edge_cb_map e) (pending_posedge_cb_chunk e) (pending_negedge_cb_chunk e) (pending_edge_cb_chunk e) v (edge_cb_slab e) (resolve_x_as_zero e) (rw_phase_passed e) (rw_cb_re_registered e) (flush_epoch e) (rd_phase_active e) (acc_lua_time e) (lua_sim_event e) (lua_main_step e) (lua_posedge_step e) (lua_negedge_step e) (lua_sim_event_chunks e) (initialized e) (finalized e) (has_start_cb e) (has_final_cb e) (has_next_sim_time_cb e).
Definition set_edge_cb_slab (v : gmap Z Z) (e : VeriluaEnv) : VeriluaEnv :=
  mkEnv (hdl_cache e) (hdl_put_value e) (hdl_put_value_bak e) (use_hdl_put_value_bak e) (pending_posedge_cb_map e) (pending_negedge_cb_map e) (pending_edge_cb_map e) (pending_posedge_cb_chunk e) (pending_negedge_cb_chunk e) (pending_edge_cb_chunk e) (pending_edge_cb_infos e) v (resolve_x_as_zero e) (rw_phase_passed e) (rw_cb_re_registered e) (flush_epoch e) (rd_phase_active e) (acc_lua_time e) (lua_sim_event e) (lua_main_step e) (lua_posedge_step e) (lua_negedge_step e) (lua_sim_event_chunks e) (initialized e) (finalized e) (has_start_cb e) (has_final_cb e) (has_next_sim_time_cb e).
Definition set_resolve_x_as_zero (v : bool) (e : VeriluaEnv) : VeriluaEnv :=
  mkEnv (hdl_cache e) (hdl_put_value e) (hdl_put_value_bak e) (use_hdl_put_value_bak e) (pending_posedge_cb_map e) (pending_negedge_cb_map e) (pending_edge_cb_map e) (pending_posedge_cb_chunk e) (pending_negedge_cb_chunk e) (pending_edge_cb_chunk e) (pending_edge_cb_infos e) (edge_cb_slab e) v (rw_phase_passed e) (rw_cb_re_registered e) (flush_epoch e) (rd_phase_active e) (acc_lua_time e) (lua_sim_event e) (lua_main_step e) (lua_posedge_step e) (lua_negedge_step e) (lua_sim_event_chunks e) (initialized e) (finalized e) (has_start_cb e) (has_final_cb e) (has_next_sim_time_cb e).
Definition set_rw_phase_passed (v : bool) (e : VeriluaEnv) : VeriluaEnv :=
  mkEnv (hdl_cache e) (hdl_put_value e) (hdl_put_value_bak e) (use_hdl_put_value_bak e) (pending_posedge_cb_map e) (pending_negedge_cb_map e) (pending_edge_cb_map e) (pending_posedge_cb_chunk e) (pending_negedge_cb_chunk e) (pending_edge_cb_chunk e) (pending_edge_cb_infos e) (edge_cb_slab e) (resolve_x_as_zero e) v (rw_cb_re_registered e) (flush_epoch e) (rd_phase_active e) (acc_lua_time e) (lua_sim_event e) (lua_main_step e) (lua_posedge_step e) (lua_negedge_step e) (lua_sim_event_chunks e) (initialized e) (finalized e) (has_start_cb e) (has_final_cb e) (has_next_sim_time_cb e).
Definition set_rw_cb_re_registered (v : bool) (e : VeriluaEnv) : VeriluaEnv :=
  mkEnv (hdl_cache e) (hdl_put_value e) (hdl_put_value_bak e) (use_hdl_put_value_bak e) (pending_posedge_cb_map e) (pending_negedge_cb_map e) (pending_edge_cb_map e) (pending_posedge_cb_chunk e) (pending_negedge_cb_chunk e) (pending_edge_cb_chunk e) (pending_edge_cb_infos e) (edge_cb_slab e) (resolve_x_as_zero e) (rw_phase_passed e) v (flush_epoch e) (rd_phase_active e) (acc_lua_time e) (lua_sim_event e) (lua_main_step e) (lua_posedge_step e) (lua_negedge_step e) (lua_sim_event_chunks e) (initialized e) (finalized e) (has_start_cb e) (has_final_cb e) (has_next_sim_time_cb e).
Definition set_flush_epoch (v : Z) (e : VeriluaEnv) : VeriluaEnv :=
  mkEnv (hdl_cache e) (hdl_put_value e) (hdl_put_value_bak e) (use_hdl_put_value_bak e) (pending_posedge_cb_map e) (pending_negedge_cb_map e) (pending_edge_cb_map e) (pending_posedge_cb_chunk e) (pending_negedge_cb_chunk e) (pending_edge_cb_chunk e) (pending_edge_cb_infos e) (edge_cb_slab e) (resolve_x_as_zero e) (rw_phase_passed e) (rw_cb_re_registered e) v (rd_phase_active e) (acc_lua_time e) (lua_sim_event e) (lua_main_step e) (lua_posedge_step e) (lua_negedge_step e) (lua_sim_event_chunks e) (initialized e) (finalized e) (has_start_cb e) (has_final_cb e) (has_next_sim_time_cb e).
Definition set_rd_phase_active (v : bool) (e : VeriluaEnv) : VeriluaEnv :=
  mkEnv (hdl_cache e) (hdl_put_value e) (hdl_put_value_bak e) (use_hdl_put_value_bak e) (pending_posedge_cb_map e) (pending_negedge_cb_map e) (pending_edge_cb_map e) (pending_posedge_cb_chunk e) (pending_negedge_cb_chunk e) (pending_edge_cb_chunk e) (pending_edge_cb_infos e) (edge_cb_slab e) (resolve_x_as_zero e) (rw_phase_passed e) (rw_cb_re_registered e) (flush_epoch e) v (acc_lua_time e) (lua_sim_event e) (lua_main_step e) (lua_posedge_step e) (lua_negedge_step e) (lua_sim_event_chunks e) (initialized e) (finalized e) (has_start_cb e) (has_final_cb e) (has_next_sim_time_cb e).
Definition set_acc_lua_time (v : bool) (e : VeriluaEnv) : VeriluaEnv :=
  mkEnv (hdl_cache e) (hdl_put_value e) (hdl_put_value_bak e) (use_hdl_put_value_bak e) (pending_posedge_cb_map e) (pending_negedge_cb_map e) (pending_edge_cb_map e) (pending_posedge_cb_chunk e) (pending_negedge_cb_chunk e) (pending_edge_cb_chunk e) (pending_edge_cb_infos e) (edge_cb_slab e) (resolve_x_as_zero e) (rw_phase_passed e) (rw_cb_re_registered e) (flush_epoch e) (rd_phase_active e) v (lua_sim_event e) (lua_main_step e) (lua_posedge_step e) (lua_negedge_step e) (lua_sim_event_chunks e) (initialized e) (finalized e) (has_start_cb e) (has_final_cb e) (has_next_sim_time_cb e).
Definition set_lua_sim_event (v : Z) (e : VeriluaEnv) : VeriluaEnv :=
  mkEnv (hdl_cache e) (hdl_put_value e) (hdl_put_value_bak e) (use_hdl_put_value_bak e) (pending_posedge_cb_map e) (pending_negedge_cb_map e) (pending_edge_cb_map e) (pending_posedge_cb_chunk e) (pending_negedge_cb_chunk e) (pending_edge_cb_chunk e) (pending_edge_cb_infos e) (edge_cb_slab e) (resolve_x_as_zero e) (rw_phase_passed e) (rw_cb_re_registered e) (flush_epoch e) (rd_phase_active e) (acc_lua_time e) v (lua_main_step e) (lua_posedge_step e) (lua_negedge_step e) (lua_sim_event_chunks e) (initialized e) (finalized e) (has_start_cb e) (has_final_cb e) (has_next_sim_time_cb e).
Definition set_lua_main_step (v : option Z) (e : VeriluaEnv) : VeriluaEnv :=
  mkEnv (hdl_cache e) (hdl_put_value e) (hdl_put_value_bak e) (use_hdl_put_value_bak e) (pending_posedge_cb_map e) (pending_negedge_cb_map e) (pending_edge_cb_map e) (pending_posedge_cb_chunk e) (pending_negedge_cb_chunk e) (pending_edge_cb_chunk e) (pending_edge_cb_infos e) (edge_cb_slab e) (resolve_x_as_zero e) (rw_phase_passed e) (rw_cb_re_registered e) (flush_epoch e) (rd_phase_active e) (acc_lua_time e) (lua_sim_event e) v (lua_posedge_step e) (lua_negedge_step e) (lua_sim_event_chunks e) (initialized e) (finalized e) (has_start_cb e) (has_final_cb e) (has_next_sim_time_cb e).
Definition set_lua_posedge_step (v : option Z) (e : VeriluaEnv) : VeriluaEnv :=
  mkEnv (hdl_cache e) (hdl_put_value e) (hdl_put_value_bak e) (use_hdl_put_value_bak e) (pending_posedge_cb_map e) (pending_negedge_cb_map e) (pending_edge_cb_map e) (pending_posedge_cb_chunk e) (pending_negedge_cb_chunk e) (pending_edge_cb_chunk e) (pending_edge_cb_infos e) (edge_cb_slab e) (resolve_x_as_zero e) (rw_phase_passed e) (rw_cb_re_registered e) (flush_epoch e) (rd_phase_active e) (acc_lua_time e) (lua_sim_event e) (lua_main_step e) v (lua_negedge_step e) (lua_sim_event_chunks e) (initialized e) (finalized e) (has_start_cb e) (has_final_cb e) (has_next_sim_time_cb e).
Definition set_lua_negedge_step (v : option Z) (e : VeriluaEnv) : VeriluaEnv :=
  mkEnv (hdl_cache e) (hdl_put_value e) (hdl_put_value_bak e) (use_hdl_put_value_bak e) (pending_posedge_cb_map e) (pending_negedge_cb_map e) (pending_edge_cb_map e) (pending_posedge_cb_chunk e) (pending_negedge_cb_chunk e) (pending_edge_cb_chunk e) (pending_edge_cb_infos e) (edge_cb_slab e) (resolve_x_as_zero e) (rw_phase_passed e) (rw_cb_re_registered e) (flush_epoch e) (rd_phase_active e) (acc_lua_time e) (lua_sim_event e) (lua_main_step e) (lua_posedge_step e) v (lua_sim_event_chunks e) (initialized e) (finalized e) (has_start_cb e) (has_final_cb e) (has_next_sim_time_cb e).
Definition set_lua_sim_event_chunks (v : list Z) (e : VeriluaEnv) : VeriluaEnv :=
  mkEnv (hdl_cache e) (hdl_put_value e) (hdl_put_value_bak e) (use_hdl_put_value_bak e) (pending_posedge_cb_map e) (pending_negedge_cb_map e) (pending_edge_cb_map e) (pending_posedge_cb_chunk e) (pending_negedge_cb_chunk e) (pending_edge_cb_chunk e) (pending_edge_cb_infos e) (edge_cb_slab e) (resolve_x_as_zero e) (rw_phase_passed e) (rw_cb_re_registered e) (flush_epoch e) (rd_phase_active e) (acc_lua_time e) (lua_sim_event e) (lua_main_step e) (lua_posedge_step e) (lua_negedge_step e) v (initialized e) (finalized e) (has_start_cb e) (has_final_cb e) (has_next_sim_time_cb e).
Definition set_initialized (v : bool) (e : VeriluaEnv) : VeriluaEnv :=
  mkEnv (hdl_cache e) (hdl_put_value e) (hdl_put_value_bak e) (use_hdl_put_value_bak e) (pending_posedge_cb_map e) (pending_negedge_cb_map e) (pending_edge_cb_map e) (pending_posedge_cb_chunk e) (pending_negedge_cb_chunk e) (pending_edge_cb_chunk e) (pending_edge_cb_infos e) (edge_cb_slab e) (resolve_x_as_zero e) (rw_phase_passed e) (rw_cb_re_registered e) (flush_epoch e) (rd_phase_active e) (acc_lua_time e) (lua_sim_event e) (lua_main_step e) (lua_posedge_step e) (lua_negedge_step e) (lua_sim_event_chunks e) v (finalized e) (has_start_cb e) (has_final_cb e) (has_next_sim_time_cb e).
Definition set_finalized (v : bool) (e : VeriluaEnv) : VeriluaEnv :=
  mkEnv (hdl_cache e) (hdl_put_value e) (hdl_put_value_bak e) (use_hdl_put_value_bak e) (pending_posedge_cb_map e) (pending_negedge_cb_map e) (pending_edge_cb_map e) (pending_posedge_cb_chunk e) (pending_negedge_cb_chunk e) (pending_edge_cb_chunk e) (pending_edge_cb_infos e) (edge_cb_slab e) (resolve_x_as_zero e) (rw_phase_passed e) (rw_cb_re_registered e) (flush_epoch e) (rd_phase_active e) (acc_lua_time e) (lua_sim_event e) (lua_main_step e) (lua_posedge_step e) (lua_negedge_step e) (lua_sim_event_chunks e) (initialized e) v (has_start_cb e) (has_final_cb e) (has_next_sim_time_cb e).
Definition set_has_start_cb (v : bool) (e : VeriluaEnv) : VeriluaEnv :=
  mkEnv (hdl_cache e) (hdl_put_value e) (hdl_put_value_bak e) (use_hdl_put_value_bak e) (pending_posedge_cb_map e) (pending_negedge_cb_map e) (pending_edge_cb_map e) (pending_posedge_cb_chunk e) (pending_negedge_cb_chunk e) (pending_edge_cb_chunk e) (pending_edge_cb_infos e) (edge_cb_slab e) (resolve_x_as_zero e) (rw_phase_passed e) (rw_cb_re_registered e) (flush_epoch e) (rd_phase_active e) (acc_lua_time e) (lua_sim_event e) (lua_main_step e) (lua_posedge_step e) (lua_negedge_step e) (lua_sim_event_chunks e) (initialized e) (finalized e) v (has_final_cb e) (has_next_sim_time_cb e).
Definition set_has_final_cb (v : bool) (e : VeriluaEnv) : VeriluaEnv :=
  mkEnv (hdl_cache e) (hdl_put_value e) (hdl_put_value_bak e) (use_hdl_put_value_bak e) (pending_posedge_cb_map e) (pending_negedge_cb_map e) (pending_edge_cb_map e) (pending_posedge_cb_chunk e) (pending_negedge_cb_chunk e) (pending_edge_cb_chunk e) (pending_edge_cb_infos e) (edge_cb_slab e) (resolve_x_as_zero e) (rw_phase_passed e) (rw_cb_re_registered e) (flush_epoch e) (rd_phase_active e) (acc_lua_time e) (lua_sim_event e) (lua_main_step e) (lua_posedge_step e) (lua_negedge_step e) (lua_sim_event_chunks e) (initialized e) (finalized e) (has_start_cb e) v (has_next_sim_time_cb e).
Definition set_has_next_sim_time_cb (v : bool) (e : VeriluaEnv) : VeriluaEnv :=
  mkEnv (hdl_cache e) (hdl_put_value e) (hdl_put_value_bak e) (use_hdl_put_value_bak e) (pending_posedge_cb_map e) (pending_negedge_cb_map e) (pending_edge_cb_map e) (pending_posedge_cb_chunk e) (pending_negedge_cb_chunk e) (pending_edge_cb_chunk e) (pending_edge_cb_infos e) (edge_cb_slab e) (resolve_x_as_zero e) (rw_phase_passed e) (rw_cb_re_registered e) (flush_epoch e) (rd_phase_active e) (acc_lua_time e) (lua_sim_event e) (lua_main_step e) (lua_posedge_step e) (lua_negedge_step e) (lua_sim_event_chunks e) (initialized e) (finalized e) (has_start_cb e) (has_final_cb e) v.

(** [VeriluaEnv::default()]. *)
Definition VeriluaEnv_default : VeriluaEnv :=
  mkEnv ∅ [] [] false ∅ ∅ ∅ ∅ ∅ ∅ ∅ ∅ false false false 0 false false 0 None None None (replicate 16 0) false false false false false.

(** ** NativeClock *)

(** [env] is always the unique environment. *)
Record NativeClock := mkClock {
  complex_handle_raw : Z;
  signal_hdl : Z;
  period_steps : Z;
  high_steps : Z;
  current_val : Z;
  cb_handle : option Z;
  in_callback : bool;
  destroy_pending : bool
}.

(** Field updates. *)
Definition set_period_steps (v : Z) (c : NativeClock) : NativeClock :=
  mkClock (complex_handle_raw c) (signal_hdl c) v (high_steps c) (current_val c) (cb_handle c) (in_callback c) (destroy_pending c).
Definition set_high_steps (v : Z) (c : NativeClock) : NativeClock :=
  mkClock (complex_handle_raw c) (signal_hdl c) (period_steps c) v (current_val c) (cb_handle c) (in_callback c) (destroy_pending c).
Definition set_current_val (v : Z) (c : NativeClock) : NativeClock :=
  mkClock (complex_handle_raw c) (signal_hdl c) (period_steps c) (high_steps c) v (cb_handle c) (in_callback c) (destroy_pending c).
Definition set_cb_handle (v : option Z) (c : NativeClock) : NativeClock :=
  mkClock (complex_handle_raw c) (signal_hdl c) (period_steps c) (high_steps c) (current_val c) v (in_callback c) (destroy_pending c).
Definition set_in_callback (v : bool) (c : NativeClock) : NativeClock :=
  mkClock (complex_handle_raw c) (signal_hdl c) (period_steps c) (high_steps c) (current_val c) (cb_handle c) v (destroy_pending c).
Definition set_destroy_pending (v : bool) (c : NativeClock) : NativeClock :=
  mkClock (complex_handle_raw c) (signal_hdl c) (period_steps c) (high_steps c) (current_val c) (cb_handle c) (in_callback c) v.

(** ** The world *)

(** Calls into Lua: the raw registry call with task ids, a stored function,
    [dofile], and a chunk of source. *)
Inductive LuaCall :=
| LcTasks (reg_id : Z) (task_ids : list Z)
| LcFn (f : Z)
| LcDofile (path : string)
| LcExec (source : string).

(** What the library asked of the simulator and of Lua, in order. *)
Inductive Event :=
| EvPut (h : Z) (v : s_vpi_value) (flag : Z)
| EvRegister (cb : s_cb_data) (h : Z)
| EvRemove (h : Z)
| EvFree (h : Z)
| EvLua (c : LuaCall)
| EvControl (cmd : Z).

(** [w_created]: the static [VERILUA_ENV] is [Some]; [w_next]: the next free
    address; [w_cbs]: the callbacks the simulator holds, by handle; [w_sim]: the
    simulator's own state. *)
Record World (Sim : Type) := mkWorld {
  w_env : VeriluaEnv;
  w_created : bool;
  w_heap : gmap Z ComplexHandle;
  w_clocks : gmap Z NativeClock;
  ACTIVE_SIGNALS : gset Z;
  w_next : Z;
  w_vars : gmap string string;
  w_cbs : gmap Z s_cb_data;
  w_trace : list Event;
  w_sim : Sim
}.
Arguments mkWorld {Sim} w_env w_created w_heap w_clocks ACTIVE_SIGNALS w_next w_vars w_cbs w_trace w_sim.
Arguments w_env {Sim} w.
Arguments w_created {Sim} w.
Arguments w_heap {Sim} w.
Arguments w_clocks {Sim} w.
Arguments ACTIVE_SIGNALS {Sim} w.
Arguments w_next {Sim} w.
Arguments w_vars {Sim} w.
Arguments w_cbs {Sim} w.
Arguments w_trace {Sim} w.
Arguments w_sim {Sim} w.

(** Field updates. *)
Definition set_w_env {Sim} (v : VeriluaEnv) (w : World Sim) : World Sim :=
  mkWorld v (w_created w) (w_heap w) (w_clocks w) (ACTIVE_SIGNALS w) (w_next w) (w_vars w) (w_cbs w) (w_trace w) (w_sim w).
Definition set_w_created {Sim} (v : bool) (w : World Sim) : World Sim :=
  mkWorld (w_env w) v (w_heap w) (w_clocks w) (ACTIVE_SIGNALS w) (w_next w) (w_vars w) (w_cbs w) (w_trace w) (w_sim w).
Definition set_w_heap {Sim} (v : gmap Z ComplexHandle) (w : World Sim) : World Sim :=
  mkWorld (w_env w) (w_created w) v (w_clocks w) (ACTIVE_SIGNALS w) (w_next w) (w_vars w) (w_cbs w) (w_trace w) (w_sim w).
Definition set_w_clocks {Sim} (v : gmap Z NativeClock) (w : World Sim) : World Sim :=
  mkWorld (w_env w) (w_created w) (w_heap w) v (ACTIVE_SIGNALS w) (w_next w) (w_vars w) (w_cbs w) (w_trace w) (w_sim w).
Definition set_ACTIVE_SIGNALS {Sim} (v : gset Z) (w : World Sim) : World Sim :=
  mkWorld (w_env w) (w_created w) (w_heap w) (w_clocks w) v (w_next w) (w_vars w) (w_cbs w) (w_trace w) (w_sim w).
Definition set_w_next {Sim} (v : Z) (w : World Sim) : World Sim :=
  mkWorld (w_env w) (w_created w) (w_heap w) (w_clocks w) (ACTIVE_SIGNALS w) v (w_vars w) (w_cbs w) (w_trace w) (w_sim w).
Definition set_w_vars {Sim} (v : gmap string string) (w : World Sim) : World Sim :=
  mkWorld (w_env w) (w_created w) (w_heap w) (w_clocks w) (ACTIVE_SIGNALS w) (w_next w) v (w_cbs w) (w_trace w) (w_sim w).
Definition set_w_cbs {Sim} (v : gmap Z s_cb_data) (w : World Sim) : World Sim :=
  mkWorld (w_env w) (w_created w) (w_heap w) (w_clocks w) (ACTIVE_SIGNALS w) (w_next w) (w_vars w) v (w_trace w) (w_sim w).
Definition set_w_trace {Sim} (v : list Event) (w : World Sim) : World Sim :=
  mkWorld (w_env w) (w_created w) (w_heap w) (w_clocks w) (ACTIVE_SIGNALS w) (w_next w) (w_vars w) (w_cbs w) v (w_sim w).
Definition set_w_sim {Sim} (v : Sim) (w : World Sim) : World Sim :=
  mkWorld (w_env w) (w_created w) (w_heap w) (w_clocks w) (ACTIVE_SIGNALS w) (w_next w) (w_vars w) (w_cbs w) (w_trace w) v.
