(* ===== verification/Backend.v ===== *)
(** * The simulator and Lua as interfaces, and the primitive operations

    Everything outside the repository that the library calls is an operation of
    a type class: [VpiBackend] is the VPI (IEEE 1800, clause 38) of the
    simulator, [LuaRuntime] the embedded interpreter, [Containers] the iteration
    order of [hashbrown::HashMap] and the slot choice of [slab::Slab].  The
    classes hold operations only; what the theorems rely on is stated by the
    predicates below ([quiet_put], [fresh_registration], ...), which are
    documented behaviour of those parts.

    On top of them this file gives the world monad: dereferencing a handle,
    reading and updating the environment, and the VPI and Lua calls, which
    append to the trace. *)

From S2P Require Import Prelude Bytes State.
#[local] Open Scope Z_scope.

(** [vpi_get_vector] is the address the simulator leaves in [value.vector] and
    the words it points to; a requested format is left as it is (38.15 replaces
    only [vpiObjTypeVal]).

    [vpi_put_effect h v flag] is everything a [vpi_put_value] call does before
    it returns, value-change callbacks and the Lua code they resume included.

    [vpi_register_result] identifies a registration, 0 when it is refused;
    [vpi_null_handle r]: the simulator returns a null handle for callbacks of
    reason [r], which it calls all the same (wave_vpi does, but for value
    changes). *)
Class VpiBackend (Sim : Type) := {
  vpi_put_effect : Z -> s_vpi_value -> Z -> M (World Sim) unit;
  vpi_get_int : Sim -> Z -> Z;
  vpi_get_vector : Sim -> Z -> Z * list t_vpi_vecval;
  vpi_get_string : Sim -> Z -> Z -> string;
  vpi_register_result : World Sim -> s_cb_data -> Z;
  vpi_null_handle : Z -> bool;
  vpi_handle_by_name_of : Sim -> string -> Z;
  vpi_handle_by_index_of : Sim -> Z -> Z -> Z;
  vpi_size_of : Sim -> Z -> Z;
  vpi_iterate_modules : Sim -> Z;
  vpi_scan_first : Sim -> Z -> Z;
  vpi_name_of : Sim -> Z -> string;
  libc_rand : Sim -> Z * Sim
}.

(** [lua_call c]: [None] for success, [Some e] for a Lua error. *)
Class LuaRuntime (Sim : Type) := {
  lua_call : LuaCall -> M (World Sim) (option string);
  lua_global_fn : World Sim -> string -> option Z;
  lua_registry_key : World Sim -> Z -> Z;
  path_is_file : World Sim -> string -> bool
}.

Class Containers := {
  hash_iter : forall A, gmap Z A -> list (Z * A);
  slab_vacant_key : gmap Z Z -> Z
}.
Arguments hash_iter {_ A} m.

(** A [HashMap] visits each entry once, in some order; a vacant slot is free. *)
Definition hash_iter_ok {C : Containers} : Prop :=
  forall A (m : gmap Z A), hash_iter m ≡ₚ map_to_list m.
Definition slab_ok {C : Containers} : Prop :=
  forall s : gmap Z Z, s !! slab_vacant_key s = None /\ 0 <= slab_vacant_key s.

(** ** The world monad *)

Section Ops.
Context {Sim : Type} `{!VpiBackend Sim} `{!LuaRuntime Sim}.

Definition W (A : Type) : Type := M (World Sim) A.

Definition env_get {A} (f : VeriluaEnv -> A) : W A := gets (fun w => f (w_env w)).
Definition env_mod (f : VeriluaEnv -> VeriluaEnv) : W unit :=
  modify (fun w => set_w_env (f (w_env w)) w).

(** [ComplexHandle::from_raw] followed by a read, resp. a write, through it. *)
Definition ch_get (raw : Z) : W ComplexHandle := fun w =>
  match w_heap w !! raw with
  | Some c => Ret c w
  | None => UB "dereference of an invalid ComplexHandle"
  end.

Definition ch_mod (raw : Z) (f : ComplexHandle -> ComplexHandle) : W unit := fun w =>
  match w_heap w !! raw with
  | Some c => Ret tt (set_w_heap (<[raw := f c]> (w_heap w)) w)
  | None => UB "dereference of an invalid ComplexHandle"
  end.

(** [VeriluaEnv::from_complex_handle_raw]. *)
Definition from_complex_handle_raw (raw : Z) : W unit :=
  let! c := ch_get raw in
  if ch_env c then ret tt else undefined "null env pointer".

Definition emit (e : Event) : W unit := modify (fun w => set_w_trace (w_trace w ++ [e]) w).

(** [Box::into_raw(Box::new(..))]: a fresh address. *)
Definition alloc : W Z := fun w => Ret (w_next w) (set_w_next (w_next w + 1) w).

(** *** VPI calls *)

Definition vpi_put_value (h : Z) (v : s_vpi_value) (flag : Z) : W unit :=
  emit (EvPut h v flag) ;; vpi_put_effect h v flag.

Definition registered (cb : s_cb_data) (w : World Sim) : World Sim :=
  let h := vpi_register_result w cb in
  let w1 := set_w_trace (w_trace w ++ [EvRegister cb h]) w in
  if h =? 0 then w1 else set_w_cbs (<[h := cb]> (w_cbs w1)) w1.

(** The handle the caller gets. *)
Definition vpi_returned (w : World Sim) (cb : s_cb_data) : Z :=
  if vpi_null_handle (reason cb) then 0 else vpi_register_result w cb.

Definition vpi_register_cb (cb : s_cb_data) : W Z := fun w =>
  Ret (vpi_returned w cb) (registered cb w).

Definition vpi_remove_cb (h : Z) : W unit :=
  emit (EvRemove h) ;; modify (fun w => set_w_cbs (delete h (w_cbs w)) w).

(** Freeing a callback handle leaves the callback registered (38.36). *)
Definition vpi_free_object (h : Z) : W unit := emit (EvFree h).

Definition vpi_control (cmd : Z) : W unit := emit (EvControl cmd).

Definition rand : W Z := fun w =>
  let '(r, s) := libc_rand (w_sim w) in Ret r (set_w_sim s w).

(** *** Calls into Lua *)

Definition call_lua (c : LuaCall) : W (option string) := emit (EvLua c) ;; lua_call c.

Definition env_var (k : string) : W (option string) := gets (fun w => w_vars w !! k).
Definition set_var (k v : string) : W unit := modify (fun w => set_w_vars (<[k := v]> (w_vars w)) w).

(** Equations for running the operations. *)
Lemma bind_env_get {A B} (f : VeriluaEnv -> A) (k : A -> W B) w :
  bind (env_get f) k w = k (f (w_env w)) w.
Proof. done. Qed.

Lemma bind_env_mod {B} f (k : unit -> W B) w :
  bind (env_mod f) k w = k tt (set_w_env (f (w_env w)) w).
Proof. done. Qed.

Lemma bind_emit {B} e (k : unit -> W B) w :
  bind (emit e) k w = k tt (set_w_trace (w_trace w ++ [e]) w).
Proof. done. Qed.

Lemma bind_register {B} cb (k : Z -> W B) w :
  bind (vpi_register_cb cb) k w = k (vpi_returned w cb) (registered cb w).
Proof. done. Qed.

Lemma registered_env cb w : w_env (registered cb w) = w_env w.
Proof. unfold registered. by destruct (_ =? _). Qed.

Lemma registered_heap cb w : w_heap (registered cb w) = w_heap w.
Proof. unfold registered. by destruct (_ =? _). Qed.

Lemma ch_get_Some raw (w : World Sim) c : w_heap w !! raw = Some c -> ch_get raw w = Ret c w.
Proof. unfold ch_get. by intros ->. Qed.

Lemma ch_mod_Some raw f (w : World Sim) c :
  w_heap w !! raw = Some c ->
  ch_mod raw f w = Ret tt (set_w_heap (<[raw := f c]> (w_heap w)) w).
Proof. unfold ch_mod. by intros ->. Qed.

(** ** What the theorems may assume of a backend *)

(** A put returns, and changes nothing the library owns: the simulator runs no
    callback inside [vpi_put_value] (Verilator, wave_vpi). *)
Definition quiet_put : Prop :=
  forall h v flag w, exists s, vpi_put_effect h v flag w = Ret tt (set_w_sim s w).

(** Callbacks of reason [r] get a handle (IEEE 1800, 38.36). *)
Definition gives_handle (r : Z) : Prop := vpi_null_handle r = false.

(** A registration is accepted, that of a value change with a handle, and it is not
    identified by a handle already in use. *)
Record accepting_registration : Prop := {
  ar_change : gives_handle cbValueChange;
  ar_result :> forall w cb, vpi_register_result w cb <> 0
}.
Definition fresh_registration : Prop :=
  forall w cb, vpi_register_result w cb <> 0 ->
    w_cbs w !! vpi_register_result w cb = None.

Lemma returned_handle w cb : gives_handle (reason cb) -> vpi_returned w cb = vpi_register_result w cb.
Proof. unfold gives_handle, vpi_returned. by intros ->. Qed.

(** What a registration does to the callbacks held by the simulator. *)
Lemma registered_cbs cb w :
  fresh_registration ->
  w_cbs (registered cb w) = w_cbs w \/
  (w_cbs w !! vpi_register_result w cb = None /\
   w_cbs (registered cb w) = <[vpi_register_result w cb := cb]> (w_cbs w)).
Proof.
  intros Hf. unfold registered. destruct (Z.eqb_spec (vpi_register_result w cb) 0) as [E|E]; [by left|].
  right. split; [by apply Hf|done].
Qed.

Lemma registered_accepted cb w :
  accepting_registration -> fresh_registration ->
  w_cbs w !! vpi_register_result w cb = None /\
  w_cbs (registered cb w) = <[vpi_register_result w cb := cb]> (w_cbs w).
Proof.
  intros Ha Hf. pose proof (Ha w cb) as Hne. split; [by apply Hf|].
  unfold registered. by apply Z.eqb_neq in Hne as ->.
Qed.

End Ops.

Arguments W Sim A : clear implicits.

#[export] Hint Rewrite @bind_env_get @bind_env_mod @bind_emit @bind_register : mon.

(** A concrete backend for the witnesses: puts only count, registrations get
    consecutive handles, reads return zero. *)
Record CountSim := mkCount { puts : Z }.

#[export] Instance CountBackend : VpiBackend CountSim := {|
  vpi_put_effect := fun _ _ _ => modify (fun w => set_w_sim (mkCount (puts (w_sim w) + 1)) w);
  vpi_get_int := fun _ _ => 0;
  vpi_get_vector := fun _ _ => (4096, replicate 32 vec0);
  vpi_get_string := fun _ _ _ => "0"%string;
  vpi_register_result := fun w _ =>
    1 + fold_right Z.max 0 (map fst (map_to_list (w_cbs w)));
  vpi_null_handle := fun _ => false;
  vpi_handle_by_name_of := fun _ s => Z.of_nat (String.length s);
  vpi_handle_by_index_of := fun _ h i => h * 1000 + i;
  vpi_size_of := fun _ _ => 32;
  vpi_iterate_modules := fun _ => 901;
  vpi_scan_first := fun _ _ => 902;
  vpi_name_of := fun _ _ => "top"%string;
  libc_rand := fun s => (puts s mod 2 ^ 31, mkCount (puts s + 1))
|}.

#[export] Instance CountLua : LuaRuntime CountSim := {|
  lua_call := fun _ => ret None;
  lua_global_fn := fun _ s => Some (Z.of_nat (String.length s));
  lua_registry_key := fun _ f => f;
  path_is_file := fun _ _ => false
|}.

#[export] Instance ListContainers : Containers := {|
  hash_iter := fun A m => map_to_list m;
  slab_vacant_key := fun s => 1 + fold_right Z.max 0 (map fst (map_to_list s))
|}.

Lemma count_quiet : quiet_put (Sim := CountSim).
Proof. intros h v flag w. by eexists. Qed.

Lemma fold_max_bound l x : x ∈ l -> x <= fold_right Z.max 0 l.
Proof. induction 1; cbn; lia. Qed.

Lemma fold_max_nonneg l : 0 <= fold_right Z.max 0 l.
Proof. induction l; cbn; lia. Qed.

Lemma max_key_fresh {A} (m : gmap Z A) :
  m !! (1 + fold_right Z.max 0 (map fst (map_to_list m))) = None.
Proof.
  destruct (m !! _) as [a|] eqn:E; [|done]. exfalso.
  apply elem_of_map_to_list in E.
  assert (1 + fold_right Z.max 0 (map fst (map_to_list m)) ∈ map fst (map_to_list m)) as Hin.
  { apply list_elem_of_In, in_map_iff. eexists (_, a). split; [done|]. by apply list_elem_of_In. }
  apply fold_max_bound in Hin. lia.
Qed.

Lemma count_fresh : fresh_registration (Sim := CountSim).
Proof. intros w cb _. apply max_key_fresh. Qed.

Lemma count_accepting : accepting_registration (Sim := CountSim).
Proof.
  split; [done|]. intros w cb. cbn [vpi_register_result CountBackend].
  pose proof (fold_max_nonneg (map fst (map_to_list (w_cbs w)))). lia.
Qed.

Lemma list_containers_ok : hash_iter_ok (C := ListContainers) /\ slab_ok (C := ListContainers).
Proof.
  split; [intros A m; reflexivity|]. intros s. split; [apply max_key_fresh|].
  apply Z.add_nonneg_nonneg; [lia|apply fold_max_nonneg].
Qed.

(** The same simulator, with null handles for all but value changes, as the
    kernel of wave_vpi gives them. *)
Definition null_backend : VpiBackend CountSim := {|
  vpi_put_effect := @vpi_put_effect _ CountBackend;
  vpi_get_int := @vpi_get_int _ CountBackend;
  vpi_get_vector := @vpi_get_vector _ CountBackend;
  vpi_get_string := @vpi_get_string _ CountBackend;
  vpi_register_result := @vpi_register_result _ CountBackend;
  vpi_null_handle := fun r => negb (r =? cbValueChange);
  vpi_handle_by_name_of := @vpi_handle_by_name_of _ CountBackend;
  vpi_handle_by_index_of := @vpi_handle_by_index_of _ CountBackend;
  vpi_size_of := @vpi_size_of _ CountBackend;
  vpi_iterate_modules := @vpi_iterate_modules _ CountBackend;
  vpi_scan_first := @vpi_scan_first _ CountBackend;
  vpi_name_of := @vpi_name_of _ CountBackend;
  libc_rand := @libc_rand _ CountBackend
|}.

Lemma null_accepting : accepting_registration (VpiBackend0 := null_backend).
Proof. split; [done|apply count_accepting]. Qed.
