(* ===== verification/PutQueue.v ===== *)
(** * The pending-put queue

    [ComplexHandle] ([libverilua/src/complex_handle.rs]) and the queue of
    deferred writes of [VeriluaEnv] ([libverilua/src/verilua_env.rs], lines
    480-596): a deferred [set]/[force]/[release] stores its value in the handle
    and appends the handle to [hdl_put_value]; the flush hands every queued
    value to the simulator.  On VCS and Icarus a put runs value-change callbacks
    synchronously, so the flush is re-entrant and pushes made meanwhile go to
    [hdl_put_value_bak].

    The first part is the code.  The second part is the queue invariant, the
    normal form of [try_put_value], and an abstract specification of the queue
    (an ordered list of pending writes) that the code refines. *)

From S2P Require Import Prelude Bytes State Backend.
#[local] Open Scope Z_scope.

Definition MAX_VECTOR_SIZE : nat := 32.

Section PutQueue.
Context {Sim : Type} `{!VpiBackend Sim} {F : Features}.
Local Abbreviation W := (W Sim).

(** ** ComplexHandle *)

(** [ComplexHandle::new].  The source computes [beat_num] in [f64], which is
    exact for every width below [2^53]; [width] is a [usize]. *)
Definition ComplexHandle_new (h : Z) (nm : string) (wd : Z) : W ComplexHandle :=
  let beats := (wd + 31) / 32 in
  assert_ (beats <=? Z.of_nat MAX_VECTOR_SIZE) "beat_num is too large" ;;
  ret (mkCH false h nm wd (Z.to_nat beats) 0 None 0 empty_str []
         (replicate MAX_VECTOR_SIZE vec0) ∅ ∅ ∅ SvNone
         (mkShuffled [] 0) (mkShuffled [] 0) (mkShuffled [] 0)).

(** [ComplexHandle::into_raw]. *)
Definition into_raw (c : ComplexHandle) : W Z :=
  let! p := alloc in
  modify (fun w => set_w_heap (<[p := c]> (w_heap w)) w) ;; ret p.

(** [ShuffledValueVec::get_rand_value]: [rand() % len as i32]; a zero divisor
    and an index out of range panic. *)
Definition get_rand_value {T} (v : ShuffledValueVec T) : W T :=
  let! r := rand in
  assert_ (negb (i32 (slen v) =? 0)) "attempt to calculate the remainder with a divisor of zero" ;;
  let idx := Z.rem r (i32 (slen v)) in
  if idx <? 0 then panic "index out of bounds" else
  match svec v !! Z.to_nat idx with
  | Some x => ret x
  | None => panic "index out of bounds"
  end.

(** [q.iter().position(|raw| from_raw(raw).vpi_handle == h)]. *)
Fixpoint position_by_handle (h : Z) (q : list Z) : W (option nat) :=
  match q with
  | [] => ret None
  | r :: q =>
      let! c := ch_get r in
      if vpi_handle c =? h then ret (Some O)
      else let! o := position_by_handle h q in ret (S <$> o)
  end.

(** Looks for a handle in the queue, then (on VCS and Icarus) in the backup
    queue, and removes the entry found; whether there was one. *)
Definition remove_stale_entry (h : Z) : W bool :=
  let! q := env_get hdl_put_value in
  let! i := position_by_handle h q in
  match i with
  | Some idx => env_mod (set_hdl_put_value (delete idx q)) ;; ret true
  | None =>
      if vcs || iverilog then
        let! qb := env_get hdl_put_value_bak in
        let! j := position_by_handle h qb in
        match j with
        | Some idx => env_mod (set_hdl_put_value_bak (delete idx qb)) ;; ret true
        | None => ret false
        end
      else ret false
  end.

Definition try_put_value (self : Z) (flag format : Z) : W bool :=
  let! c := ch_get self in
  match put_value_flag c with
  | Some curr_flag =>
      if (curr_flag =? vpiForceFlag) && negb (flag =? vpiForceFlag) && negb (flag =? vpiReleaseFlag)
      then ret false
      else
        ch_mod self (set_put_value_flag (Some flag)) ;;
        ch_mod self (set_put_value_format format) ;;
        let! removed := remove_stale_entry (vpi_handle c) in
        assert_ removed "Duplicate flag, but not found in hdl_put_value/hdl_put_value_bak" ;;
        ret true
  | None =>
      ch_mod self (set_put_value_flag (Some flag)) ;;
      ch_mod self (set_put_value_format format) ;;
      ret true
  end.

(** ** The queue *)

(** [libverilua_register_rw_synch_cb] ([vpi_callback.rs]): a one-shot
    [cbReadWriteSynch] whose handler flushes the queue. *)
Definition flush_cb : s_cb_data :=
  mkCb cbReadWriteSynch libverilua_flush_put_values_rtn (Some (vpiSimTime, 0, 0)) 0 UdNull.

Definition libverilua_register_rw_synch_cb : W unit :=
  let! h := vpi_register_cb flush_cb in vpi_free_object h.

Definition do_push_hdl_put_value (raw : Z) : W unit :=
  let! use_bak := env_get use_hdl_put_value_bak in
  (if (vcs || iverilog) && use_bak
   then env_mod (fun e => set_hdl_put_value_bak (hdl_put_value_bak e ++ [raw]) e)
   else env_mod (fun e => set_hdl_put_value (hdl_put_value e ++ [raw]) e)) ;;
  let! passed := env_get rw_phase_passed in
  let! re_registered := env_get rw_cb_re_registered in
  when (negb inertial_put && passed && negb re_registered)
    (env_mod (set_rw_cb_re_registered true) ;; libverilua_register_rw_synch_cb).

Definition has_nul (s : string) : bool := bool_decide (x00 ∈ as_bytes s).

(** The value [do_apply_pending_put_values] builds from the handle's buffers,
    or the message it panics with. *)
Definition pending_value (c : ComplexHandle) : string + s_vpi_value :=
  let f := put_value_format c in
  if f =? vpiIntVal then inr (VInt (i32 (put_value_integer c)))
  else if f =? vpiVectorVal then inr (VVec (put_value_vectors c))
  else if (f =? vpiHexStrVal) || (f =? vpiDecStrVal) || (f =? vpiOctStrVal) || (f =? vpiBinStrVal) then
    if has_nul (put_value_str c) then inl "CString::new: string contains a nul byte"%string
    else inr (VStr f (put_value_str c))
  else if f =? vpiSuppressVal then inr (VSuppress (i32 (put_value_integer c)))
  else if f =? vpiScalarVal then inr (VScalar (i32 (put_value_integer c)))
  else inl "Unsupported value format"%string.

(** One step of the [for_each]: the flag is taken before the call, and the
    vector must not be changed by what the call triggers, since it is being
    iterated. *)
Definition flush_one (q : list Z) (raw : Z) : W unit :=
  let! c := ch_get raw in
  match pending_value c, put_value_flag c with
  | inl msg, _ => panic msg
  | inr _, None => undefined "put_value_flag.take().unwrap_unchecked() on None"
  | inr v, Some flag =>
      ch_mod raw (set_put_value_flag None) ;;
      vpi_put_value (vpi_handle c) v flag ;;
      let! q' := env_get hdl_put_value in
      if decide (q' = q) then ret tt
      else undefined "hdl_put_value changed while it is iterated"
  end.

Definition do_apply_pending_put_values : W unit :=
  let! q := env_get hdl_put_value in
  for_each q (flush_one q) ;;
  env_mod (set_hdl_put_value []).

(** The [loop] of the re-entrant case. *)
Fixpoint apply_loop (fuel : nat) : W unit :=
  match fuel with
  | O => out_of_fuel
  | S fuel =>
      let! q := env_get hdl_put_value in
      match q with
      | [] => ret tt
      | _ =>
          do_apply_pending_put_values ;;
          let! bak := env_get hdl_put_value_bak in
          when (negb (bool_decide (bak = [])))
            (env_mod (fun e => set_hdl_put_value_bak [] (set_hdl_put_value (hdl_put_value e ++ bak) e))) ;;
          apply_loop fuel
      end
  end.

Definition apply_pending_put_values (fuel : nat) : W unit :=
  let! q := env_get hdl_put_value in
  match q with
  | [] => ret tt
  | _ =>
      env_mod (fun e => set_flush_epoch (u64 (flush_epoch e + 1)) e) ;;
      if vcs || iverilog then
        env_mod (set_use_hdl_put_value_bak true) ;;
        apply_loop fuel ;;
        env_mod (set_use_hdl_put_value_bak false)
      else do_apply_pending_put_values
  end.

(** What every deferred setter does after computing its arguments: when the
    handle accepts the write, fill the buffer with [upd] and queue the handle. *)
Definition put_deferred (raw flag format : Z) (upd : ComplexHandle -> ComplexHandle) : W unit :=
  let! ok := try_put_value raw flag format in
  when ok (ch_mod raw upd ;; do_push_hdl_put_value raw).

(* ------------------------------------------------------------------ *)
(** ** The queue invariant *)

Definition pending (w : World Sim) : list Z :=
  hdl_put_value (w_env w) ++ hdl_put_value_bak (w_env w).

(** Distinct live handles denote distinct simulator objects. *)
Definition distinct_handles (h : gmap Z ComplexHandle) : Prop :=
  forall r1 c1 r2 c2, h !! r1 = Some c1 -> h !! r2 = Some c2 ->
    vpi_handle c1 = vpi_handle c2 -> vpi_handle c1 <> 0 -> r1 = r2.

Definition ch_wf (c : ComplexHandle) : Prop :=
  length (put_value_vectors c) = MAX_VECTOR_SIZE /\ (beat_num c <= MAX_VECTOR_SIZE)%nat /\
  ch_env c = true.

(** [flags_agree p h]: the handles with a pending flag are exactly those of the
    list [p], which has no duplicates and only live, non-null handles. *)
Definition flags_agree (p : list Z) (h : gmap Z ComplexHandle) : Prop :=
  NoDup p /\
  (forall r c, h !! r = Some c -> (is_Some (put_value_flag c) <-> r ∈ p)) /\
  (forall r, r ∈ p -> exists c, h !! r = Some c /\ vpi_handle c <> 0).

Record queue_wf (w : World Sim) : Prop := {
  qw_flags : flags_agree (pending w) (w_heap w);
  qw_distinct : distinct_handles (w_heap w);
  qw_heap : forall r c, w_heap w !! r = Some c -> ch_wf c;
  qw_bak : (vcs || iverilog) && use_hdl_put_value_bak (w_env w) = false ->
    hdl_put_value_bak (w_env w) = []
}.

(** A handle the script can hold: live and not null (the lookup functions
    answer [-1] for a null [vpiHandle]). *)
Definition valid_handle (w : World Sim) (raw : Z) (c : ComplexHandle) : Prop :=
  w_heap w !! raw = Some c /\ vpi_handle c <> 0.

Definition without (r : Z) (q : list Z) : list Z := filter (fun x => x <> r) q.

(** *** The abstract queue: an ordered list of pending writes *)

Record Write := mkWrite {
  wr_raw : Z; wr_obj : Z; wr_flag : Z; wr_value : string + s_vpi_value
}.

Definition write_of (h : gmap Z ComplexHandle) (r : Z) : option Write :=
  c ← h !! r; f ← put_value_flag c; Some (mkWrite r (vpi_handle c) f (pending_value c)).

Definition abs_queue (w : World Sim) : list Write := omap (write_of (w_heap w)) (pending w).

(** A pending force yields only to another force and to a release. *)
Definition blocked (a : list Write) (r flag : Z) : bool :=
  existsb (fun x => (wr_raw x =? r) && (wr_flag x =? vpiForceFlag)) a &&
  negb (flag =? vpiForceFlag) && negb (flag =? vpiReleaseFlag).

Definition abs_put (x : Write) (a : list Write) : list Write :=
  if blocked a (wr_raw x) (wr_flag x) then a
  else filter (fun y => wr_raw y <> wr_raw x) a ++ [x].

Definition put_event (x : Write) : list Event :=
  match wr_value x with inl _ => [] | inr v => [EvPut (wr_obj x) v (wr_flag x)] end.

(* ------------------------------------------------------------------ *)
(** ** Lemmas *)

Lemma without_notin r q : r ∉ q -> without r q = q.
Proof.
  unfold without. induction q as [|x q IH]; [done|]. intros Hn.
  rewrite not_elem_of_cons in Hn. destruct Hn as [Hx Hq].
  rewrite filter_cons_True by done. by rewrite IH.
Qed.

Lemma without_delete r q i : NoDup q -> q !! i = Some r -> delete i q = without r q.
Proof.
  unfold without. revert i. induction q as [|x q IH]; intros i Hnd Hi; [done|].
  apply NoDup_cons in Hnd as [Hx Hnd]. destruct i as [|i].
  - injection Hi as ->. rewrite filter_cons_False by (by intros Hc; apply Hc).
    symmetry. by apply without_notin.
  - change (q !! i = Some r) in Hi. change (delete (S i) (x :: q)) with (x :: delete i q).
    rewrite filter_cons_True; [by rewrite <- (IH i)|].
    intros ->. apply Hx. by apply list_elem_of_lookup_2 with i.
Qed.

Lemma elem_of_without r x q : x ∈ without r q <-> x <> r /\ x ∈ q.
Proof. unfold without. by rewrite list_elem_of_filter. Qed.

Lemma NoDup_without r q : NoDup q -> NoDup (without r q).
Proof. apply NoDup_filter. Qed.

Lemma without_app r q1 q2 : without r (q1 ++ q2) = without r q1 ++ without r q2.
Proof. apply filter_app. Qed.

(** The search finds the position of [r] in the queue. *)
Lemma position_by_handle_spec h r q (w : World Sim) :
  (forall x, x ∈ q -> exists c, w_heap w !! x = Some c /\ (vpi_handle c = h <-> x = r)) ->
  ((r ∉ q) /\ position_by_handle h q w = Ret None w) \/
  (exists i, q !! i = Some r /\ position_by_handle h q w = Ret (Some i) w).
Proof.
  induction q as [|x q IH]; intros Hq.
  - left. split; [set_solver|done].
  - destruct (Hq x) as (c & Hc & Hh); [set_solver|].
    cbn [position_by_handle]. rewrite (bind_Ret _ _ _ _ _ (ch_get_Some _ _ _ Hc)).
    destruct (Z.eqb_spec (vpi_handle c) h) as [E|E].
    + right. exists O. split; [|done]. cbn. f_equal. tauto.
    + destruct IH as [[Hn IH]|(i & Hi & IH)]; [set_solver|..]; mrun IH.
      * left. split; [|done]. rewrite not_elem_of_cons. split; [|done].
        intros ->. tauto.
      * right. by exists (S i).
Qed.

(** The world after the queues lost [r] and the cell of [r] became [c]. *)
Definition requeue (r : Z) (c : ComplexHandle) (w : World Sim) : World Sim :=
  set_w_heap (<[r := c]> (w_heap w))
    (set_w_env (set_hdl_put_value_bak (without r (hdl_put_value_bak (w_env w)))
                 (set_hdl_put_value (without r (hdl_put_value (w_env w))) (w_env w))) w).

Lemma world_env_id (w : World Sim) : set_w_env (w_env w) w = w.
Proof. by destruct w. Qed.

Lemma remove_stale_entry_spec h r (w : World Sim) :
  NoDup (pending w) -> r ∈ pending w ->
  (forall x, x ∈ pending w -> exists c, w_heap w !! x = Some c /\ (vpi_handle c = h <-> x = r)) ->
  (vcs || iverilog = false -> hdl_put_value_bak (w_env w) = []) ->
  remove_stale_entry h w =
    Ret true (set_w_env (set_hdl_put_value_bak (without r (hdl_put_value_bak (w_env w)))
                 (set_hdl_put_value (without r (hdl_put_value (w_env w))) (w_env w))) w).
Proof.
  unfold pending. intros Hnd Hr Hq Hbak.
  apply NoDup_app in Hnd as (Hnd1 & Hdis & Hnd2).
  unfold remove_stale_entry. mrun.
  set (q := hdl_put_value (w_env w)) in *. set (b := hdl_put_value_bak (w_env w)) in *.
  destruct (position_by_handle_spec h r q w) as [[Hn Hp]|(i & Hi & Hp)];
    [intros x Hx; apply Hq; set_solver| |]; mrun Hp.
  - assert (r ∈ b) as Hrb by set_solver.
    destruct (vcs || iverilog) eqn:Hf; [|rewrite (Hbak eq_refl) in Hrb; set_solver].
    mrun. fold b.
    destruct (position_by_handle_spec h r b w) as [[Hnb _]|(i & Hi & Hpb)];
      [intros x Hx; apply Hq; set_solver|done|].
    mrun Hpb. unfold ret. f_equal.
    rewrite (without_delete r b i), (without_notin r q) by done.
    destruct w as [e]; by destruct e.
  - unfold ret. f_equal. rewrite (without_delete r q i), (without_notin r b); try done.
    intros Hb. apply (Hdis r); [|done]. by apply list_elem_of_lookup_2 with i.
Qed.

(** *** try_put_value in normal form *)

Definition accepts (c : ComplexHandle) (flag : Z) : bool :=
  match put_value_flag c with
  | Some f => negb ((f =? vpiForceFlag) && negb (flag =? vpiForceFlag) && negb (flag =? vpiReleaseFlag))
  | None => true
  end.

Definition stamped (flag format : Z) (c : ComplexHandle) : ComplexHandle :=
  set_put_value_format format (set_put_value_flag (Some flag) c).

Lemma handle_iff_raw (w : World Sim) r c :
  queue_wf w -> valid_handle w r c ->
  forall x, x ∈ pending w -> exists c', w_heap w !! x = Some c' /\ (vpi_handle c' = vpi_handle c <-> x = r).
Proof.
  intros Hwf [Hc Hh] x Hx. destruct (qw_flags w Hwf) as (_ & _ & Hlive).
  destruct (Hlive x Hx) as (c' & Hc' & Hh'). exists c'. split; [done|]. split.
  - intros E. by apply (qw_distinct w Hwf x c' r c).
  - intros ->. congruence.
Qed.

Lemma try_put_value_spec raw flag format c (w : World Sim) :
  queue_wf w -> valid_handle w raw c ->
  try_put_value raw flag format w =
    if accepts c flag then Ret true (requeue raw (stamped flag format c) w) else Ret false w.
Proof.
  intros Hwf Hv. pose proof (handle_iff_raw w raw c Hwf Hv) as Hiff.
  destruct Hv as [Hc Hh]. destruct (qw_flags w Hwf) as (Hnd & Hfl & _).
  unfold try_put_value, accepts. mrun (ch_get_Some _ _ _ Hc).
  specialize (Hfl raw c Hc). destruct (put_value_flag c) as [f|] eqn:Ef.
  - destruct (_ && _) eqn:Eb; [done|]. cbn [negb].
    mrun (ch_mod_Some _ (set_put_value_flag (Some flag)) _ _ Hc).
    erewrite bind_Ret; [|apply ch_mod_Some; cbn; apply lookup_insert_eq].
    erewrite bind_Ret.
    2:{ apply (remove_stale_entry_spec _ raw).
        - done.
        - apply Hfl. eauto.
        - intros x Hx. destruct (Hiff x Hx) as (c' & Hc' & Hi). cbn.
          rewrite insert_insert_eq. destruct (decide (x = raw)) as [->|Hne].
          + rewrite lookup_insert_eq. eexists. split; [done|]. naive_solver.
          + rewrite lookup_insert_ne by done. eauto.
        - intros Hf. apply Hwf. by rewrite Hf. }
    cbn. mrun. unfold requeue, stamped. cbn. by rewrite insert_insert_eq.
  - assert (raw ∉ pending w) as Hn. { intros Hx. apply Hfl in Hx. by destruct Hx. }
    unfold pending in Hn. rewrite not_elem_of_app in Hn. destruct Hn as [Hn1 Hn2].
    mrun (ch_mod_Some _ (set_put_value_flag (Some flag)) _ _ Hc).
    erewrite bind_Ret; [|apply ch_mod_Some; cbn; apply lookup_insert_eq].
    unfold ret, requeue, stamped. cbn. rewrite insert_insert_eq, !without_notin by done.
    f_equal. destruct w as [e]; by destruct e.
Qed.

(** The same search when nothing is pending for the handle. *)
Lemma remove_stale_entry_none h r (w : World Sim) :
  r ∉ pending w ->
  (forall x, x ∈ pending w -> exists c, w_heap w !! x = Some c /\ (vpi_handle c = h <-> x = r)) ->
  remove_stale_entry h w = Ret false w.
Proof.
  unfold pending. rewrite not_elem_of_app. intros [Hn1 Hn2] Hq. unfold remove_stale_entry. mrun.
  destruct (position_by_handle_spec h r (hdl_put_value (w_env w)) w) as [[_ Hp]|(i & Hi & _)];
    [intros x Hx; apply Hq; set_solver| |].
  - mrun Hp. destruct (vcs || iverilog); [|done]. mrun.
    destruct (position_by_handle_spec h r (hdl_put_value_bak (w_env w)) w) as [[_ Hp']|(i & Hi & _)];
      [intros x Hx; apply Hq; set_solver| |].
    + by mrun Hp'.
    + exfalso. apply Hn2. by apply list_elem_of_lookup_2 with i.
  - exfalso. apply Hn1. by apply list_elem_of_lookup_2 with i.
Qed.

(** *** Queuing a handle *)

Definition enqueue (raw : Z) (e : VeriluaEnv) : VeriluaEnv :=
  if (vcs || iverilog) && use_hdl_put_value_bak e
  then set_hdl_put_value_bak (hdl_put_value_bak e ++ [raw]) e
  else set_hdl_put_value (hdl_put_value e ++ [raw]) e.

(** The late flush request: a write after the flush of this time step asks for
    one more [cbReadWriteSynch], once. *)
Definition late_flush (w : World Sim) : bool :=
  negb inertial_put && rw_phase_passed (w_env w) && negb (rw_cb_re_registered (w_env w)).

Definition wake (w : World Sim) : World Sim :=
  if late_flush w then
    let w1 := set_w_env (set_rw_cb_re_registered true (w_env w)) w in
    let w2 := registered flush_cb w1 in
    set_w_trace (w_trace w2 ++ [EvFree (vpi_returned w1 flush_cb)]) w2
  else w.

Lemma do_push_spec raw (w : World Sim) :
  do_push_hdl_put_value raw w = Ret tt (wake (set_w_env (enqueue raw (w_env w)) w)).
Proof.
  unfold do_push_hdl_put_value, wake, late_flush, enqueue. mrun.
  destruct (_ && use_hdl_put_value_bak _); mrun; cbn; destruct (_ && _ && _); mrun; done.
Qed.

Lemma wake_heap w : w_heap (wake w) = w_heap w.
Proof. unfold wake. destruct (late_flush w); [|done]. cbn. by rewrite registered_heap. Qed.

Lemma wake_env w :
  w_env (wake w) = if late_flush w then set_rw_cb_re_registered true (w_env w) else w_env w.
Proof. unfold wake. destruct (late_flush w); [|done]. cbn. by rewrite registered_env. Qed.

Lemma wake_cbs w :
  fresh_registration ->
  w_cbs (wake w) = w_cbs w \/
  exists h, w_cbs w !! h = None /\ w_cbs (wake w) = <[h := flush_cb]> (w_cbs w).
Proof.
  intros Hf. unfold wake. destruct (late_flush w); [|by left]. cbn.
  destruct (registered_cbs flush_cb (set_w_env (set_rw_cb_re_registered true (w_env w)) w) Hf) as [E|[E1 E2]];
    [by left|]. right. eexists. split; [exact E1|exact E2].
Qed.

Lemma wake_other w :
  w_clocks (wake w) = w_clocks w /\ ACTIVE_SIGNALS (wake w) = ACTIVE_SIGNALS w /\ w_created (wake w) = w_created w /\
  w_sim (wake w) = w_sim w.
Proof. unfold wake, registered. destruct (late_flush w); [|done]. cbn. by destruct (_ =? 0). Qed.

Lemma wake_pending w : pending (wake w) = pending w.
Proof. unfold pending. rewrite wake_env. by destruct (late_flush w). Qed.

Lemma wake_wf w : queue_wf w -> queue_wf (wake w).
Proof.
  intros [H1 H2 H3 H4]. split; rewrite ?wake_pending, ?wake_heap; try done.
  rewrite wake_env. by destruct (late_flush w).
Qed.

Lemma pending_enqueue raw w :
  ((vcs || iverilog) && use_hdl_put_value_bak (w_env w) = false -> hdl_put_value_bak (w_env w) = []) ->
  pending (set_w_env (enqueue raw (w_env w)) w) = pending w ++ [raw].
Proof.
  intros Hb. unfold pending, enqueue. destruct (_ && _) eqn:E; cbn.
  - by rewrite app_assoc.
  - by rewrite Hb, !app_nil_r by done.
Qed.

(** The world after an accepted deferred write. *)
Definition queued (raw : Z) (c : ComplexHandle) (w : World Sim) : World Sim :=
  wake (set_w_env (enqueue raw (w_env (requeue raw c w))) (requeue raw c w)).

Lemma put_deferred_spec raw flag format upd c (w : World Sim) :
  queue_wf w -> valid_handle w raw c ->
  put_deferred raw flag format upd w =
    Ret tt (if accepts c flag then queued raw (upd (stamped flag format c)) w else w).
Proof.
  intros Hwf Hv. unfold put_deferred.
  pose proof (try_put_value_spec raw flag format c w Hwf Hv) as E.
  destruct (accepts c flag); mrun E; [|done]. cbn [when].
  erewrite bind_Ret; [|apply ch_mod_Some; cbn; apply lookup_insert_eq].
  rewrite do_push_spec. unfold queued, requeue. cbn. by rewrite insert_insert_eq.
Qed.

(** *** Preservation of the invariant *)

(** A buffer update leaves the handle, the flag and the well-formedness alone. *)
Definition upd_ok_at (upd : ComplexHandle -> ComplexHandle) (c : ComplexHandle) : Prop :=
  vpi_handle (upd c) = vpi_handle c /\ put_value_flag (upd c) = put_value_flag c /\
  (ch_wf c -> ch_wf (upd c)).
Definition upd_ok (upd : ComplexHandle -> ComplexHandle) : Prop := forall c, upd_ok_at upd c.

Lemma distinct_insert h r c c' :
  h !! r = Some c -> vpi_handle c' = vpi_handle c -> distinct_handles h ->
  distinct_handles (<[r := c']> h).
Proof.
  intros Hr He Hd r1 c1 r2 c2 H1 H2 Heq Hne.
  destruct (decide (r1 = r)) as [->|]; destruct (decide (r2 = r)) as [->|]; [done|..];
    rewrite ?lookup_insert_eq in H1; rewrite ?lookup_insert_eq in H2;
    rewrite ?lookup_insert_ne in H1 by done; rewrite ?lookup_insert_ne in H2 by done; simplify_eq.
  - apply (Hd r c r2 c2); congruence.
  - apply (Hd r1 c1 r c); congruence.
  - by apply (Hd r1 c1 r2 c2).
Qed.

Lemma flags_agree_requeue p h r c c' :
  flags_agree p h -> h !! r = Some c -> vpi_handle c <> 0 ->
  vpi_handle c' = vpi_handle c -> is_Some (put_value_flag c') ->
  flags_agree (without r p ++ [r]) (<[r := c']> h).
Proof.
  intros (Hnd & Hfl & Hlive) Hr Hne Hh Hf. split_and!.
  - apply NoDup_app. split_and!; [by apply NoDup_without| |apply NoDup_singleton].
    intros x Hx. rewrite list_elem_of_singleton. apply elem_of_without in Hx. tauto.
  - intros x cx Hx. rewrite elem_of_app, elem_of_without, list_elem_of_singleton.
    destruct (decide (x = r)) as [->|Hxr].
    + rewrite lookup_insert_eq in Hx. simplify_eq. tauto.
    + rewrite lookup_insert_ne in Hx by done. rewrite (Hfl x cx Hx). tauto.
  - intros x. rewrite elem_of_app, elem_of_without, list_elem_of_singleton.
    destruct (decide (x = r)) as [->|Hxr]; intros Hx.
    + rewrite lookup_insert_eq. exists c'. split; [done|congruence].
    + rewrite lookup_insert_ne by done. apply Hlive. tauto.
Qed.

Lemma pending_requeue raw c w : pending (requeue raw c w) = without raw (pending w).
Proof. unfold pending, requeue. cbn. by rewrite without_app. Qed.

Lemma requeue_bak raw c w : queue_wf w ->
  (vcs || iverilog) && use_hdl_put_value_bak (w_env (requeue raw c w)) = false ->
  hdl_put_value_bak (w_env (requeue raw c w)) = [].
Proof. intros Hwf Hb. cbn in *. by rewrite (qw_bak w Hwf Hb). Qed.

Lemma queued_pending raw c w : queue_wf w -> pending (queued raw c w) = without raw (pending w) ++ [raw].
Proof.
  intros Hwf. unfold queued. rewrite wake_pending, pending_enqueue by by apply requeue_bak.
  by rewrite pending_requeue.
Qed.

Lemma queued_heap raw c w : w_heap (queued raw c w) = <[raw := c]> (w_heap w).
Proof. unfold queued. by rewrite wake_heap. Qed.

Lemma queued_wf raw c c' w :
  queue_wf w -> valid_handle w raw c -> vpi_handle c' = vpi_handle c ->
  is_Some (put_value_flag c') -> ch_wf c' -> queue_wf (queued raw c' w).
Proof.
  intros Hwf [Hc Hh] Hv Hf Hw. unfold queued. apply wake_wf. split.
  - rewrite pending_enqueue by by apply requeue_bak. rewrite pending_requeue.
    by apply (flags_agree_requeue _ _ _ c); [apply Hwf|..].
  - by apply (distinct_insert _ _ c); [..|apply Hwf].
  - intros r cr. cbn. destruct (decide (r = raw)) as [->|Hr].
    + rewrite lookup_insert_eq. by intros [= <-].
    + rewrite lookup_insert_ne by done. apply Hwf.
  - unfold enqueue. cbn. intros E.
    destruct ((vcs || iverilog) && use_hdl_put_value_bak (w_env w)) eqn:Eb; cbn in *; [congruence|].
    by rewrite (qw_bak w Hwf Eb).
Qed.

(** A buffer update outside the queue, and the parts the invariant ignores. *)
Lemma queue_wf_upd raw upd c w :
  queue_wf w -> w_heap w !! raw = Some c -> upd_ok_at upd c ->
  queue_wf (set_w_heap (<[raw := upd c]> (w_heap w)) w).
Proof.
  intros [(Hnd & Hfl & Hlive) Hd Hh Hb] Hc (U1 & U2 & U3).
  split; cbn; [split_and!| | |done]; unfold pending in *; cbn.
  - done.
  - intros r cr. rewrite lookup_insert_Some. intros [[<- <-]|[_ Hr]]; [|by apply Hfl].
    rewrite U2. by apply Hfl.
  - intros r Hr. destruct (Hlive r Hr) as (cr & Hcr & Hne). destruct (decide (r = raw)) as [->|].
    + rewrite lookup_insert_eq. exists (upd c). split; [done|]. rewrite U1. congruence.
    + rewrite lookup_insert_ne by done. eauto.
  - by apply (distinct_insert _ _ c).
  - intros r cr. rewrite lookup_insert_Some. intros [[<- <-]|[_ Hr]]; [|by apply (Hh r)].
    apply U3. by apply (Hh raw).
Qed.

Lemma queue_wf_sim s w : queue_wf w -> queue_wf (set_w_sim s w).
Proof. intros [? ? ? ?]. by split. Qed.

Lemma queue_wf_trace t w : queue_wf w -> queue_wf (set_w_trace t w).
Proof. intros [? ? ? ?]. by split. Qed.

Lemma vpi_put_value_quiet h v flag w :
  quiet_put -> exists s, vpi_put_value h v flag w =
    Ret tt (set_w_sim s (set_w_trace (w_trace w ++ [EvPut h v flag]) w)).
Proof. intros Hq. unfold vpi_put_value. mrun. apply Hq. Qed.

(** *** Refinement of the abstract queue *)

Lemma write_of_raw h r x : write_of h r = Some x -> wr_raw x = r.
Proof. unfold write_of. destruct (h !! r) as [c|]; [|done]. cbn. by destruct (put_value_flag c); intros [= <-]. Qed.

Lemma omap_write_insert h r c (q : list Z) : r ∉ q -> omap (write_of (<[r := c]> h)) q = omap (write_of h) q.
Proof.
  intros Hr. induction q as [|x q IH]; [done|]. rewrite not_elem_of_cons in Hr.
  assert (write_of (<[r := c]> h) x = write_of h x) as E.
  { unfold write_of. by rewrite lookup_insert_ne by tauto. }
  by rewrite !omap_cons, E, IH by tauto.
Qed.

Lemma omap_write_without h r (q : list Z) :
  omap (write_of h) (without r q) = filter (fun x => wr_raw x <> r) (omap (write_of h) q).
Proof.
  unfold without. induction q as [|x q IH]; [done|].
  rewrite filter_cons, omap_cons. destruct (write_of h x) as [y|] eqn:E; [rewrite filter_cons|].
  - apply write_of_raw in E as Ey. rewrite Ey. case_decide; [|done]. by rewrite omap_cons, E, IH.
  - case_decide; [|done]. by rewrite omap_cons, E.
Qed.

Lemma elem_of_abs w x : queue_wf w -> x ∈ abs_queue w <-> write_of (w_heap w) (wr_raw x) = Some x.
Proof.
  intros Hwf. unfold abs_queue. rewrite list_elem_of_omap. split.
  - intros (r & _ & Hr). by rewrite (write_of_raw _ _ _ Hr).
  - intros Hx. exists (wr_raw x). split; [|done].
    unfold write_of in Hx. destruct (w_heap w !! wr_raw x) as [c|] eqn:Hc; [|done].
    destruct (qw_flags w Hwf) as (_ & Hfl & _). apply (Hfl _ c Hc).
    cbn in Hx. by destruct (put_value_flag c).
Qed.

Lemma blocked_accepts w raw c flag :
  queue_wf w -> w_heap w !! raw = Some c -> blocked (abs_queue w) raw flag = negb (accepts c flag).
Proof.
  intros Hwf Hc. unfold blocked, accepts. rewrite <- andb_assoc.
  destruct (put_value_flag c) as [f|] eqn:Ef; rewrite ?negb_involutive, <- ?andb_assoc.
  - f_equal. apply eq_true_iff_eq. rewrite existsb_exists, Z.eqb_eq. split.
    + intros (x & Hx & Hb). apply list_elem_of_In, elem_of_abs in Hx; [|done].
      apply andb_true_iff in Hb as [Hr Hb]. apply Z.eqb_eq in Hr, Hb. subst raw.
      unfold write_of in Hx. rewrite Hc in Hx. cbn in Hx. rewrite Ef in Hx. cbn in Hx.
      apply (f_equal (from_option wr_flag 0)) in Hx. cbn in Hx. congruence.
    + intros ->. exists (mkWrite raw (vpi_handle c) vpiForceFlag (pending_value c)). split.
      * apply list_elem_of_In, elem_of_abs; [done|]. unfold write_of. cbn. by rewrite Hc; cbn; rewrite Ef.
      * cbn. by rewrite Z.eqb_refl.
  - replace (existsb _ _) with false; [done|]. symmetry. apply not_true_iff_false. intros Hb.
    apply existsb_exists in Hb as (x & Hx & Hb). apply list_elem_of_In, elem_of_abs in Hx; [|done].
    apply andb_true_iff in Hb as [Hr _]. apply Z.eqb_eq in Hr. subst raw.
    unfold write_of in Hx. rewrite Hc in Hx. cbn in Hx. by rewrite Ef in Hx.
Qed.

Lemma wake_abs w : abs_queue (wake w) = abs_queue w.
Proof. unfold abs_queue. by rewrite wake_pending, wake_heap. Qed.

Lemma queued_abs raw c w f :
  queue_wf w -> put_value_flag c = Some f ->
  abs_queue (queued raw c w) =
    filter (fun y => wr_raw y <> raw) (abs_queue w) ++ [mkWrite raw (vpi_handle c) f (pending_value c)].
Proof.
  intros Hwf Hf. unfold abs_queue. rewrite queued_pending, queued_heap by done.
  rewrite omap_app, omap_write_insert by (rewrite elem_of_without; tauto).
  rewrite omap_write_without. f_equal.
  cbn. unfold write_of. rewrite lookup_insert_eq. cbn. by rewrite Hf.
Qed.

(** The write a deferred setter adds. *)
Definition new_write (raw flag format : Z) (upd : ComplexHandle -> ComplexHandle) (c : ComplexHandle) : Write :=
  mkWrite raw (vpi_handle c) flag (pending_value (upd (stamped flag format c))).

Lemma stamped_wf flag format c : ch_wf c -> ch_wf (stamped flag format c).
Proof. done. Qed.

Lemma put_deferred_facts raw flag format upd c (w : World Sim) :
  queue_wf w -> valid_handle w raw c -> upd_ok_at upd (stamped flag format c) ->
  exists w', put_deferred raw flag format upd w = Ret tt w' /\ queue_wf w' /\
    abs_queue w' = abs_put (new_write raw flag format upd c) (abs_queue w).
Proof.
  intros Hwf Hv Hupd. rewrite (put_deferred_spec raw flag format upd c) by done.
  eexists. split; [done|]. unfold abs_put, new_write. cbn [wr_raw wr_flag].
  rewrite (blocked_accepts w raw c flag Hwf (proj1 Hv)).
  destruct (accepts c flag); [|done]. cbn [negb].
  destruct Hupd as (H1 & H2 & H3). split.
  - apply (queued_wf _ c); [done..| |].
    + rewrite H2. by eexists.
    + apply H3, stamped_wf. apply (qw_heap w Hwf raw), Hv.
  - rewrite (queued_abs _ _ _ flag) by done. by rewrite H1.
Qed.

(** *** The flush, when puts run no callbacks *)

Definition clear_flags (l : list Z) (h : gmap Z ComplexHandle) : gmap Z ComplexHandle :=
  fold_left (fun h r => alter (set_put_value_flag None) r h) l h.

Definition writable (x : Write) : Prop := exists v, wr_value x = inr v.

Definition flushed (l : list Z) (w : World Sim) (s : Sim) : World Sim :=
  set_w_sim s (set_w_trace (w_trace w ++ flat_map put_event (omap (write_of (w_heap w)) l))
    (set_w_heap (clear_flags l (w_heap w)) w)).

Lemma omap_write_alter f h r (q : list Z) :
  r ∉ q -> omap (write_of (alter f r h)) q = omap (write_of h) q.
Proof.
  intros Hr. induction q as [|x q IH]; [done|]. rewrite not_elem_of_cons in Hr.
  assert (write_of (alter f r h) x = write_of h x) as E.
  { unfold write_of. by rewrite lookup_alter_ne by tauto. }
  by rewrite !omap_cons, E, IH by tauto.
Qed.

Lemma flush_one_spec q raw x (w : World Sim) :
  quiet_put -> hdl_put_value (w_env w) = q ->
  write_of (w_heap w) raw = Some x -> writable x ->
  exists s, flush_one q raw w = Ret tt (flushed [raw] w s).
Proof.
  intros Hq Hw Hx [v Hv]. unfold write_of in Hx.
  destruct (w_heap w !! raw) as [c|] eqn:Hc; [|done]. cbn in Hx.
  destruct (put_value_flag c) as [f|] eqn:Ef; [|done]. cbn in Hx.
  injection Hx as <-. cbn in Hv. unfold flush_one. mrun (ch_get_Some _ _ _ Hc).
  rewrite Hv, Ef. mrun (ch_mod_Some _ _ _ _ Hc). unfold vpi_put_value. mrun.
  edestruct (Hq (vpi_handle c) v f) as [s Hs]. erewrite bind_Ret by apply Hs. mrun.
  cbn. rewrite decide_True by done. exists s. unfold ret, flushed. f_equal.
  rewrite omap_cons. unfold write_of at 1. rewrite Hc. cbn. rewrite Ef. cbn. rewrite Hv. cbn.
  replace (alter (set_put_value_flag None) raw (w_heap w))
    with (<[raw := set_put_value_flag None c]> (w_heap w)); [done|].
  apply map_eq. intros r. destruct (decide (r = raw)) as [->|].
  - by rewrite lookup_alter_eq, lookup_insert_eq, Hc.
  - by rewrite lookup_alter_ne, lookup_insert_ne.
Qed.

Lemma flush_each_spec q l (w : World Sim) :
  quiet_put -> hdl_put_value (w_env w) = q -> NoDup l ->
  (forall r, r ∈ l -> exists x, write_of (w_heap w) r = Some x /\ writable x) ->
  exists s, for_each l (flush_one q) w = Ret tt (flushed l w s).
Proof.
  intros Hq. revert w. induction l as [|r l IH]; intros w Hw Hnd Hl.
  - exists (w_sim w). unfold flushed. cbn. rewrite app_nil_r. by destruct w.
  - apply NoDup_cons in Hnd as [Hr Hnd]. cbn [for_each].
    destruct (Hl r) as (x & Hx & Hwx); [set_solver|].
    destruct (flush_one_spec q r x w Hq Hw Hx Hwx) as [s Hs]. mrun Hs.
    destruct (IH (flushed [r] w s)) as [s' Hs']; [done|done| |].
    + intros y Hy. destruct (Hl y) as (z & Hz & Hwz); [set_solver|]. exists z. split; [|done].
      unfold write_of. cbn. rewrite lookup_alter_ne by set_solver. done.
    + exists s'. rewrite Hs'. unfold flushed. cbn. rewrite omap_write_alter by done.
      change (list_omap ?f) with (omap (M := list) f). rewrite Hx. cbn.
      by rewrite app_nil_r, <- app_assoc.
Qed.

Lemma clear_flags_lookup l h r :
  clear_flags l h !! r = (if decide (r ∈ l) then set_put_value_flag None else id) <$> h !! r.
Proof.
  revert h. induction l as [|x l IH]; intros h; cbn.
  - rewrite decide_False by set_solver. by rewrite option_fmap_id.
  - rewrite IH. destruct (decide (r = x)) as [->|Hne].
    + rewrite lookup_alter_eq, (decide_True _ _ (P := x ∈ x :: l)) by set_solver.
      destruct (h !! x) as [c|]; [|done]. cbn. f_equal. by case_decide.
    + rewrite lookup_alter_ne by done.
      by rewrite (decide_ext (r ∈ l) (r ∈ x :: l)) by set_solver.
Qed.

(** A pending queue of writable values, outside a flush. *)
Record flushable (w : World Sim) : Prop := {
  fl_wf : queue_wf w;
  fl_idle : use_hdl_put_value_bak (w_env w) = false;
  fl_values : Forall writable (abs_queue w)
}.

Lemma idle_pending w : queue_wf w -> use_hdl_put_value_bak (w_env w) = false ->
  hdl_put_value_bak (w_env w) = [] /\ pending w = hdl_put_value (w_env w).
Proof.
  intros Hwf Hi. assert (hdl_put_value_bak (w_env w) = []) as Hb.
  { apply Hwf. rewrite Hi. apply andb_false_r. }
  split; [done|]. unfold pending. by rewrite Hb, app_nil_r.
Qed.

Lemma pending_write w r : queue_wf w -> r ∈ pending w -> exists x, write_of (w_heap w) r = Some x.
Proof.
  intros Hwf Hr. destruct (qw_flags w Hwf) as (_ & Hfl & Hlive).
  destruct (Hlive r Hr) as (c & Hc & _). unfold write_of. rewrite Hc. cbn.
  destruct (Hfl r c Hc) as [_ Hf]. destruct (Hf Hr) as [f ->]. by eexists.
Qed.

Lemma do_apply_spec (w : World Sim) :
  quiet_put -> queue_wf w -> pending w = hdl_put_value (w_env w) -> Forall writable (abs_queue w) ->
  exists s, do_apply_pending_put_values w =
    Ret tt (set_w_env (set_hdl_put_value [] (w_env w)) (flushed (pending w) w s)).
Proof.
  intros Hq Hwf Hp Hv. unfold do_apply_pending_put_values. mrun. rewrite <- Hp.
  destruct (flush_each_spec (pending w) (pending w) w Hq) as [s Hs]; [done|apply Hwf| |].
  - intros r Hr. destruct (pending_write w r Hwf Hr) as [x Hx]. exists x. split; [done|].
    rewrite Forall_forall in Hv. apply Hv. apply list_elem_of_omap. by exists r.
  - exists s. mrun Hs. done.
Qed.

Lemma queue_wf_env e (w : World Sim) :
  queue_wf w -> hdl_put_value e = hdl_put_value (w_env w) ->
  hdl_put_value_bak e = hdl_put_value_bak (w_env w) ->
  (use_hdl_put_value_bak e = use_hdl_put_value_bak (w_env w) \/ hdl_put_value_bak (w_env w) = []) ->
  queue_wf (set_w_env e w).
Proof.
  intros [H1 H2 H3 H4] Hq Hb Hu. split; unfold pending in *; cbn; rewrite ?Hq, ?Hb; try done.
  destruct Hu as [->|]; auto.
Qed.

(** The world after a flush of a non-empty queue. *)
Definition drained (w : World Sim) (s : Sim) : World Sim :=
  set_w_env (set_hdl_put_value [] (set_flush_epoch (u64 (flush_epoch (w_env w) + 1)) (w_env w)))
    (flushed (pending w) w s).

Lemma apply_pending_nil fuel (w : World Sim) :
  hdl_put_value (w_env w) = [] -> apply_pending_put_values fuel w = Ret tt w.
Proof. unfold apply_pending_put_values. mrun. by intros ->. Qed.

Lemma apply_pending_spec fuel (w : World Sim) :
  quiet_put -> flushable w -> pending w <> [] -> (2 <= fuel)%nat ->
  exists s, apply_pending_put_values fuel w = Ret tt (drained w s).
Proof.
  intros Hq [Hwf Hidle Hv] Hne Hfuel. destruct (idle_pending w Hwf Hidle) as [Hb Hp].
  unfold apply_pending_put_values. mrun. rewrite <- Hp.
  destruct (pending w) as [|r q] eqn:Epq; [done|]. clear Hne. mrun.
  set (e1 := set_flush_epoch _ _).
  destruct (vcs || iverilog).
  - mrun. set (e2 := set_use_hdl_put_value_bak true _). change (w_env _) with e1 in e2.
    assert (set_use_hdl_put_value_bak false (set_hdl_put_value [] e2) = set_hdl_put_value [] e1) as He.
    { unfold e2, e1. clear - Hidle. destruct (w_env w). cbn in *. by subst. }
    destruct (do_apply_spec (set_w_env e2 w) Hq) as [s Hs].
    { by apply queue_wf_env; [done..|right]. }
    { unfold pending. cbn. by rewrite Hb, app_nil_r. }
    { done. }
    destruct fuel as [|[|fuel]]; [lia..|]. exists s. cbn [apply_loop]. mrun. cbn.
    rewrite <- Hp. mrun Hs. cbn. rewrite Hb, bool_decide_eq_true_2 by done. cbn [negb when]. mrun. cbn.
    unfold env_mod, modify. f_equal. unfold drained, flushed. cbn.
    change (pending (set_w_env e2 w)) with (pending w). rewrite Epq.
    fold e1. by rewrite <- He, app_nil_r, <- Hp.
  - destruct (do_apply_spec (set_w_env e1 w) Hq) as [s Hs].
    { by apply queue_wf_env; [done..|right]. }
    { unfold pending. cbn. by rewrite Hb, app_nil_r. }
    { done. }
    exists s. rewrite Hs. done.
Qed.

Lemma set_flag_None_wf c : ch_wf c -> ch_wf (set_put_value_flag None c).
Proof. done. Qed.

Lemma drained_heap w s r : queue_wf w ->
  w_heap (drained w s) !! r = set_put_value_flag None <$> w_heap w !! r.
Proof.
  intros Hwf. cbn. rewrite clear_flags_lookup. destruct (w_heap w !! r) as [c|] eqn:Hc; [|done].
  cbn. f_equal. case_decide as Hr; [done|]. destruct (qw_flags w Hwf) as (_ & Hfl & _).
  specialize (Hfl r c Hc). destruct c as [? ? ? ? ? ? [f|]]; [|done]. exfalso. apply Hr, Hfl. by eexists.
Qed.

Lemma drained_wf w s : flushable w -> queue_wf (drained w s).
Proof.
  intros [Hwf Hidle _]. destruct (idle_pending w Hwf Hidle) as [Hb Hp].
  assert (pending (drained w s) = []) as Hp' by (unfold pending; cbn; by rewrite Hb).
  split.
  - rewrite Hp'. split_and!; [by apply NoDup_nil| |set_solver].
    intros r c Hc. rewrite drained_heap in Hc by done. apply fmap_Some in Hc as (c0 & _ & ->).
    split; [by intros [? ?]|set_solver].
  - intros r1 c1 r2 c2. rewrite !drained_heap by done.
    intros (d1 & H1 & ->)%fmap_Some (d2 & H2 & ->)%fmap_Some. by apply (qw_distinct w Hwf r1 d1 r2 d2).
  - intros r c. rewrite drained_heap by done. intros (d & Hd & ->)%fmap_Some.
    apply set_flag_None_wf. by apply (qw_heap w Hwf r).
  - done.
Qed.

(** What a flush does, in one statement. *)
Lemma apply_pending_facts fuel (w : World Sim) :
  quiet_put -> flushable w -> (2 <= fuel)%nat ->
  exists w', apply_pending_put_values fuel w = Ret tt w' /\ queue_wf w' /\ pending w' = [] /\
    w_trace w' = w_trace w ++ flat_map put_event (abs_queue w) /\
    (forall r, w_heap w' !! r = set_put_value_flag None <$> w_heap w !! r) /\
    flush_epoch (w_env w') =
      (if decide (abs_queue w = []) then flush_epoch (w_env w) else u64 (flush_epoch (w_env w) + 1)) /\
    w_cbs w' = w_cbs w.
Proof.
  intros Hq Hfl Hfuel. pose proof (fl_wf w Hfl) as Hwf.
  destruct (idle_pending w Hwf (fl_idle w Hfl)) as [Hb Hp].
  destruct (decide (pending w = [])) as [He|Hne].
  - assert (abs_queue w = []) as Ha by (unfold abs_queue; by rewrite He).
    exists w. rewrite Ha. split_and!; [|done|done| | | |done].
    + apply apply_pending_nil. congruence.
    + cbn. by rewrite app_nil_r.
    + intros r. destruct (w_heap w !! r) as [c|] eqn:Hc; [|done].
      destruct (qw_flags w Hwf) as (_ & Hfr & _). specialize (Hfr r c Hc). rewrite He in Hfr.
      destruct c as [? ? ? ? ? ? [f|]]; [|done]. exfalso. assert (r ∈ @nil Z) by (apply Hfr; by eexists). set_solver.
    + by rewrite decide_True.
  - destruct (apply_pending_spec fuel w Hq Hfl Hne Hfuel) as [s Hs].
    exists (drained w s). split_and!; [done|by apply drained_wf| |done| | |done].
    + unfold pending. cbn. by rewrite Hb.
    + intros r. by apply drained_heap.
    + rewrite decide_False; [done|]. destruct (pending w) as [|r q] eqn:Epq; [done|].
      destruct (pending_write w r Hwf) as [x Hx]; [rewrite Epq; set_solver|].
      unfold abs_queue. rewrite Epq, omap_cons, Hx. done.
Qed.

(* ------------------------------------------------------------------ *)
(** ** Properties *)

(** C6: refinement of the write queue.  On every reachable queue state a
    deferred write through a live handle returns, keeps the queue invariant, and
    does to the ordered list of pending writes what the abstract queue does: a
    pending force absorbs an ordinary write; otherwise the handle's previous
    pending write is dropped and the new one goes to the end. *)
Theorem put_deferred_refines raw flag format upd c (w : World Sim) :
  queue_wf w -> valid_handle w raw c -> upd_ok upd ->
  exists w', put_deferred raw flag format upd w = Ret tt w' /\ queue_wf w' /\
    abs_queue w' = abs_put (new_write raw flag format upd c) (abs_queue w).
Proof. intros Hwf Hv Hupd. by apply put_deferred_facts. Qed.

(** C7: the flush.  When puts run no callbacks, flushing a well-formed queue
    returns, hands every pending write to the simulator exactly once and in
    queue order, leaves the queue empty with every pending flag cleared, and
    advances the flush epoch exactly when something was pending. *)
Theorem flush_drains_in_order fuel (w : World Sim) :
  quiet_put -> flushable w -> (2 <= fuel)%nat ->
  exists w', apply_pending_put_values fuel w = Ret tt w' /\ queue_wf w' /\ pending w' = [] /\
    w_trace w' = w_trace w ++ flat_map put_event (abs_queue w) /\
    (forall r, w_heap w' !! r = set_put_value_flag None <$> w_heap w !! r) /\
    flush_epoch (w_env w') =
      (if decide (abs_queue w = []) then flush_epoch (w_env w) else u64 (flush_epoch (w_env w) + 1)) /\
    w_cbs w' = w_cbs w.
Proof. apply apply_pending_facts. Qed.

(** The handle constructor.  A width of at most 32 words gives a well-formed
    handle whose beats cover the width without a superfluous one; a wider
    signal is refused. *)
Theorem ComplexHandle_new_bounds h nm wd (w : World Sim) :
  0 <= wd ->
  if wd <=? 1024 then
    exists c, ComplexHandle_new h nm wd w = Ret c w /\ ch_wf (set_ch_env true c) /\
      put_value_flag c = None /\
      wd <= 32 * Z.of_nat (beat_num c) < wd + 32
  else ComplexHandle_new h nm wd w = Panic "beat_num is too large" w.
Proof.
  intros Hwd. unfold ComplexHandle_new.
  pose proof (Z.div_mod (wd + 31) 32 ltac:(done)) as Hd.
  pose proof (Z.mod_pos_bound (wd + 31) 32 ltac:(done)) as Hm.
  change (Z.of_nat MAX_VECTOR_SIZE) with 32.
  destruct (Z.leb_spec wd 1024); destruct (Z.leb_spec ((wd + 31) / 32) 32); try lia; [|done].
  eexists. split; [done|]. cbn. split_and!; [|done|lia..].
  unfold ch_wf. cbn. unfold MAX_VECTOR_SIZE. split_and!; [done|lia|done].
Qed.

End PutQueue.

(* ------------------------------------------------------------------ *)
(** ** Witnesses: two 40-bit signals *)

Definition demo_ch (h : Z) : ComplexHandle :=
  mkCH true h "sig" 40 2 0 None 0 empty_str [] (replicate MAX_VECTOR_SIZE vec0) ∅ ∅ ∅ SvNone
    (mkShuffled [] 0) (mkShuffled [] 0) (mkShuffled [] 0).

Definition demo_heap : gmap Z ComplexHandle := <[1 := demo_ch 11]> (<[2 := demo_ch 12]> ∅).

Definition demo_world : World CountSim :=
  mkWorld VeriluaEnv_default true demo_heap ∅ ∅ 3 ∅ ∅ [] (mkCount 0).

Lemma demo_heap_inv r c : demo_heap !! r = Some c -> (r = 1 /\ c = demo_ch 11) \/ (r = 2 /\ c = demo_ch 12).
Proof.
  unfold demo_heap. rewrite !lookup_insert_Some, lookup_empty. naive_solver.
Qed.

Lemma demo_wf {F : Features} : queue_wf demo_world.
Proof.
  split.
  - split_and!; [by apply NoDup_nil| |set_solver].
    intros r c [[-> ->]|[-> ->]]%demo_heap_inv; (split; [by intros [? ?]|set_solver]).
  - intros r1 c1 r2 c2 [[-> ->]|[-> ->]]%demo_heap_inv [[-> ->]|[-> ->]]%demo_heap_inv; done.
  - intros r c [[-> ->]|[-> ->]]%demo_heap_inv; (split; [done|]; cbn; unfold MAX_VECTOR_SIZE; split; [lia|done]).
  - done.
Qed.

Definition demo_upd (z : Z) (c : ComplexHandle) : ComplexHandle := set_put_value_integer z c.

Lemma demo_valid1 : valid_handle demo_world 1 (demo_ch 11).
Proof. split; [vm_compute; reflexivity|discriminate]. Qed.

Lemma demo_upd_ok z : upd_ok (demo_upd z).
Proof. intros c. split_and!; [done..|]. intros Hc. exact Hc. Qed.

Lemma put_str_ok s : upd_ok (set_put_value_str s).
Proof. intros c. split_and!; [done..|]. intros Hc. exact Hc. Qed.

Lemma put_deferred_refines_witness :
  exists w', put_deferred (F := iverilog_features) 1 vpiNoDelay vpiIntVal (demo_upd 7) demo_world = Ret tt w' /\ queue_wf (F := iverilog_features) w' /\
    abs_queue w' = [mkWrite 1 11 vpiNoDelay (inr (VInt 7))].
Proof.
  destruct (put_deferred_refines (F := iverilog_features) 1 vpiNoDelay vpiIntVal (demo_upd 7) (demo_ch 11) demo_world
    demo_wf demo_valid1 (demo_upd_ok 7)) as (w' & E & Hwf & Ha).
  exists w'. split; [exact E|]. split; [exact Hwf|]. rewrite Ha. vm_compute. reflexivity.
Defined.

(** The demo world with both signals pending, on Verilator. *)
Definition demo_pending : World CountSim :=
  match (put_deferred (F := verilator_features) 1 vpiForceFlag vpiIntVal (demo_upd 7) ;;
         put_deferred (F := verilator_features) 2 vpiNoDelay vpiHexStrVal (set_put_value_str "ff")) demo_world with
  | Ret _ w => w
  | _ => demo_world
  end.

Lemma demo_pending_flushable : flushable (F := verilator_features) demo_pending.
Proof.
  split; [|done|].
  - unfold demo_pending, bind.
    destruct (put_deferred_facts (F := verilator_features) 1 vpiForceFlag vpiIntVal (demo_upd 7)
      (demo_ch 11) demo_world) as (w1 & E1 & H1 & _); [apply demo_wf|apply demo_valid1|apply demo_upd_ok|].
    rewrite E1. vm_compute in E1. injection E1 as E1.
    destruct (put_deferred_facts (F := verilator_features) 2 vpiNoDelay vpiHexStrVal
      (set_put_value_str "ff") (demo_ch 12) w1) as (w2 & E2 & H2 & _);
      [done|subst w1; split; [vm_compute; reflexivity|done]|apply put_str_ok|]. by rewrite E2.
  - vm_compute. repeat constructor; by eexists.
Qed.

Lemma flush_drains_in_order_witness :
  exists w', apply_pending_put_values (F := verilator_features) 2 demo_pending = Ret tt w' /\
    w_trace w' = [EvPut 11 (VInt 7) vpiForceFlag; EvPut 12 (VStr vpiHexStrVal "ff") vpiNoDelay].
Proof.
  destruct (flush_drains_in_order (F := verilator_features) 2 demo_pending count_quiet
    demo_pending_flushable (le_n 2)) as (w' & E & _ & _ & Ht & _).
  exists w'. split; [exact E|]. rewrite Ht. vm_compute. reflexivity.
Defined.

Lemma ComplexHandle_new_bounds_witness :
  exists c, ComplexHandle_new 5 "bus" 33 demo_world = Ret c demo_world /\ 33 <= 32 * Z.of_nat (beat_num c) < 65.
Proof.
  destruct (ComplexHandle_new_bounds 5 "bus" 33 demo_world ltac:(done)) as (c & E & _ & _ & Hb).
  exists c. split; [exact E|exact Hb].
Defined.
