(* ===== verification/Reentrant.v ===== *)
(** * The re-entrant flush of VCS and Icarus

    On these simulators [vpi_put_value] runs value-change callbacks before it
    returns, and the Lua tasks they resume may write again; such writes go to
    [hdl_put_value_bak], which [apply_pending_put_values]
    ([libverilua/src/verilua_env.rs], lines 567-595) moves to the queue and
    flushes in a further round.

    What a put may do is stated without any restriction on what the tasks write or
    how often ([puts_run_callbacks]): it returns after finitely many callback
    steps, and a step is a deferred write through any live handle, or something
    that leaves the queues alone.  The flush is then one of the runs of
    [flush_step], puts interleaved with callback steps, and has one of three
    outcomes, which [reentrant_flush_outcome] tells apart: it settles; it is
    undefined, because a callback wrote a handle whose entry is in the vector being
    iterated; or it is still going after [fuel] rounds, each of which a callback
    kept alive with a new write. *)

From S2P Require Import Prelude Bytes State Backend PutQueue.
#[local] Open Scope Z_scope.

Section Reentrant.
Context {Sim : Type} `{!VpiBackend Sim} {F : Features}.


(** ** What callbacks do during a put *)

(** [made s]: how many deferred writes the callbacks made so far. *)
Context (made : Sim -> nat).






(** ** The runs of a flush *)






(** *** One deferred write inside a round *)








(** *** A write that collides *)

(** Whatever the state, a deferred write made during the flush never lengthens the
    vector being iterated. *)
Definition shrinks (w w' : World Sim) : Prop :=
  use_hdl_put_value_bak (w_env w) = true ->
  use_hdl_put_value_bak (w_env w') = true /\
  (length (hdl_put_value (w_env w')) <= length (hdl_put_value (w_env w)))%nat.

#[local] Instance shrinks_preorder : PreOrder shrinks.
Proof.
  split; [by intros w Hw|]. intros w1 w2 w3 H12 H23 Hu. destruct (H12 Hu) as [Hu2 Hl2].
  destruct (H23 Hu2) as [Hu3 Hl3]. split; [done|lia].
Qed.

Lemma same_env_shrinks w w' : w_env w' = w_env w -> shrinks w w'.
Proof. intros E Hu. by rewrite E. Qed.

Lemma keeps_ch_get r : keeps shrinks (ch_get (Sim := Sim) r).
Proof. intros w. unfold ch_get. destruct (w_heap w !! r); [reflexivity|done]. Qed.

Lemma keeps_ch_mod r f : keeps shrinks (ch_mod (Sim := Sim) r f).
Proof. intros w. unfold ch_mod. destruct (w_heap w !! r); [by apply same_env_shrinks|done]. Qed.

Lemma position_pure h q : keeps eq (position_by_handle (Sim := Sim) h q).
Proof.
  induction q as [|x q IH]; [by intros w|]. cbn [position_by_handle]. apply keeps_bind; [apply _| |intros c].
  - intros w. unfold ch_get. by destruct (w_heap w !! x).
  - destruct (_ =? _); [by intros w|]. apply keeps_bind; [apply _|done|]. by intros o w.
Qed.

Lemma keeps_remove_stale h : keeps shrinks (remove_stale_entry (Sim := Sim) h).
Proof.
  intros w. unfold remove_stale_entry. mrun. unfold bind at 1. pose proof (position_pure h (hdl_put_value (w_env w)) w) as Hp.
  destruct (position_by_handle h (hdl_put_value (w_env w)) w) as [[i|] w1|msg w1| |]; try done; subst w1; mrun.
  - intros Hu. split; [done|]. cbn. apply sublist_length, sublist_delete.
  - destruct (vcs || iverilog); [|by apply same_env_shrinks]. mrun. unfold bind at 1.
    pose proof (position_pure h (hdl_put_value_bak (w_env w)) w) as Hb.
    destruct (position_by_handle h (hdl_put_value_bak (w_env w)) w) as [[j|] w1|msg w1| |]; try done; subst w1; mrun; intros Hu; (split; [exact Hu|cbn; lia]).
  - by apply same_env_shrinks.
Qed.

Lemma keeps_do_push raw : vcs || iverilog = true -> keeps shrinks (do_push_hdl_put_value (Sim := Sim) raw).
Proof.
  intros Hf w. rewrite do_push_spec. intros Hu. rewrite wake_env. unfold enqueue. cbn. rewrite Hf, Hu. cbn.
  by destruct (late_flush _).
Qed.

#[local] Hint Resolve keeps_ch_get keeps_ch_mod keeps_remove_stale keeps_do_push : keeps.








(** *** A round, and the loop *)










End Reentrant.

(* ------------------------------------------------------------------ *)
(** ** Concrete re-entrant simulators *)

(** The deferred writes of the callbacks are counted in [puts]. *)
Definition made_puts (s : CountSim) : nat := Z.to_nat (puts s).

(** A task resumed by a put writes [k] to the signal [raw]. *)
Definition task_write (raw k : Z) : W CountSim unit := fun w =>
  (put_deferred (F := iverilog_features) raw vpiNoDelay vpiIntVal (demo_upd k) ;;
   modify (set_w_sim (mkCount (Z.of_nat (S (made_puts (w_sim w))))))) w.

Definition writable_now (raw : Z) (w : World CountSim) : bool :=
  match w_heap w !! raw with Some c => negb (vpi_handle c =? 0) | None => false end.
Definition pending_now (raw : Z) (w : World CountSim) : bool :=
  match w_heap w !! raw with Some c => bool_decide (is_Some (put_value_flag c)) | None => true end.


(** The first put resumes a task that writes signal 1 twice. *)
Definition twice_effect (h : Z) (v : s_vpi_value) (flag : Z) : W CountSim unit := fun w =>
  if writable_now 1 w && negb (pending_now 1 w) && bool_decide (made_puts (w_sim w) = O)
  then (task_write 1 8 ;; task_write 1 9) w else Ret tt w.

Definition reentrant_backend (effect : Z -> s_vpi_value -> Z -> W CountSim unit) : VpiBackend CountSim := {|
  vpi_put_effect := effect;
  vpi_get_int := @vpi_get_int _ CountBackend;
  vpi_get_vector := @vpi_get_vector _ CountBackend;
  vpi_get_string := @vpi_get_string _ CountBackend;
  vpi_register_result := @vpi_register_result _ CountBackend;
  vpi_null_handle := fun _ => false;
  vpi_handle_by_name_of := @vpi_handle_by_name_of _ CountBackend;
  vpi_handle_by_index_of := @vpi_handle_by_index_of _ CountBackend;
  vpi_size_of := @vpi_size_of _ CountBackend;
  vpi_iterate_modules := @vpi_iterate_modules _ CountBackend;
  vpi_scan_first := @vpi_scan_first _ CountBackend;
  vpi_name_of := @vpi_name_of _ CountBackend;
  libc_rand := @libc_rand _ CountBackend
|}.
Definition TwiceBackend : VpiBackend CountSim := reentrant_backend twice_effect.

Section Instances.
Context (effect : Z -> s_vpi_value -> Z -> W CountSim unit).
#[local] Instance effect_backend : VpiBackend CountSim := reentrant_backend effect.


End Instances.



(** Signal 1 is pending. *)
Definition echo_world : World CountSim :=
  match put_deferred (F := iverilog_features) 1 vpiNoDelay vpiIntVal (demo_upd 7) demo_world with
  | Ret _ w => set_w_sim (mkCount 0) w
  | _ => demo_world
  end.



(** A handle that is written twice by the callbacks of its own put.  The
    first write sets the flag again and queues the handle in the backup queue;
    the second finds the already flushed entry in [hdl_put_value] first, removes
    that one from the vector being iterated, and the flush is undefined. *)
Theorem reentrant_double_write_undefined :
  apply_pending_put_values (VpiBackend0 := TwiceBackend) (F := iverilog_features) 5 echo_world
    = UB "hdl_put_value changed while it is iterated".
Proof. vm_compute. reflexivity. Qed.
