(* ===== verification/Frame.v ===== *)
(** * What a signal write may change

    The frame of the write path: a write touches the buffers of handles, the
    write queue, the epoch counter and the trace, and may ask for one more flush
    callback.  Everything else - the slab and the pending edge waiters, the
    clocks, the callbacks already held by the simulator, the edge counters and the
    static data of the handles - stays.  [frame] is a preorder, so the facts
    compose along any sequence of writes. *)

From S2P Require Import Prelude Bytes State Backend PutQueue.
#[local] Open Scope Z_scope.

(** The environment without the write queue. *)
Definition core_env (e : VeriluaEnv) :=
  (use_hdl_put_value_bak e, hdl_cache e, edge_cb_slab e,
   (pending_posedge_cb_map e, pending_negedge_cb_map e, pending_edge_cb_map e, pending_edge_cb_infos e),
   (rw_phase_passed e, rd_phase_active e),
   (initialized e, finalized e, has_next_sim_time_cb e), lua_sim_event_chunks e).

(** A handle without its write buffers. *)
Definition core_ch (c : ComplexHandle) :=
  (ch_env c, vpi_handle c, name c, width c, beat_num c,
   (posedge_cb_count c, negedge_cb_count c, edge_cb_count c)).

Definition str_format (f : Z) : bool :=
  (f =? vpiHexStrVal) || (f =? vpiDecStrVal) || (f =? vpiOctStrVal) || (f =? vpiBinStrVal).

Definition pool_ok {T} (v : ShuffledValueVec T) : Prop :=
  slen v = Z.of_nat (length (svec v)) /\ 0 < slen v < 2 ^ 31.

Definition shuffle_ok (c : ComplexHandle) : Prop :=
  match random_value_vec_type c with
  | SvNone => True
  | SvU32 => pool_ok (random_value_u32_vec c)
  | SvU64 => pool_ok (random_value_u64_vec c)
  | SvHexStr => pool_ok (random_value_hex_str_vec c) /\
      Forall (fun s => has_nul s = false) (svec (random_value_hex_str_vec c))
  end.

(** The buffers of a handle hold a value the flush can build. *)
Record ch_ok (c : ComplexHandle) : Prop := {
  co_str : has_nul (put_value_str c) = false;
  co_format : is_Some (put_value_flag c) -> put_value_format c = vpiVectorVal \/ str_format (put_value_format c) = true;
  co_shuffle : shuffle_ok c
}.

Section Frame.
Context {Sim : Type} `{!VpiBackend Sim} {F : Features}.

Definition heap_ok (w : World Sim) : Prop := forall r c, w_heap w !! r = Some c -> ch_ok c.

(** A requested late flush is held by the simulator. *)
Definition late_ok (w : World Sim) : Prop :=
  rw_cb_re_registered (w_env w) = true -> inertial_put = false /\ exists h, w_cbs w !! h = Some flush_cb.

(** A write after the flush of the time step has asked for another one. *)
Definition flush_due (w : World Sim) : Prop :=
  inertial_put = false -> rw_phase_passed (w_env w) = true -> pending w <> [] -> rw_cb_re_registered (w_env w) = true.

Record frame (w w' : World Sim) : Prop := {
  fr_created : w_created w' = w_created w;
  fr_env : core_env (w_env w') = core_env (w_env w);
  fr_clocks : w_clocks w' = w_clocks w;
  fr_active : ACTIVE_SIGNALS w' = ACTIVE_SIGNALS w;
  fr_next : w_next w' = w_next w;
  fr_heap : forall r, core_ch <$> w_heap w' !! r = core_ch <$> w_heap w !! r;
  fr_ok : heap_ok w -> heap_ok w';
  fr_keep : fresh_registration -> forall h cb, w_cbs w !! h = Some cb -> w_cbs w' !! h = Some cb;
  fr_new : fresh_registration -> forall h cb, w_cbs w' !! h = Some cb -> w_cbs w !! h = Some cb \/ cb = flush_cb;
  fr_late : accepting_registration -> fresh_registration -> late_ok w -> late_ok w';
  fr_due : flush_due w -> flush_due w'
}.

#[export] Instance frame_preorder : PreOrder frame.
Proof.
  split.
  - intros w. split; auto.
  - intros w1 w2 w3 [A1 A2 A3 A4 A5 A6 A7 A8 A9 A10 A11] [B1 B2 B3 B4 B5 B6 B7 B8 B9 B10 B11].
    split; [by rewrite B1|by rewrite B2|by rewrite B3|by rewrite B4|by rewrite B5|intros r; by rewrite B6|auto..].
    intros Hf h cb Hh. destruct (B9 Hf h cb Hh) as [Hh'| ->]; [by apply A9|by right].
Qed.

Lemma frame_sim s w : frame w (set_w_sim s w).
Proof. split; auto. Qed.

Lemma frame_trace t w : frame w (set_w_trace t w).
Proof. split; auto. Qed.

Lemma frame_heap raw c c' w :
  w_heap w !! raw = Some c -> core_ch c' = core_ch c -> (ch_ok c -> ch_ok c') ->
  frame w (set_w_heap (<[raw := c']> (w_heap w)) w).
Proof.
  intros Hc He Hok. split; cbn; auto.
  - intros r. destruct (decide (r = raw)) as [->|]; [rewrite lookup_insert_eq, Hc; cbn; by f_equal|by rewrite lookup_insert_ne].
  - intros Hh r d. cbn. rewrite lookup_insert_Some. intros [[<- <-]|[_ Hr]]; [by apply Hok, (Hh raw)|by apply (Hh r)].
Qed.

(** A queue with no more pending writes than before. *)
Lemma frame_env e w :
  core_env e = core_env (w_env w) -> rw_cb_re_registered e = rw_cb_re_registered (w_env w) ->
  (hdl_put_value e ++ hdl_put_value_bak e <> [] -> pending w <> []) ->
  frame w (set_w_env e w).
Proof.
  intros He Hr Hp. split; cbn; auto.
  - unfold late_ok. cbn. by rewrite Hr.
  - unfold flush_due, pending at 2. cbn. rewrite Hr. intros Hd Hi Hpass Hne. apply Hd; [done| |by apply Hp].
    injection He. congruence.
Qed.

Lemma frame_requeue raw c c' w :
  w_heap w !! raw = Some c -> core_ch c' = core_ch c -> (ch_ok c -> ch_ok c') ->
  frame w (requeue raw c' w).
Proof.
  intros Hc He Hok. unfold requeue.
  transitivity (set_w_env (set_hdl_put_value_bak (without raw (hdl_put_value_bak (w_env w)))
     (set_hdl_put_value (without raw (hdl_put_value (w_env w))) (w_env w))) w).
  - apply frame_env; [done..|]. cbn. rewrite <- without_app. intros Hne Hp. apply Hne.
    unfold pending in Hp. by rewrite Hp.
  - by apply (frame_heap raw c c' (set_w_env _ w)).
Qed.

(** The flush request that follows every push. *)
Lemma frame_push raw w : frame w (wake (set_w_env (enqueue raw (w_env w)) w)).
Proof.
  set (w1 := set_w_env _ w).
  assert (core_env (w_env w1) = core_env (w_env w)) as He.
  { unfold w1, enqueue. cbn. by destruct (_ && _). }
  assert (rw_cb_re_registered (w_env w1) = rw_cb_re_registered (w_env w)) as Hr.
  { unfold w1, enqueue. cbn. by destruct (_ && _). }
  destruct (wake_other w1) as (H1 & H2 & H3 & _).
  split; try done.
  - rewrite wake_env, <- He. by destruct (late_flush w1).
  - unfold wake, registered. destruct (late_flush w1); [|done]. cbn. by destruct (_ =? 0).
  - intros r. by rewrite wake_heap.
  - intros Hok r c. rewrite wake_heap. apply Hok.
  - intros Hf h cb Hh. destruct (wake_cbs w1 Hf) as [->|(h' & Hn & ->)]; [done|].
    rewrite lookup_insert_ne; [done|]. intros ->. cbn in Hn. congruence.
  - intros Hf h cb Hh. destruct (wake_cbs w1 Hf) as [E|(h' & Hn & E)]; rewrite E in Hh; [by left|].
    apply lookup_insert_Some in Hh as [[-> <-]|[_ Hh]]; [by right|by left].
  - intros Ha Hf Hl. unfold late_ok. rewrite wake_env.
    destruct (late_flush w1) eqn:El.
    + intros _. split; [unfold late_flush in El; by destruct inertial_put|].
      destruct (registered_accepted flush_cb
        (set_w_env (set_rw_cb_re_registered true (w_env w1)) w1) Ha Hf) as [_ E].
      unfold wake. rewrite El. cbn [w_cbs set_w_trace]. rewrite E. eexists. apply lookup_insert_eq.
    + rewrite Hr. intros Hre. destruct (Hl Hre) as [Hi [h Hh]]. split; [done|]. exists h.
      destruct (wake_cbs w1 Hf) as [->|(h' & Hn & ->)]; [done|].
      rewrite lookup_insert_ne; [done|]. intros ->. cbn in Hn. congruence.
  - intros _ Hi. rewrite wake_env. unfold late_flush. rewrite Hi. cbn [negb andb].
    destruct (rw_phase_passed (w_env w1)) eqn:Ep; cbn [andb]; [|intros ?; congruence].
    destruct (rw_cb_re_registered (w_env w1)) eqn:E; [by intros _ _|done].
Qed.

Lemma frame_queued raw c c' w :
  w_heap w !! raw = Some c -> core_ch c' = core_ch c -> (ch_ok c -> ch_ok c') -> frame w (queued raw c' w).
Proof.
  intros Hc He Hok. unfold queued. transitivity (requeue raw c' w); [by apply (frame_requeue raw c)|apply frame_push].
Qed.

Lemma frame_put h v flag w w' : quiet_put -> vpi_put_value h v flag w = Ret tt w' -> frame w w'.
Proof.
  intros Hq E. destruct (vpi_put_value_quiet h v flag w Hq) as [s Hs]. rewrite Hs in E. injection E as <-.
  transitivity (set_w_trace (w_trace w ++ [EvPut h v flag]) w); [apply frame_trace|apply frame_sim].
Qed.

(** A flush empties the queue and starts a new epoch. *)
Lemma frame_drained w s : flushable w -> frame w (drained w s).
Proof.
  intros Hfl. pose proof (fl_wf w Hfl) as Hwf. destruct (idle_pending w Hwf (fl_idle w Hfl)) as [Hb Hp].
  unfold drained. set (e := set_hdl_put_value [] _).
  assert (frame w (set_w_env e w)) as H1.
  { apply frame_env; [done..|]. unfold e. cbn. by rewrite Hb. }
  transitivity (set_w_env e w); [done|].
  split; try done.
  - intros r. cbn. rewrite clear_flags_lookup. by destruct (w_heap w !! r); cbn; [case_decide|].
  - intros Hok r c. cbn. rewrite clear_flags_lookup. intros (d & Hd & ->)%fmap_Some.
    destruct (Hok r d Hd) as [A B C]. case_decide; [|done]. split; [done|by intros [? ?]|done].
  - by left.
Qed.

Lemma frame_flush fuel w w' :
  quiet_put -> flushable w -> (2 <= fuel)%nat -> apply_pending_put_values fuel w = Ret tt w' ->
  frame w w' /\ queue_wf w' /\ pending w' = [] /\ w_cbs w' = w_cbs w /\
  rw_cb_re_registered (w_env w') = rw_cb_re_registered (w_env w).
Proof.
  intros Hq Hfl Hfuel E. destruct (decide (pending w = [])) as [He|Hne].
  - destruct (idle_pending w (fl_wf w Hfl) (fl_idle w Hfl)) as [_ Hp].
    rewrite apply_pending_nil in E by congruence. injection E as <-.
    split_and!; [reflexivity|apply Hfl|done..].
  - destruct (apply_pending_spec fuel w Hq Hfl Hne Hfuel) as [s Hs]. rewrite Hs in E. injection E as <-.
    split_and!; [by apply frame_drained|by apply drained_wf| |done|done].
    unfold pending. cbn. by destruct (idle_pending w (fl_wf w Hfl) (fl_idle w Hfl)) as [-> _].
Qed.

(** With the buffers in order, every pending write can be flushed. *)
Lemma heap_ok_writable w : heap_ok w -> Forall writable (abs_queue w).
Proof.
  intros Hok. apply Forall_forall. intros x Hx. unfold abs_queue in Hx.
  apply list_elem_of_omap in Hx as (r & _ & Hx). unfold write_of in Hx.
  destruct (w_heap w !! r) as [c|] eqn:Hc; [|done]. cbn in Hx.
  destruct (put_value_flag c) as [f|] eqn:Hf; [|done]. injection Hx as <-. unfold writable. cbn.
  destruct (Hok r c Hc) as [Hs Hfm _]. unfold pending_value. rewrite Hs.
  destruct Hfm as [-> | Hstr]; [by eexists|by eexists|].
  unfold str_format in Hstr. destruct (_ =? vpiIntVal); [by eexists|].
  destruct (_ =? vpiVectorVal); [by eexists|]. rewrite Hstr. by eexists.
Qed.

Lemma ok_flushable w :
  queue_wf w -> heap_ok w -> use_hdl_put_value_bak (w_env w) = false -> flushable w.
Proof. intros Hwf Hok Hi. split; [done|done|by apply heap_ok_writable]. Qed.

(** Consequences used by the clients. *)
Lemma frame_live w w' r c :
  frame w w' -> w_heap w !! r = Some c -> exists c', w_heap w' !! r = Some c' /\ core_ch c' = core_ch c.
Proof.
  intros Hfr Hc. pose proof (fr_heap w w' Hfr r) as H. rewrite Hc in H. cbn in H.
  apply fmap_Some in H as (c' & Hc' & He). by exists c'.
Qed.

Lemma frame_valid w w' r c :
  frame w w' -> valid_handle w r c -> exists c', valid_handle w' r c' /\ core_ch c' = core_ch c.
Proof.
  intros Hfr [Hc Hn]. destruct (frame_live w w' r c Hfr Hc) as (c' & Hc' & He).
  exists c'. split; [|done]. split; [done|]. injection He. congruence.
Qed.

End Frame.
