(* ===== verification/HierarchyCache.v ===== *)
(** * The on-disk hierarchy cache

    [libverilua/src/vpi_access/hierarchy_collect.rs], lines 28-319: the
    [HierarchyEntry] record, the binary cache file ([save_cache],
    [try_load_cache] and their length-prefixed string helpers) and the
    process-wide cache [get_or_init_hierarchy_cache].  The file is a list of
    bytes; the reader keeps the source's [&mut pos] as a threaded position and
    its [?] as [option].  The theorems are the round trip with the exact
    staleness conditions, rejection of every truncated file, the bound on what
    an arbitrary file makes the loader allocate, and the memory-cache state
    machine. *)

From S2P Require Import Prelude Bytes.
#[local] Open Scope Z_scope.

Record HierarchyEntry := mkEntry {
  full_path : string;
  module_name : option string;
  sig_type : option string;
  level : Z;
  bitwidth : Z
}.

Definition HIERARCHY_CACHE_MAGIC : Z := 0x56484932.
Definition HIERARCHY_CACHE_FIXED_HEADER_SIZE : nat := 16.
Definition U64_MAX : Z := 2 ^ 64 - 1.
Definition U16_MAX : Z := 65535.

(** ** Writing

    A writer appends to the file and reports success.  On an error the bytes
    already written stay in the file ([BufWriter] flushes when dropped). *)

Definition Wr : Type := list byte -> list byte * bool.

Definition write_all (bs : list byte) : Wr := fun w => (w ++ bs, true).
Definition wr_err : Wr := fun w => (w, false).
Definition wr_ok : Wr := fun w => (w, true).
Definition wr_seq (a b : Wr) : Wr :=
  fun w => let '(w', ok) := a w in if ok then b w' else (w', false).

Notation "a >>> b" := (wr_seq a b) (at level 60, right associativity).

Definition write_len_prefixed_str (s : string) : Wr :=
  if Z.of_nat (str_len s) >? U16_MAX then wr_err
  else write_all (le_bytes 2 (Z.of_nat (str_len s))) >>> write_all (as_bytes s).

Definition write_len_prefixed_opt_str (s : option string) : Wr :=
  match s with
  | Some v => write_len_prefixed_str v
  | None => write_all (le_bytes 2 0)
  end.

(** The body of the [for entry in entries] loop of [save_cache]. *)
Definition write_entry (e : HierarchyEntry) : Wr :=
  write_len_prefixed_str (full_path e) >>>
  write_len_prefixed_opt_str (module_name e) >>>
  write_len_prefixed_opt_str (sig_type e) >>>
  write_all (le_bytes 4 (level e)) >>>
  write_all (le_bytes 4 (bitwidth e)).

Fixpoint write_entries (es : list HierarchyEntry) : Wr :=
  match es with
  | [] => wr_ok
  | e :: es => write_entry e >>> write_entries es
  end.

(** [save_cache] after [File::create]: the file's content and [Ok]/[Err]. *)
Definition save_cache (entries : list HierarchyEntry)
    (source_mtime : option Z) (source_path : option string) : list byte * bool :=
  (write_all (le_bytes 4 HIERARCHY_CACHE_MAGIC) >>>
   write_all (le_bytes 8 (default U64_MAX source_mtime)) >>>
   write_all (le_bytes 4 (Z.of_nat (length entries))) >>>
   write_len_prefixed_str (default empty_str source_path) >>>
   write_entries entries) [].

(** ** Reading *)

Definition Rd (A : Type) : Type := list byte -> nat -> option (A * nat).

Definition rd_ret {A} (a : A) : Rd A := fun _ pos => Some (a, pos).
Definition rd_bind {A B} (p : Rd A) (k : A -> Rd B) : Rd B :=
  fun data pos => match p data pos with Some (a, pos') => k a data pos' | None => None end.
Notation "'rd!' x ':=' p 'in' k" := (rd_bind p (fun x => k))
  (at level 10, x binder, p at level 100, k at level 200).

Definition read_u16_le : Rd Z := fun data pos =>
  match slice_get data pos 2 with Some l => Some (le_value l, (pos + 2)%nat) | None => None end.

Definition read_i32_le : Rd Z := fun data pos =>
  match slice_get data pos 4 with Some l => Some (i32 (le_value l), (pos + 4)%nat) | None => None end.

Definition read_string_at (len : nat) : Rd string := fun data pos =>
  match slice_get data pos len with
  | Some l => match from_utf8 l with Some s => Some (s, (pos + len)%nat) | None => None end
  | None => None
  end.

Definition read_len_prefixed_string : Rd string :=
  rd! len := read_u16_le in read_string_at (Z.to_nat len).

(** The [len > 0] test the entry loop makes twice. *)
Definition read_opt_string : Rd (option string) :=
  rd! len := read_u16_le in
  if len >? 0 then rd! s := read_string_at (Z.to_nat len) in rd_ret (Some s) else rd_ret None.

Definition read_entry : Rd HierarchyEntry :=
  rd! fp := read_len_prefixed_string in
  rd! mn := read_opt_string in
  rd! st := read_opt_string in
  rd! lv := read_i32_le in
  rd! bw := read_i32_le in
  rd_ret (mkEntry fp mn st lv bw).

Fixpoint read_entries (n : nat) : Rd (list HierarchyEntry) :=
  match n with
  | O => rd_ret []
  | S n => rd! e := read_entry in rd! es := read_entries n in rd_ret (e :: es)
  end.

Definition MIN_ENTRY_BYTES : Z := 14.

(** The two rejection tests between the header and the entries. *)
Definition source_mismatch (cached : string) (current : option string) : bool :=
  negb (str_len cached =? 0)%nat &&
  match current with
  | Some cur => negb (str_len cur =? 0)%nat && negb (bool_decide (cached = cur))
  | None => false
  end.

Definition mtime_mismatch (cached : Z) (current : option Z) : bool :=
  negb (cached =? U64_MAX) &&
  match current with Some cur => negb (cached =? cur) | None => false end.

Definition try_load_cache (data : list byte)
    (current_mtime : option Z) (current_source_path : option string)
  : option (list HierarchyEntry) :=
  if (length data <? HIERARCHY_CACHE_FIXED_HEADER_SIZE)%nat then None else
  let magic := le_value (take 4 data) in
  if negb (magic =? HIERARCHY_CACHE_MAGIC) then None else
  let cached_mtime := le_value (take 8 (drop 4 data)) in
  let entry_count := le_value (take 4 (drop 12 data)) in
  match read_len_prefixed_string data HIERARCHY_CACHE_FIXED_HEADER_SIZE with
  | None => None
  | Some (cached_source_path, pos) =>
      if source_mismatch cached_source_path current_source_path then None else
      if mtime_mismatch cached_mtime current_mtime then None else
      let remaining := Z.of_nat (length data - pos) in
      if entry_count >? remaining / MIN_ENTRY_BYTES then None else
      match read_entries (Z.to_nat entry_count) data pos with
      | Some (entries, _) => Some entries
      | None => None
      end
  end.

(** ** The process-wide cache *)

Record CacheEnv := mkCacheEnv {
  HIERARCHY_CACHE : option (list HierarchyEntry);   (* the RwLock'ed static *)
  cache_file : option (list byte);                  (* the file at the cache path *)
  source_path_of : option string;                   (* get_source_path() *)
  source_mtime_of : string -> option Z;             (* get_file_mtime *)
  cache_writable : bool                             (* File::create succeeds *)
}.

Section GetOrInit.
Variable collect_hierarchy_entries : Z -> list HierarchyEntry.

Definition get_or_init_hierarchy_cache (c : CacheEnv) : list HierarchyEntry * CacheEnv :=
  match HIERARCHY_CACHE c with
  | Some entries => (entries, c)
  | None =>
      let source_path := source_path_of c in
      let current_mtime := source_path ≫= source_mtime_of c in
      let set_cache es f :=
        mkCacheEnv (Some es) f (source_path_of c) (source_mtime_of c) (cache_writable c) in
      match cache_file c ≫= (fun data => try_load_cache data current_mtime source_path) with
      | Some entries => (entries, set_cache entries (cache_file c))
      | None =>
          let collected := collect_hierarchy_entries 0 in
          let file := if cache_writable c
                      then Some (fst (save_cache collected current_mtime source_path))
                      else cache_file c in
          (collected, set_cache collected file)
      end
  end.
End GetOrInit.

(** ** Well-formed entries: what a Rust value of the type can hold and the file
    can represent. *)

Definition wf_str (s : string) : Prop := is_str s = true /\ Z.of_nat (str_len s) <= U16_MAX.
Definition wf_opt_str (o : option string) : Prop :=
  match o with Some s => wf_str s /\ s <> empty_str | None => True end.
Definition in_i32 (z : Z) : Prop := - 2 ^ 31 <= z < 2 ^ 31.

Definition wf_entry (e : HierarchyEntry) : Prop :=
  wf_str (full_path e) /\ wf_opt_str (module_name e) /\ wf_opt_str (sig_type e) /\
  in_i32 (level e) /\ in_i32 (bitwidth e).

Definition wf_mtime (m : option Z) : Prop := match m with Some t => in_width 64 t | None => True end.

(* ------------------------------------------------------------------ *)
(** ** Lemmas *)

(** [writes w bs]: [w] succeeds and appends [bs]. *)
Definition writes (w : Wr) (bs : list byte) : Prop := forall f, w f = (f ++ bs, true).

(** [parses p bs a]: wherever [bs] occurs, [p] reads [a] and moves past it. *)
Definition parses {A} (p : Rd A) (bs : list byte) (a : A) : Prop :=
  forall pre post, p (pre ++ bs ++ post) (length pre) = Some (a, (length pre + length bs)%nat).

(** [local p]: a successful read stays inside the data and does not depend on
    what follows. *)
Definition local {A} (p : Rd A) : Prop :=
  forall data pos a pos', p data pos = Some (a, pos') ->
    (pos <= pos')%nat /\ (pos <= length data -> pos' <= length data)%nat /\
    forall post, p (data ++ post) pos = Some (a, pos').

Lemma writes_all bs : writes (write_all bs) bs.
Proof. by intros f. Qed.

Lemma writes_ok : writes wr_ok [].
Proof. intros f. by rewrite app_nil_r. Qed.

Lemma writes_seq a b x y : writes a x -> writes b y -> writes (a >>> b) (x ++ y).
Proof. intros Ha Hb f. unfold wr_seq. by rewrite Ha, Hb, app_assoc. Qed.

Lemma parses_ret {A} (a : A) : parses (rd_ret a) [] a.
Proof. intros pre post. unfold rd_ret. do 2 f_equal. cbn. lia. Qed.

Lemma parses_bind {A B} (p : Rd A) (k : A -> Rd B) b1 b2 a b :
  parses p b1 a -> parses (k a) b2 b -> parses (rd_bind p k) (b1 ++ b2) b.
Proof.
  intros H1 H2 pre post. unfold rd_bind. rewrite <- app_assoc, H1.
  specialize (H2 (pre ++ b1) post). rewrite length_app, <- app_assoc in H2.
  rewrite H2. do 2 f_equal. rewrite length_app. lia.
Qed.

Lemma parses_u16 l : length l = 2%nat -> parses read_u16_le l (le_value l).
Proof. intros Hl pre post. unfold read_u16_le. rewrite <- Hl, slice_get_app. by rewrite Hl. Qed.

Lemma parses_i32 z : in_i32 z -> parses read_i32_le (le_bytes 4 z) z.
Proof.
  intros Hz pre post. unfold read_i32_le.
  rewrite <- (length_le_bytes 4 z) at 3. rewrite slice_get_app, le_value_le_bytes, length_le_bytes.
  change (256 ^ Z.of_nat 4) with (2 ^ 32). do 2 f_equal. by apply i32_u32.
Qed.

Lemma parses_string s : is_str s = true -> parses (read_string_at (str_len s)) (as_bytes s) s.
Proof.
  intros Hs pre post. unfold read_string_at, str_len.
  by rewrite slice_get_app, from_utf8_as_bytes.
Qed.

Lemma parses_str_len s : Z.of_nat (str_len s) <= U16_MAX ->
  parses read_u16_le (le_bytes 2 (Z.of_nat (str_len s))) (Z.of_nat (str_len s)).
Proof.
  intros Hs. pose proof (parses_u16 (le_bytes 2 (Z.of_nat (str_len s)))) as H.
  rewrite le_value_le_bytes, length_le_bytes, Z.mod_small in H; [by apply H|].
  unfold U16_MAX in Hs. change (256 ^ Z.of_nat 2) with 65536. lia.
Qed.

Create HintDb codec.
#[export] Hint Resolve parses_u16 parses_i32 parses_string parses_str_len : codec.

(** The bytes of a string field and of an entry. *)
Definition enc_str (s : string) : list byte :=
  le_bytes 2 (Z.of_nat (str_len s)) ++ as_bytes s.
Definition enc_opt (o : option string) : list byte :=
  match o with Some s => enc_str s | None => le_bytes 2 0 end.
Definition enc_entry (e : HierarchyEntry) : list byte :=
  enc_str (full_path e) ++ enc_opt (module_name e) ++ enc_opt (sig_type e) ++
  le_bytes 4 (level e) ++ le_bytes 4 (bitwidth e).
Definition enc_header (n : nat) (m : option Z) (p : option string) : list byte :=
  le_bytes 4 HIERARCHY_CACHE_MAGIC ++ le_bytes 8 (default U64_MAX m) ++
  le_bytes 4 (Z.of_nat n) ++ enc_str (default empty_str p).

Lemma writes_str s : Z.of_nat (str_len s) <= U16_MAX ->
  writes (write_len_prefixed_str s) (enc_str s).
Proof.
  intros Hs. unfold write_len_prefixed_str.
  destruct (Z.gtb_spec (Z.of_nat (str_len s)) U16_MAX); [lia|]. apply writes_seq; apply writes_all.
Qed.

Lemma writes_opt o : wf_opt_str o -> writes (write_len_prefixed_opt_str o) (enc_opt o).
Proof. destruct o as [s|]; cbn; [intros [[_ ?] _]; by apply writes_str|intros _; apply writes_all]. Qed.

(** Follows the structure of a writer. *)
Ltac solve_writes :=
  repeat first [ apply writes_seq | apply writes_all | apply writes_ok
               | apply writes_str; assumption | apply writes_opt; assumption ].

Lemma writes_entry e : wf_entry e -> writes (write_entry e) (enc_entry e).
Proof.
  intros ((_ & H1) & H2 & H3 & _). unfold write_entry, enc_entry.
  solve_writes.
Qed.

Lemma writes_entries es : Forall wf_entry es ->
  writes (write_entries es) (concat (map enc_entry es)).
Proof. induction 1; cbn [write_entries map concat]; [apply writes_ok|]. apply writes_seq; eauto using writes_entry. Qed.

Lemma parses_len_prefixed s : wf_str s -> parses read_len_prefixed_string (enc_str s) s.
Proof.
  intros [Hs Hl]. unfold read_len_prefixed_string, enc_str.
  eapply parses_bind; [by apply parses_str_len|]. rewrite Nat2Z.id. by apply parses_string.
Qed.

Lemma parses_opt o : wf_opt_str o -> parses read_opt_string (enc_opt o) o.
Proof.
  unfold read_opt_string. destruct o as [s|]; cbn.
  - intros [[Hs Hl] Hne]. eapply parses_bind; [by apply parses_str_len|]. cbn.
    assert (str_len s <> 0%nat) by (intros ?%str_len_0; done).
    destruct (Z.gtb_spec (Z.of_nat (str_len s)) 0); [|lia]. rewrite Nat2Z.id.
    rewrite <- (app_nil_r (as_bytes s)).
    eapply parses_bind; [by apply parses_string|apply parses_ret].
  - intros _. change (le_bytes 2 0) with (le_bytes 2 0 ++ []).
    eapply parses_bind; [by apply parses_u16|]. apply parses_ret.
Qed.

Lemma parses_entry e : wf_entry e -> parses read_entry (enc_entry e) e.
Proof.
  intros (H1 & H2 & H3 & H4 & H5). unfold read_entry, enc_entry.
  rewrite <- (app_nil_r (le_bytes 4 (bitwidth e))).
  repeat (eapply parses_bind; [eauto using parses_len_prefixed, parses_opt with codec|]).
  destruct e. apply parses_ret.
Qed.

Lemma parses_entries es : Forall wf_entry es ->
  parses (read_entries (length es)) (concat (map enc_entry es)) es.
Proof.
  induction 1 as [|e es He Hes IH]; cbn [read_entries map concat length]; [apply parses_ret|].
  eapply parses_bind; [by apply parses_entry|].
  rewrite <- (app_nil_r (concat _)). eapply parses_bind; [done|]. apply parses_ret.
Qed.

Lemma length_enc_entry e : (14 <= length (enc_entry e))%nat.
Proof.
  unfold enc_entry, enc_str, enc_opt.
  destruct (module_name e), (sig_type e); unfold enc_str;
    rewrite ?length_app, !length_le_bytes; lia.
Qed.

Lemma length_enc_entries es : (14 * length es <= length (concat (map enc_entry es)))%nat.
Proof.
  induction es as [|e es IH]; cbn [map concat length]; [lia|]. rewrite length_app.
  pose proof (length_enc_entry e). lia.
Qed.

Lemma save_cache_bytes es m p :
  Forall wf_entry es -> Z.of_nat (str_len (default empty_str p)) <= U16_MAX ->
  save_cache es m p = (enc_header (length es) m p ++ concat (map enc_entry es), true).
Proof.
  intros He Hp. unfold save_cache, enc_header. rewrite <- !app_assoc.
  match goal with |- _ = (?bs, true) => change bs with ([] ++ bs) end.
  match goal with |- ?w [] = _ => enough (writes w
    (le_bytes 4 HIERARCHY_CACHE_MAGIC ++ le_bytes 8 (default U64_MAX m) ++
     le_bytes 4 (Z.of_nat (length es)) ++ enc_str (default empty_str p) ++
     concat (map enc_entry es))) as Hw by apply Hw end.
  solve_writes. by apply writes_entries.
Qed.

(** *** Locality of the readers *)

Lemma slice_get_mono data post pos n l :
  slice_get data pos n = Some l -> slice_get (data ++ post) pos n = Some l.
Proof.
  unfold slice_get. rewrite length_app.
  destruct (Nat.leb_spec (pos + n) (length data)); [|done]. intros [= <-].
  destruct (Nat.leb_spec (pos + n) (length data + length post)); [|lia].
  rewrite drop_app_le, take_app_le; [done| |lia]. rewrite length_drop. lia.
Qed.

Lemma local_ret {A} (a : A) : local (rd_ret a).
Proof. intros data pos a' pos' [= <- <-]. done. Qed.

Lemma local_bind {A B} (p : Rd A) (k : A -> Rd B) :
  local p -> (forall a, local (k a)) -> local (rd_bind p k).
Proof.
  unfold rd_bind. intros Hp Hk data pos b pos'.
  destruct (p data pos) as [[a pos1]|] eqn:E; [|done]. intros H.
  destruct (Hp _ _ _ _ E) as (? & ? & E'), (Hk _ _ _ _ _ H) as (? & ? & E'').
  repeat split; [lia|lia|]. intros post. by rewrite E', E''.
Qed.

Ltac solve_slice_local :=
  let data := fresh in let pos := fresh in let E := fresh in
  intros data pos ? ?;
  match goal with |- context [slice_get ?d ?p ?n] => destruct (slice_get d p n) eqn:E end;
  [|done]; pose proof (slice_get_Some _ _ _ _ E) as [? ?].

Lemma local_u16 : local read_u16_le.
Proof.
  unfold read_u16_le. solve_slice_local. intros [= <- <-]. repeat split; [lia|lia|].
  intros post. by rewrite (slice_get_mono _ _ _ _ _ H1).
Qed.

Lemma local_i32 : local read_i32_le.
Proof.
  unfold read_i32_le. solve_slice_local. intros [= <- <-]. repeat split; [lia|lia|].
  intros post. by rewrite (slice_get_mono _ _ _ _ _ H1).
Qed.

Lemma local_string len : local (read_string_at len).
Proof.
  unfold read_string_at. solve_slice_local. destruct (from_utf8 l) eqn:E'; [|done].
  intros [= <- <-]. repeat split; [lia|lia|].
  intros post. by rewrite (slice_get_mono _ _ _ _ _ H1), E'.
Qed.

#[export] Hint Resolve local_ret local_bind local_u16 local_i32 local_string : codec.

Lemma local_len_prefixed : local read_len_prefixed_string.
Proof. unfold read_len_prefixed_string. auto with codec. Qed.

Lemma local_opt : local read_opt_string.
Proof.
  unfold read_opt_string. apply local_bind; [apply local_u16|]. intros len.
  destruct (len >? 0); auto with codec.
Qed.
#[export] Hint Resolve local_len_prefixed local_opt : codec.

Lemma local_entry : local read_entry.
Proof. unfold read_entry. auto 10 with codec. Qed.
#[export] Hint Resolve local_entry : codec.

Lemma local_entries n : local (read_entries n).
Proof. induction n; cbn [read_entries]; auto with codec. Qed.

(** *** What an accepted read yields *)

Definition yields {A} (p : Rd A) (P : A -> Prop) : Prop :=
  forall data pos a pos', p data pos = Some (a, pos') -> P a.

Lemma yields_bind {A B} (p : Rd A) (k : A -> Rd B) P Q :
  yields p P -> (forall a, P a -> yields (k a) Q) -> yields (rd_bind p k) Q.
Proof.
  unfold rd_bind. intros Hp Hk data pos b pos'.
  destruct (p data pos) as [[a pos1]|] eqn:E; [|done]. by apply Hk; eapply Hp.
Qed.

Lemma yields_ret {A} (a : A) (P : A -> Prop) : P a -> yields (rd_ret a) P.
Proof. by intros ? data pos a' pos' [= <- <-]. Qed.

Lemma yields_u16 : yields read_u16_le (in_width 16).
Proof.
  intros data pos a pos'. unfold read_u16_le. destruct (slice_get data pos 2) eqn:E; [|done].
  intros [= <- <-]. apply slice_get_Some in E as [_ Hl].
  pose proof (le_value_bound l) as Hb. rewrite Hl in Hb. apply Hb.
Qed.

Lemma yields_i32 : yields read_i32_le in_i32.
Proof.
  intros data pos a pos'. unfold read_i32_le. destruct (slice_get data pos 4); [|done].
  intros [= <- <-]. apply i32_range.
Qed.

Lemma yields_string len : yields (read_string_at len) (fun s => is_str s = true /\ str_len s = len).
Proof.
  intros data pos a pos'. unfold read_string_at. destruct (slice_get data pos len) eqn:E; [|done].
  unfold from_utf8. destruct (utf8_valid l) eqn:E'; [|done]. intros [= <- <-].
  apply slice_get_Some in E as [_ Hl]. unfold is_str, str_len. by rewrite as_bytes_of_bytes.
Qed.

Lemma yields_len_prefixed : yields read_len_prefixed_string wf_str.
Proof.
  eapply yields_bind; [apply yields_u16|]. intros n Hn data pos s pos' H.
  apply yields_string in H as [? Hl]. split; [done|]. rewrite Hl.
  unfold in_width in Hn. unfold U16_MAX. lia.
Qed.

Lemma yields_opt : yields read_opt_string wf_opt_str.
Proof.
  eapply yields_bind; [apply yields_u16|]. intros n Hn.
  destruct (Z.gtb_spec n 0); [|by apply yields_ret].
  eapply yields_bind; [apply yields_string|]. intros s [? Hl]. apply yields_ret.
  unfold in_width in Hn. unfold wf_opt_str, wf_str, U16_MAX. rewrite Hl. split; [split; [done|lia]|].
  intros ->. change (str_len empty_str) with 0%nat in Hl. lia.
Qed.

Lemma yields_entry : yields read_entry wf_entry.
Proof.
  unfold read_entry.
  repeat (eapply yields_bind;
    [first [apply yields_len_prefixed|apply yields_opt|apply yields_i32]|intros ? ?]).
  by apply yields_ret.
Qed.

Lemma yields_entries n : yields (read_entries n) (fun es => Forall wf_entry es /\ length es = n).
Proof.
  induction n as [|n IH]; cbn [read_entries]; [by apply yields_ret|].
  eapply yields_bind; [apply yields_entry|]. intros e He.
  eapply yields_bind; [apply IH|]. intros es [? <-]. apply yields_ret. auto.
Qed.

(** *** The loader on a saved file *)

Lemma length_enc_header n m p : length (enc_header n m p) =
  (HIERARCHY_CACHE_FIXED_HEADER_SIZE + length (enc_str (default empty_str p)))%nat.
Proof. unfold enc_header. rewrite !length_app, !length_le_bytes. done. Qed.

Lemma header_fields n m p rest :
  let data := enc_header n m p ++ rest in
  wf_mtime m -> Z.of_nat n < 2 ^ 32 ->
  le_value (take 4 data) = HIERARCHY_CACHE_MAGIC /\
  le_value (take 8 (drop 4 data)) = default U64_MAX m /\
  le_value (take 4 (drop 12 data)) = Z.of_nat n.
Proof.
  intros data Hm Hn. subst data. unfold enc_header. rewrite <- !app_assoc.
  set (mag := le_bytes 4 HIERARCHY_CACHE_MAGIC). set (mt := le_bytes 8 _).
  set (cnt := le_bytes 4 _).
  assert (length mag = 4%nat) as Lmag by apply length_le_bytes.
  assert (length mt = 8%nat) as Lmt by apply length_le_bytes.
  assert (length cnt = 4%nat) as Lcnt by apply length_le_bytes.
  split_and!.
  - rewrite take_app_length' by done. subst mag. by rewrite le_value_le_bytes.
  - rewrite drop_app_length' by done. rewrite take_app_length' by done.
    subst mt. rewrite le_value_le_bytes. apply Z.mod_small.
    destruct m as [t|]; cbn; [exact Hm|unfold U64_MAX; lia].
  - rewrite (app_assoc mag mt). rewrite drop_app_length' by (rewrite length_app; lia).
    rewrite take_app_length' by done. subst cnt. rewrite le_value_le_bytes.
    apply Z.mod_small. change (256 ^ Z.of_nat 4) with (2 ^ 32). lia.
Qed.

Lemma header_source n m p rest : wf_str (default empty_str p) ->
  read_len_prefixed_string (enc_header n m p ++ rest) HIERARCHY_CACHE_FIXED_HEADER_SIZE =
  Some (default empty_str p, length (enc_header n m p)).
Proof.
  intros Hp.
  set (hd := le_bytes 4 HIERARCHY_CACHE_MAGIC ++ le_bytes 8 (default U64_MAX m) ++
             le_bytes 4 (Z.of_nat n)).
  assert (enc_header n m p = hd ++ enc_str (default empty_str p)) as ->
    by (unfold enc_header, hd; by rewrite <- !app_assoc).
  assert (HIERARCHY_CACHE_FIXED_HEADER_SIZE = length hd) as ->
    by (unfold hd; by rewrite !length_app, !length_le_bytes).
  rewrite <- app_assoc, (parses_len_prefixed _ Hp hd rest). by rewrite length_app.
Qed.

(** The loader on any data that starts with a saved header. *)
Lemma try_load_header n m p rest cm cp :
  wf_mtime m -> Z.of_nat n < 2 ^ 32 -> wf_str (default empty_str p) ->
  try_load_cache (enc_header n m p ++ rest) cm cp =
    if source_mismatch (default empty_str p) cp then None else
    if mtime_mismatch (default U64_MAX m) cm then None else
    if Z.of_nat n >? Z.of_nat (length rest) / MIN_ENTRY_BYTES then None else
    fst <$> read_entries n (enc_header n m p ++ rest) (length (enc_header n m p)).
Proof.
  intros Hm Hn Hp. unfold try_load_cache.
  destruct (Nat.ltb_spec (length (enc_header n m p ++ rest)) HIERARCHY_CACHE_FIXED_HEADER_SIZE)
    as [Hlt|_].
  { rewrite length_app, length_enc_header in Hlt. lia. }
  destruct (header_fields n m p rest Hm Hn) as (-> & -> & ->).
  rewrite Z.eqb_refl. cbn [negb]. rewrite header_source by done.
  rewrite length_app, Nat.add_sub' , Nat2Z.id.
  repeat case_match; done.
Qed.

Lemma save_load es m p cm cp :
  Forall wf_entry es -> Z.of_nat (length es) < 2 ^ 32 -> wf_mtime m ->
  wf_str (default empty_str p) ->
  snd (save_cache es m p) = true /\
  try_load_cache (fst (save_cache es m p)) cm cp =
    if source_mismatch (default empty_str p) cp || mtime_mismatch (default U64_MAX m) cm
    then None else Some es.
Proof.
  intros He Hn Hm Hp. rewrite save_cache_bytes by (done || apply Hp).
  split; [done|]. cbn [fst]. rewrite try_load_header by done.
  destruct (source_mismatch _ _), (mtime_mismatch _ _); try done.
  pose proof (length_enc_entries es) as Hlen.
  destruct (Z.gtb_spec (Z.of_nat (length es))
    (Z.of_nat (length (concat (map enc_entry es))) / MIN_ENTRY_BYTES)) as [Hgt|_].
  { exfalso. unfold MIN_ENTRY_BYTES in Hgt.
    pose proof (Z.div_le_lower_bound (Z.of_nat (length (concat (map enc_entry es)))) 14
      (Z.of_nat (length es))). lia. }
  pose proof (parses_entries es He (enc_header (length es) m p) []) as H.
  rewrite app_nil_r in H. by rewrite H.
Qed.

(* ------------------------------------------------------------------ *)
(** ** Properties *)

(** C30: a saved cache loads back to exactly the saved entries, unless the
    recorded source path or modification time contradicts the current one; the
    empty path and the time [u64::MAX] (an unknown time) contradict nothing. *)
Theorem save_load_roundtrip es m p cm cp :
  Forall wf_entry es -> Z.of_nat (length es) < 2 ^ 32 -> wf_mtime m ->
  wf_str (default empty_str p) ->
  snd (save_cache es m p) = true /\
  try_load_cache (fst (save_cache es m p)) cm cp =
    if source_mismatch (default empty_str p) cp || mtime_mismatch (default U64_MAX m) cm
    then None else Some es.
Proof. apply save_load. Qed.

(** A file cut short anywhere, even after a valid header, is never
    accepted: no strict prefix of a saved cache loads. *)
Theorem truncated_cache_rejected es m p cm cp data rest :
  Forall wf_entry es -> Z.of_nat (length es) < 2 ^ 32 -> wf_mtime m ->
  wf_str (default empty_str p) ->
  fst (save_cache es m p) = data ++ rest -> rest <> [] ->
  try_load_cache data cm cp = None.
Proof.
  intros He Hn Hm Hp Hsave Hrest. rewrite save_cache_bytes in Hsave by (done || apply Hp).
  cbn [fst] in Hsave. set (hd := enc_header (length es) m p) in *.
  destruct (decide (length hd <= length data)%nat) as [Hle|Hgt].
  - (* the header is complete *)
    assert (exists tl, data = hd ++ tl) as [tl ->].
    { exists (drop (length hd) data).
      rewrite <- (take_drop (length hd) data) at 1. f_equal.
      apply (f_equal (take (length hd))) in Hsave.
      by rewrite take_app_length, take_app_le in Hsave by done. }
    rewrite <- app_assoc in Hsave. apply app_inv_head in Hsave.
    subst hd. rewrite try_load_header by done. repeat (case_match; [done|]).
    destruct (read_entries (length es) _ _) as [[es' pos']|] eqn:E; [|done]. exfalso.
    apply local_entries in E as (_ & Hpos & E).
    specialize (E rest). rewrite <- app_assoc, <- Hsave in E.
    pose proof (parses_entries es He (enc_header (length es) m p) []) as H'.
    rewrite app_nil_r in H'. rewrite H' in E.
    apply (f_equal (from_option snd O)) in E. cbn [from_option snd] in E.
    apply (f_equal length) in Hsave. rewrite !length_app in Hpos. rewrite length_app in Hsave.
    assert (length rest <> 0)%nat by by destruct rest. lia.
  - (* the header itself is cut: its source path cannot be read *)
    unfold try_load_cache.
    destruct (Nat.ltb_spec (length data) HIERARCHY_CACHE_FIXED_HEADER_SIZE); [done|].
    destruct (negb _); [done|].
    destruct (read_len_prefixed_string data _) as [[src pos]|] eqn:E; [|done]. exfalso.
    apply local_len_prefixed in E as (_ & Hpos & E). specialize (E rest).
    rewrite <- Hsave in E. unfold hd in E. rewrite header_source in E by done.
    apply (f_equal (from_option snd O)) in E. cbn [from_option snd] in E.
    fold hd in E. lia.
Qed.

(** C31: whatever the file holds, an accepted load yields only well-formed
    entries (valid UTF-8, no empty optional name, 32-bit numbers), and no more
    of them than fourteen bytes of file each pay for. *)
Theorem loaded_entries_wf data cm cp es :
  try_load_cache data cm cp = Some es ->
  Forall wf_entry es /\ (18 + 14 * length es <= length data)%nat.
Proof.
  unfold try_load_cache. intros H.
  destruct (Nat.ltb_spec (length data) HIERARCHY_CACHE_FIXED_HEADER_SIZE); [done|].
  destruct (negb _); [done|].
  destruct (read_len_prefixed_string data _) as [[src pos]|] eqn:Es; [|done].
  destruct (source_mismatch _ _); [done|]. destruct (mtime_mismatch _ _); [done|].
  destruct (Z.gtb_spec (le_value (take 4 (drop 12 data)))
    (Z.of_nat (length data - pos) / MIN_ENTRY_BYTES)) as [|Hcount]; [done|].
  destruct (read_entries _ data pos) as [[es' pos']|] eqn:Ee; [|done].
  injection H as ->. apply yields_entries in Ee as [Hwf Hlen]. split; [done|].
  unfold read_len_prefixed_string, rd_bind, read_u16_le in Es.
  destruct (slice_get data _ 2) as [l|] eqn:E2; [|done].
  apply local_string in Es as (Hpos & _). apply slice_get_Some in E2 as [H2 _].
  pose proof (le_value_bound (take 4 (drop 12 data))).
  unfold MIN_ENTRY_BYTES in Hcount.
  pose proof (Z.mul_div_le (Z.of_nat (length data - pos)) 14 eq_refl).
  unfold HIERARCHY_CACHE_FIXED_HEADER_SIZE in *. lia.
Qed.

(** Once the hierarchy has been collected and the cache file written, every
    later run over the same source (same path and modification time) obtains
    the same entries from the file without collecting again. *)
Theorem cache_persists_across_runs collect collect' c es c' :
  HIERARCHY_CACHE c = None -> cache_writable c = true ->
  get_or_init_hierarchy_cache collect c = (es, c') ->
  (cache_file c ≫= (fun data => try_load_cache data
     (source_path_of c ≫= source_mtime_of c) (source_path_of c))) = None ->
  Forall wf_entry (collect 0) -> Z.of_nat (length (collect 0)) < 2 ^ 32 ->
  wf_str (default empty_str (source_path_of c)) ->
  wf_mtime (source_path_of c ≫= source_mtime_of c) ->
  let restarted := mkCacheEnv None (cache_file c') (source_path_of c') (source_mtime_of c')
                     (cache_writable c') in
  es = collect 0 /\ fst (get_or_init_hierarchy_cache collect' restarted) = es /\
  cache_file (snd (get_or_init_hierarchy_cache collect' restarted)) = cache_file c'.
Proof.
  intros Hm Hw Hget Hload Hwf Hn Hs Ht. unfold get_or_init_hierarchy_cache in Hget.
  rewrite Hm, Hload, Hw in Hget. injection Hget as <- <-. cbn [cache_file source_path_of
    source_mtime_of cache_writable]. split; [done|].
  unfold get_or_init_hierarchy_cache; cbn [HIERARCHY_CACHE cache_file source_path_of
    source_mtime_of cache_writable].
  set (mt := source_path_of c ≫= source_mtime_of c) in *.
  set (sp := source_path_of c) in *.
  destruct (save_load (collect 0) mt sp mt sp Hwf Hn Ht Hs) as [_ Hl].
  assert (source_mismatch (default empty_str sp) sp = false) as E1.
  { unfold source_mismatch. destruct sp; cbn; [|done].
    rewrite bool_decide_eq_true_2 by done. by rewrite !andb_false_r. }
  assert (mtime_mismatch (default U64_MAX mt) mt = false) as E2.
  { unfold mtime_mismatch. destruct mt; cbn; [|done]. by rewrite Z.eqb_refl, andb_false_r. }
  rewrite E1, E2 in Hl. cbn [orb] in Hl. cbn [mbind option_bind]. by rewrite Hl.
Qed.

(* ------------------------------------------------------------------ *)
(** ** Witnesses: the entries of the source's own unit tests *)

Definition sample_entries : list HierarchyEntry :=
  [ mkEntry "tb_top" None None 0 (-1);
    mkEntry "tb_top.u_top" (Some "TopMod"%string) None 1 (-1);
    mkEntry "tb_top.u_top.clk" None (Some "wire"%string) 2 1;
    mkEntry "tb_top.u_top.data" None (Some "reg"%string) 2 32 ].

Ltac solve_wf :=
  repeat first [ apply Forall_nil_2 | apply Forall_cons_2 | split | exact I ];
  first [ reflexivity | discriminate
        | match goal with |- _ <= _ => vm_compute; discriminate end
        | match goal with |- _ < _ => vm_compute; reflexivity end ].

Lemma sample_entries_wf : Forall wf_entry sample_entries.
Proof. unfold sample_entries, wf_entry, wf_opt_str, wf_str, in_i32; cbn [full_path module_name sig_type level bitwidth]. solve_wf. Qed.

Lemma save_load_roundtrip_witness :
  snd (save_cache sample_entries (Some 1710000000) (Some "/test/sim.fst"%string)) = true /\
  try_load_cache
    (fst (save_cache sample_entries (Some 1710000000) (Some "/test/sim.fst"%string)))
    (Some 1710000000) (Some "/test/sim.fst"%string) = Some sample_entries.
Proof.
  apply (save_load_roundtrip sample_entries (Some 1710000000) (Some "/test/sim.fst"%string)
           (Some 1710000000) (Some "/test/sim.fst"%string)).
  - exact sample_entries_wf.
  - reflexivity.
  - split; [discriminate|reflexivity].
  - split; [reflexivity|vm_compute; discriminate].
Defined.

Lemma truncated_cache_rejected_witness :
  try_load_cache
    (take 40 (fst (save_cache sample_entries None (Some "/test/sim.fst"%string)))) None None = None.
Proof.
  apply (truncated_cache_rejected sample_entries None (Some "/test/sim.fst"%string) None None
           (take 40 (fst (save_cache sample_entries None (Some "/test/sim.fst"%string))))
           (drop 40 (fst (save_cache sample_entries None (Some "/test/sim.fst"%string))))).
  - exact sample_entries_wf.
  - reflexivity.
  - exact I.
  - split; [reflexivity|vm_compute; discriminate].
  - by rewrite take_drop.
  - vm_compute; discriminate.
Defined.

Lemma loaded_entries_wf_witness :
  Forall wf_entry sample_entries /\
  (18 + 14 * length sample_entries <=
     length (fst (save_cache sample_entries (Some 7%Z) None)))%nat.
Proof.
  apply (loaded_entries_wf (fst (save_cache sample_entries (Some 7) None)) (Some 7) None).
  vm_compute. reflexivity.
Defined.

Definition sample_env : CacheEnv :=
  mkCacheEnv None None (Some "/test/sim.fst"%string) (fun _ => Some 1710000000) true.

Lemma cache_persists_across_runs_witness :
  let r := get_or_init_hierarchy_cache (fun _ => sample_entries) sample_env in
  let restarted := mkCacheEnv None (cache_file (snd r)) (source_path_of (snd r))
                     (source_mtime_of (snd r)) (cache_writable (snd r)) in
  fst r = sample_entries /\
  fst (get_or_init_hierarchy_cache (fun _ => []) restarted) = sample_entries /\
  cache_file (snd (get_or_init_hierarchy_cache (fun _ => []) restarted)) = cache_file (snd r).
Proof.
  apply (cache_persists_across_runs (fun _ => sample_entries) (fun _ => []) sample_env
           sample_entries
           (snd (get_or_init_hierarchy_cache (fun _ => sample_entries) sample_env))).
  - reflexivity.
  - reflexivity.
  - reflexivity.
  - reflexivity.
  - exact sample_entries_wf.
  - reflexivity.
  - split; [reflexivity|vm_compute; discriminate].
  - split; [discriminate|reflexivity].
Defined.
