(* ===== verification/ValueGetters.v ===== *)
(** * Reading signal values

    [libverilua/src/vpi_access/value_getters.rs]: the integer, 64-bit, vector
    and string reads.  A [*const c_char] result is modelled by the bytes the
    caller finds behind it, up to the terminating NUL; the reuse of
    [get_value_str_buf] is kept, since a later read of the same handle overwrites
    it.  [num_bigint::BigUint] is the class [BigUint]. *)

From S2P Require Import Prelude Bytes State Backend.
#[local] Open Scope Z_scope.

(** [BigUint::parse_bytes] and [to_str_radix]. *)
Class BigUint := {
  parse_bytes : list byte -> Z -> option Z;
  to_str_radix : Z -> Z -> list byte
}.

Definition is_space (b : byte) : bool := bool_decide (b = x20).

(** [position(|&byte| byte != b' ').unwrap_or(len)]. *)
Fixpoint leading_spaces (raw : list byte) : nat :=
  match raw with
  | [] => O
  | b :: raw => if is_space b then S (leading_spaces raw) else O
  end.

(** The buffer [normalize_value_str_to_c_ptr] fills, NUL included, or [None]
    when it returns the simulator's own pointer. *)
Definition normalize_value_str (raw : list byte) (trim_leading_space replace_lower_x_with_zero : bool)
  : option (list byte) :=
  if negb trim_leading_space && negb replace_lower_x_with_zero then None else
  let start := if trim_leading_space then leading_spaces raw else O in
  let normalized := drop start raw in
  if negb replace_lower_x_with_zero && (start =? 0)%nat then None else
  let buf :=
    if replace_lower_x_with_zero && bool_decide (x78 ∈ normalized)
    then map (fun b => if bool_decide (b = x78) then x30 else b) normalized
    else normalized in
  Some (buf ++ [x00]).

(** The bytes of the C string that starts a buffer. *)
Fixpoint c_str (buf : list byte) : list byte :=
  match buf with
  | [] => []
  | b :: buf => if bool_decide (b = x00) then [] else b :: c_str buf
  end.

Section Getters.
Context {Sim : Type} `{!VpiBackend Sim} {F : Features} `{!BigUint}.
Local Abbreviation W := (W Sim).

Definition vpiml_get_value (raw : Z) : W Z :=
  let! c := ch_get raw in
  gets (fun w => u32 (vpi_get_int (w_sim w) (vpi_handle c))).

(** [value.vector.add(i).read()]. *)
Definition read_word (words : list t_vpi_vecval) (i : nat) : W t_vpi_vecval :=
  match words !! i with
  | Some v => ret v
  | None => undefined "read past the vector the simulator returned"
  end.

Definition vpiml_get_value64 (raw : Z) : W Z :=
  let! c := ch_get raw in
  let! words := gets (fun w => snd (vpi_get_vector (w_sim w) (vpi_handle c))) in
  let! lo := read_word words 0 in
  let! hi := (if (1 <? beat_num c)%nat then read_word words 1 else ret vec0) in
  let! resolve := env_get resolve_x_as_zero in
  if iverilog && resolve && (negb (bval lo =? 0) || negb (bval hi =? 0)) then ret 0
  else ret (Z.lor (Z.shiftl (u32 (aval hi)) 32) (u32 (aval lo))).

(** The words written to [ret\[1..\]], for [n] iterations from word [i]. *)
Fixpoint get_words (resolve : bool) (words : list t_vpi_vecval) (i n : nat) : W (list Z) :=
  match n with
  | O => ret []
  | S n =>
      let! v := read_word words i in
      let! l := get_words resolve words (S i) n in
      ret ((if iverilog && resolve && negb (bval v =? 0) then 0 else u32 (aval v)) :: l)
  end.

(** The result is what the call leaves in the caller's buffer: the count first.
    [len + 1] wraps in the release build. *)
Definition vpiml_get_value_multi (raw len : Z) : W (list Z) :=
  let! c := ch_get raw in
  let! words := gets (fun w => snd (vpi_get_vector (w_sim w) (vpi_handle c))) in
  let! resolve := env_get resolve_x_as_zero in
  let! l := get_words resolve words 0 (Z.to_nat (u32 (len + 1) - 1)) in
  ret (len :: l).

(** [normalize_value_str_to_c_ptr]. *)
Definition normalize_value_str_to_c_ptr (raw_handle : Z) (raw : list byte) (trim repl : bool) : W (list byte) :=
  match normalize_value_str raw trim repl with
  | None => ret raw
  | Some buf => ch_mod raw_handle (set_get_value_str_buf buf) ;; ret (c_str buf)
  end.

(** The common body of the string reads. *)
Definition get_value_fmt_str (format raw : Z) : W (list byte) :=
  let! c := ch_get raw in
  let! s := gets (fun w => as_bytes (vpi_get_string (w_sim w) (vpi_handle c) format)) in
  if vcs then normalize_value_str_to_c_ptr raw s true false
  else if iverilog then
    let! resolve := env_get resolve_x_as_zero in
    if resolve then normalize_value_str_to_c_ptr raw s true true else ret s
  else ret s.

Definition vpiml_get_value_hex_str : Z -> W (list byte) := get_value_fmt_str vpiHexStrVal.
Definition vpiml_get_value_bin_str : Z -> W (list byte) := get_value_fmt_str vpiBinStrVal.
Definition vpiml_get_value_oct_str : Z -> W (list byte) := get_value_fmt_str vpiOctStrVal.

(** [match byte { b'x' | b'X' | b'z' | b'Z' => b'0', _ => byte }]. *)
Definition clean_xz (b : byte) : byte :=
  if bool_decide (b ∈ [x78; x58; x7a; x5a]) then x30 else b.

Definition vpiml_get_value_dec_str (raw : Z) : W (list byte) :=
  if verilator then
    let! c := ch_get raw in
    let! hex := gets (fun w => as_bytes (vpi_get_string (w_sim w) (vpi_handle c) vpiHexStrVal)) in
    let normalized := drop (leading_spaces hex) hex in
    if bool_decide (normalized = []) then
      ch_mod raw (set_get_value_str_buf [x30; x00]) ;; ret [x30]
    else
      let buf := map clean_xz normalized in
      ch_mod raw (set_get_value_str_buf buf) ;;
      match parse_bytes buf 16 with
      | None => panic "Failed to parse cleaned hex string"
      | Some value =>
          let dec := to_str_radix value 10 in
          ch_mod raw (set_get_value_str_buf (dec ++ [x00])) ;; ret dec
      end
  else get_value_fmt_str vpiDecStrVal raw.

Definition vpiml_get_value_str (raw fmt : Z) : W (list byte) :=
  if fmt =? vpiBinStrVal then vpiml_get_value_bin_str raw
  else if fmt =? vpiHexStrVal then vpiml_get_value_hex_str raw
  else if fmt =? vpiOctStrVal then vpiml_get_value_oct_str raw
  else if fmt =? vpiDecStrVal then vpiml_get_value_dec_str raw
  else panic "Invalid format".

(* ------------------------------------------------------------------ *)
(** ** Properties *)

Lemma leading_spaces_spec raw :
  Forall (fun b => b = x20) (take (leading_spaces raw) raw) /\
  (forall b, head (drop (leading_spaces raw) raw) = Some b -> b <> x20).
Proof.
  induction raw as [|b raw [IH1 IH2]]; [by split|]. cbn. unfold is_space.
  destruct (bool_decide_reflect (b = x20)) as [->|Hb]; cbn.
  - split; [by constructor|done].
  - split; [constructor|]. by intros ? [= <-].
Qed.

Lemma c_str_nul l : x00 ∉ l -> c_str (l ++ [x00]) = l.
Proof.
  induction l as [|b l IH]; [done|]. rewrite not_elem_of_cons. intros [Hb Hl]. cbn.
  rewrite bool_decide_eq_false_2 by congruence. by rewrite IH.
Qed.

(** What the caller reads after normalisation. *)
Definition normalized_view (raw : list byte) (trim repl : bool) : list byte :=
  match normalize_value_str raw trim repl with None => raw | Some buf => c_str buf end.

Definition x_to_0 (b : byte) : byte := if bool_decide (b = x78) then x30 else b.

Lemma map_x_to_0_id l : x78 ∉ l -> map x_to_0 l = l.
Proof.
  induction l as [|b l IH]; [done|]. rewrite not_elem_of_cons. intros [Hb Hl]. cbn.
  unfold x_to_0 at 1. by rewrite bool_decide_eq_false_2, IH by congruence.
Qed.

Lemma x_to_0_not_nul l : x00 ∉ l -> x00 ∉ map x_to_0 l.
Proof.
  intros Hl Hin. apply list_elem_of_In, in_map_iff in Hin as (b & Hb & Hin). unfold x_to_0 in Hb.
  case_bool_decide; [done|]. subst. by apply Hl, list_elem_of_In.
Qed.

Lemma not_in_drop {A} (x : A) n l : x ∉ l -> x ∉ drop n l.
Proof. intros Hl Hd. apply Hl. rewrite <- (take_drop n l). by apply elem_of_app; right. Qed.

Lemma normalized_view_spec raw trim repl :
  x00 ∉ raw ->
  normalized_view raw trim repl =
    (if repl then map x_to_0 else id) (if trim then drop (leading_spaces raw) raw else raw).
Proof.
  intros Hn. unfold normalized_view, normalize_value_str.
  set (start := if trim then leading_spaces raw else O).
  assert ((if trim then drop (leading_spaces raw) raw else raw) = drop start raw) as ->
    by (unfold start; by destruct trim).
  assert (x00 ∉ drop start raw) as Hd by by apply not_in_drop.
  destruct repl; cbn [negb andb]; rewrite ?andb_false_r, ?andb_true_r.
  - rewrite c_str_nul; [|by case_bool_decide; [apply x_to_0_not_nul|]].
    case_bool_decide as Hx; [done|]. symmetry. by apply map_x_to_0_id.
  - destruct trim; [|done]. cbn. destruct (Nat.eqb_spec start 0) as [->|Hs]; [done|].
    by rewrite c_str_nul.
Qed.

Lemma get_value_fmt_str_facts format raw c (w : World Sim) :
  w_heap w !! raw = Some c ->
  let s := as_bytes (vpi_get_string (w_sim w) (vpi_handle c) format) in
  x00 ∉ s ->
  exists buf, get_value_fmt_str format raw w =
    Ret (if vcs then drop (leading_spaces s) s
         else if iverilog && resolve_x_as_zero (w_env w) then map x_to_0 (drop (leading_spaces s) s)
         else s)
      (set_w_heap (<[raw := set_get_value_str_buf buf c]> (w_heap w)) w).
Proof.
  intros Hc s Hs. unfold get_value_fmt_str. mrun (ch_get_Some _ _ _ Hc). fold s.
  assert (forall trim repl, exists buf, normalize_value_str_to_c_ptr raw s trim repl w =
    Ret (normalized_view s trim repl) (set_w_heap (<[raw := set_get_value_str_buf buf c]> (w_heap w)) w)) as Hn.
  { intros trim repl. unfold normalize_value_str_to_c_ptr, normalized_view.
    destruct (normalize_value_str s trim repl) as [buf|].
    - exists buf. mrun (ch_mod_Some _ (set_get_value_str_buf buf) _ _ Hc). done.
    - exists (get_value_str_buf c). unfold ret. f_equal. rewrite insert_id; [by destruct w|].
      rewrite Hc. by destruct c. }
  assert (exists buf, ret s w = Ret s (set_w_heap (<[raw := set_get_value_str_buf buf c]> (w_heap w)) w)) as Hr.
  { destruct (Hn false false) as [buf Hb]. exists buf. exact Hb. }
  destruct vcs; [|destruct iverilog; [mrun; destruct (resolve_x_as_zero (w_env w))|]]; cbn [andb]; try done.
  - destruct (Hn true false) as [buf ->]. exists buf. by rewrite normalized_view_spec.
  - destruct (Hn true true) as [buf ->]. exists buf. by rewrite normalized_view_spec.
Qed.

(** String reads on every backend.  The caller sees the simulator's string
    with the leading spaces dropped on VCS, with the leading spaces dropped and
    every lowercase [x] read as [0] on Icarus when X resolves to zero, and
    unchanged otherwise; nothing but the handle's own read buffer is touched. *)
Theorem get_value_fmt_str_spec format raw c (w : World Sim) :
  w_heap w !! raw = Some c ->
  let s := as_bytes (vpi_get_string (w_sim w) (vpi_handle c) format) in
  x00 ∉ s ->
  exists buf, get_value_fmt_str format raw w =
    Ret (if vcs then drop (leading_spaces s) s
         else if iverilog && resolve_x_as_zero (w_env w) then map x_to_0 (drop (leading_spaces s) s)
         else s)
      (set_w_heap (<[raw := set_get_value_str_buf buf c]> (w_heap w)) w).
Proof. apply get_value_fmt_str_facts. Qed.

(** The 64-bit read.  The result is a 64-bit number whose low half is the
    first word and whose high half the second one, zero for a one-word signal;
    on Icarus, when X resolves to zero, any X or Z bit makes the whole read 0. *)
Theorem get_value64_spec raw c (w : World Sim) :
  w_heap w !! raw = Some c ->
  let words := snd (vpi_get_vector (w_sim w) (vpi_handle c)) in
  ((if (1 <? beat_num c)%nat then 2 else 1) <= length words)%nat ->
  let lo := nth 0 words vec0 in
  let hi := if (1 <? beat_num c)%nat then nth 1 words vec0 else vec0 in
  exists v, vpiml_get_value64 raw w = Ret v w /\ in_width 64 v /\
    if iverilog && resolve_x_as_zero (w_env w) && (negb (bval lo =? 0) || negb (bval hi =? 0))
    then v = 0
    else v mod 2 ^ 32 = u32 (aval lo) /\ v / 2 ^ 32 = u32 (aval hi).
Proof.
  intros Hc words Hlen lo hi. unfold vpiml_get_value64. mrun (ch_get_Some _ _ _ Hc). fold words.
  clearbody words.
  assert (read_word words 0 w = Ret lo w) as E0.
  { unfold read_word, lo. destruct words; [cbn [length] in Hlen; destruct (1 <? beat_num c)%nat; lia|done]. }
  assert ((if (1 <? beat_num c)%nat then read_word words 1 else ret vec0) w = Ret hi w) as E1.
  { unfold read_word, hi. destruct (1 <? beat_num c)%nat; [|done].
    destruct words as [|? [|? ?]]; cbn in Hlen; [lia..|done]. }
  mrun E0. mrun E1. destruct (_ && _ && _).
  - exists 0. by split_and!.
  - eexists. split; [done|]. change (Z.lor (Z.shiftl (u32 (aval hi)) 32) (u32 (aval lo)))
      with (join64 (u32 (aval hi)) (u32 (aval lo))).
    pose proof (wrap_bound 32 (aval lo) ltac:(lia)) as Hl. pose proof (wrap_bound 32 (aval hi) ltac:(lia)) as Hh.
    rewrite join64_add by done. unfold in_width, u32 in *.
    split_and!; [lia|lia|..].
    + rewrite Z.add_comm, Z_mod_plus_full. by apply Z.mod_small.
    + rewrite Z.add_comm, Z.div_add by done. by rewrite Z.div_small.
Qed.

Definition resolved_word (resolve : bool) (v : t_vpi_vecval) : Z :=
  if iverilog && resolve && negb (bval v =? 0) then 0 else u32 (aval v).

Lemma get_words_spec resolve words i n (w : World Sim) :
  (i + n <= length words)%nat ->
  get_words resolve words i n w = Ret (map (resolved_word resolve) (take n (drop i words))) w.
Proof.
  revert i. induction n as [|n IH]; intros i Hn; [done|]. cbn [get_words].
  destruct (drop i words) as [|v l] eqn:E.
  { apply (f_equal length) in E. rewrite length_drop in E. cbn in E. lia. }
  assert (words !! i = Some v) as Hv.
  { rewrite <- (Nat.add_0_r i), <- lookup_drop, E. done. }
  unfold read_word. rewrite Hv. mrun.
  assert (drop (S i) words = l) as Hl.
  { replace (S i) with (i + 1)%nat by lia. rewrite <- drop_drop, E. done. }
  rewrite (bind_Ret _ _ _ _ _ (IH (S i) ltac:(lia))), Hl. done.
Qed.

(** The vector read fills the caller's buffer with the count and that many
    words, each a 32-bit number in the simulator's order, words with an X or Z
    bit read as 0 on Icarus when X resolves to zero. *)
Theorem get_value_multi_spec raw len c (w : World Sim) :
  w_heap w !! raw = Some c ->
  let words := snd (vpi_get_vector (w_sim w) (vpi_handle c)) in
  0 <= len < 2 ^ 32 - 1 -> len <= Z.of_nat (length words) ->
  exists l, vpiml_get_value_multi raw len w = Ret (len :: l) w /\ Z.of_nat (length l) = len /\
    Forall (in_width 32) l /\
    l = map (resolved_word (resolve_x_as_zero (w_env w))) (take (Z.to_nat len) words).
Proof.
  intros Hc words Hlen Hw. unfold vpiml_get_value_multi. mrun (ch_get_Some _ _ _ Hc). fold words.
  unfold u32 at 1. rewrite wrap_small by (unfold in_width; lia).
  replace (Z.to_nat (len + 1 - 1)) with (Z.to_nat len) by lia.
  pose proof (get_words_spec (resolve_x_as_zero (w_env w)) words 0 (Z.to_nat len) w ltac:(lia)) as E.
  mrun E. eexists. rewrite drop_0. split_and!; [done| | |done].
  - rewrite length_map, length_take. lia.
  - apply Forall_forall. intros x Hx. apply list_elem_of_In, in_map_iff in Hx as (v & <- & _).
    unfold resolved_word. destruct (_ && _); [by split|]. by apply wrap_bound.
Qed.

(** *** Decimal strings under Verilator *)

(** What the code relies on from [BigUint]. *)
Definition biguint_ok : Prop :=
  (forall l, l <> [] -> Forall (fun b => is_Some (hex_digit b)) l -> parse_bytes l 16 = Some (hex_value l)) /\
  (forall z, 0 <= z -> to_str_radix z 10 = as_bytes (to_decimal z)).

Definition hex_or_xz (b : byte) : Prop := is_Some (hex_digit b) \/ b ∈ [x78; x58; x7a; x5a].

Lemma clean_xz_hex b : hex_or_xz b -> is_Some (hex_digit (clean_xz b)).
Proof. unfold hex_or_xz, clean_xz. intros Hb. case_bool_decide; [by eexists|tauto]. Qed.

Lemma fold_hex_nonneg l a : 0 <= a -> 0 <= fold_left (fun a b => 16 * a + default 0 (hex_digit b)) l a.
Proof.
  revert a. induction l as [|b l IH]; intros a Ha; [done|]. cbn. apply IH.
  assert (0 <= default 0 (hex_digit b)); [|lia].
  unfold hex_digit. repeat (case_match; cbn); try lia;
  repeat match goal with H : _ && _ = true |- _ => apply andb_true_iff in H as [?%Z.leb_le ?%Z.leb_le] end; lia.
Qed.

(** Decimal reads on Verilator go through the hexadecimal string: padding
    spaces are skipped, unknown digits count as 0, and the caller reads the
    decimal digits of that number; an empty string reads as 0. *)
Theorem get_value_dec_str_verilator raw c (w : World Sim) n ds :
  verilator = true -> biguint_ok -> w_heap w !! raw = Some c ->
  as_bytes (vpi_get_string (w_sim w) (vpi_handle c) vpiHexStrVal) = replicate n x20 ++ ds ->
  Forall hex_or_xz ds ->
  exists w', vpiml_get_value_dec_str raw w =
    Ret (as_bytes (to_decimal (hex_value (map clean_xz ds)))) w' /\ w_trace w' = w_trace w.
Proof.
  intros Hv [Hparse Hprint] Hc Hs Hds. unfold vpiml_get_value_dec_str. rewrite Hv.
  mrun (ch_get_Some _ _ _ Hc). rewrite Hs.
  assert (leading_spaces (replicate n x20 ++ ds) = n) as Hn.
  { clear Hs. induction n as [|n IH]; cbn; [|by rewrite IH]. destruct ds as [|b ds]; [done|].
    cbn. unfold is_space. rewrite bool_decide_eq_false_2; [done|]. intros ->.
    apply Forall_inv in Hds. destruct Hds as [[? Hx]|Hx]; [done|set_solver]. }
  rewrite Hn, drop_app_length' by by rewrite length_replicate.
  case_bool_decide as Hd.
  - subst ds. mrun (ch_mod_Some _ _ _ _ Hc). by eexists.
  - mrun (ch_mod_Some _ _ _ _ Hc). rewrite Hparse.
    + mrun. erewrite bind_Ret; [|apply ch_mod_Some; cbn; apply lookup_insert_eq].
      rewrite Hprint by by apply fold_hex_nonneg. by eexists.
    + by destruct ds.
    + apply Forall_map. eapply Forall_impl; [exact Hds|]. intros b. apply clean_xz_hex.
Qed.

End Getters.

(* ------------------------------------------------------------------ *)
(** ** Witnesses *)

(** A simulator that reads [5 + 2^32 * (2^32 - 1)], padded with spaces. *)
Definition ReadBackend : VpiBackend CountSim := {|
  vpi_put_effect := @vpi_put_effect _ CountBackend;
  vpi_get_int := fun _ _ => 5;
  vpi_get_vector := fun _ _ => (4096, [mkVec 5 0; mkVec (-1) 0; mkVec 3 4]);
  vpi_get_string := fun _ _ _ => "  x1F";
  vpi_register_result := @vpi_register_result _ CountBackend;
  vpi_null_handle := fun _ => false;
  vpi_handle_by_name_of := @vpi_handle_by_name_of _ CountBackend;
  vpi_handle_by_index_of := @vpi_handle_by_index_of _ CountBackend;
  vpi_size_of := @vpi_size_of _ CountBackend;
  vpi_iterate_modules := @vpi_iterate_modules _ CountBackend;
  vpi_scan_first := @vpi_scan_first _ CountBackend;
  vpi_name_of := @vpi_name_of _ CountBackend;
  libc_rand := @libc_rand _ CountBackend
|}.

Definition all_hex (l : list byte) : bool := forallb (fun b => bool_decide (is_Some (hex_digit b))) l.

#[export] Instance SimpleBigUint : BigUint := {|
  parse_bytes := fun l _ => if negb (bool_decide (l = [])) && all_hex l then Some (hex_value l) else None;
  to_str_radix := fun z _ => as_bytes (to_decimal z)
|}.

Lemma simple_biguint_ok : biguint_ok (H := SimpleBigUint).
Proof.
  split; [|done]. intros l Hl Hh. cbn. rewrite bool_decide_eq_false_2 by done. cbn.
  replace (all_hex l) with true; [done|]. symmetry. apply forallb_forall. intros b Hb.
  apply bool_decide_eq_true. rewrite Forall_forall in Hh. by apply Hh, list_elem_of_In.
Qed.

Definition read_ch (h : Z) : ComplexHandle :=
  mkCH true h "sig" 96 3 0 None 0 empty_str [] (replicate 32 vec0) ∅ ∅ ∅ SvNone
    (mkShuffled [] 0) (mkShuffled [] 0) (mkShuffled [] 0).

Definition read_world : World CountSim :=
  mkWorld (set_resolve_x_as_zero true VeriluaEnv_default) true {[ 1 := read_ch 11 ]} ∅ ∅ 3 ∅ ∅ [] (mkCount 0).

Lemma get_value_fmt_str_spec_witness :
  exists buf, get_value_fmt_str (VpiBackend0 := ReadBackend) (F := iverilog_features) vpiHexStrVal 1 read_world =
    Ret [x30; x31; x46] (set_w_heap (<[1 := set_get_value_str_buf buf (read_ch 11)]> (w_heap read_world)) read_world).
Proof.
  exact (get_value_fmt_str_spec (VpiBackend0 := ReadBackend) (F := iverilog_features) vpiHexStrVal 1
    (read_ch 11) read_world eq_refl ltac:(vm_compute; set_solver)).
Defined.

Lemma get_value64_spec_witness :
  exists v, vpiml_get_value64 (VpiBackend0 := ReadBackend) (F := iverilog_features) 1 read_world = Ret v read_world /\
    v mod 2 ^ 32 = 5 /\ v / 2 ^ 32 = 2 ^ 32 - 1.
Proof.
  destruct (get_value64_spec (VpiBackend0 := ReadBackend) (F := iverilog_features) 1 (read_ch 11) read_world
    eq_refl ltac:(cbn; lia)) as (v & E & _ & H1 & H2).
  exists v. split; [exact E|]. split; [exact H1|exact H2].
Defined.

Lemma get_value_multi_spec_witness :
  exists l, vpiml_get_value_multi (VpiBackend0 := ReadBackend) (F := iverilog_features) 1 3 read_world =
    Ret (3 :: l) read_world /\ l = [5; 2 ^ 32 - 1; 0].
Proof.
  destruct (get_value_multi_spec (VpiBackend0 := ReadBackend) (F := iverilog_features) 1 3 (read_ch 11) read_world
    eq_refl ltac:(lia) ltac:(cbn; lia)) as (l & E & _ & _ & Hl).
  exists l. split; [exact E|exact Hl].
Defined.

Lemma get_value_dec_str_verilator_witness :
  exists w', vpiml_get_value_dec_str (VpiBackend0 := ReadBackend) (F := verilator_features) 1 read_world =
    Ret (as_bytes "31") w'.
Proof.
  destruct (get_value_dec_str_verilator (VpiBackend0 := ReadBackend) (F := verilator_features) 1 (read_ch 11)
    read_world 2 [x78; x31; x46] eq_refl simple_biguint_ok eq_refl eq_refl) as (w' & E & _).
  - repeat (apply List.Forall_cons; [first [left; by eexists|right; set_solver]|]). apply List.Forall_nil.
  - exists w'. exact E.
Defined.
