(* ===== verification/ValueSetters.v ===== *)
(** * Writing signal values

    [libverilua/src/vpi_access/value_setters.rs]: set, force, release, freeze
    and shuffled writes, deferred ([*_value*]) or immediate ([*_imm_*]), and
    the exported entry points that refuse to write during the ReadOnly phase.
    The macros of the source ([set] with [vpiNoDelay], [force] with
    [vpiForceFlag]) are functions of an [Action]; a C string argument is its
    bytes; a [*const u32] argument is the readable words behind it.

    The buffer [put_value_vectors] always has 32 elements ([ch_wf]), so the
    fixed indices below are in range. *)

From S2P Require Import Prelude Bytes State Backend PutQueue Frame ValueGetters.
#[local] Open Scope Z_scope.

(** [set] and [force]: the [$action]/[$flag] pairs the macros are used with. *)
Inductive Action := ASet | AForce.
Definition action_flag (a : Action) : Z := match a with ASet => vpiNoDelay | AForce => vpiForceFlag end.

(** [if $flag == vpiForceFlag { vpiForceFlag } else { vpiInertialDelay }]. *)
Definition inertial_flag (a : Action) : Z :=
  if action_flag a =? vpiForceFlag then vpiForceFlag else vpiInertialDelay.

(** *** Filling the vector buffer *)

Definition word (v : Z) : t_vpi_vecval := mkVec (i32 v) 0.

(** [for i in k..n { vectors\[i\] = 0 }]. *)
Definition zero_range (k n : nat) (l : list t_vpi_vecval) : list t_vpi_vecval :=
  fold_left (fun l i => <[i := vec0]> l) (seq k (n - k)) l.

Definition set_aval (i : nat) (v : Z) (l : list t_vpi_vecval) : list t_vpi_vecval :=
  alter (fun x => mkVec (i32 v) (bval x)) i l.

(** The values of [vpiml_<action>_value], immediate and deferred forms. *)
Definition fill_u32 (n : nat) (v : Z) (l : list t_vpi_vecval) : list t_vpi_vecval :=
  zero_range 1 n (<[0%nat := word v]> l).

Definition fill_u64 (n : nat) (v : Z) (l : list t_vpi_vecval) : list t_vpi_vecval :=
  <[0%nat := word (lo32 v)]> (<[1%nat := word (hi32 v)]> (zero_range 2 n l)).

Definition fill_u64_single (n : nat) (v : Z) (l : list t_vpi_vecval) : list t_vpi_vecval :=
  set_aval 0 (Z.shiftr (u64 (Z.shiftl v 32)) 32) (set_aval 1 (hi32 v) (zero_range 0 n l)).

(** The first [n] words get the values, the rest of the buffer stays. *)
Definition fill_multi (n : nat) (vs : list Z) (l : list t_vpi_vecval) : list t_vpi_vecval :=
  map word (take n vs) ++ drop n l.

(** Only [aval] of the first words is written. *)
Fixpoint fill_avals (i : nat) (vs : list Z) (l : list t_vpi_vecval) : list t_vpi_vecval :=
  match vs with
  | [] => l
  | v :: vs => fill_avals (S i) vs (set_aval i v l)
  end.

Definition upd_vectors (f : list t_vpi_vecval -> list t_vpi_vecval) (c : ComplexHandle) : ComplexHandle :=
  set_put_value_vectors (f (put_value_vectors c)) c.

Section Setters.
Context {Sim : Type} `{!VpiBackend Sim} {F : Features}.
Local Abbreviation W := (W Sim).

(** [assert_not_rd_phase_active]. *)
Definition assert_not_rd_phase_active (raw : Z) : W unit :=
  let! rd := env_get rd_phase_active in
  when rd (ch_get raw ;; panic "Attempting to write an HDL value during the ReadOnly phase").

(** [utils::c_char_to_str]. *)
Definition c_char_to_str (s : list byte) : W string :=
  match from_utf8 s with Some s => ret s | None => panic "Utf8Error" end.

(** [*value.add(i)] for [i] in [0..n]. *)
Definition read_words (n : nat) (vs : list Z) : W (list Z) :=
  if (n <=? length vs)%nat then ret (take n vs) else undefined "read past the value array".

(** Write the buffer, then put it at once. *)
Definition put_vectors (raw flag : Z) (f : list t_vpi_vecval -> list t_vpi_vecval) : W unit :=
  ch_mod raw (upd_vectors f) ;;
  let! c := ch_get raw in
  vpi_put_value (vpi_handle c) (VVec (put_value_vectors c)) flag.

(** A deferred write whose value is computed, or fails, after [try_put_value]. *)
Definition put_deferred_with (raw flag format : Z) (mk : W (ComplexHandle -> ComplexHandle)) : W unit :=
  let! ok := try_put_value raw flag format in
  when ok (let! upd := mk in ch_mod raw upd ;; do_push_hdl_put_value raw).

(** [vpiml_<action>_value]. *)
Definition vpiml_value (a : Action) (raw value : Z) : W unit :=
  let! c := ch_get raw in
  if inertial_put then put_vectors raw (inertial_flag a) (fill_u32 (beat_num c) value)
  else put_deferred raw (action_flag a) vpiVectorVal (upd_vectors (set_aval 0 value)).

Definition vpiml_imm_value (a : Action) (raw value : Z) : W unit :=
  let! c := ch_get raw in
  if action_flag a =? vpiForceFlag
  then vpi_put_value (vpi_handle c) (VInt (i32 value)) (action_flag a)
  else put_vectors raw (action_flag a) (fill_u32 (beat_num c) value).

Definition vpiml_value64 (a : Action) (raw value : Z) : W unit :=
  let! c := ch_get raw in
  if inertial_put then put_vectors raw (inertial_flag a) (fill_u64 (beat_num c) value)
  else put_deferred raw (action_flag a) vpiVectorVal (upd_vectors (fill_u64 (beat_num c) value)).

Definition vpiml_imm_value64 (a : Action) (raw value : Z) : W unit :=
  let! c := ch_get raw in put_vectors raw (action_flag a) (fill_u64 (beat_num c) value).

Definition vpiml_value64_force_single (a : Action) (raw value : Z) : W unit :=
  let! c := ch_get raw in
  if inertial_put then put_vectors raw (inertial_flag a) (fill_u64_single (beat_num c) value)
  else put_deferred raw (action_flag a) vpiVectorVal (upd_vectors (fill_u64_single (beat_num c) value)).

Definition vpiml_imm_value64_force_single (a : Action) (raw value : Z) : W unit :=
  let! c := ch_get raw in put_vectors raw (action_flag a) (fill_u64_single (beat_num c) value).

Definition vpiml_value_multi (a : Action) (raw : Z) (value : list Z) : W unit :=
  let! c := ch_get raw in
  if inertial_put then
    let! vs := read_words (beat_num c) value in
    put_vectors raw (inertial_flag a) (fill_multi (beat_num c) vs)
  else put_deferred_with raw (action_flag a) vpiVectorVal
    (let! vs := read_words (beat_num c) value in ret (upd_vectors (fill_multi (beat_num c) vs))).

Definition vpiml_imm_value_multi (a : Action) (raw : Z) (value : list Z) : W unit :=
  let! c := ch_get raw in
  let! vs := read_words (beat_num c) value in
  put_vectors raw (action_flag a) (fill_multi (beat_num c) vs).

(** [vpiml_<action>_value_<hex|bin|dec>_str]. *)
Definition vpiml_value_fmt_str (a : Action) (format raw : Z) (value_str : list byte) : W unit :=
  let! c := ch_get raw in
  if inertial_put then vpi_put_value (vpi_handle c) (VStr format (of_bytes value_str)) (inertial_flag a)
  else put_deferred_with raw (action_flag a) format
    (let! s := c_char_to_str value_str in ret (set_put_value_str s)).

(** [_vpiml_<action>_value_<..>_str], from a Rust [String]. *)
Definition vpiml_value_fmt_string (a : Action) (format raw : Z) (value_str : string) : W unit :=
  let! c := ch_get raw in
  if inertial_put then
    assert_ (negb (has_nul value_str)) "CString::new: string contains a nul byte" ;;
    vpi_put_value (vpi_handle c) (VStr format value_str) (inertial_flag a)
  else put_deferred raw (action_flag a) format (set_put_value_str value_str).

Definition vpiml_imm_value_fmt_str (a : Action) (format raw : Z) (value_str : list byte) : W unit :=
  let! c := ch_get raw in
  vpi_put_value (vpi_handle c) (VStr format (of_bytes value_str)) (action_flag a).

(** [vpiml_<action>_value_multi_beat_<count>]: [count] arguments. *)
Definition vpiml_value_multi_beat (a : Action) (raw : Z) (vs : list Z) : W unit :=
  let! c := ch_get raw in
  if inertial_put then vpi_put_value (vpi_handle c) (VVec (map word vs)) (inertial_flag a)
  else put_deferred raw (action_flag a) vpiVectorVal (upd_vectors (fill_avals 0 vs)).

Definition vpiml_imm_value_multi_beat (a : Action) (raw : Z) (vs : list Z) : W unit :=
  let! c := ch_get raw in
  vpi_put_value (vpi_handle c) (VVec (map word vs)) (action_flag a).

(** The [0b]/[0x] prefix selects the format and is skipped. *)
Definition detect_format (s : list byte) : list byte * Z :=
  if bool_decide (take 2 s = [x30; x62]) then (drop 2 s, vpiBinStrVal)
  else if bool_decide (take 2 s = [x30; x78]) then (drop 2 s, vpiHexStrVal)
  else (s, vpiDecStrVal).

Definition vpiml_value_str (a : Action) (raw : Z) (value_str : list byte) : W unit :=
  let! c := ch_get raw in
  let '(final, format) := detect_format value_str in
  if inertial_put then vpi_put_value (vpi_handle c) (VStr format (of_bytes final)) (inertial_flag a)
  else put_deferred_with raw (action_flag a) format
    (let! s := c_char_to_str final in ret (set_put_value_str s)).

Definition vpiml_imm_value_str (a : Action) (raw : Z) (value_str : list byte) : W unit :=
  let! c := ch_get raw in
  let '(final, format) := detect_format value_str in
  vpi_put_value (vpi_handle c) (VStr format (of_bytes final)) (action_flag a).

(** *** Release *)

(** The pending value of a release: the current value of the signal.
    [put_value_integer] gets the low half of the pointer in the union. *)
Definition fill_release (addr : Z) (words : list t_vpi_vecval) (c : ComplexHandle) : ComplexHandle :=
  set_put_value_vectors (take (beat_num c) words ++ drop (beat_num c) (put_value_vectors c))
    (set_put_value_integer (u32 addr) c).

Definition vpiml_release_value (raw : Z) : W unit :=
  let! c := ch_get raw in
  let! v := gets (fun w => vpi_get_vector (w_sim w) (vpi_handle c)) in
  if inertial_put then vpi_put_value (vpi_handle c) (VVec (snd v)) vpiReleaseFlag
  else put_deferred_with raw vpiReleaseFlag vpiVectorVal
    (if (beat_num c <=? length (snd v))%nat then ret (fill_release (fst v) (snd v))
     else undefined "read past the vector the simulator returned").

Definition vpiml_release_imm_value (raw : Z) : W unit :=
  let! c := ch_get raw in
  let! removed := remove_stale_entry (vpi_handle c) in
  when removed (ch_mod raw (set_put_value_flag None)) ;;
  let! v := gets (fun w => vpi_get_vector (w_sim w) (vpi_handle c)) in
  vpi_put_value (vpi_handle c) (VVec (snd v)) vpiReleaseFlag.

(** *** Shuffled writes *)

Fixpoint rand_words (n : nat) : W (list Z) :=
  match n with
  | O => ret []
  | S n => let! r := rand in let! l := rand_words n in ret (u32 r :: l)
  end.

(** [(rand() as u64) << 32 | rand() as u64]. *)
Definition rand_u64 : W Z :=
  let! hi := rand in let! lo := rand in ret (Z.lor (u64 (Z.shiftl (u64 hi) 32)) (u64 lo)).

Definition vpiml_set_shuffled (raw : Z) : W unit :=
  let! c := ch_get raw in
  match random_value_vec_type c with
  | SvNone =>
      if width c <=? 32 then let! r := rand in vpiml_value ASet raw (u32 r)
      else if width c <=? 64 then let! v := rand_u64 in vpiml_value64 ASet raw v
      else let! vs := rand_words (beat_num c) in vpiml_value_multi ASet raw vs
  | SvU32 => let! v := get_rand_value (random_value_u32_vec c) in vpiml_value ASet raw v
  | SvU64 => let! v := get_rand_value (random_value_u64_vec c) in vpiml_value64 ASet raw v
  | SvHexStr => let! s := get_rand_value (random_value_hex_str_vec c) in
      vpiml_value_fmt_string ASet vpiHexStrVal raw s
  end.

Definition vpiml_set_imm_shuffled (raw : Z) : W unit :=
  let! c := ch_get raw in
  match random_value_vec_type c with
  | SvNone =>
      if width c <=? 32 then let! r := rand in vpiml_imm_value ASet raw (u32 r)
      else if width c <=? 64 then let! v := rand_u64 in vpiml_imm_value64 ASet raw v
      else let! vs := rand_words (beat_num c) in vpiml_imm_value_multi ASet raw vs
  | SvU32 => let! v := get_rand_value (random_value_u32_vec c) in vpiml_imm_value ASet raw v
  | SvU64 => let! v := get_rand_value (random_value_u64_vec c) in vpiml_imm_value64 ASet raw v
  | SvHexStr => let! s := get_rand_value (random_value_hex_str_vec c) in
      assert_ (negb (has_nul s)) "CString::new: string contains a nul byte" ;;
      vpiml_imm_value_fmt_str ASet vpiHexStrVal raw (as_bytes s)
  end.

Definition vpiml_shuffled_range_u32 (raw : Z) (vs : list Z) : W unit :=
  ch_mod raw (fun c => set_random_value_u32_vec (mkShuffled vs (Z.of_nat (length vs))) (set_random_value_vec_type SvU32 c)).
Definition vpiml_shuffled_range_u64 (raw : Z) (vs : list Z) : W unit :=
  ch_mod raw (fun c => set_random_value_u64_vec (mkShuffled vs (Z.of_nat (length vs))) (set_random_value_vec_type SvU64 c)).
Definition vpiml_shuffled_range_hex_str (raw : Z) (vs : list string) : W unit :=
  ch_mod raw (fun c => set_random_value_hex_str_vec (mkShuffled vs (Z.of_nat (length vs))) (set_random_value_vec_type SvHexStr c)).
Definition vpiml_reset_shuffled_range (raw : Z) : W unit :=
  ch_mod raw (set_random_value_vec_type SvNone).

(** *** Freeze: force the current value *)

Definition vpiml_set_freeze (raw : Z) : W unit :=
  let! s := vpiml_get_value_hex_str raw in vpiml_value_fmt_str AForce vpiHexStrVal raw s.

Definition vpiml_set_imm_freeze (raw : Z) : W unit :=
  let! s := vpiml_get_value_hex_str raw in vpiml_imm_value_fmt_str AForce vpiHexStrVal raw s.

(** *** The exported entry points *)

Inductive WriteOp :=
| OpValue (a : Action) (value : Z) | OpImmValue (a : Action) (value : Z)
| OpValue64 (a : Action) (value : Z) | OpImmValue64 (a : Action) (value : Z)
| OpValue64Single (a : Action) (value : Z) | OpImmValue64Single (a : Action) (value : Z)
| OpMulti (a : Action) (value : list Z) | OpImmMulti (a : Action) (value : list Z)
| OpFmtStr (a : Action) (format : Z) (s : list byte) | OpImmFmtStr (a : Action) (format : Z) (s : list byte)
| OpMultiBeat (a : Action) (vs : list Z) | OpImmMultiBeat (a : Action) (vs : list Z)
| OpStr (a : Action) (s : list byte) | OpImmStr (a : Action) (s : list byte)
| OpRelease | OpReleaseImm | OpShuffled | OpImmShuffled | OpFreeze | OpImmFreeze.

(** The method each exported function calls. *)
Definition write_method (op : WriteOp) (raw : Z) : W unit :=
  match op with
  | OpValue a v => vpiml_value a raw v
  | OpImmValue a v => vpiml_imm_value a raw v
  | OpValue64 a v => vpiml_value64 a raw v
  | OpImmValue64 a v => vpiml_imm_value64 a raw v
  | OpValue64Single a v => vpiml_value64_force_single a raw v
  | OpImmValue64Single a v => vpiml_imm_value64_force_single a raw v
  | OpMulti a vs => vpiml_value_multi a raw vs
  | OpImmMulti a vs => vpiml_imm_value_multi a raw vs
  | OpFmtStr a f s => vpiml_value_fmt_str a f raw s
  | OpImmFmtStr a f s => vpiml_imm_value_fmt_str a f raw s
  | OpMultiBeat a vs => vpiml_value_multi_beat a raw vs
  | OpImmMultiBeat a vs => vpiml_imm_value_multi_beat a raw vs
  | OpStr a s => vpiml_value_str a raw s
  | OpImmStr a s => vpiml_imm_value_str a raw s
  | OpRelease => vpiml_release_value raw
  | OpReleaseImm => vpiml_release_imm_value raw
  | OpShuffled => vpiml_set_shuffled raw
  | OpImmShuffled => vpiml_set_imm_shuffled raw
  | OpFreeze => vpiml_set_freeze raw
  | OpImmFreeze => vpiml_set_imm_freeze raw
  end.

Definition exported_write (op : WriteOp) (raw : Z) : W unit :=
  from_complex_handle_raw raw ;;
  assert_not_rd_phase_active raw ;;
  write_method op raw.

(* ------------------------------------------------------------------ *)
(** ** The ReadOnly guard *)

Lemma exported_write_rd op raw c (w : World Sim) :
  w_heap w !! raw = Some c -> ch_env c = true -> rd_phase_active (w_env w) = true ->
  exported_write op raw w = Panic "Attempting to write an HDL value during the ReadOnly phase" w.
Proof.
  intros Hc He Hrd. unfold exported_write, from_complex_handle_raw, assert_not_rd_phase_active.
  mrun (ch_get_Some _ _ _ Hc). rewrite He. mrun. rewrite Hrd. cbn [when]. mrun (ch_get_Some _ _ _ Hc).
  done.
Qed.

Lemma exported_write_open op raw c (w : World Sim) :
  w_heap w !! raw = Some c -> ch_env c = true -> rd_phase_active (w_env w) = false ->
  exported_write op raw w = write_method op raw w.
Proof.
  intros Hc He Hrd. unfold exported_write, from_complex_handle_raw, assert_not_rd_phase_active.
  mrun (ch_get_Some _ _ _ Hc). rewrite He. mrun. by rewrite Hrd.
Qed.

(** Safety of the ReadOnly phase.  While [rd_phase_active] is set, every
    exported write (set, force, release, freeze, shuffled; deferred or
    immediate) panics before it touches a buffer, the queue or the simulator. *)
Theorem no_write_in_rd_phase op raw c (w : World Sim) :
  w_heap w !! raw = Some c -> ch_env c = true -> rd_phase_active (w_env w) = true ->
  exported_write op raw w = Panic "Attempting to write an HDL value during the ReadOnly phase" w.
Proof. apply exported_write_rd. Qed.

(* ------------------------------------------------------------------ *)
(** ** What a deferred write queues *)

(** When the arguments are usable: long enough arrays and valid UTF-8. *)
Definition write_ok (op : WriteOp) (c : ComplexHandle) (w : World Sim) : Prop :=
  match op with
  | OpMulti _ vs | OpImmMulti _ vs => (beat_num c <= length vs)%nat
  | OpFmtStr _ _ s => inertial_put = true \/ utf8_valid s = true
  | OpStr _ s => inertial_put = true \/ utf8_valid (fst (detect_format s)) = true
  | OpRelease => inertial_put = true \/ (beat_num c <= length (snd (vpi_get_vector (w_sim w) (vpi_handle c))))%nat
  | _ => True
  end.

(** Flag, format and buffer update of a deferred write. *)
Definition deferred_of (op : WriteOp) (c : ComplexHandle) (w : World Sim)
  : option (Z * Z * (ComplexHandle -> ComplexHandle)) :=
  match op with
  | OpValue a v => Some (action_flag a, vpiVectorVal, upd_vectors (set_aval 0 v))
  | OpValue64 a v => Some (action_flag a, vpiVectorVal, upd_vectors (fill_u64 (beat_num c) v))
  | OpValue64Single a v => Some (action_flag a, vpiVectorVal, upd_vectors (fill_u64_single (beat_num c) v))
  | OpMulti a vs => Some (action_flag a, vpiVectorVal, upd_vectors (fill_multi (beat_num c) (take (beat_num c) vs)))
  | OpFmtStr a f s => Some (action_flag a, f, set_put_value_str (of_bytes s))
  | OpMultiBeat a vs => Some (action_flag a, vpiVectorVal, upd_vectors (fill_avals 0 vs))
  | OpStr a s => let '(final, f) := detect_format s in Some (action_flag a, f, set_put_value_str (of_bytes final))
  | OpRelease => let v := vpi_get_vector (w_sim w) (vpi_handle c) in
      Some (vpiReleaseFlag, vpiVectorVal, fill_release (fst v) (snd v))
  | _ => None
  end.

Lemma put_deferred_with_ret raw flag format mk upd (w : World Sim) :
  (forall w', mk w' = Ret upd w') ->
  put_deferred_with raw flag format mk w = put_deferred raw flag format upd w.
Proof.
  intros Hmk. unfold put_deferred_with, put_deferred, bind.
  destruct (try_put_value raw flag format w) as [[] w1| | |]; try done.
  cbn [when]. by rewrite Hmk.
Qed.

Lemma c_char_to_str_valid s (w : World Sim) : utf8_valid s = true -> c_char_to_str s w = Ret (of_bytes s) w.
Proof. unfold c_char_to_str, from_utf8. by intros ->. Qed.

(** Every deferred method is [put_deferred] with the data of [deferred_of]. *)
Lemma write_method_deferred op raw c flag format upd (w : World Sim) :
  inertial_put = false -> w_heap w !! raw = Some c -> write_ok op c w ->
  deferred_of op c w = Some (flag, format, upd) ->
  write_method op raw w = put_deferred raw flag format upd w.
Proof.
  intros Hi Hc Hok Hd. pose proof (ch_get_Some _ _ _ Hc) as Hg.
  destruct op; cbn in Hd |- *; try discriminate Hd;
    try (injection Hd as <- <- <-);
    unfold vpiml_value, vpiml_value64, vpiml_value64_force_single, vpiml_value_multi, vpiml_value_fmt_str,
      vpiml_value_multi_beat, vpiml_value_str, vpiml_release_value;
    mrun Hg; rewrite ?Hi; try done; cbn in Hok; rewrite ?Hi in Hok.
  - apply put_deferred_with_ret. intros w'. unfold read_words.
    destruct (Nat.leb_spec (beat_num c) (length value)); [done|lia].
  - apply put_deferred_with_ret. intros w'. destruct Hok as [|Hok]; [done|].
    by mrun (c_char_to_str_valid s w' Hok).
  - destruct (detect_format s) as [final f]. injection Hd as <- <- <-.
    apply put_deferred_with_ret. intros w'. destruct Hok as [|Hok]; [done|].
    by mrun (c_char_to_str_valid final w' Hok).
  - apply put_deferred_with_ret. intros w'. destruct Hok as [|Hok]; [done|].
    destruct (Nat.leb_spec (beat_num c) (length (snd (vpi_get_vector (w_sim w) (vpi_handle c))))); [done|lia].
Qed.

(** *** The buffer keeps its 32 words *)

Lemma length_zero_range k n l : length (zero_range k n l) = length l.
Proof.
  unfold zero_range. generalize (seq k (n - k)). intros ks. revert l.
  induction ks as [|i ks IH]; intros l; cbn; [done|]. by rewrite IH, length_insert.
Qed.

Lemma length_fill_avals i vs l : length (fill_avals i vs l) = length l.
Proof.
  revert i l. induction vs as [|v vs IH]; intros i l; cbn; [done|].
  rewrite IH. unfold set_aval. apply length_alter.
Qed.

Lemma length_fill_multi n vs l : (n <= length vs)%nat -> (n <= length l)%nat -> length (fill_multi n vs l) = length l.
Proof. intros. unfold fill_multi. rewrite length_app, length_map, length_take, length_drop. lia. Qed.

Lemma upd_vectors_ok f :
  (forall l, length l = MAX_VECTOR_SIZE -> length (f l) = MAX_VECTOR_SIZE) -> upd_ok (upd_vectors f).
Proof.
  intros Hf c. split_and!; [done..|]. intros (H1 & H2 & H3). split_and!; [|done..]. by apply Hf.
Qed.

Lemma deferred_of_ok op raw c flag format upd (w : World Sim) :
  inertial_put = false -> w_heap w !! raw = Some c -> ch_wf c -> write_ok op c w ->
  deferred_of op c w = Some (flag, format, upd) ->
  forall c', beat_num c' = beat_num c ->
    upd_ok_at upd c'.
Proof.
  intros Hi Hc (_ & Hbeat & _) Hok Hd.
  destruct op; cbn in Hd; try discriminate Hd; try (injection Hd as <- <- <-); intros c' Hb'.
  - apply upd_vectors_ok. intros l Hl. unfold set_aval. by rewrite length_alter.
  - apply upd_vectors_ok. intros l Hl. unfold fill_u64. by rewrite !length_insert, length_zero_range.
  - apply upd_vectors_ok. intros l Hl. unfold fill_u64_single, set_aval. by rewrite !length_alter, length_zero_range.
  - apply upd_vectors_ok. intros l Hl. cbn in Hok. rewrite length_fill_multi; [done| |lia]. rewrite length_take. lia.
  - split_and!; [done..|]. intros H. exact H.
  - apply upd_vectors_ok. intros l Hl. by rewrite length_fill_avals.
  - destruct (detect_format s) as [final f]. injection Hd as <- <- <-. split_and!; [done..|]. intros H. exact H.
  - split_and!; [done..|]. intros (H1 & H2 & H3). split_and!; [|done..]. cbn.
    cbn in Hok. destruct Hok as [|Hok]; [congruence|].
    rewrite Hb', length_app, length_take, length_drop. lia.
Qed.

Lemma deferred_write_facts op raw c flag format upd (w : World Sim) :
  inertial_put = false -> queue_wf w -> valid_handle w raw c -> write_ok op c w ->
  deferred_of op c w = Some (flag, format, upd) ->
  exists w', write_method op raw w = Ret tt w' /\ queue_wf w' /\
    abs_queue w' = abs_put (new_write raw flag format upd c) (abs_queue w).
Proof.
  intros Hi Hwf [Hc Hne] Hok Hd. rewrite (write_method_deferred op raw c flag format upd) by done.
  apply put_deferred_facts; [done|by split|].
  by apply (deferred_of_ok op raw c flag format upd w Hi Hc (qw_heap w Hwf raw c Hc) Hok Hd).
Qed.

(** A pending force shields the signal: a deferred ordinary write returns
    without changing anything. *)
Theorem force_shields_from_set op raw c format upd (w : World Sim) :
  inertial_put = false -> queue_wf w -> valid_handle w raw c -> write_ok op c w ->
  put_value_flag c = Some vpiForceFlag ->
  deferred_of op c w = Some (vpiNoDelay, format, upd) ->
  write_method op raw w = Ret tt w.
Proof.
  intros Hi Hwf Hv Hok Hf Hd. rewrite (write_method_deferred op raw c vpiNoDelay format upd) by (try apply Hv; done).
  rewrite (put_deferred_spec raw vpiNoDelay format upd c w Hwf Hv). unfold accepts. by rewrite Hf.
Qed.

(** *** The value that reaches the simulator *)

(** A vector read as a number, least significant word first, and the absence of
    X and Z bits. *)
Definition vec_value (l : list t_vpi_vecval) : Z :=
  fold_right (fun v acc => u32 (aval v) + 2 ^ 32 * acc) 0 l.
Definition two_state (l : list t_vpi_vecval) : Prop := Forall (fun v => bval v = 0) l.

Lemma zero_range_lookup k n l i :
  (n <= length l)%nat ->
  zero_range k n l !! i = if decide (k <= i < n)%nat then Some vec0 else l !! i.
Proof.
  unfold zero_range. intros Hn.
  assert (forall m k l, (k + m <= length l)%nat ->
    fold_left (fun l i => <[i := vec0]> l) (seq k m) l !! i =
    if decide (k <= i < k + m)%nat then Some vec0 else l !! i) as H.
  { clear. intros m. induction m as [|m IH]; intros k l Hl; cbn.
    - rewrite decide_False by lia. done.
    - rewrite IH by (rewrite length_insert; lia).
      destruct (decide (i = k)) as [->|Hik].
      + rewrite decide_False, list_lookup_insert_eq, decide_True by lia. done.
      + rewrite list_lookup_insert_ne by done. by rewrite (decide_ext (S k <= i < S k + m)%nat (k <= i < k + S m)%nat) by lia. }
  destruct (decide (k <= n)%nat).
  - rewrite H by lia. by rewrite (decide_ext (k <= i < k + (n - k))%nat (k <= i < n)%nat) by lia.
  - replace (n - k)%nat with O by lia. cbn. rewrite decide_False by lia. done.
Qed.

Lemma take_fill_u64 n v l :
  (2 <= length l)%nat -> (n <= length l)%nat ->
  take (Nat.max 2 n) (fill_u64 n v l) = word (lo32 v) :: word (hi32 v) :: replicate (n - 2) vec0.
Proof.
  intros H2 Hn. apply list_eq. intros i. unfold fill_u64.
  assert (length (zero_range 2 n l) = length l) as Hl by apply length_zero_range.
  destruct (decide (i < Nat.max 2 n)%nat) as [Hi|Hi].
  - rewrite lookup_take_lt by done. destruct i as [|[|i]].
    + rewrite list_lookup_insert_eq; [done|]. rewrite length_insert. lia.
    + rewrite list_lookup_insert_ne, list_lookup_insert_eq by lia. done.
    + rewrite !list_lookup_insert_ne, zero_range_lookup by lia. rewrite decide_True by lia.
      symmetry. apply (lookup_replicate_2 (n - 2) vec0 i). lia.
  - rewrite lookup_take_ge by lia. symmetry. apply lookup_ge_None. cbn. rewrite length_replicate. lia.
Qed.

Lemma vec_value_zeros n : vec_value (replicate n vec0) = 0.
Proof. 
  induction n as [|n IH]; [done|].
  change (vec_value (replicate (S n) vec0)) with (0 + 2 ^ 32 * vec_value (replicate n vec0)). by rewrite IH.
Qed.

Lemma vec_value_u64 v n :
  in_width 64 v -> vec_value (word (lo32 v) :: word (hi32 v) :: replicate n vec0) = v.
Proof.
  intros Hv. cbn [vec_value fold_right word aval].
  fold (vec_value (replicate n vec0)). rewrite vec_value_zeros, !u32_i32, Z.mul_0_r, Z.add_0_r.
  assert (u32 (lo32 v) = lo32 v) as ->.
  { apply wrap_small. rewrite lo32_mod. apply wrap_bound. lia. }
  assert (u32 (hi32 v) = hi32 v) as ->.
  { apply wrap_small. unfold in_width in *. rewrite hi32_div. split; [apply Z.div_pos; lia|].
    apply Z.div_lt_upper_bound; lia. }
  rewrite lo32_mod, hi32_div. pose proof (Z.div_mod v (2 ^ 32)). lia.
Qed.

Lemma two_state_zeros n : two_state (replicate n vec0).
Proof. apply Forall_forall. intros x Hx. by apply elem_of_replicate in Hx as [-> _]. Qed.

(** The value of a deferred 64-bit write.  The queued value is the whole
    32-word buffer; over the words of the signal (at least two) it denotes
    exactly the argument, with no X or Z bit, whatever the buffer held before. *)
Theorem value64_queued_exactly a v raw c (w : World Sim) :
  in_width 64 v -> ch_wf c ->
  exists flag format upd l,
    deferred_of (OpValue64 a v) c w = Some (flag, format, upd) /\
    wr_value (new_write raw flag format upd c) = inr (VVec l) /\ length l = MAX_VECTOR_SIZE /\
    let used := take (Nat.max 2 (beat_num c)) l in vec_value used = v /\ two_state used.
Proof.
  intros Hv (Hl & Hb & _). do 4 eexists. split_and!; [done|done| |].
  - cbn. unfold fill_u64. by rewrite !length_insert, length_zero_range.
  - cbn -[take Nat.max fill_u64]. rewrite take_fill_u64 by (rewrite Hl; unfold MAX_VECTOR_SIZE in *; lia).
    split; [by apply vec_value_u64|]. repeat (apply List.Forall_cons; [done|]). apply two_state_zeros.
Qed.

(** The value of a deferred vector write is exactly the words given, with
    no X or Z bit, over the words of the signal. *)
Theorem value_multi_queued_exactly a vs raw c (w : World Sim) :
  ch_wf c -> (beat_num c <= length vs)%nat -> Forall (in_width 32) vs ->
  exists flag format upd l,
    deferred_of (OpMulti a vs) c w = Some (flag, format, upd) /\
    wr_value (new_write raw flag format upd c) = inr (VVec l) /\ length l = MAX_VECTOR_SIZE /\
    map (fun x => u32 (aval x)) (take (beat_num c) l) = take (beat_num c) vs /\
    two_state (take (beat_num c) l).
Proof.
  intros (Hl & Hb & _) Hlen Hvs. do 4 eexists. split_and!; [done|done|..]; cbn -[take].
  - rewrite length_fill_multi; [done|rewrite length_take; lia|lia].
  - unfold fill_multi. rewrite take_take, Nat.min_id, take_app_length' by (rewrite length_map, length_take; lia).
    rewrite map_map. rewrite <- (map_id (take (beat_num c) vs)) at 2. apply map_ext_in.
    intros x Hx. cbn. rewrite u32_i32. apply wrap_small. rewrite Forall_forall in Hvs. apply Hvs.
    apply list_elem_of_In in Hx. rewrite <- (take_drop (beat_num c) vs). apply elem_of_app. by left.
  - unfold fill_multi. rewrite take_take, Nat.min_id, take_app_length' by (rewrite length_map, length_take; lia).
    apply Forall_forall. intros x Hx. apply list_elem_of_In, in_map_iff in Hx as (z & <- & _). done.
Qed.

(* ------------------------------------------------------------------ *)
(** ** Every write returns and keeps the queue invariant *)

(** [rand()] is a non-negative [c_int] (C17, 7.22.2.1). *)
Definition rand_ok : Prop := forall s : Sim, 0 <= fst (libc_rand s) < 2 ^ 31.

(** The simulator's value strings are ASCII C strings. *)
Definition strings_ok : Prop := forall (s : Sim) h f,
  x00 ∉ as_bytes (vpi_get_string s h f) /\ ascii (as_bytes (vpi_get_string s h f)).

(** The string arguments are C strings in a format the flush knows. *)
Definition c_string (s : list byte) : Prop := x00 ∉ s.
Definition text_ok (op : WriteOp) : Prop :=
  match op with
  | OpFmtStr _ f s => str_format f = true /\ c_string s
  | OpStr _ s => c_string s
  | _ => True
  end.

Definition call_ok (op : WriteOp) (c : ComplexHandle) (w : World Sim) : Prop :=
  write_ok op c w /\ text_ok op /\
  match op with
  | OpShuffled | OpImmShuffled => rand_ok /\ shuffle_ok c
  | OpFreeze | OpImmFreeze => strings_ok
  | _ => True
  end.

(** [m] returns from [w] with the queue well formed, within the write frame. *)
Definition safe {A} (m : W A) (w : World Sim) : Prop :=
  exists a w', m w = Ret a w' /\ queue_wf w' /\ frame w w'.

Lemma safe_then {A} (m : W A) w1 w : frame w w1 -> safe m w1 -> exists a w', m w1 = Ret a w' /\ queue_wf w' /\ frame w w'.
Proof. intros Hf (a & w' & E & Hwf & Hf'). exists a, w'. split_and!; [done|done|by transitivity w1]. Qed.

Lemma safe_put h v flag w : quiet_put -> queue_wf w -> safe (vpi_put_value h v flag) w.
Proof.
  intros Hq Hwf. destruct (vpi_put_value_quiet h v flag w Hq) as [s Hs].
  eexists _, _. split_and!; [exact Hs| |by apply (frame_put h v flag)]. by apply queue_wf_sim, queue_wf_trace.
Qed.

Lemma safe_put_vectors raw flag f c w :
  quiet_put -> queue_wf w -> w_heap w !! raw = Some c ->
  length (f (put_value_vectors c)) = length (put_value_vectors c) ->
  safe (put_vectors raw flag f) w.
Proof.
  intros Hq Hwf Hc Hf. unfold put_vectors, safe. mrun (ch_mod_Some _ (upd_vectors f) _ _ Hc).
  assert (upd_ok_at (upd_vectors f) c) as Hu.
  { split_and!; [done..|]. intros (H1 & H2 & H3). split_and!; [|done..]. cbn. by rewrite Hf. }
  pose proof (queue_wf_upd raw (upd_vectors f) c w Hwf Hc Hu) as Hwf1.
  erewrite bind_Ret; [|apply ch_get_Some; cbn; apply lookup_insert_eq].
  apply (safe_then _ _ w); [|by apply safe_put].
  apply (frame_heap raw c); [done..|]. intros [? ? ?]. by split.
Qed.

(** A queued value stays one the flush can build. *)
Definition keeps_ok (format : Z) (upd : ComplexHandle -> ComplexHandle) (c : ComplexHandle) (flag : Z) : Prop :=
  core_ch (upd (stamped flag format c)) = core_ch c /\ (ch_ok c -> ch_ok (upd (stamped flag format c))).

Lemma safe_deferred raw flag format upd c w :
  queue_wf w -> valid_handle w raw c -> upd_ok_at upd (stamped flag format c) -> keeps_ok format upd c flag ->
  safe (put_deferred raw flag format upd) w.
Proof.
  intros Hwf Hv Hu [Hk1 Hk2]. destruct (put_deferred_facts raw flag format upd c w Hwf Hv Hu) as (w' & E & H & _).
  exists tt, w'. split_and!; [done|done|]. rewrite (put_deferred_spec raw flag format upd c) in E by done.
  destruct (accepts c flag); injection E as <-; [|reflexivity]. apply (frame_queued raw c); [apply Hv|done..].
Qed.

Lemma keeps_ok_vectors f c flag : keeps_ok vpiVectorVal (upd_vectors f) c flag.
Proof. split; [done|]. intros [? ? ?]. split; [done|by left|done]. Qed.

Lemma keeps_ok_str format s c flag :
  str_format format = true -> has_nul s = false -> keeps_ok format (set_put_value_str s) c flag.
Proof. intros Hf Hs. split; [done|]. intros [? ? ?]. split; [done|by right|done]. Qed.

Lemma c_string_nul s : c_string s -> has_nul (of_bytes s) = false.
Proof. intros Hs. unfold has_nul. rewrite as_bytes_of_bytes. by apply bool_decide_eq_false_2. Qed.

Lemma detect_format_ok s : c_string s -> c_string (fst (detect_format s)) /\ str_format (snd (detect_format s)) = true.
Proof.
  assert (forall n, c_string s -> c_string (drop n s)) as Hd.
  { intros n Hs Hin. apply Hs. rewrite <- (take_drop n s). apply elem_of_app. by right. }
  intros Hs. unfold detect_format. case_bool_decide; [split; [by apply Hd|done]|].
  case_bool_decide; (split; [by first [apply Hd|apply Hs]|done]).
Qed.

Lemma deferred_of_keeps op c w flag format upd :
  text_ok op -> deferred_of op c w = Some (flag, format, upd) -> keeps_ok format upd c flag.
Proof.
  intros Ht Hd. destruct op; cbn in Hd; try discriminate Hd; try (injection Hd as <- <- <-);
    try apply keeps_ok_vectors.
  - destruct Ht. by apply keeps_ok_str, c_string_nul.
  - destruct (detect_format_ok s Ht) as [H1 H2]. destruct (detect_format s) as [final f].
    injection Hd as <- <- <-. by apply keeps_ok_str, c_string_nul.
  - split; [done|]. intros [? ? ?]. split; [done|by left|done].
Qed.

Lemma length_fill_u32 n v l : length (fill_u32 n v l) = length l.
Proof. unfold fill_u32. by rewrite length_zero_range, length_insert. Qed.
Lemma length_fill_u64 n v l : length (fill_u64 n v l) = length l.
Proof. unfold fill_u64. by rewrite !length_insert, length_zero_range. Qed.
Lemma length_fill_u64_single n v l : length (fill_u64_single n v l) = length l.
Proof. unfold fill_u64_single, set_aval. by rewrite !length_alter, length_zero_range. Qed.

Lemma read_words_ok n vs (w : World Sim) : (n <= length vs)%nat -> read_words n vs w = Ret (take n vs) w.
Proof. intros. unfold read_words. by destruct (Nat.leb_spec n (length vs)); [|lia]. Qed.

(** The writes that take no random or read value. *)
Lemma safe_plain op raw c w :
  quiet_put -> queue_wf w -> valid_handle w raw c -> write_ok op c w -> text_ok op ->
  match op with OpReleaseImm | OpShuffled | OpImmShuffled | OpFreeze | OpImmFreeze => False | _ => True end ->
  safe (write_method op raw) w.
Proof.
  intros Hq Hwf Hv Hok Htx Hop. pose proof (ch_get_Some _ _ _ (proj1 Hv)) as Hg.
  destruct (qw_heap w Hwf raw c (proj1 Hv)) as (Hlen & Hbeat & _).
  destruct (deferred_of op c w) as [[[flag format] upd]|] eqn:Hd; [destruct (inertial_put) eqn:Hi|].
  2: { unfold safe. rewrite (write_method_deferred op raw c flag format upd w Hi (proj1 Hv) Hok Hd).
       apply (safe_deferred _ _ _ _ c); [done|done| |].
       - by apply (deferred_of_ok op raw c flag format upd w Hi (proj1 Hv) (qw_heap w Hwf raw c (proj1 Hv)) Hok Hd).
       - by apply (deferred_of_keeps op c w). }
  all: destruct op; try done; cbn [write_method write_ok] in *; unfold safe,
    vpiml_value, vpiml_imm_value, vpiml_value64, vpiml_imm_value64, vpiml_value64_force_single,
    vpiml_imm_value64_force_single, vpiml_value_multi, vpiml_imm_value_multi, vpiml_value_fmt_str,
    vpiml_imm_value_fmt_str, vpiml_value_multi_beat, vpiml_imm_value_multi_beat, vpiml_value_str,
    vpiml_imm_value_str, vpiml_release_value; mrun Hg; rewrite ?Hi; mrun;
    try (cbn in Hd; destruct (detect_format s) as [final f]; try discriminate Hd; rewrite ?Hi);
    try (erewrite bind_Ret by (apply read_words_ok; exact Hok));
    try destruct (action_flag a =? vpiForceFlag);
    first [ by apply safe_put | apply (safe_put_vectors _ _ _ c); [done|done|by apply Hv|] ];
    first [ apply length_fill_u32 | apply length_fill_u64 | apply length_fill_u64_single
          | apply length_fill_multi; [rewrite length_take|]; lia ].
Qed.

Lemma safe_release_imm raw c w :
  quiet_put -> queue_wf w -> valid_handle w raw c -> safe (vpiml_release_imm_value raw) w.
Proof.
  intros Hq Hwf Hv. pose proof (handle_iff_raw w raw c Hwf Hv) as Hiff. destruct Hv as [Hc Hne].
  unfold vpiml_release_imm_value. unfold safe. mrun (ch_get_Some _ _ _ Hc).
  destruct (decide (raw ∈ pending w)) as [Hin|Hin].
  - pose proof (remove_stale_entry_spec (vpi_handle c) raw w ltac:(apply Hwf) Hin Hiff) as E.
    rewrite (bind_Ret _ _ _ _ _ (E ltac:(intros Hf; apply Hwf; by rewrite Hf))). clear E. cbn [when].
    erewrite bind_Ret; [|by apply ch_mod_Some]. mrun.
    apply (safe_then _ (requeue raw (set_put_value_flag None c) w) w); [apply (frame_requeue raw c); [done..|]|apply safe_put; [done|]].
    { intros [? ? ?]. split; [done|by intros [? ?]|done]. }
    destruct (qw_flags w Hwf) as (Hnd & Hfl & Hlive). split; cbn.
    + unfold pending. cbn. rewrite <- without_app. split_and!; [by apply NoDup_without| |].
      * intros r cr. rewrite lookup_insert_Some, elem_of_without. intros [[<- <-]|[Hr Hcr]].
        -- split; [by intros [? ?]|tauto].
        -- rewrite (Hfl r cr Hcr). unfold pending. naive_solver.
      * intros r. rewrite elem_of_without. intros [Hr Hrp]. rewrite lookup_insert_ne by done. by apply Hlive.
    + apply (distinct_insert _ _ c); [done|done|apply Hwf].
    + intros r cr. rewrite lookup_insert_Some. intros [[<- <-]|[_ Hr]]; [|by apply (qw_heap w Hwf r)].
      apply set_flag_None_wf. by apply (qw_heap w Hwf raw).
    + intros Hb. by rewrite (qw_bak w Hwf Hb).
  - mrun (remove_stale_entry_none (vpi_handle c) raw w Hin Hiff). cbn [when]. mrun. by apply safe_put.
Qed.

Lemma safe_sim_write op raw c s w :
  quiet_put -> queue_wf w -> valid_handle w raw c -> write_ok op c (set_w_sim s w) -> text_ok op ->
  match op with OpReleaseImm | OpShuffled | OpImmShuffled | OpFreeze | OpImmFreeze => False | _ => True end ->
  exists a w', write_method op raw (set_w_sim s w) = Ret a w' /\ queue_wf w' /\ frame w w'.
Proof.
  intros Hq Hwf Hv Hok Ht Hop. apply safe_then; [apply frame_sim|].
  apply (safe_plain op raw c); [done|by apply queue_wf_sim|done..].
Qed.

Lemma rand_spec (w : World Sim) : rand w = Ret (fst (libc_rand (w_sim w))) (set_w_sim (snd (libc_rand (w_sim w))) w).
Proof. unfold rand. by destruct (libc_rand (w_sim w)). Qed.

Lemma rand_words_spec n (w : World Sim) :
  exists l s, rand_words n w = Ret l (set_w_sim s w) /\ length l = n.
Proof.
  revert w. induction n as [|n IH]; intros w.
  - exists [], (w_sim w). by destruct w.
  - cbn [rand_words]. mrun (rand_spec w). destruct (IH (set_w_sim (snd (libc_rand (w_sim w))) w)) as (l & s & E & Hl).
    mrun E. eexists _, _. split; [done|]. cbn. by rewrite Hl.
Qed.

Lemma get_rand_value_spec {T} (v : ShuffledValueVec T) (w : World Sim) :
  rand_ok -> pool_ok v -> exists x s, get_rand_value v w = Ret x (set_w_sim s w) /\ x ∈ svec v.
Proof.
  intros Hr [Hl Hb]. unfold get_rand_value. mrun (rand_spec w).
  pose proof (Hr (w_sim w)) as Hrw. set (r := fst (libc_rand (w_sim w))) in *.
  rewrite (i32_small (slen v)) by (unfold in_width; lia).
  destruct (Z.eqb_spec (slen v) 0); [lia|]. cbn [negb assert_]. mrun.
  pose proof (Z.rem_bound_pos r (slen v) ltac:(lia) ltac:(lia)) as Hi.
  destruct (Z.ltb_spec (Z.rem r (slen v)) 0); [lia|].
  destruct (lookup_lt_is_Some_2 (svec v) (Z.to_nat (Z.rem r (slen v)))) as [x Hx]; [lia|].
  rewrite Hx. eexists _, _. split; [done|]. by apply list_elem_of_lookup_2 in Hx.
Qed.

Lemma safe_shuffled (imm : bool) raw c w :
  quiet_put -> rand_ok -> shuffle_ok c -> queue_wf w -> valid_handle w raw c ->
  safe (if imm then vpiml_set_imm_shuffled raw else vpiml_set_shuffled raw) w.
Proof.
  intros Hq Hr Hs Hwf Hv. pose proof (ch_get_Some _ _ _ (proj1 Hv)) as Hg. unfold shuffle_ok in Hs.
  assert (forall op s, write_ok op c (set_w_sim s w) -> text_ok op ->
    match op with OpReleaseImm | OpShuffled | OpImmShuffled | OpFreeze | OpImmFreeze => False | _ => True end ->
    exists a w', write_method op raw (set_w_sim s w) = Ret a w' /\ queue_wf w' /\ frame w w') as Hw.
  { intros op s Hok Ht Hop. by apply (safe_sim_write op raw c). }
  destruct imm; unfold vpiml_set_shuffled, vpiml_set_imm_shuffled, safe; mrun Hg;
    destruct (random_value_vec_type c).
  - destruct (width c <=? 32); [mrun (rand_spec w); by apply (Hw (OpImmValue ASet _))|].
    destruct (width c <=? 64).
    + unfold rand_u64. mrun (rand_spec w). mrun (rand_spec (set_w_sim (snd (libc_rand (w_sim w))) w)).
      by apply (Hw (OpImmValue64 ASet _)).
    + destruct (rand_words_spec (beat_num c) w) as (l & s & E & Hl). mrun E.
      apply (Hw (OpImmMulti ASet _)); [cbn; lia|done..].
  - destruct (get_rand_value_spec _ w Hr Hs) as (x & s & E & _). mrun E. by apply (Hw (OpImmValue ASet _)).
  - destruct (get_rand_value_spec _ w Hr Hs) as (x & s & E & _). mrun E. by apply (Hw (OpImmValue64 ASet _)).
  - destruct Hs as [Hs Hn]. destruct (get_rand_value_spec _ w Hr Hs) as (x & s & E & Hx). mrun E.
    rewrite Forall_forall in Hn. rewrite (Hn x Hx). cbn [negb assert_]. mrun.
    exact (Hw (OpImmFmtStr ASet vpiHexStrVal (as_bytes x)) s I I I).
  - destruct (width c <=? 32); [mrun (rand_spec w); by apply (Hw (OpValue ASet _))|].
    destruct (width c <=? 64).
    + unfold rand_u64. mrun (rand_spec w). mrun (rand_spec (set_w_sim (snd (libc_rand (w_sim w))) w)).
      by apply (Hw (OpValue64 ASet _)).
    + destruct (rand_words_spec (beat_num c) w) as (l & s & E & Hl). mrun E.
      apply (Hw (OpMulti ASet _)); [cbn; lia|done..].
  - destruct (get_rand_value_spec _ w Hr Hs) as (x & s & E & _). mrun E. by apply (Hw (OpValue ASet _)).
  - destruct (get_rand_value_spec _ w Hr Hs) as (x & s & E & _). mrun E. by apply (Hw (OpValue64 ASet _)).
  - destruct Hs as [Hs Hn]. destruct (get_rand_value_spec _ w Hr Hs) as (x & s & E & Hx). mrun E.
    rewrite Forall_forall in Hn. unfold vpiml_value_fmt_string.
    erewrite bind_Ret; [|apply ch_get_Some; by apply Hv].
    destruct inertial_put.
    + rewrite (Hn x Hx). cbn [negb assert_]. mrun.
      apply safe_then; [apply frame_sim|]. apply safe_put; [done|by apply queue_wf_sim].
    + apply safe_then; [apply frame_sim|]. apply (safe_deferred _ _ _ _ c); [by apply queue_wf_sim|done| |].
      * split_and!; [done..|]. intros H. exact H.
      * by apply keeps_ok_str, Hn.
Qed.

(** What the caller of a hexadecimal read sees. *)
Definition seen_string (c : ComplexHandle) (w : World Sim) : list byte :=
  let s := as_bytes (vpi_get_string (w_sim w) (vpi_handle c) vpiHexStrVal) in
  if vcs then drop (leading_spaces s) s
  else if iverilog && resolve_x_as_zero (w_env w) then map x_to_0 (drop (leading_spaces s) s)
  else s.

Lemma hex_read_spec raw c (w : World Sim) :
  strings_ok -> w_heap w !! raw = Some c ->
  utf8_valid (seen_string c w) = true /\
  exists buf, vpiml_get_value_hex_str raw w =
    Ret (seen_string c w) (set_w_heap (<[raw := set_get_value_str_buf buf c]> (w_heap w)) w).
Proof.
  intros Hs Hc. destruct (Hs (w_sim w) (vpi_handle c) vpiHexStrVal) as [Hn Ha]. split.
  - apply ascii_utf8. unfold seen_string, ascii. set (s := as_bytes _) in *.
    assert (Forall (fun b => byteZ b <= 0x7F) (drop (leading_spaces s) s)) as Hd by by apply Forall_drop.
    destruct vcs; [done|]. destruct (_ && _); [|done]. apply Forall_map. eapply Forall_impl; [exact Hd|].
    intros b Hb. cbn in *. unfold x_to_0. by case_bool_decide.
  - by apply (get_value_fmt_str_facts vpiHexStrVal raw c w).
Qed.

Lemma buf_upd_ok buf c : upd_ok_at (set_get_value_str_buf buf) c.
Proof. split_and!; [done..|]. intros H. exact H. Qed.

Lemma seen_c_string c (w : World Sim) : strings_ok -> c_string (seen_string c w).
Proof.
  intros Hs. destruct (Hs (w_sim w) (vpi_handle c) vpiHexStrVal) as [Hn _]. unfold seen_string, c_string.
  set (s := as_bytes _) in *.
  assert (x00 ∉ drop (leading_spaces s) s) as Hd.
  { intros Hin. apply Hn. rewrite <- (take_drop (leading_spaces s) s). apply elem_of_app. by right. }
  destruct vcs; [done|]. destruct (_ && _); [|done].
  intros Hin. apply list_elem_of_fmap in Hin as (b & Hb & Hin). unfold x_to_0 in Hb.
  case_bool_decide; [done|]. by subst.
Qed.

Lemma safe_freeze (imm : bool) raw c w :
  quiet_put -> strings_ok -> queue_wf w -> valid_handle w raw c ->
  safe (if imm then vpiml_set_imm_freeze raw else vpiml_set_freeze raw) w.
Proof.
  intros Hq Hs Hwf [Hc Hne]. destruct (hex_read_spec raw c w Hs Hc) as (Hu & buf & E).
  pose proof (queue_wf_upd raw _ c w Hwf Hc (buf_upd_ok buf c)) as Hwf1.
  assert (frame w (set_w_heap (<[raw := set_get_value_str_buf buf c]> (w_heap w)) w)) as Hfr.
  { apply (frame_heap raw c); [done..|]. intros [? ? ?]. by split. }
  pose proof (seen_c_string c w Hs) as Hcs.
  unfold vpiml_set_imm_freeze, vpiml_set_freeze, safe.
  destruct imm; mrun E; (apply safe_then; [exact Hfr|]).
  - apply (safe_plain (OpImmFmtStr AForce vpiHexStrVal (seen_string c w)) raw (set_get_value_str_buf buf c)); [done|done| |done|by split|done].
    split; [cbn; apply lookup_insert_eq|done].
  - apply (safe_plain (OpFmtStr AForce vpiHexStrVal (seen_string c w)) raw (set_get_value_str_buf buf c)); [done|done| | |by split|done].
    + split; [cbn; apply lookup_insert_eq|done].
    + by right.
Qed.

Lemma exported_write_facts op raw c (w : World Sim) :
  quiet_put -> queue_wf w -> valid_handle w raw c -> rd_phase_active (w_env w) = false -> call_ok op c w ->
  exists w', exported_write op raw w = Ret tt w' /\ queue_wf w' /\ frame w w'.
Proof.
  intros Hq Hwf Hv Hrd (Hok & Ht & Hop).
  rewrite (exported_write_open op raw c) by (try apply Hv; try done; by apply (qw_heap w Hwf raw), Hv).
  enough (safe (write_method op raw) w) as (a & w' & E & H).
  { exists w'. by destruct a. }
  destruct op; try (by apply (safe_plain _ raw c)).
  - by apply (safe_release_imm raw c).
  - destruct Hop. by apply (safe_shuffled false raw c).
  - destruct Hop. by apply (safe_shuffled true raw c).
  - by apply (safe_freeze false raw c).
  - by apply (safe_freeze true raw c).
Qed.

(** C10: every exported write is total and keeps the queue invariant.  On a
    simulator whose puts run no callbacks, each of the twenty exported writes,
    with usable arguments and outside the ReadOnly phase, returns and leaves a
    well-formed queue, in particular the consistency assertion of
    [try_put_value] never fails; and it stays within the write frame: apart from
    buffers, queue and trace nothing changes but a requested flush callback. *)
Theorem exported_write_safe op raw c (w : World Sim) :
  quiet_put -> queue_wf w -> valid_handle w raw c -> rd_phase_active (w_env w) = false -> call_ok op c w ->
  exists w', exported_write op raw w = Ret tt w' /\ queue_wf w' /\ frame w w'.
Proof. apply exported_write_facts. Qed.

(** A freeze queues a force of the value the signal has now: the hexadecimal
    string the simulator reports (as the backend's reads normalise it). *)
Theorem freeze_forces_current_value raw c (w : World Sim) :
  inertial_put = false -> strings_ok -> queue_wf w -> valid_handle w raw c ->
  exists w', vpiml_set_freeze raw w = Ret tt w' /\ queue_wf w' /\
    abs_queue w' = abs_put (mkWrite raw (vpi_handle c) vpiForceFlag
      (if has_nul (of_bytes (seen_string c w)) then inl "CString::new: string contains a nul byte"%string
       else inr (VStr vpiHexStrVal (of_bytes (seen_string c w))))) (abs_queue w).
Proof.
  intros Hi Hs Hwf [Hc Hne]. destruct (hex_read_spec raw c w Hs Hc) as (Hu & buf & E).
  pose proof (queue_wf_upd raw _ c w Hwf Hc (buf_upd_ok buf c)) as Hwf1.
  set (c1 := set_get_value_str_buf buf c) in *. set (w1 := set_w_heap _ w) in *.
  unfold vpiml_set_freeze. mrun E.
  destruct (deferred_write_facts (OpFmtStr AForce vpiHexStrVal (seen_string c w)) raw c1 vpiForceFlag vpiHexStrVal
    (set_put_value_str (of_bytes (seen_string c w))) w1) as (w2 & E2 & Hwf2 & Ha);
    [done|done| |by right|done|].
  { split; [cbn; apply lookup_insert_eq|done]. }
  exists w2. split; [exact E2|]. split; [done|]. rewrite Ha. f_equal.
  unfold abs_queue. change (pending w1) with (pending w).
  assert (forall r, write_of (w_heap w1) r = write_of (w_heap w) r) as Hw.
  { intros r. unfold write_of, w1. cbn. destruct (decide (r = raw)) as [->|]; [|by rewrite lookup_insert_ne].
    by rewrite lookup_insert_eq, Hc. }
  induction (pending w) as [|r q IH]; [done|]. by rewrite !omap_cons, Hw, IH.
Qed.

End Setters.

(* ------------------------------------------------------------------ *)
(** ** Witnesses *)

Lemma no_write_in_rd_phase_witness :
  exported_write (F := verilator_features) (OpValue ASet 1) 1 (set_w_env (set_rd_phase_active true (w_env demo_world)) demo_world) =
    Panic "Attempting to write an HDL value during the ReadOnly phase"
      (set_w_env (set_rd_phase_active true (w_env demo_world)) demo_world).
Proof.
  exact (no_write_in_rd_phase (F := verilator_features) (OpValue ASet 1) 1 (demo_ch 11)
    (set_w_env (set_rd_phase_active true (w_env demo_world)) demo_world) eq_refl eq_refl eq_refl).
Defined.

Definition forced_world : World CountSim :=
  set_w_heap (<[1 := stamped vpiForceFlag vpiIntVal (demo_ch 11)]> demo_heap)
    (set_w_env (set_hdl_put_value [1] VeriluaEnv_default) demo_world).

Lemma forced_wf {F : Features} : queue_wf forced_world.
Proof.
  destruct (queued_wf (F := wave_vpi_features) 1 (demo_ch 11) (stamped vpiForceFlag vpiIntVal (demo_ch 11)) demo_world)
    as [H1 H2 H3 _]; [apply demo_wf|apply demo_valid1|done|by eexists|by apply stamped_wf, (qw_heap _ demo_wf 1)|].
  split; [exact H1|exact H2|exact H3|done].
Qed.

Lemma force_shields_from_set_witness :
  write_method (F := verilator_features) (OpValue64 ASet 3) 1 forced_world = Ret tt forced_world.
Proof.
  apply (force_shields_from_set (F := verilator_features) (OpValue64 ASet 3) 1
    (stamped vpiForceFlag vpiIntVal (demo_ch 11)) vpiVectorVal (upd_vectors (fill_u64 2 3)) forced_world).
  - reflexivity.
  - apply forced_wf.
  - split; [vm_compute; reflexivity|discriminate].
  - exact I.
  - reflexivity.
  - reflexivity.
Defined.

Lemma value64_queued_exactly_witness :
  exists l, wr_value (new_write 1 vpiNoDelay vpiVectorVal (upd_vectors (fill_u64 2 (2 ^ 40 + 1))) (demo_ch 11)) = inr (VVec l) /\
    vec_value (take 2 l) = 2 ^ 40 + 1.
Proof.
  destruct (value64_queued_exactly ASet (2 ^ 40 + 1) 1 (demo_ch 11) demo_world
    ltac:(unfold in_width; lia) (qw_heap (F := verilator_features) demo_world demo_wf 1 (demo_ch 11) eq_refl)) as (fl & fm & upd & l & Hd & Hl & _ & Hv & _).
  injection Hd as <- <- <-. exists l. split; [exact Hl|exact Hv].
Defined.

Lemma value_multi_queued_exactly_witness :
  exists l, wr_value (new_write 1 vpiForceFlag vpiVectorVal (upd_vectors (fill_multi 2 [3; 4])) (demo_ch 11)) = inr (VVec l) /\
    map (fun x => u32 (aval x)) (take 2 l) = [3; 4].
Proof.
  destruct (value_multi_queued_exactly AForce [3; 4; 5] 1 (demo_ch 11) demo_world
    (qw_heap (F := verilator_features) demo_world demo_wf 1 (demo_ch 11) eq_refl) ltac:(cbn; lia)
    ltac:(repeat (apply List.Forall_cons; [unfold in_width; lia|]); apply List.Forall_nil))
    as (fl & fm & upd & l & Hd & Hl & _ & Hv & _).
  injection Hd as <- <- <-. exists l. split; [exact Hl|exact Hv].
Defined.

Lemma count_rand_ok : rand_ok (Sim := CountSim).
Proof. intros s. cbn. by apply Z.mod_pos_bound. Qed.

Lemma count_strings_ok : strings_ok (Sim := CountSim).
Proof. intros s h f. split; [vm_compute; set_solver|]. by repeat constructor. Qed.

Lemma exported_write_safe_witness :
  exists w', exported_write (F := verilator_features) OpShuffled 1 demo_world = Ret tt w' /\ queue_wf (F := verilator_features) w'.
Proof.
  destruct (exported_write_safe (F := verilator_features) OpShuffled 1 (demo_ch 11) demo_world count_quiet
    demo_wf demo_valid1 eq_refl (conj I (conj I (conj count_rand_ok I)))) as (w' & E & Hwf & _).
  exists w'. split; [exact E|exact Hwf].
Defined.

Lemma freeze_forces_current_value_witness :
  exists w', vpiml_set_freeze (F := verilator_features) 1 demo_world = Ret tt w' /\
    abs_queue w' = [mkWrite 1 11 vpiForceFlag (inr (VStr vpiHexStrVal "0"))].
Proof.
  destruct (freeze_forces_current_value (F := verilator_features) 1 (demo_ch 11) demo_world eq_refl
    count_strings_ok demo_wf demo_valid1) as (w' & E & _ & Ha).
  exists w'. split; [exact E|]. rewrite Ha. vm_compute. reflexivity.
Defined.

(* ------------------------------------------------------------------ *)
(** ** Two behaviours the buffer sharing gives *)

Definition puts_of (t : list Event) : list (Z * Z) :=
  omap (fun e => match e with EvPut h (VVec l) _ => Some (h, vec_value (take 2 l)) | _ => None end) t.

(** A deferred 32-bit write does not clear the upper words: after a 64-bit
    write of [2^32 + 2] was flushed, writing [7] drives [2^32 + 7].  The
    immediate and inertial forms of the same setter do clear them. *)
Theorem deferred_value_keeps_upper_words :
  (exists w', (vpiml_value64 (F := verilator_features) ASet 1 (2 ^ 32 + 2) ;; apply_pending_put_values (F := verilator_features) 2 ;;
     vpiml_value (F := verilator_features) ASet 1 7 ;; apply_pending_put_values (F := verilator_features) 2) demo_world = Ret tt w' /\
     puts_of (w_trace w') = [(11, 2 ^ 32 + 2); (11, 2 ^ 32 + 7)]) /\
  (exists w', (vpiml_imm_value64 ASet 1 (2 ^ 32 + 2) ;; vpiml_imm_value ASet 1 7) demo_world = Ret tt w' /\
     puts_of (w_trace w') = [(11, 2 ^ 32 + 2); (11, 7)]).
Proof. split; (eexists; split; [vm_compute; reflexivity|vm_compute; reflexivity]). Qed.

(** An immediate write shares the buffer of a pending deferred write: the
    value 5 queued first is replaced by the 9 written at once, and the flush
    drives 9 again. *)
Theorem immediate_write_replaces_pending_value :
  exists w', (vpiml_value64 (F := verilator_features) ASet 1 5 ;; vpiml_imm_value64 ASet 1 9 ;;
     apply_pending_put_values (F := verilator_features) 2) demo_world = Ret tt w' /\
    puts_of (w_trace w') = [(11, 9); (11, 9)].
Proof. eexists. split; [vm_compute; reflexivity|vm_compute; reflexivity]. Qed.
