(* ===== verification/ValueQueued.v ===== *)
(** * What a deferred write queues

    The exported deferred writes of [libverilua/src/vpi_access/value_setters.rs]
    against a specification of the value each one is asked for ([asked]): numbers,
    words and texts as the arguments denote them, and the words of the 32-word buffer
    that the write leaves as they were.  It does not mention the routines that
    fill the buffer. *)

From S2P Require Import Prelude Bytes State Backend PutQueue Frame ValueSetters.
#[local] Open Scope Z_scope.

(** ** The words of a buffer *)

(** Word [i] has the number [v] modulo [2 ^ 32]. *)
Definition word_at (l : list t_vpi_vecval) (i : nat) (v : Z) : Prop :=
  exists x, l !! i = Some x /\ u32 (aval x) = v mod 2 ^ 32.

(** The X and Z bits of word [i] are those it had. *)
Definition xz_kept (l old : list t_vpi_vecval) (i : nat) : Prop := bval <$> l !! i = bval <$> old !! i.

(** The deferred writes. *)
Definition deferred_op (op : WriteOp) : bool :=
  match op with
  | OpValue _ _ | OpValue64 _ _ | OpValue64Single _ _ | OpMulti _ _ | OpFmtStr _ _ _ | OpMultiBeat _ _ | OpStr _ _ | OpRelease => true
  | _ => false
  end.

Definition asked_flag (op : WriteOp) : Z :=
  match op with
  | OpValue a _ | OpValue64 a _ | OpValue64Single a _ | OpMulti a _ | OpFmtStr a _ _ | OpMultiBeat a _ | OpStr a _ =>
      match a with ASet => vpiNoDelay | AForce => vpiForceFlag end
  | _ => vpiReleaseFlag
  end.

(** [n] words of the signal, [old] the buffer before, [sim] the words the simulator
    reports for the signal. *)
Definition asked_words (op : WriteOp) (n : nat) (old sim l : list t_vpi_vecval) : Prop :=
  match op with
  | OpValue _ v => word_at l 0 v /\ xz_kept l old 0 /\ drop 1 l = drop 1 old
  | OpValue64 _ v =>
      vec_value (take (Nat.max 2 n) l) = v /\ two_state (take (Nat.max 2 n) l) /\ drop (Nat.max 2 n) l = drop (Nat.max 2 n) old
  | OpValue64Single _ v =>
      vec_value (take (Nat.max 2 n) l) = v /\ two_state (take n l) /\ drop (Nat.max 2 n) l = drop (Nat.max 2 n) old
  | OpMulti _ vs =>
      (forall i v, (i < n)%nat -> vs !! i = Some v -> word_at l i v) /\ two_state (take n l) /\ drop n l = drop n old
  | OpMultiBeat _ vs =>
      (forall i v, vs !! i = Some v -> word_at l i v) /\ (forall i, xz_kept l old i) /\ drop (length vs) l = drop (length vs) old
  | OpRelease => take n l = take n sim /\ drop n l = drop n old
  | _ => False
  end.

(** The value an operation asks to be queued. *)
Definition asked (op : WriteOp) (n : nat) (old sim : list t_vpi_vecval) (v : s_vpi_value) : Prop :=
  match op, v with
  | OpFmtStr _ f s, VStr f' t => f' = f /\ as_bytes t = s
  | OpStr _ s, VStr f' t =>
      (forall r, s = ["0"; "b"]%byte ++ r -> f' = vpiBinStrVal /\ as_bytes t = r) /\
      (forall r, s = ["0"; "x"]%byte ++ r -> f' = vpiHexStrVal /\ as_bytes t = r) /\
      ((forall r, s <> ["0"; "b"]%byte ++ r /\ s <> ["0"; "x"]%byte ++ r) -> f' = vpiDecStrVal /\ as_bytes t = s)
  | _, VVec l => length l = MAX_VECTOR_SIZE /\ asked_words op n old sim l
  | _, _ => False
  end.

(** The numbers are unsigned integers of their C types, the beats fit the buffer. *)
Definition numbers_ok (op : WriteOp) : Prop :=
  match op with
  | OpValue64 _ v | OpValue64Single _ v => in_width 64 v
  | OpMultiBeat _ vs => (length vs <= MAX_VECTOR_SIZE)%nat
  | _ => True
  end.

(** ** The routines that fill the buffer *)

Lemma u32_mod v : u32 (i32 v) = v mod 2 ^ 32.
Proof. apply u32_i32. Qed.

Lemma set_aval_lookup i v l j :
  set_aval i v l !! j = if decide (i = j) then (fun x => mkVec (i32 v) (bval x)) <$> l !! j else l !! j.
Proof.
  unfold set_aval. destruct (decide (i = j)) as [->|Hne]; [by rewrite list_lookup_alter_eq|by rewrite list_lookup_alter_ne].
Qed.

Lemma set_aval_asked a v n old sim : length old = MAX_VECTOR_SIZE -> asked_words (OpValue a v) n old sim (set_aval 0 v old).
Proof.
  intros Hl. destruct old as [|x old]; [done|]. cbn. split; [exists (mkVec (i32 v) (bval x)); split; [done|apply u32_mod]|done].
Qed.

Lemma drop_zero_range k n m l : (n <= m)%nat -> (n <= length l)%nat -> drop m (zero_range k n l) = drop m l.
Proof.
  intros Hn Hl. apply list_eq. intros i. rewrite !lookup_drop, zero_range_lookup by done. by rewrite decide_False by lia.
Qed.

Lemma fill_u64_asked a v n old sim :
  in_width 64 v -> length old = MAX_VECTOR_SIZE -> (n <= MAX_VECTOR_SIZE)%nat ->
  asked_words (OpValue64 a v) n old sim (fill_u64 n v old).
Proof.
  intros Hv Hl Hn. cbn [asked_words]. rewrite take_fill_u64 by (unfold MAX_VECTOR_SIZE in *; lia). split_and!.
  - by apply vec_value_u64.
  - repeat (apply List.Forall_cons; [done|]). apply two_state_zeros.
  - unfold fill_u64. rewrite !drop_insert_lt by lia. apply drop_zero_range; lia.
Qed.

(** The single-word order of [vpiml_<action>_value64_force_single]: the low word comes
    out of a shift left and right. *)
Lemma low_word v : in_width 64 v -> Z.shiftr (u64 (Z.shiftl v 32)) 32 = v mod 2 ^ 32.
Proof.
  intros Hv. unfold u64, wrap. rewrite Z.shiftr_div_pow2, Z.shiftl_mul_pow2 by lia.
  change (2 ^ 64) with (2 ^ 32 * 2 ^ 32). rewrite Zmult_mod_distr_r, Z.div_mul; lia.
Qed.

Lemma fill_u64_single_words n v l :
  in_width 64 v -> (2 <= length l)%nat -> (n <= length l)%nat ->
  exists b0 b1, take (Nat.max 2 n) (fill_u64_single n v l) = mkVec (i32 (v mod 2 ^ 32)) b0 :: mkVec (i32 (hi32 v)) b1 :: replicate (n - 2) vec0 /\
    ((1 <= n)%nat -> b0 = 0) /\ ((2 <= n)%nat -> b1 = 0).
Proof.
  intros Hv H2 Hn. unfold fill_u64_single. rewrite low_word by done. set (z := zero_range 0 n l).
  assert (length z = length l) as Hz by apply length_zero_range.
  destruct (lookup_lt_is_Some_2 z 0) as [x0 H0]; [lia|]. destruct (lookup_lt_is_Some_2 z 1) as [x1 H1]; [lia|].
  exists (bval x0), (bval x1).
  assert (forall i, (i < n)%nat -> z !! i = Some vec0) as Hzero.
  { intros i Hi. unfold z. rewrite zero_range_lookup by lia. by rewrite decide_True by lia. }
  split; [|split; intros Hi].
  - apply list_eq. intros i. destruct (decide (i < Nat.max 2 n)%nat) as [Hi|Hi].
    + rewrite lookup_take_lt, !set_aval_lookup by done. destruct i as [|[|i]]; cbn [decide].
      * rewrite decide_True, decide_False by done. by rewrite H0.
      * rewrite decide_False, decide_True by done. by rewrite H1.
      * rewrite !decide_False by done. rewrite Hzero by lia. symmetry. apply (lookup_replicate_2 (n - 2) vec0 i). lia.
    + rewrite lookup_take_ge by lia. symmetry. apply lookup_ge_None. cbn. rewrite length_replicate. lia.
  - rewrite Hzero in H0 by lia. by injection H0 as <-.
  - rewrite Hzero in H1 by lia. by injection H1 as <-.
Qed.

Lemma fill_u64_single_asked a v n old sim :
  in_width 64 v -> length old = MAX_VECTOR_SIZE -> (n <= MAX_VECTOR_SIZE)%nat ->
  asked_words (OpValue64Single a v) n old sim (fill_u64_single n v old).
Proof.
  intros Hv Hl Hn. destruct (fill_u64_single_words n v old Hv) as (b0 & b1 & E & H0 & H1); [unfold MAX_VECTOR_SIZE in *; lia..|].
  cbn [asked_words]. rewrite E. split_and!.
  - transitivity (vec_value (word (lo32 v) :: word (hi32 v) :: replicate (n - 2) vec0)); [|by apply vec_value_u64].
    unfold vec_value. cbn [fold_right aval word]. by rewrite lo32_mod.
  - replace (take n (fill_u64_single n v old)) with (take n (take (Nat.max 2 n) (fill_u64_single n v old))) by (rewrite take_take; f_equal; lia).
    rewrite E. destruct n as [|[|n]]; [constructor| |].
    + repeat constructor. cbn. apply H0. lia.
    + cbn [take]. repeat (apply List.Forall_cons; [cbn; first [apply H0; lia|apply H1; lia]|]). apply Forall_take, two_state_zeros.
  - unfold fill_u64_single, set_aval. apply list_eq. intros i. rewrite !lookup_drop.
    rewrite !list_lookup_alter_ne by lia. rewrite zero_range_lookup by lia. by rewrite decide_False by lia.
Qed.

Lemma fill_multi_asked a vs n old sim :
  length old = MAX_VECTOR_SIZE -> (n <= MAX_VECTOR_SIZE)%nat -> (n <= length vs)%nat ->
  asked_words (OpMulti a vs) n old sim (fill_multi n (take n vs) old).
Proof.
  intros Hl Hn Hvs. unfold fill_multi. rewrite take_take, Nat.min_id. cbn [asked_words].
  assert (length (map word (take n vs)) = n) as Hlen by (rewrite length_map, length_take; lia).
  rewrite take_app_length', drop_app_length' by done. split_and!; [|apply Forall_map, Forall_true; by intros|done].
  intros i v Hi Hv. exists (word v). split; [|apply u32_mod]. rewrite lookup_app_l by lia.
  change (map word) with (fmap (M := list) word). by rewrite list_lookup_fmap, lookup_take_lt, Hv by done.
Qed.

Lemma fill_avals_lookup vs : forall i l j,
  fill_avals i vs l !! j = match vs !! (j - i)%nat with
    | Some v => if decide (i <= j)%nat then (fun x => mkVec (i32 v) (bval x)) <$> l !! j else l !! j
    | None => l !! j end.
Proof.
  induction vs as [|v vs IH]; intros i l j; [done|]. cbn [fill_avals]. rewrite IH.
  destruct (decide (j < i)%nat) as [Hlt|Hge].
  - replace (j - S i)%nat with O by lia. replace (j - i)%nat with O by lia.
    change ((v :: vs) !! O) with (Some v). destruct (vs !! 0%nat); by rewrite ?set_aval_lookup, !decide_False by lia.
  - destruct (decide (i = j)) as [->|Hne].
    + replace (j - S j)%nat with O by lia. replace (j - j)%nat with O by lia. change ((v :: vs) !! O) with (Some v).
      destruct (vs !! 0%nat); by rewrite set_aval_lookup, ?(decide_False (P := (S j <= j)%nat)), !decide_True by lia.
    + replace (j - i)%nat with (S (j - S i)) by lia. change ((v :: vs) !! S ?k) with (vs !! k).
      rewrite set_aval_lookup, (decide_False (P := i = j)) by done. destruct (vs !! (j - S i)%nat); [|done].
      by rewrite !decide_True by lia.
Qed.

Lemma fill_avals_asked a vs n old sim :
  length old = MAX_VECTOR_SIZE -> (length vs <= MAX_VECTOR_SIZE)%nat ->
  asked_words (OpMultiBeat a vs) n old sim (fill_avals 0 vs old).
Proof.
  intros Hl Hvs. cbn [asked_words]. split_and!.
  - intros i v Hv. assert (i < length vs)%nat by by eapply lookup_lt_Some.
    destruct (lookup_lt_is_Some_2 old i) as [x Hx]; [lia|]. exists (mkVec (i32 v) (bval x)). split; [|apply u32_mod].
    rewrite fill_avals_lookup, Nat.sub_0_r, Hv, decide_True, Hx by lia. done.
  - intros i. unfold xz_kept. rewrite fill_avals_lookup, Nat.sub_0_r.
    destruct (vs !! i); [|done]. rewrite decide_True by lia. by destruct (old !! i).
  - apply list_eq. intros i. rewrite !lookup_drop, fill_avals_lookup, Nat.sub_0_r. by rewrite lookup_ge_None_2 by lia.
Qed.

(** ** The value queued is the value asked for *)

Section Queued.
Context {Sim : Type} `{!VpiBackend Sim} {F : Features}.

Lemma pending_str f t c : str_format f = true -> has_nul t = false ->
  forall flag, pending_value (set_put_value_str t (stamped flag f c)) = inr (VStr f t).
Proof.
  intros Hf Ht flag. unfold pending_value. cbn. rewrite Ht. unfold str_format in Hf.
  repeat match type of Hf with context [?a =? ?b] => destruct (Z.eqb_spec a b) as [->|]; [done|] end. done.
Qed.

Lemma prefix_cases (s : list byte) n (p : list byte) : length p = n -> (take n s = p <-> exists r, s = p ++ r).
Proof.
  intros Hp. split.
  - intros E. exists (drop n s). by rewrite <- E, take_drop.
  - intros [r ->]. by apply take_app_length'.
Qed.

Lemma detect_asked a s n old sim : c_string s ->
  let '(final, f) := detect_format s in asked (OpStr a s) n old sim (VStr f (of_bytes final)).
Proof.
  intros Hs. unfold detect_format.
  pose proof (prefix_cases s 2 [x30; x62] eq_refl) as Hb. pose proof (prefix_cases s 2 [x30; x78] eq_refl) as Hx.
  destruct (bool_decide_reflect (take 2 s = [x30; x62])) as [E|E]; [|destruct (bool_decide_reflect (take 2 s = [x30; x78])) as [E'|E']];
    cbn [asked]; rewrite as_bytes_of_bytes; split_and!.
  - intros r ->. split; [done|]. by rewrite drop_app_length'.
  - intros r ->. discriminate E.
  - intros Hn. apply Hb in E as [r ->]. by destruct (proj1 (Hn r)).
  - intros r ->. discriminate E'.
  - intros r ->. split; [done|]. by rewrite drop_app_length'.
  - intros Hn. apply Hx in E' as [r ->]. by destruct (proj2 (Hn r)).
  - intros r ->. destruct E. done.
  - intros r ->. destruct E'. done.
  - done.
Qed.

(** The words the simulator reports for the signal. *)
Definition reported (c : ComplexHandle) (w : World Sim) : list t_vpi_vecval := snd (vpi_get_vector (w_sim w) (vpi_handle c)).

Lemma release_asked n old sim :
  length old = MAX_VECTOR_SIZE -> (n <= MAX_VECTOR_SIZE)%nat -> (n <= length sim)%nat ->
  length (take n sim ++ drop n old) = MAX_VECTOR_SIZE /\ asked_words OpRelease n old sim (take n sim ++ drop n old).
Proof.
  intros Hl Hn Hs. assert (length (take n sim) = n) as Hlen by (rewrite length_take; lia). split.
  - rewrite length_app, length_drop. lia.
  - cbn [asked_words]. by rewrite take_app_length', drop_app_length'.
Qed.

Lemma deferred_op_of op c w : deferred_op op = true -> exists flag format upd, deferred_of op c w = Some (flag, format, upd).
Proof. destruct op; cbn; try done; intros _; try by do 3 eexists. destruct (detect_format s) as [final f]. by do 3 eexists. Qed.

Lemma deferred_value op raw c w flag format upd :
  inertial_put = false -> ch_wf c -> write_ok op c w -> text_ok op -> numbers_ok op ->
  deferred_of op c w = Some (flag, format, upd) ->
  let x := new_write raw flag format upd c in
  wr_raw x = raw /\ wr_obj x = vpi_handle c /\ wr_flag x = asked_flag op /\
  exists v, wr_value x = inr v /\ asked op (beat_num c) (put_value_vectors c) (reported c w) v.
Proof.
  intros Hi (Hl & Hb & _) Hok Ht Hn Hd x. unfold x, new_write. cbn [wr_raw wr_obj wr_flag wr_value].
  split; [done|]. split; [done|].
  destruct op; cbn in Hd; try discriminate Hd; try (injection Hd as <- <- <-).
  - split; [by destruct a|]. eexists. split; [done|]. split; [cbn; unfold set_aval; by rewrite length_alter|].
    by apply set_aval_asked.
  - split; [by destruct a|]. eexists. split; [done|]. split; [cbn; unfold fill_u64; by rewrite !length_insert, length_zero_range|].
    by apply fill_u64_asked.
  - split; [by destruct a|]. eexists. split; [done|].
    split; [cbn; unfold fill_u64_single, set_aval; by rewrite !length_alter, length_zero_range|]. by apply fill_u64_single_asked.
  - cbn in Hok. split; [by destruct a|]. eexists. split; [done|].
    split; [cbn; rewrite length_fill_multi; [done|rewrite length_take; lia|lia]|]. by apply fill_multi_asked.
  - destruct Ht as [Hf Hs]. split; [by destruct a|]. exists (VStr format0 (of_bytes s)).
    split; [apply pending_str; [done|by apply c_string_nul]|]. split; [done|]. apply as_bytes_of_bytes.
  - split; [by destruct a|]. eexists. split; [done|]. split; [cbn; by rewrite length_fill_avals|]. by apply fill_avals_asked.
  - pose proof (detect_asked a s (beat_num c) (put_value_vectors c) (reported c w) Ht) as Ha.
    destruct (detect_format_ok s Ht) as [Hs Hf]. destruct (detect_format s) as [final f]. injection Hd as <- <- <-.
    split; [by destruct a|]. exists (VStr f (of_bytes final)). split; [|done]. apply pending_str; [done|by apply c_string_nul].
  - split; [done|]. destruct Hok as [|Hok]; [congruence|]. eexists. split; [done|].
    destruct (release_asked (beat_num c) (put_value_vectors c) (reported c w)) as [H1 H2]; [done..|]. by split.
Qed.

(** C9: refinement.  In a build without inertial puts and outside the ReadOnly phase
    every exported deferred write with usable arguments returns, keeps the queue invariant, and performs the abstract put
    of one entry: for the signal of its handle, with the flag of a set, a force or a
    release, and with the value asked for.  A 64-bit number is queued as exactly that
    number over the words of the signal (two at least), with no X or Z bit; an array as
    its words; a text as that text in its format, where [0b] and [0x] select binary
    and hexadecimal and are cut off; a release as the words the simulator reports.
    A 32-bit number replaces the number in the lowest word only, and separate beats
    replace the numbers in their words only: the X and Z bits and the further words
    stay what the last write left in the buffer.  Of two writes to a handle the last
    wins and goes to the end of the queue, except that a pending force yields only
    to a force or a release. *)
Theorem exported_deferred_write_refines op raw c (w : World Sim) :
  inertial_put = false -> rd_phase_active (w_env w) = false ->
  queue_wf w -> valid_handle w raw c -> write_ok op c w -> text_ok op -> numbers_ok op -> deferred_op op = true ->
  exists w' x v, exported_write op raw w = Ret tt w' /\ queue_wf w' /\
    wr_raw x = raw /\ wr_obj x = vpi_handle c /\ wr_flag x = asked_flag op /\ wr_value x = inr v /\
    asked op (beat_num c) (put_value_vectors c) (reported c w) v /\
    abs_queue w' = abs_put x (abs_queue w).
Proof.
  intros Hi Hrd Hwf Hv Hok Ht Hn Hop. destruct (deferred_op_of op c w Hop) as (flag & format & upd & Hd).
  pose proof (qw_heap w Hwf raw c (proj1 Hv)) as Hc.
  destruct (deferred_value op raw c w flag format upd Hi Hc Hok Ht Hn Hd) as (H1 & H2 & H3 & v & H4 & H5).
  destruct (deferred_write_facts op raw c flag format upd w Hi Hwf Hv Hok Hd) as (w' & E & Hwf' & Ha).
  exists w', (new_write raw flag format upd c), v.
  rewrite (exported_write_open op raw c) by (try apply Hv; try done; by apply Hc). by split_and!.
Qed.

End Queued.

Lemma exported_deferred_write_refines_witness :
  (exists w', exported_write (F := verilator_features) (OpStr ASet ["0"; "x"; "f"]%byte) 1 demo_world = Ret tt w' /\
     exists x, abs_queue w' = [x] /\ wr_value x = inr (VStr vpiHexStrVal "f")) /\
  (exists w' x l, exported_write (F := verilator_features) (OpValue64 AForce (2 ^ 40 + 1)) 1 demo_world = Ret tt w' /\
     abs_queue w' = [x] /\ wr_flag x = vpiForceFlag /\ wr_value x = inr (VVec l) /\ vec_value (take 2 l) = 2 ^ 40 + 1).
Proof.
  split.
  - destruct (exported_deferred_write_refines (F := verilator_features) (OpStr ASet ["0"; "x"; "f"]%byte) 1 (demo_ch 11)
      demo_world eq_refl eq_refl demo_wf demo_valid1 (or_intror eq_refl))
      as (w' & x & v & E & _ & _ & _ & Hf & Hv & Ha & Hq); [by apply (bool_decide_unpack _); vm_compute|done|done|].
    exists w'. split; [exact E|]. exists x. split; [exact Hq|]. rewrite Hv.
    destruct v as [|l|f t|i|i]; [destruct Ha|destruct Ha as [_ []]| |destruct Ha|destruct Ha]. destruct Ha as (_ & Hx & _). destruct (Hx ["f"%byte] eq_refl) as [-> Et].
    assert (t = "f"%string) as -> by (apply as_bytes_inj; exact Et). reflexivity.
  - destruct (exported_deferred_write_refines (F := verilator_features) (OpValue64 AForce (2 ^ 40 + 1)) 1 (demo_ch 11)
      demo_world eq_refl eq_refl demo_wf demo_valid1 I I) as (w' & x & v & E & _ & _ & _ & Hf & Hv & Ha & Hq);
      [unfold numbers_ok, in_width; lia|done|].
    destruct v as [i|l|f t|i|i]; [destruct Ha| |destruct Ha..]. exists w', x, l. split; [exact E|]. split; [exact Hq|]. split; [exact Hf|].
    split; [exact Hv|]. exact (proj1 (proj2 Ha)).
Defined.
