(* ===== verification/Handles.v ===== *)
(** * Looking up signals

    [libverilua/src/vpi_access/handle_getters.rs] and the plain getters of
    [meta_getters.rs]: the name cache [hdl_cache] and the creation of boxed
    [ComplexHandle]s.  Names are Rust strings: [c_char_to_string] is the identity
    on the valid UTF-8 the library is given, and a C string has no inner NUL. *)

From S2P Require Import Prelude Bytes State Backend PutQueue.
#[local] Open Scope Z_scope.

Section Handles.
Context {Sim : Type} `{!VpiBackend Sim} {F : Features}.
Local Abbreviation W := (W Sim).

(** Box a new handle and remember it under its name. *)
Definition create_handle (h wd : Z) (nm : string) : W Z :=
  let! chdl := ComplexHandle_new h nm wd in
  let! ptr := into_raw (set_ch_env true chdl) in
  env_mod (fun e => set_hdl_cache (<[nm := ptr]> (hdl_cache e)) e) ;; ret ptr.

(** [width as usize] of a [PLI_INT32] sign-extends. *)
Definition complex_handle_by_name (nm : string) : W Z :=
  let! cache := env_get hdl_cache in
  match cache !! nm with
  | Some hdl => ret hdl
  | None =>
      let! h := gets (fun w => vpi_handle_by_name_of (w_sim w) nm) in
      let! wd := gets (fun w => if h =? 0 then 0 else vpi_size_of (w_sim w) h) in
      create_handle h (u64 wd) nm
  end.

(** [format!("{}\[{}\]", name, idx)]. *)
Definition index_name (nm : string) (idx : Z) : string :=
  of_bytes (as_bytes nm ++ [x5b] ++ as_bytes (to_decimal idx) ++ [x5d]).

Definition vpiml_handle_by_index (raw idx : Z) : W Z :=
  let! c := ch_get raw in
  let final_name := index_name (name c) idx in
  let! cache := env_get hdl_cache in
  match cache !! final_name with
  | Some hdl => ret hdl
  | None =>
      let! h := gets (fun w => vpi_handle_by_index_of (w_sim w) (vpi_handle c) (i32 idx)) in
      assert_ (negb (h =? 0)) "No handle found" ;;
      let! wd := gets (fun w => vpi_size_of (w_sim w) h) in
      create_handle h (u64 wd) final_name
  end.

(** The exported lookup answers [-1] for a null [vpiHandle]. *)
Definition vpiml_handle_by_name_safe (nm : string) : W Z :=
  let! hdl := complex_handle_by_name nm in
  let! c := ch_get hdl in
  ret (if vpi_handle c =? 0 then -1 else hdl).

Definition vpiml_get_signal_width (raw : Z) : W Z :=
  let! c := ch_get raw in ret (width c).

(** ** Plain reads of VPI properties

    [MetaVpi]: what the simulator answers; an iteration is the list of the handles
    scanned, empty for a null iterator. *)
Class MetaVpi := {
  meta_str : Sim -> Z -> Z -> option string;        (* vpi_get_str(property, handle) *)
  meta_int : Sim -> Z -> Z -> Z;                    (* vpi_get(property, handle) *)
  meta_time : Sim -> Z * Z;                         (* vpi_get_time: high, low *)
  meta_iterate : Sim -> Z -> Z -> list Z            (* object type, parent *)
}.
Context {meta : MetaVpi}.

Definition meta_vpiType : Z := 1.
Definition meta_vpiName : Z := 2.
Definition meta_vpiTimePrecision : Z := 12.

Definition vpiml_get_hdl_type (raw : Z) : W (option string) :=
  let! c := ch_get raw in gets (fun w => meta_str (w_sim w) meta_vpiType (vpi_handle c)).

Definition vpiml_get_time_precision : W Z := gets (fun w => meta_int (w_sim w) meta_vpiTimePrecision 0).

(** Both halves are [u32]. *)
Definition vpiml_get_sim_time : W Z :=
  gets (fun w => let '(high, low) := meta_time (w_sim w) in Z.lor (u64 (Z.shiftl high 32)) low).

(** The printed lines: a name and a type per object; a null string is
    dereferenced. *)
Definition vpiml_iterate_vpi_type (module_name : string) (vpi_type : Z) : W (list (string * string)) :=
  let! raw := complex_handle_by_name module_name in
  let! c := ch_get raw in
  let! objs := gets (fun w => meta_iterate (w_sim w) vpi_type (vpi_handle c)) in
  let! lines := gets (fun w => mapM (fun h =>
    match meta_str (w_sim w) meta_vpiName h, meta_str (w_sim w) meta_vpiType h with
    | Some n, Some t => Some (n, t)
    | _, _ => None
    end) objs) in
  match lines with Some l => ret l | None => undefined "CStr::from_ptr(null)" end.

(** ** The cache invariant *)

Record cache_wf (w : World Sim) : Prop := {
  cw_cache : forall n r, hdl_cache (w_env w) !! n = Some r ->
    exists c, w_heap w !! r = Some c /\ name c = n /\ ch_env c = true;
  cw_next : forall r c, w_heap w !! r = Some c -> r < w_next w
}.

(** The world after boxing [c] under the name [nm]. *)
Definition boxed (nm : string) (c : ComplexHandle) (w : World Sim) : World Sim :=
  set_w_env (set_hdl_cache (<[nm := w_next w]> (hdl_cache (w_env w))) (w_env w))
    (set_w_heap (<[w_next w := c]> (w_heap w)) (set_w_next (w_next w + 1) w)).

Definition new_handle (h wd : Z) (nm : string) : ComplexHandle :=
  mkCH true h nm wd (Z.to_nat ((wd + 31) / 32)) 0 None 0 empty_str [] (replicate MAX_VECTOR_SIZE vec0)
    ∅ ∅ ∅ SvNone (mkShuffled [] 0) (mkShuffled [] 0) (mkShuffled [] 0).

(** The two halves of the simulation time, joined without overlap. *)
Lemma get_sim_time_spec (w : World Sim) high low : meta_time (w_sim w) = (high, low) ->
  0 <= high < 2 ^ 32 -> 0 <= low < 2 ^ 32 ->
  vpiml_get_sim_time w = Ret (high * 2 ^ 32 + low) w /\ 0 <= high * 2 ^ 32 + low < 2 ^ 64.
Proof.
  intros E Hh Hl. unfold vpiml_get_sim_time, gets. rewrite E. split; [|lia]. f_equal.
  rewrite Z.shiftl_mul_pow2 by lia. unfold u64, wrap. rewrite Z.mod_small by lia.
  rewrite Z.add_nocarry_lxor, Z.lxor_lor; [done|..]; apply Z.bits_inj'; intros n Hn; rewrite Z.land_spec, Z.bits_0;
    (destruct (Z.ltb_spec n 32); [by rewrite Z.mul_pow2_bits_low|]);
    rewrite (Z.bits_above_log2 low n), andb_false_r; try done; try lia;
    (destruct (Z.eq_dec low 0) as [->|]; [cbn; lia|]; pose proof (proj1 (Z.log2_lt_pow2 low 32 ltac:(lia)) ltac:(lia)); lia).
Qed.

Lemma beats_bound wd : 0 <= wd <= 1024 -> 0 <= (wd + 31) / 32 <= 32.
Proof.
  intros Hwd. assert ((wd + 31) / 32 < 33) by (apply Z.div_lt_upper_bound; lia).
  assert (0 <= (wd + 31) / 32) by (apply Z.div_pos; lia). lia.
Qed.

Lemma create_handle_spec h wd nm (w : World Sim) :
  0 <= wd <= 1024 -> create_handle h wd nm w = Ret (w_next w) (boxed nm (new_handle h wd nm) w).
Proof.
  intros Hwd. unfold create_handle, ComplexHandle_new, into_raw, alloc. mrun.
  change (Z.of_nat MAX_VECTOR_SIZE) with 32.
  pose proof (beats_bound wd Hwd).
  destruct (Z.leb_spec ((wd + 31) / 32) 32); [|lia]. done.
Qed.

Lemma boxed_cache_wf nm h wd (w : World Sim) :
  cache_wf w -> hdl_cache (w_env w) !! nm = None -> cache_wf (boxed nm (new_handle h wd nm) w).
Proof.
  intros [H1 H2] Hn. split; cbn.
  - intros n r. rewrite lookup_insert_Some. intros [[<- <-]|[Hne Hr]].
    + rewrite lookup_insert_eq. by eexists.
    + destruct (H1 n r Hr) as (c & Hc & Hnm). rewrite lookup_insert_ne by (specialize (H2 r c Hc); lia). eauto.
  - intros r c. rewrite lookup_insert_Some. intros [[<- _]|[_ Hr]]; [lia|]. specialize (H2 r c Hr). lia.
Qed.

Lemma boxed_queue_wf nm h wd (w : World Sim) :
  cache_wf w -> queue_wf w -> 0 <= wd <= 1024 ->
  (forall r c, w_heap w !! r = Some c -> vpi_handle c = h -> h = 0) ->
  queue_wf (boxed nm (new_handle h wd nm) w).
Proof.
  intros [_ Hnext] [(Hnd & Hfl & Hlive) Hd Hh Hb] Hwd Hfresh.
  assert (w_heap w !! w_next w = None) as Hnone.
  { destruct (w_heap w !! w_next w) as [c|] eqn:E; [|done]. specialize (Hnext _ _ E). lia. }
  split; cbn; [unfold pending in *; cbn; split_and!| | |done].
  - done.
  - intros r c. rewrite lookup_insert_Some. intros [[<- <-]|[_ Hr]]; [|by apply Hfl].
    split; [by intros [? ?]|]. intros Hin. destruct (Hlive _ Hin) as (c & Hc & _). congruence.
  - intros r Hin. destruct (Hlive _ Hin) as (c & Hc & Hne). exists c. split; [|done].
    rewrite lookup_insert_ne; [done|]. congruence.
  - intros r1 c1 r2 c2. rewrite !lookup_insert_Some.
    intros [[<- <-]|[Hn1 H1]] [[<- <-]|[Hn2 H2]] He Hne; cbn in *; [done|..].
    + exfalso. apply Hne. by apply (Hfresh r2 c2).
    + exfalso. apply Hne. rewrite He. by apply (Hfresh r1 c1).
    + by apply (Hd r1 c1 r2 c2).
  - intros r c. rewrite lookup_insert_Some. intros [[_ <-]|[_ Hr]]; [|by apply (Hh r)].
    split_and!; cbn; [done| |done]. unfold MAX_VECTOR_SIZE.
    pose proof (beats_bound wd Hwd). lia.
Qed.

(** C40: looking a signal up.  A lookup of a signal of at most 1024 bits returns
    a live handle that carries the requested name; the cache stays consistent,
    the write queue stays well formed (a simulator object gets one handle), and
    looking the name up again gives the same handle without touching anything. *)
Theorem handle_by_name_spec nm (w : World Sim) :
  cache_wf w -> queue_wf w ->
  let h := vpi_handle_by_name_of (w_sim w) nm in
  (h <> 0 -> 0 <= vpi_size_of (w_sim w) h <= 1024) ->
  (forall r c, w_heap w !! r = Some c -> hdl_cache (w_env w) !! nm = None -> vpi_handle c = h -> h = 0) ->
  exists r w', complex_handle_by_name nm w = Ret r w' /\ cache_wf w' /\ queue_wf w' /\
    (exists c, w_heap w' !! r = Some c /\ name c = nm /\
       (hdl_cache (w_env w) !! nm = None -> vpi_handle c = h)) /\
    complex_handle_by_name nm w' = Ret r w'.
Proof.
  intros Hcw Hqw h Hsize Hfresh. unfold complex_handle_by_name at 1. mrun.
  destruct (hdl_cache (w_env w) !! nm) as [r|] eqn:Hc.
  - destruct (cw_cache w Hcw nm r Hc) as (c & Hr & Hn & _).
    exists r, w. split_and!; [done..| |]; [by exists c|].
    unfold complex_handle_by_name. mrun. by rewrite Hc.
  - mrun. fold h. set (wd := if h =? 0 then 0 else _).
    assert (0 <= wd <= 1024) as Hwd.
    { unfold wd. destruct (Z.eqb_spec h 0); [lia|]. by apply Hsize. }
    assert (u64 wd = wd) as -> by (apply wrap_small; unfold in_width; lia).
    rewrite create_handle_spec by done. eexists _, _. split; [done|]. split_and!.
    + by apply boxed_cache_wf.
    + apply boxed_queue_wf; [done..|]. intros r c Hr. by apply (Hfresh r c).
    + exists (new_handle h wd nm). split_and!; [|done|done]. cbn. apply lookup_insert_eq.
    + unfold complex_handle_by_name. mrun. cbn. by rewrite lookup_insert_eq.
Qed.

End Handles.

Lemma demo_cache_wf : cache_wf demo_world.
Proof.
  split.
  - intros n r Hn. cbn in Hn. by rewrite lookup_empty in Hn.
  - intros r c [[-> _]|[-> _]]%demo_heap_inv; done.
Qed.

Lemma handle_by_name_spec_witness :
  exists w', complex_handle_by_name "top.clk" demo_world = Ret 3 w' /\
    complex_handle_by_name "top.clk" w' = Ret 3 w'.
Proof.
  destruct (handle_by_name_spec (F := verilator_features) "top.clk" demo_world demo_cache_wf demo_wf)
    as (r & w' & E & _ & _ & _ & E2).
  - intros _. vm_compute. split; discriminate.
  - intros r c Hr _ Hh. exfalso. apply demo_heap_inv in Hr as [[-> ->]|[-> ->]]; vm_compute in Hh; discriminate.
  - assert (r = 3) as ->.
    { vm_compute in E. congruence. }
    exists w'. split; [exact E|exact E2].
Defined.
