(* ===== verification/Lifecycle.v ===== *)
(** * Life cycle of the environment

    [libverilua/src/verilua_env.rs] (the singleton, [initialize], [finalize],
    the exported steps) and the bootstrap part of [vpi_callback.rs] and [lib.rs]:
    which callbacks are registered, in which order, and exactly once.

    The singleton [VERILUA_ENV] is [w_env] with [w_created].  Statistics and
    logging are not modelled.  The thread-local [HAS_ERROR] of each safe step is
    passed and returned explicitly. *)

From S2P Require Import Prelude Bytes State Backend PutQueue.
#[local] Open Scope Z_scope.

Definition SIM_EVENT_CHUNK_MAX : nat := 16.

Section Lifecycle.
Context {Sim : Type} `{!VpiBackend Sim} `{!LuaRuntime Sim} {F : Features}.
Local Abbreviation W := (W Sim).

(** ** Bootstrap callbacks *)

Definition get_verilua_env_no_init : W unit :=
  let! created := gets w_created in
  when (negb created)
    (modify (fun w => set_w_created true (set_w_env VeriluaEnv_default w))).

Definition start_cb : s_cb_data := mkCb cbStartOfSimulation start_callback_rtn None 0 UdNull.
Definition final_cb : s_cb_data := mkCb cbEndOfSimulation final_callback_rtn None 0 UdEnv.
Definition sim_time_cb : s_cb_data :=
  mkCb cbNextSimTime libverilua_next_sim_time_cb_rtn (Some (vpiSimTime, 0, 0)) 0 UdNull.

(** [vpi_register_cb] whose handle is freed at once. *)
Definition register_and_free (cb : s_cb_data) : W unit :=
  let! h := vpi_register_cb cb in vpi_free_object h.

Definition bootstrap_register_start_callback : W unit :=
  get_verilua_env_no_init ;;
  let! has := env_get has_start_cb in
  when (negb has) (env_mod (set_has_start_cb true) ;; register_and_free start_cb).

Definition do_register_final_callback : W unit :=
  let! has := env_get has_final_cb in
  when (negb has) (env_mod (set_has_final_cb true) ;; register_and_free final_cb).

(** Both variants: under [dpi] the environment pointer is the argument. *)
Definition bootstrap_register_final_callback : W unit :=
  (if dpi then ret tt else get_verilua_env_no_init) ;; do_register_final_callback.

Definition libverilua_do_register_next_sim_time_cb : W unit := register_and_free sim_time_cb.

Definition bootstrap_register_next_sim_time_callback : W unit :=
  get_verilua_env_no_init ;;
  let! has := env_get has_next_sim_time_cb in
  when (negb has)
    (env_mod (set_has_next_sim_time_cb true) ;;
     when (negb verilator_inner_step_callback) libverilua_do_register_next_sim_time_cb).

(** [vlog_startup_routines] without the symbol promotion, which touches nothing
    the model has. *)
Definition vlog_startup_routines : list (W unit) :=
  [bootstrap_register_start_callback; bootstrap_register_final_callback].

Definition vlog_startup_routines_bootstrap : W unit := for_each vlog_startup_routines (fun f => f).

(** ** Calls into Lua *)

Definition call_lua_tasks (reg_id : Z) (task_ids : list Z) : W (option string) :=
  call_lua (LcTasks reg_id task_ids).

Definition call_sim_event (task_id : Z) : W (option string) :=
  let! reg := env_get lua_sim_event in call_lua_tasks reg [task_id].

(** [self.lua_sim_event_chunks\[n - 1\]]. *)
Definition call_sim_event_chunk (n : nat) (task_ids : list Z) : W (option string) :=
  let! chunks := env_get lua_sim_event_chunks in
  match chunks !! (n - 1)%nat with
  | Some reg => call_lua_tasks reg task_ids
  | None => panic "index out of bounds"
  end.

(** [globals().get(name)], panicking with [msg] when it fails. *)
Definition global_fn (nm msg : string) : W Z :=
  let! f := gets (fun w => lua_global_fn w nm) in
  match f with Some f => ret f | None => panic msg end.

Definition pin_global_fn (nm : string) : W Z :=
  let! f := global_fn nm "Failed to load" in gets (fun w => lua_registry_key w f).

(** A call whose error panics. *)
Definition call_or_panic (c : LuaCall) (msg : string) : W unit :=
  let! r := call_lua c in match r with None => ret tt | Some _ => panic msg end.

(** ** initialize and finalize *)

Definition expect_var (k msg : string) : W string :=
  let! v := env_var k in match v with Some v => ret v | None => panic msg end.

Definition is_on (v : option string) (dflt : bool) : bool :=
  match v with
  | None => dflt
  | Some v => bool_decide (v = "1"%string) || bool_decide (v = "true"%string)
  end.

Definition vpiml_get_top_module : W string :=
  let! iter := gets (fun w => vpi_iterate_modules (w_sim w)) in
  assert_ (negb (iter =? 0)) "No module exist..." ;;
  let! top := gets (fun w => vpi_scan_first (w_sim w) iter) in
  assert_ (negb (top =? 0)) "Canot find top module..." ;;
  let! nm := gets (fun w => vpi_name_of (w_sim w) top) in
  vpi_free_object iter ;;
  let! v := env_var "VL_DUT_TOP" in
  (match v with None => set_var "VL_DUT_TOP" nm | Some _ => ret tt end) ;;
  ret nm.

(** [sim_event_chunk_<i>], pinned for [i] in [1..=16]. *)
Fixpoint pin_chunks (i n : nat) : W unit :=
  match n with
  | O => ret tt
  | S n =>
      let! key := pin_global_fn (of_bytes (as_bytes "sim_event_chunk_" ++ as_bytes (to_decimal (Z.of_nat i)))) in
      env_mod (fun e => set_lua_sim_event_chunks (<[(i - 1)%nat := key]> (lua_sim_event_chunks e)) e) ;;
      pin_chunks (S i) n
  end.

(** The bootstrap part of [initialize]. *)
Definition initialize_bootstrap : W unit :=
  let! has_final := env_get has_final_cb in
  when (negb has_final) bootstrap_register_final_callback ;;
  let! has_next := env_get has_next_sim_time_cb in
  when (negb has_next) bootstrap_register_next_sim_time_callback.

(** Loading the Lua side, up to [verilua_init]. *)
Definition initialize_scripts : W unit :=
  global_fn "dofile" "called `Result::unwrap()` on an `Err` value" ;;
  let! home := expect_var "VERILUA_HOME" "VERILUA_HOME not set" in
  when iverilog
    (let! v := env_var "VL_RESOLVE_X_AS_ZERO" in env_mod (set_resolve_x_as_zero (is_on v true))) ;;
  let! acc := env_var "VL_ACC_LUA_TIME" in
  env_mod (set_acc_lua_time (is_on acc false)) ;;
  call_or_panic (LcDofile (home +:+ "/src/lua/verilua/init.lua")) "Failed to load init.lua" ;;
  let! dut := env_var "VL_DUT_TOP" in
  (match dut with
   | None => let! nm := vpiml_get_top_module in set_var "VL_DUT_TOP" nm
   | Some _ => ret tt
   end) ;;
  let! post := env_var "VL_POST_INIT_SCRIPT" in
  (match post with
   | None => ret tt
   | Some p =>
       if bool_decide (p = empty_str) then panic "VL_POST_INIT_SCRIPT is set but empty"
       else
         let! is_file := gets (fun w => path_is_file w p) in
         if is_file then call_or_panic (LcDofile p) "Failed to load VL_POST_INIT_SCRIPT file"
         else call_or_panic (LcExec p) "Failed to execute VL_POST_INIT_SCRIPT source"
   end) ;;
  let! script := expect_var "VL_LUA_SCRIPT" "VL_LUA_SCRIPT not set!" in
  call_or_panic (LcDofile script) "Failed to load" ;;
  let! f := global_fn "verilua_init" "Failed to load verilua_init" in
  call_or_panic (LcFn f) "Failed to call verilua_init".

Definition initialize_pins : W unit :=
  let! ev := pin_global_fn "sim_event" in
  env_mod (set_lua_sim_event ev) ;;
  let! m := global_fn "lua_main_step" "Failed to load main_step" in
  env_mod (set_lua_main_step (Some m)) ;;
  let! p := global_fn "lua_posedge_step" "Failed to load posedge_step" in
  env_mod (set_lua_posedge_step (Some p)) ;;
  let! n := global_fn "lua_negedge_step" "Failed to load negedge_step" in
  env_mod (set_lua_negedge_step (Some n)) ;;
  when chunk_task (pin_chunks 1 SIM_EVENT_CHUNK_MAX).

Definition initialize : W unit :=
  assert_ (negb verilator_inner_step_callback || verilator)
    "`feature = verilator_inner_step_callback` requires `feature = verilator`" ;;
  let! init := env_get initialized in
  if init then ret tt
  else
    env_mod (set_initialized true) ;;
    initialize_bootstrap ;;
    initialize_scripts ;;
    initialize_pins.

Definition finalize : W unit :=
  let! init := env_get initialized in
  if negb init then ret tt else
  let! fin := env_get finalized in
  if fin then ret tt else
  env_mod (set_finalized true) ;;
  let! f := global_fn "finish_callback" "called `Result::unwrap()` on an `Err` value" in
  call_or_panic (LcFn f) "Error calling finish_callback".

Definition get_verilua_env : W unit :=
  let! created := gets w_created in
  if created then ret tt
  else modify (fun w => set_w_created true (set_w_env VeriluaEnv_default w)) ;; initialize.

(** ** Exported entry points *)

Definition verilua_init : W unit := get_verilua_env ;; initialize.
Definition verilua_final : W unit := get_verilua_env ;; finalize.

Definition start_callback : W unit := verilua_init ;; bootstrap_register_next_sim_time_callback.
Definition final_callback : W unit := finalize.

Inductive Step := MainStep | PosedgeStep | NegedgeStep.
Definition step_field (s : Step) : VeriluaEnv -> option Z :=
  match s with MainStep => lua_main_step | PosedgeStep => lua_posedge_step | NegedgeStep => lua_negedge_step end.

(** [verilua_main_step], [verilua_posedge_step], [verilua_negedge_step]. *)
Definition verilua_step (fuel : nat) (s : Step) : W unit :=
  get_verilua_env ;;
  let! init := env_get initialized in
  assert_ init "called before verilua_init()" ;;
  let! f := env_get (step_field s) in
  match f with
  | None => undefined "unwrap_unchecked on None"
  | Some f =>
      call_or_panic (LcFn f) "Error calling" ;;
      apply_pending_put_values fuel
  end.

(** The [_safe] variants: the result is the new [HAS_ERROR]. *)
Definition verilua_step_safe (fuel : nat) (s : Step) (has_error : bool) : W bool :=
  if has_error then get_verilua_env ;; finalize ;; ret true
  else
    get_verilua_env ;;
    let! init := env_get initialized in
    assert_ init "called before verilua_init()" ;;
    let! f := env_get (step_field s) in
    match f with
    | None => undefined "unwrap_unchecked on None"
    | Some f =>
        let! r := call_lua (LcFn f) in
        apply_pending_put_values fuel ;;
        ret (bool_decide (is_Some r))
    end.

(** The static destructor; absent on VCS. *)
Definition automatically_finalize_verilua_env : W unit :=
  let! v := env_var "VL_NOSIM_BUILD" in
  if vcs || (nosim && bool_decide (is_Some v)) then ret tt else
  let! created := gets w_created in
  let! init := env_get initialized in
  let! fin := env_get finalized in
  when (created && init && negb fin) finalize.

(* ------------------------------------------------------------------ *)
(** ** The life-cycle flags only grow *)

Definition grows (w w' : World Sim) : Prop :=
  (w_created w = true -> w_created w' = true /\
    (initialized (w_env w) = true -> initialized (w_env w') = true) /\
    (finalized (w_env w) = true -> finalized (w_env w') = true) /\
    (has_start_cb (w_env w) = true -> has_start_cb (w_env w') = true) /\
    (has_final_cb (w_env w) = true -> has_final_cb (w_env w') = true) /\
    (has_next_sim_time_cb (w_env w) = true -> has_next_sim_time_cb (w_env w') = true)).

#[export] Instance grows_preorder : PreOrder grows.
Proof. unfold grows. split; [intros w; tauto|intros w1 w2 w3; tauto]. Qed.

(** Lua code changes these flags only through the library. *)
Definition lua_grows : Prop := forall c, keeps grows (lua_call c).

Lemma grows_env f : (forall e,
    (initialized e = true -> initialized (f e) = true) /\ (finalized e = true -> finalized (f e) = true) /\
    (has_start_cb e = true -> has_start_cb (f e) = true) /\ (has_final_cb e = true -> has_final_cb (f e) = true) /\
    (has_next_sim_time_cb e = true -> has_next_sim_time_cb (f e) = true)) ->
  keeps grows (env_mod f).
Proof. intros Hf. apply keeps_modify. intros w. unfold grows. cbn. specialize (Hf (w_env w)). tauto. Qed.

Lemma grows_emit e : keeps grows (emit e).
Proof. apply keeps_modify. intros w. unfold grows. cbn. tauto. Qed.

Lemma grows_register cb : keeps grows (vpi_register_cb cb).
Proof. intros w. cbn. unfold grows, registered. destruct (_ =? 0); cbn; tauto. Qed.

Lemma grows_set_var k v : keeps grows (set_var k v).
Proof. apply keeps_modify. intros w. unfold grows. cbn. tauto. Qed.

Lemma grows_no_init : keeps grows get_verilua_env_no_init.
Proof.
  intros w. unfold get_verilua_env_no_init. cbn. unfold bind, gets, when.
  destruct (w_created w) eqn:E; cbn; [reflexivity|]. unfold grows. rewrite E. done.
Qed.

Lemma grows_pin_chunks i n : keeps grows (pin_chunks i n).
Proof.
  revert i. induction n as [|n IH]; intros i; cbn [pin_chunks]; [apply keeps_ret; apply _|].
  unfold pin_global_fn, global_fn. repeat keeps_step; done.
Qed.

Ltac grows_tac :=
  repeat first
    [ apply grows_emit | apply grows_register | apply grows_set_var | apply grows_no_init
    | apply grows_pin_chunks | assumption
    | apply grows_env; cbn; tauto | keeps_step ].

Lemma grows_call_lua c : lua_grows -> keeps grows (call_lua c).
Proof. intros Hl. unfold call_lua. apply keeps_bind; [apply _|apply grows_emit|intros _; apply Hl]. Qed.

Lemma grows_call_or_panic c msg : lua_grows -> keeps grows (call_or_panic c msg).
Proof.
  intros Hl. unfold call_or_panic. apply keeps_bind; [apply _|by apply grows_call_lua|].
  intros [e|]; grows_tac.
Qed.

Lemma grows_bootstrap : keeps grows initialize_bootstrap.
Proof.
  unfold initialize_bootstrap, bootstrap_register_final_callback, do_register_final_callback,
    bootstrap_register_next_sim_time_callback, libverilua_do_register_next_sim_time_cb, register_and_free,
    vpi_free_object, env_get. grows_tac.
Qed.

Lemma grows_scripts : lua_grows -> keeps grows initialize_scripts.
Proof.
  intros Hl. pose proof (fun c msg => grows_call_or_panic c msg Hl) as Hc.
  unfold initialize_scripts, global_fn, expect_var, env_var, vpiml_get_top_module, vpi_free_object, env_var.
  repeat first [ apply Hc | progress grows_tac ].
Qed.

Lemma grows_pins : keeps grows initialize_pins.
Proof. unfold initialize_pins, pin_global_fn, global_fn. grows_tac. Qed.

Lemma grows_initialize : lua_grows -> keeps grows initialize.
Proof.
  intros Hl. pose proof grows_bootstrap. pose proof (grows_scripts Hl). pose proof grows_pins.
  unfold initialize, env_get. grows_tac.
Qed.

Lemma grows_finalize : lua_grows -> keeps grows finalize.
Proof.
  intros Hl. pose proof (fun c msg => grows_call_or_panic c msg Hl) as Hc.
  unfold finalize, env_get, global_fn. repeat first [ apply Hc | progress grows_tac ].
Qed.

(** The world after a registration whose handle is freed. *)
Definition freed (cb : s_cb_data) (w : World Sim) : World Sim :=
  set_w_trace (w_trace (registered cb w) ++ [EvFree (vpi_returned w cb)]) (registered cb w).

Lemma register_and_free_spec cb w : register_and_free cb w = Ret tt (freed cb w).
Proof. done. Qed.

Lemma freed_facts cb w :
  w_env (freed cb w) = w_env w /\ w_created (freed cb w) = w_created w /\ w_heap (freed cb w) = w_heap w /\
  w_trace (freed cb w) =
    w_trace w ++ [EvRegister cb (vpi_register_result w cb); EvFree (vpi_returned w cb)].
Proof. unfold freed, registered. destruct (_ =? 0); cbn; by rewrite <- app_assoc. Qed.

Lemma bootstrap_start_first (w : World Sim) :
  w_created w = false -> exists w' h, bootstrap_register_start_callback w = Ret tt w' /\
    w_created w' = true /\ w_env w' = set_has_start_cb true VeriluaEnv_default /\
    w_trace w' = w_trace w ++ [EvRegister start_cb h; EvFree (if vpi_null_handle cbStartOfSimulation then 0 else h)].
Proof.
  intros Hc. unfold bootstrap_register_start_callback, get_verilua_env_no_init. mrun. rewrite Hc.
  cbn [negb when]. mrun. cbn [w_env set_w_env set_w_created has_start_cb VeriluaEnv_default negb when]. mrun.
  rewrite register_and_free_spec.
  match goal with |- context [freed start_cb ?w1] => destruct (freed_facts start_cb w1) as (H1 & H2 & _ & H3) end.
  eexists _, _. split_and!; [done|by rewrite H2|by rewrite H1|by rewrite H3].
Qed.

Lemma bootstrap_start_again (w : World Sim) :
  w_created w = true -> has_start_cb (w_env w) = true -> bootstrap_register_start_callback w = Ret tt w.
Proof.
  intros Hc Hs. unfold bootstrap_register_start_callback, get_verilua_env_no_init. mrun. rewrite Hc. cbn. mrun.
  by rewrite Hs.
Qed.

Lemma bootstrap_final_first (w : World Sim) :
  w_created w = true -> has_final_cb (w_env w) = false -> exists w' h,
    bootstrap_register_final_callback w = Ret tt w' /\
    w_created w' = true /\ w_env w' = set_has_final_cb true (w_env w) /\
    w_trace w' = w_trace w ++ [EvRegister final_cb h; EvFree (if vpi_null_handle cbEndOfSimulation then 0 else h)].
Proof.
  intros Hc Hf. unfold bootstrap_register_final_callback, get_verilua_env_no_init, do_register_final_callback.
  exists (freed final_cb (set_w_env (set_has_final_cb true (w_env w)) w)).
  destruct (freed_facts final_cb (set_w_env (set_has_final_cb true (w_env w)) w)) as (H1 & H2 & _ & H3).
  eexists. split_and!; [|by rewrite H2|by rewrite H1|exact H3].
  destruct dpi; mrun; rewrite ?Hc; cbn [negb when]; mrun; rewrite Hf; cbn [negb when]; mrun; done.
Qed.

Lemma bootstrap_final_again (w : World Sim) :
  w_created w = true -> has_final_cb (w_env w) = true -> bootstrap_register_final_callback w = Ret tt w.
Proof.
  intros Hc Hf. unfold bootstrap_register_final_callback, get_verilua_env_no_init, do_register_final_callback.
  destruct dpi; mrun; rewrite ?Hc; cbn [negb when]; mrun; by rewrite Hf.
Qed.

(** The startup routines.  In a fresh process they register exactly the
    start-of-simulation and the end-of-simulation callback, in this order and
    no [cbNextSimTime] (which the standard forbids there), and free both handles;
    running them again does nothing. *)
Theorem startup_registers_once (w : World Sim) :
  w_created w = false ->
  exists w' h1 h2, vlog_startup_routines_bootstrap w = Ret tt w' /\
    w_trace w' = w_trace w ++ [EvRegister start_cb h1; EvFree (if vpi_null_handle cbStartOfSimulation then 0 else h1);
      EvRegister final_cb h2; EvFree (if vpi_null_handle cbEndOfSimulation then 0 else h2)] /\
    w_env w' = set_has_final_cb true (set_has_start_cb true VeriluaEnv_default) /\
    vlog_startup_routines_bootstrap w' = Ret tt w'.
Proof.
  intros Hc. unfold vlog_startup_routines_bootstrap, vlog_startup_routines. cbn [for_each].
  destruct (bootstrap_start_first w Hc) as (w1 & h1 & E1 & C1 & V1 & T1).
  destruct (bootstrap_final_first w1 C1) as (w2 & h2 & E2 & C2 & V2 & T2); [by rewrite V1|].
  exists w2, h1, h2. split_and!.
  - mrun E1. by mrun E2.
  - rewrite T2, T1. by rewrite <- app_assoc.
  - by rewrite V2, V1.
  - mrun (bootstrap_start_again w2 C2 ltac:(by rewrite V2, V1)).
    by mrun (bootstrap_final_again w2 C2 ltac:(by rewrite V2)).
Qed.

(** The world an outcome leaves behind. *)
Definition leaves {A} (m : W A) (w w' : World Sim) : Prop :=
  (exists a, m w = Ret a w') \/ (exists msg, m w = Panic msg w').

Lemma keeps_leaves {A} R (m : W A) w w' : keeps R m -> leaves m w w' -> R w w'.
Proof. intros Hk. specialize (Hk w). intros [[a E]|[msg E]]; by rewrite E in Hk. Qed.

Lemma initialize_done (w : World Sim) :
  negb verilator_inner_step_callback || verilator = true -> initialized (w_env w) = true ->
  initialize w = Ret tt w.
Proof. intros Hf Hi. unfold initialize. rewrite Hf. mrun. cbn [assert_]. mrun. by rewrite Hi. Qed.

(** Initialisation and finalisation take effect once.  Whatever the Lua code
    they run does through the library, and whether they return or panic, a
    second [initialize] or [finalize] is a no-op: the scripts are loaded at most
    once and [finish_callback] is called at most once. *)
Theorem lifecycle_once (w w' : World Sim) :
  lua_grows -> w_created w = true -> negb verilator_inner_step_callback || verilator = true ->
  (leaves initialize w w' -> initialize w' = Ret tt w') /\
  (leaves finalize w w' -> finalize w' = Ret tt w').
Proof.
  intros Hl Hc Hf. split; intros HL.
  - destruct (initialized (w_env w)) eqn:Hi.
    + assert (grows w w') as Hg by by apply (keeps_leaves _ initialize); [apply grows_initialize|].
      apply initialize_done; [done|]. by apply Hg.
    + set (w1 := set_w_env (set_initialized true (w_env w)) w).
      assert (leaves (initialize_bootstrap ;; initialize_scripts ;; initialize_pins) w1 w') as HL1.
      { destruct HL as [[a E]|[msg E]]; unfold initialize in E; rewrite Hf in E; cbn [assert_] in E;
          autorewrite with mon in E; rewrite Hi in E; autorewrite with mon in E; [left|right]; by eexists. }
      assert (grows w1 w') as Hg.
      { eapply (keeps_leaves _ _ _ _ _ HL1). Unshelve.
        pose proof grows_bootstrap. pose proof (grows_scripts Hl). pose proof grows_pins. grows_tac. }
      apply initialize_done; [done|]. by apply Hg.
  - destruct (initialized (w_env w)) eqn:Hi.
    2: { destruct HL as [[a E]|[msg E]]; unfold finalize in E; autorewrite with mon in E; rewrite Hi in E; [|done].
         unfold ret in E. cbn in E. injection E as <- <-. unfold finalize. mrun. by rewrite Hi. }
    assert (forall w2, initialized (w_env w2) = true -> finalized (w_env w2) = true -> finalize w2 = Ret tt w2) as Hdone.
    { intros w2 H1 H2. unfold finalize. mrun. rewrite H1. cbn. mrun. by rewrite H2. }
    destruct (finalized (w_env w)) eqn:Hfin.
    + assert (grows w w') as Hg by by apply (keeps_leaves _ finalize); [apply grows_finalize|].
      apply Hdone; by apply Hg.
    + set (w1 := set_w_env (set_finalized true (w_env w)) w).
      assert (leaves (let! f := global_fn "finish_callback" "called `Result::unwrap()` on an `Err` value" in
                      call_or_panic (LcFn f) "Error calling finish_callback") w1 w') as HL1.
      { destruct HL as [[a E]|[msg E]]; unfold finalize in E; autorewrite with mon in E; rewrite Hi in E;
          cbn [negb] in E; autorewrite with mon in E; rewrite Hfin in E; autorewrite with mon in E; [left|right];
          by eexists. }
      assert (grows w1 w') as Hg.
      { eapply (keeps_leaves _ _ _ _ _ HL1). Unshelve.
        pose proof (fun c msg => grows_call_or_panic c msg Hl) as Hcp. unfold global_fn.
        repeat first [ apply Hcp | progress grows_tac ]. }
      apply Hdone; by apply Hg.
Qed.

(** A simulation step of the embedding interface calls the step function of
    the script once and then flushes: when the script returns with a flushable
    queue, every write it queued reaches the simulator, in order, before the step
    returns, and nothing stays pending. *)
Theorem step_runs_lua_then_flushes fuel st f (w w1 : World Sim) :
  quiet_put -> (2 <= fuel)%nat -> w_created w = true -> initialized (w_env w) = true ->
  step_field st (w_env w) = Some f ->
  lua_call (LcFn f) (set_w_trace (w_trace w ++ [EvLua (LcFn f)]) w) = Ret None w1 -> flushable w1 ->
  exists w', verilua_step fuel st w = Ret tt w' /\ queue_wf w' /\ pending w' = [] /\
    w_trace w' = w_trace w1 ++ flat_map put_event (abs_queue w1).
Proof.
  intros Hq Hfuel Hc Hi Hs El Hfl. destruct (apply_pending_facts fuel w1 Hq Hfl Hfuel) as (w' & E & H1 & H2 & H3 & _).
  exists w'. split_and!; try done. unfold verilua_step, get_verilua_env. mrun. rewrite Hc. mrun. rewrite Hi.
  cbn [assert_]. mrun. rewrite Hs. unfold call_or_panic, call_lua. mrun. by mrun El.
Qed.

End Lifecycle.

(* ------------------------------------------------------------------ *)
(** ** Witnesses *)

Definition fresh_world : World CountSim :=
  mkWorld VeriluaEnv_default false ∅ ∅ ∅ 1
    (<["VERILUA_HOME"%string := "/opt"%string]> (<["VL_LUA_SCRIPT"%string := "main.lua"%string]> ∅)) ∅ [] (mkCount 0).

Lemma startup_registers_once_witness :
  exists w', vlog_startup_routines_bootstrap (F := iverilog_features) fresh_world = Ret tt w' /\
    vlog_startup_routines_bootstrap (F := iverilog_features) w' = Ret tt w'.
Proof.
  destruct (startup_registers_once (F := iverilog_features) fresh_world eq_refl)
    as (w' & h1 & h2 & E & _ & _ & E2).
  exists w'. split; [exact E|exact E2].
Defined.

Lemma count_lua_grows : lua_grows (Sim := CountSim).
Proof. intros c w. cbn. reflexivity. Qed.

Definition created_world : World CountSim := set_w_created true fresh_world.

Definition initialized_world : World CountSim :=
  match initialize (F := iverilog_features) created_world with Ret _ w => w | _ => created_world end.

Lemma lifecycle_once_witness :
  initialize (F := iverilog_features) initialized_world = Ret tt initialized_world.
Proof.
  destruct (lifecycle_once (F := iverilog_features) created_world initialized_world count_lua_grows eq_refl eq_refl)
    as [H _].
  apply H. left. exists tt. vm_compute. reflexivity.
Defined.

(** The initialised demo world: the script function 5 is the main step. *)
Definition demo_step_world : World CountSim :=
  set_w_env (set_initialized true (set_lua_main_step (Some 5) (w_env demo_pending))) demo_pending.

Lemma step_runs_lua_then_flushes_witness :
  exists w', verilua_step (F := verilator_features) 2 MainStep demo_step_world = Ret tt w' /\
    w_trace w' = [EvLua (LcFn 5); EvPut 11 (VInt 7) vpiForceFlag; EvPut 12 (VStr vpiHexStrVal "ff") vpiNoDelay].
Proof.
  destruct (step_runs_lua_then_flushes (F := verilator_features) 2 MainStep 5 demo_step_world
    (set_w_trace [EvLua (LcFn 5)] demo_step_world) count_quiet (le_n 2)) as (w' & E & _ & _ & Ht).
  - reflexivity.
  - reflexivity.
  - reflexivity.
  - vm_compute. reflexivity.
  - destruct demo_pending_flushable as [[H1 H2 H3 H4] H5 H6].
    split; [split; [exact H1|exact H2|exact H3|exact H4]|exact H5|exact H6].
  - exists w'. split; [exact E|]. rewrite Ht. vm_compute. reflexivity.
Defined.
