(* ===== verification/Callbacks.v ===== *)
(** * The callback engine

    [libverilua/src/vpi_callback.rs]: the synchronisation callbacks
    ([await_rd], [await_rw], [await_nsim], [await_time]), the pending-put flush
    and the next-sim-time heartbeat, and the edge callbacks with their
    registration at the next time step.  The chunked variants of [chunk_task] are
    in [ChunkTask.v]; here [policy] is the registration loop they contribute
    ([gen_callback_policy.rs]).

    A callback gets the [s_cb_data] it was registered with; for a value change
    also the integer the simulator stored in it.  A Rust error of a Lua call
    finalises and panics.  Freed boxes and statistics are not modelled. *)

From S2P Require Import Prelude Bytes State Backend PutQueue Lifecycle.
#[local] Open Scope Z_scope.

(** [edge_type_to_value]. *)
Definition edge_type_to_value (t : EdgeType) : EdgeValue :=
  match t with Posedge => High | Negedge => Low | Edge => DontCare end.

(** [EdgeValue::try_from(integer as u8)]; [None] stands for X and Z. *)
Definition EdgeValue_try_from (integer : Z) : option EdgeValue :=
  let v := u8 integer in
  if v =? 0 then Some Low else if v =? 1 then Some High else if v =? 2 then Some DontCare else None.

(** The test both edge handlers make before they wake a task. *)
Definition edge_matches (t : EdgeType) (integer : Z) : bool :=
  match EdgeValue_try_from integer with
  | None => false
  | Some v => bool_decide (v = edge_type_to_value t) || bool_decide (edge_type_to_value t = DontCare)
  end.

(** The fields the [posedge]/[negedge]/[edge] macros select. *)
Definition cb_count (t : EdgeType) (c : ComplexHandle) : gmap Z Z :=
  match t with Posedge => posedge_cb_count c | Negedge => negedge_cb_count c | Edge => edge_cb_count c end.
Definition set_cb_count (t : EdgeType) (m : gmap Z Z) (c : ComplexHandle) : ComplexHandle :=
  match t with
  | Posedge => set_posedge_cb_count m c | Negedge => set_negedge_cb_count m c | Edge => set_edge_cb_count m c
  end.
Definition pending_cb_map (t : EdgeType) (e : VeriluaEnv) : gmap Z (list Z) :=
  match t with
  | Posedge => pending_posedge_cb_map e | Negedge => pending_negedge_cb_map e | Edge => pending_edge_cb_map e
  end.
Definition set_pending_cb_map (t : EdgeType) (m : gmap Z (list Z)) (e : VeriluaEnv) : VeriluaEnv :=
  match t with
  | Posedge => set_pending_posedge_cb_map m e | Negedge => set_pending_negedge_cb_map m e
  | Edge => set_pending_edge_cb_map m e
  end.
Definition pending_cb_chunk (t : EdgeType) (e : VeriluaEnv) : gmap Z (Z * list Z) :=
  match t with
  | Posedge => pending_posedge_cb_chunk e | Negedge => pending_negedge_cb_chunk e | Edge => pending_edge_cb_chunk e
  end.
Definition set_pending_cb_chunk (t : EdgeType) (m : gmap Z (Z * list Z)) (e : VeriluaEnv) : VeriluaEnv :=
  match t with
  | Posedge => set_pending_posedge_cb_chunk m e | Negedge => set_pending_negedge_cb_chunk m e
  | Edge => set_pending_edge_cb_chunk m e
  end.

(** [m.entry(k).or_insert_with(Vec::new).push(x)]. *)
Definition push_at {A} (k : Z) (x : A) (m : gmap Z (list A)) : gmap Z (list A) :=
  <[k := default [] (m !! k) ++ [x]]> m.

(** *** process_cb_chunk: tasks of a chunk that stays registered need no new one *)

Definition process_one_chunk (raw : Z) (tasks : list Z) (cb_map : gmap Z (list Z)) : gmap Z (list Z) :=
  match cb_map !! raw with
  | None => cb_map
  | Some pend =>
      if forallb (fun t => bool_decide (t ∈ pend)) tasks then
        let pend' := filter (fun id => id ∉ tasks) pend in
        if bool_decide (pend' = []) then delete raw cb_map else <[raw := pend']> cb_map
      else cb_map
  end.

Section Callbacks.
Context {Sim : Type} `{!VpiBackend Sim} `{!LuaRuntime Sim} `{!Containers} {F : Features}.
Local Abbreviation W := (W Sim).

(** [if let Err(e) = r { env.finalize(); panic!("{}", e) }]. *)
Definition fail_on_error (r : option string) : W unit :=
  match r with None => ret tt | Some e => finalize ;; panic e end.

(** ** Synchronisation callbacks *)

(** [ReadonlyPhaseGuard]: the flag is restored when the guard is dropped; a panic
    aborts the process. *)
Definition with_readonly_phase {A} (m : W A) : W A :=
  let! previous := env_get rd_phase_active in
  env_mod (set_rd_phase_active true) ;;
  let! a := m in
  env_mod (set_rd_phase_active previous) ;; ret a.

Definition register (cb : s_cb_data) : W unit := vpi_register_cb cb ;; ret tt.

Definition vpiml_register_rd_synch_callback (task_id : Z) : W unit :=
  register (mkCb cbReadOnlySynch rd_synch_callback_rtn (Some (vpiSimTime, 0, 0)) 0 (NormalCbData task_id)).

Definition rd_synch_callback (task_id : Z) : W unit :=
  get_verilua_env ;;
  let! r := with_readonly_phase (call_sim_event task_id) in
  fail_on_error r.

Definition rw_synch_cb (task_id epoch : Z) : s_cb_data :=
  mkCb cbReadWriteSynch rw_synch_callback_rtn (Some (vpiSimTime, 0, 0)) 0 (RwSynchCbData task_id epoch).

Definition do_register_rw_synch_callback (task_id epoch : Z) : W unit := register (rw_synch_cb task_id epoch).

Definition vpiml_register_rw_synch_callback (task_id : Z) : W unit :=
  let! epoch := (if inertial_put then ret 0 else get_verilua_env ;; env_get flush_epoch) in
  do_register_rw_synch_callback task_id epoch.

Definition rw_synch_callback (fuel : nat) (task_id epoch : Z) : W unit :=
  get_verilua_env ;;
  let! deferred :=
    (if inertial_put then ret false else
       apply_pending_put_values fuel ;;
       let! now := env_get flush_epoch in
       if now =? epoch then ret false
       else do_register_rw_synch_callback task_id now ;; ret true) in
  if deferred then ret tt
  else let! r := call_sim_event task_id in fail_on_error r.

Definition vpiml_register_next_sim_time_callback (task_id : Z) : W unit :=
  register_and_free (mkCb cbNextSimTime next_sim_time_callback_rtn (Some (vpiSimTime, 0, 0)) 0 (NormalCbData task_id)).

Definition next_sim_time_callback (task_id : Z) : W unit :=
  get_verilua_env ;;
  let! r := call_sim_event task_id in fail_on_error r.

Definition vpiml_register_time_callback (time task_id : Z) : W unit :=
  register (mkCb cbAfterDelay time_callback_handler_rtn
    (Some (vpiSimTime, u32 (hi32 time), u32 (lo32 time))) 0 (TaskIDWithEnv task_id)).

Definition time_callback_handler (task_id : Z) : W unit :=
  let! r := call_sim_event task_id in fail_on_error r.

(** ** The flush callback *)

Definition libverilua_flush_put_values (fuel : nat) : W unit :=
  if negb inertial_put then
    get_verilua_env ;;
    apply_pending_put_values fuel ;;
    let! is_re_flush := env_get rw_phase_passed in
    when (negb is_re_flush && negb verilator_inner_step_callback) libverilua_do_register_next_sim_time_cb ;;
    env_mod (fun e => set_rw_cb_re_registered false (set_rw_phase_passed true e))
  else when (negb verilator_inner_step_callback) libverilua_do_register_next_sim_time_cb.

(** ** Edge callbacks *)

Definition edge_cb (h : Z) (rtn : CbRtn) (d : EdgeCbData) : s_cb_data :=
  mkCb cbValueChange rtn (Some (vpiSuppressTime, 0, 0)) h (UdEdge d).

Definition do_register_edge_callback (raw task_id : Z) (t : EdgeType) (edge_cb_id : Z) : W Z :=
  let! c := ch_get raw in
  vpi_register_cb (edge_cb (vpi_handle c) edge_callback_rtn (mkEdgeCbData [task_id] raw t edge_cb_id)).

(** [vacant_entry] / [insert] around a registration; the cast of the handle to
    [u64] and back is lossless. *)
Definition with_slab_slot (reg : Z -> W Z) : W unit :=
  let! slab := env_get edge_cb_slab in
  let key := slab_vacant_key slab in
  let! h := reg key in
  env_mod (fun e => set_edge_cb_slab (<[key := h]> (edge_cb_slab e)) e).

(** [slab.remove(id)] and [vpi_remove_cb]. *)
Definition remove_edge_cb (callback_id : Z) : W unit :=
  let! slab := env_get edge_cb_slab in
  match slab !! callback_id with
  | None => panic "invalid key"
  | Some h =>
      env_mod (fun e => set_edge_cb_slab (delete callback_id (edge_cb_slab e)) e) ;;
      vpi_remove_cb h
  end.

(** [*count.get_mut(&task).unwrap_unchecked() -= 1]; whether it reached zero. *)
Definition count_down (raw : Z) (t : EdgeType) (task_id : Z) : W bool :=
  let! c := ch_get raw in
  match cb_count t c !! task_id with
  | None => undefined "unwrap_unchecked on None"
  | Some n =>
      let n' := u32 (n - 1) in
      ch_mod raw (set_cb_count t (<[task_id := n']> (cb_count t c))) ;; ret (n' =? 0)
  end.

(** The task of an [EdgeCbData]. *)
Definition the_task (d : EdgeCbData) : Z := hd 0 (ecd_task_ids d).

Definition edge_callback (d : EdgeCbData) (integer : Z) : W unit :=
  if edge_matches (ecd_edge_type d) integer then
    from_complex_handle_raw (ecd_complex_handle_raw d) ;;
    let! r := call_sim_event (the_task d) in
    fail_on_error r ;;
    if merge_cb && opt_cb_task then
      let! remove_cb := count_down (ecd_complex_handle_raw d) (ecd_edge_type d) (the_task d) in
      when remove_cb (remove_edge_cb (ecd_callback_id d))
    else remove_edge_cb (ecd_callback_id d)
  else ret tt.

(** [vpiml_register_<edge>_callback]. *)
Definition vpiml_register_edge_callback_common (t : EdgeType) (raw task_id : Z) : W unit :=
  from_complex_handle_raw raw ;;
  if opt_cb_task then
    let! first := (if merge_cb then
        let! c := ch_get raw in
        let n := u32 (default 0 (cb_count t c !! task_id) + 1) in
        ch_mod raw (set_cb_count t (<[task_id := n]> (cb_count t c))) ;;
        ret (chunk_task || negb (1 <? n))
      else ret true) in
    when first
      (if chunk_task then env_mod (fun e => set_pending_cb_map t (push_at raw task_id (pending_cb_map t e)) e)
       else env_mod (fun e => set_pending_edge_cb_infos
              (push_at raw (mkCallbackInfo t task_id) (pending_edge_cb_infos e)) e))
  else with_slab_slot (do_register_edge_callback raw task_id t).

Definition do_register_edge_callback_always (raw task_id : Z) (t : EdgeType) (edge_cb_id : Z) : W Z :=
  let! c := ch_get raw in
  vpi_register_cb (edge_cb (vpi_handle c) edge_callback_always_rtn (mkEdgeCbData [task_id] raw t edge_cb_id)).

Definition edge_callback_always (d : EdgeCbData) (integer : Z) : W unit :=
  when (edge_matches (ecd_edge_type d) integer)
    (get_verilua_env ;; let! r := call_sim_event (the_task d) in fail_on_error r).

Definition vpiml_register_edge_callback_always (t : EdgeType) (raw task_id : Z) : W unit :=
  get_verilua_env ;; do_register_edge_callback_always raw task_id t 0 ;; ret tt.

(** ** The next-sim-time heartbeat *)

Definition process_cb_chunk (t : EdgeType) : W unit :=
  env_mod (fun e => set_pending_cb_map t
    (fold_left (fun m '(_, (raw, tasks)) => process_one_chunk raw tasks m)
       (hash_iter (pending_cb_chunk t e)) (pending_cb_map t e)) e).

(** The loop of builds without [chunk_task]. *)
Definition register_pending_infos : W unit :=
  let! infos := env_get pending_edge_cb_infos in
  for_each (hash_iter infos) (fun '(raw, cb_infos) =>
    for_each cb_infos (fun i => with_slab_slot (do_register_edge_callback raw (cbi_task_id i) (cbi_edge_type i)))).

(** [policy]: the generated registration loops of [chunk_task]. *)
Definition libverilua_next_sim_time_cb (policy : W unit) (cb_data : s_cb_data) : W unit :=
  get_verilua_env ;;
  env_mod (fun e => set_rw_cb_re_registered false (set_rw_phase_passed false e)) ;;
  when opt_cb_task
    (when (chunk_task && merge_cb)
       (process_cb_chunk Posedge ;; process_cb_chunk Negedge ;; process_cb_chunk Edge) ;;
     (if chunk_task then
        policy ;;
        env_mod (fun e => set_pending_edge_cb_map ∅ (set_pending_negedge_cb_map ∅ (set_pending_posedge_cb_map ∅ e)))
      else
        register_pending_infos ;;
        env_mod (set_pending_edge_cb_infos ∅))) ;;
  if wave_vpi then register_and_free cb_data else libverilua_register_rw_synch_cb.

End Callbacks.
