(* ===== verification/ChunkTask.v ===== *)
(** * Chunked edge callbacks

    The generated code of [chunk_task]:
    [libverilua/src/gen/gen_register_callback_func.rs], sixteen copies of a
    registration function and a handler for [1..=16] tasks, and
    [gen_callback_policy.rs], the loops that cut the pending task lists into
    chunks of at most 16 and register each with the copy for its length.

    [register_chunk] and [edge_callback_chunk] are the text common to the copies;
    each copy is its own definition below, with its own number of arguments. *)

From S2P Require Import Prelude Bytes State Backend PutQueue Lifecycle Callbacks.
#[local] Open Scope Z_scope.

Section ChunkTask.
Context {Sim : Type} `{!VpiBackend Sim} `{!LuaRuntime Sim} `{!Containers} {F : Features}.
Local Abbreviation W := (W Sim).

(** ** The common text of the copies *)

Definition register_chunk (n : nat) (tasks : list Z) (raw : Z) (t : EdgeType) (edge_cb_id : Z) : W Z :=
  let! c := ch_get raw in
  vpi_register_cb (edge_cb (vpi_handle c) (edge_callback_chunk_rtn n) (mkEdgeCbData tasks raw t edge_cb_id)).

(** The loop over the chunk's tasks: counts down each, and collects the tasks
    whose count reached zero. *)
Fixpoint count_down_chunk (raw : Z) (t : EdgeType) (tasks : list Z) : W (list Z) :=
  match tasks with
  | [] => ret []
  | task_id :: tasks =>
      let! c := ch_get raw in
      match cb_count t c !! task_id with
      | None => panic "called `Option::unwrap()` on a `None` value"
      | Some n =>
          let n' := u32 (n - 1) in
          ch_mod raw (set_cb_count t (<[task_id := n']> (cb_count t c))) ;;
          let! finished := count_down_chunk raw t tasks in
          ret (if n' =? 0 then task_id :: finished else finished)
      end
  end.

Definition edge_callback_chunk (n : nat) (d : EdgeCbData) (integer : Z) : W unit :=
  let t := ecd_edge_type d in
  let raw := ecd_complex_handle_raw d in
  when (edge_matches t integer)
    (get_verilua_env ;;
     let! r := call_sim_event_chunk n (ecd_task_ids d) in
     fail_on_error r ;;
     if merge_cb then
       let! finished := count_down_chunk raw t (ecd_task_ids d) in
       match finished with
       | [] =>
           env_mod (fun e =>
             match pending_cb_chunk t e !! ecd_callback_id d with
             | Some _ => e
             | None => set_pending_cb_chunk t (<[ecd_callback_id d := (raw, ecd_task_ids d)]> (pending_cb_chunk t e)) e
             end)
       | _ =>
           for_each finished (fun task_id =>
             ch_mod raw (fun c => set_cb_count t (delete task_id (cb_count t c)) c)) ;;
           env_mod (fun e => set_pending_cb_chunk t (delete (ecd_callback_id d) (pending_cb_chunk t e)) e) ;;
           remove_edge_cb (ecd_callback_id d)
       end
     else remove_edge_cb (ecd_callback_id d)).

(** ** The sixteen copies *)

Definition do_register_edge_callback_chunk_1 (raw t1 : Z) (t : EdgeType) (id : Z) : W Z :=
  register_chunk 1 [t1] raw t id.
Definition edge_callback_chunk_1 : EdgeCbData -> Z -> W unit := edge_callback_chunk 1.

Definition do_register_edge_callback_chunk_2 (raw t1 t2 : Z) (t : EdgeType) (id : Z) : W Z :=
  register_chunk 2 [t1; t2] raw t id.
Definition edge_callback_chunk_2 : EdgeCbData -> Z -> W unit := edge_callback_chunk 2.

Definition do_register_edge_callback_chunk_3 (raw t1 t2 t3 : Z) (t : EdgeType) (id : Z) : W Z :=
  register_chunk 3 [t1; t2; t3] raw t id.
Definition edge_callback_chunk_3 : EdgeCbData -> Z -> W unit := edge_callback_chunk 3.

Definition do_register_edge_callback_chunk_4 (raw t1 t2 t3 t4 : Z) (t : EdgeType) (id : Z) : W Z :=
  register_chunk 4 [t1; t2; t3; t4] raw t id.
Definition edge_callback_chunk_4 : EdgeCbData -> Z -> W unit := edge_callback_chunk 4.

Definition do_register_edge_callback_chunk_5 (raw t1 t2 t3 t4 t5 : Z) (t : EdgeType) (id : Z) : W Z :=
  register_chunk 5 [t1; t2; t3; t4; t5] raw t id.
Definition edge_callback_chunk_5 : EdgeCbData -> Z -> W unit := edge_callback_chunk 5.

Definition do_register_edge_callback_chunk_6 (raw t1 t2 t3 t4 t5 t6 : Z) (t : EdgeType) (id : Z) : W Z :=
  register_chunk 6 [t1; t2; t3; t4; t5; t6] raw t id.
Definition edge_callback_chunk_6 : EdgeCbData -> Z -> W unit := edge_callback_chunk 6.

Definition do_register_edge_callback_chunk_7 (raw t1 t2 t3 t4 t5 t6 t7 : Z) (t : EdgeType) (id : Z) : W Z :=
  register_chunk 7 [t1; t2; t3; t4; t5; t6; t7] raw t id.
Definition edge_callback_chunk_7 : EdgeCbData -> Z -> W unit := edge_callback_chunk 7.

Definition do_register_edge_callback_chunk_8 (raw t1 t2 t3 t4 t5 t6 t7 t8 : Z) (t : EdgeType) (id : Z) : W Z :=
  register_chunk 8 [t1; t2; t3; t4; t5; t6; t7; t8] raw t id.
Definition edge_callback_chunk_8 : EdgeCbData -> Z -> W unit := edge_callback_chunk 8.

Definition do_register_edge_callback_chunk_9 (raw t1 t2 t3 t4 t5 t6 t7 t8 t9 : Z) (t : EdgeType) (id : Z) : W Z :=
  register_chunk 9 [t1; t2; t3; t4; t5; t6; t7; t8; t9] raw t id.
Definition edge_callback_chunk_9 : EdgeCbData -> Z -> W unit := edge_callback_chunk 9.

Definition do_register_edge_callback_chunk_10 (raw t1 t2 t3 t4 t5 t6 t7 t8 t9 t10 : Z) (t : EdgeType) (id : Z) : W Z :=
  register_chunk 10 [t1; t2; t3; t4; t5; t6; t7; t8; t9; t10] raw t id.
Definition edge_callback_chunk_10 : EdgeCbData -> Z -> W unit := edge_callback_chunk 10.

Definition do_register_edge_callback_chunk_11 (raw t1 t2 t3 t4 t5 t6 t7 t8 t9 t10 t11 : Z) (t : EdgeType) (id : Z) : W Z :=
  register_chunk 11 [t1; t2; t3; t4; t5; t6; t7; t8; t9; t10; t11] raw t id.
Definition edge_callback_chunk_11 : EdgeCbData -> Z -> W unit := edge_callback_chunk 11.

Definition do_register_edge_callback_chunk_12 (raw t1 t2 t3 t4 t5 t6 t7 t8 t9 t10 t11 t12 : Z) (t : EdgeType) (id : Z) : W Z :=
  register_chunk 12 [t1; t2; t3; t4; t5; t6; t7; t8; t9; t10; t11; t12] raw t id.
Definition edge_callback_chunk_12 : EdgeCbData -> Z -> W unit := edge_callback_chunk 12.

Definition do_register_edge_callback_chunk_13 (raw t1 t2 t3 t4 t5 t6 t7 t8 t9 t10 t11 t12 t13 : Z) (t : EdgeType) (id : Z) : W Z :=
  register_chunk 13 [t1; t2; t3; t4; t5; t6; t7; t8; t9; t10; t11; t12; t13] raw t id.
Definition edge_callback_chunk_13 : EdgeCbData -> Z -> W unit := edge_callback_chunk 13.

Definition do_register_edge_callback_chunk_14 (raw t1 t2 t3 t4 t5 t6 t7 t8 t9 t10 t11 t12 t13 t14 : Z) (t : EdgeType) (id : Z) : W Z :=
  register_chunk 14 [t1; t2; t3; t4; t5; t6; t7; t8; t9; t10; t11; t12; t13; t14] raw t id.
Definition edge_callback_chunk_14 : EdgeCbData -> Z -> W unit := edge_callback_chunk 14.

Definition do_register_edge_callback_chunk_15 (raw t1 t2 t3 t4 t5 t6 t7 t8 t9 t10 t11 t12 t13 t14 t15 : Z) (t : EdgeType) (id : Z) : W Z :=
  register_chunk 15 [t1; t2; t3; t4; t5; t6; t7; t8; t9; t10; t11; t12; t13; t14; t15] raw t id.
Definition edge_callback_chunk_15 : EdgeCbData -> Z -> W unit := edge_callback_chunk 15.

Definition do_register_edge_callback_chunk_16 (raw t1 t2 t3 t4 t5 t6 t7 t8 t9 t10 t11 t12 t13 t14 t15 t16 : Z) (t : EdgeType) (id : Z) : W Z :=
  register_chunk 16 [t1; t2; t3; t4; t5; t6; t7; t8; t9; t10; t11; t12; t13; t14; t15; t16] raw t id.
Definition edge_callback_chunk_16 : EdgeCbData -> Z -> W unit := edge_callback_chunk 16.

(** The handler behind each [cb_rtn]. *)
Definition chunk_handler (n : nat) : option (EdgeCbData -> Z -> W unit) :=
  match n with
  | 1%nat => Some edge_callback_chunk_1
  | 2%nat => Some edge_callback_chunk_2
  | 3%nat => Some edge_callback_chunk_3
  | 4%nat => Some edge_callback_chunk_4
  | 5%nat => Some edge_callback_chunk_5
  | 6%nat => Some edge_callback_chunk_6
  | 7%nat => Some edge_callback_chunk_7
  | 8%nat => Some edge_callback_chunk_8
  | 9%nat => Some edge_callback_chunk_9
  | 10%nat => Some edge_callback_chunk_10
  | 11%nat => Some edge_callback_chunk_11
  | 12%nat => Some edge_callback_chunk_12
  | 13%nat => Some edge_callback_chunk_13
  | 14%nat => Some edge_callback_chunk_14
  | 15%nat => Some edge_callback_chunk_15
  | 16%nat => Some edge_callback_chunk_16
  | _ => None
  end.

(** ** The registration policy *)

(** [match chunk.len()]. *)
Definition register_chunk_by_len (raw : Z) (chunk : list Z) (t : EdgeType) (id : Z) : W Z :=
  match chunk with
  | [t1] => do_register_edge_callback_chunk_1 raw t1 t id
  | [t1; t2] => do_register_edge_callback_chunk_2 raw t1 t2 t id
  | [t1; t2; t3] => do_register_edge_callback_chunk_3 raw t1 t2 t3 t id
  | [t1; t2; t3; t4] => do_register_edge_callback_chunk_4 raw t1 t2 t3 t4 t id
  | [t1; t2; t3; t4; t5] => do_register_edge_callback_chunk_5 raw t1 t2 t3 t4 t5 t id
  | [t1; t2; t3; t4; t5; t6] => do_register_edge_callback_chunk_6 raw t1 t2 t3 t4 t5 t6 t id
  | [t1; t2; t3; t4; t5; t6; t7] => do_register_edge_callback_chunk_7 raw t1 t2 t3 t4 t5 t6 t7 t id
  | [t1; t2; t3; t4; t5; t6; t7; t8] => do_register_edge_callback_chunk_8 raw t1 t2 t3 t4 t5 t6 t7 t8 t id
  | [t1; t2; t3; t4; t5; t6; t7; t8; t9] => do_register_edge_callback_chunk_9 raw t1 t2 t3 t4 t5 t6 t7 t8 t9 t id
  | [t1; t2; t3; t4; t5; t6; t7; t8; t9; t10] => do_register_edge_callback_chunk_10 raw t1 t2 t3 t4 t5 t6 t7 t8 t9 t10 t id
  | [t1; t2; t3; t4; t5; t6; t7; t8; t9; t10; t11] => do_register_edge_callback_chunk_11 raw t1 t2 t3 t4 t5 t6 t7 t8 t9 t10 t11 t id
  | [t1; t2; t3; t4; t5; t6; t7; t8; t9; t10; t11; t12] => do_register_edge_callback_chunk_12 raw t1 t2 t3 t4 t5 t6 t7 t8 t9 t10 t11 t12 t id
  | [t1; t2; t3; t4; t5; t6; t7; t8; t9; t10; t11; t12; t13] => do_register_edge_callback_chunk_13 raw t1 t2 t3 t4 t5 t6 t7 t8 t9 t10 t11 t12 t13 t id
  | [t1; t2; t3; t4; t5; t6; t7; t8; t9; t10; t11; t12; t13; t14] => do_register_edge_callback_chunk_14 raw t1 t2 t3 t4 t5 t6 t7 t8 t9 t10 t11 t12 t13 t14 t id
  | [t1; t2; t3; t4; t5; t6; t7; t8; t9; t10; t11; t12; t13; t14; t15] => do_register_edge_callback_chunk_15 raw t1 t2 t3 t4 t5 t6 t7 t8 t9 t10 t11 t12 t13 t14 t15 t id
  | [t1; t2; t3; t4; t5; t6; t7; t8; t9; t10; t11; t12; t13; t14; t15; t16] => do_register_edge_callback_chunk_16 raw t1 t2 t3 t4 t5 t6 t7 t8 t9 t10 t11 t12 t13 t14 t15 t16 t id
  | _ => panic "internal error: entered unreachable code"
  end.

(** [while idx < task_id_vec_size]. *)
Fixpoint register_loop (fuel : nat) (raw : Z) (task_id_vec : list Z) (t : EdgeType) (idx : nat) : W unit :=
  match fuel with
  | O => out_of_fuel
  | S fuel =>
      if (idx <? length task_id_vec)%nat then
        let chunk_end := Nat.min (idx + 16) (length task_id_vec) in
        let chunk := take (chunk_end - idx) (drop idx task_id_vec) in
        with_slab_slot (register_chunk_by_len raw chunk t) ;;
        register_loop fuel raw task_id_vec t chunk_end
      else ret tt
  end.

Definition register_tasks (t : EdgeType) (raw : Z) (task_id_vec : list Z) : W unit :=
  register_loop (S (length task_id_vec)) raw task_id_vec t 0.

(** The three blocks of [gen_callback_policy.rs]. *)
Definition callback_policy_posedge : W unit :=
  let! m := env_get pending_posedge_cb_map in
  for_each (hash_iter m) (fun '(raw, tasks) => register_tasks Posedge raw tasks).
Definition callback_policy_negedge : W unit :=
  let! m := env_get pending_negedge_cb_map in
  for_each (hash_iter m) (fun '(raw, tasks) => register_tasks Negedge raw tasks).
Definition callback_policy_edge : W unit :=
  let! m := env_get pending_edge_cb_map in
  for_each (hash_iter m) (fun '(raw, tasks) => register_tasks Edge raw tasks).

Definition gen_callback_policy : W unit :=
  callback_policy_posedge ;; callback_policy_negedge ;; callback_policy_edge.

(** The heartbeat handler with the generated policy. *)
Definition next_sim_time_cb (cb_data : s_cb_data) : W unit :=
  libverilua_next_sim_time_cb gen_callback_policy cb_data.

(* ------------------------------------------------------------------ *)
(** ** What a registration pass does *)

(** The data of the edge callbacks registered in a trace. *)
Definition edge_regs (t : list Event) : list EdgeCbData :=
  omap (fun e => match e with EvRegister (mkCb _ _ _ _ (UdEdge d)) _ => Some d | _ => None end) t.

Record registers (ds : list EdgeCbData) (w w' : World Sim) : Prop := {
  rg_trace : edge_regs (w_trace w') = edge_regs (w_trace w) ++ ds;
  rg_heap : w_heap w' = w_heap w;
  rg_env : w_env w' = set_edge_cb_slab (edge_cb_slab (w_env w')) (w_env w);
  rg_slab : forall d, d ∈ ds -> exists h cb, edge_cb_slab (w_env w') !! ecd_callback_id d = Some h /\
    w_cbs w' !! h = Some cb /\ user_data cb = UdEdge d /\
    cb_rtn cb = edge_callback_chunk_rtn (length (ecd_task_ids d));
  rg_keep_slab : forall k h, edge_cb_slab (w_env w) !! k = Some h -> edge_cb_slab (w_env w') !! k = Some h;
  rg_keep_cbs : forall h cb, w_cbs w !! h = Some cb -> w_cbs w' !! h = Some cb;
  rg_fresh : forall d, d ∈ ds -> edge_cb_slab (w_env w) !! ecd_callback_id d = None;
  rg_nodup : NoDup (map ecd_callback_id ds)
}.

Lemma registers_nil w : registers [] w w.
Proof.
  split; try set_solver; [by rewrite app_nil_r| |constructor]. destruct w as [e]. by destruct e.
Qed.

Lemma registers_app ds1 ds2 w1 w2 w3 :
  registers ds1 w1 w2 -> registers ds2 w2 w3 -> registers (ds1 ++ ds2) w1 w3.
Proof.
  intros [A1 A2 A3 A4 A5 A6 A7 A8] [B1 B2 B3 B4 B5 B6 B7 B8]. split.
  - by rewrite B1, A1, app_assoc.
  - congruence.
  - rewrite B3 at 1. rewrite A3. done.
  - intros d [Hd|Hd]%elem_of_app; [|by apply B4].
    destruct (A4 d Hd) as (h & cb & H1 & H2 & H3). exists h, cb. split_and!; [by apply B5|by apply B6|apply H3..].
  - intros k h Hk. by apply B5, A5.
  - intros h cb Hh. by apply B6, A6.
  - intros d [Hd|Hd]%elem_of_app; [by apply A7|]. specialize (B7 d Hd).
    destruct (edge_cb_slab (w_env w1) !! ecd_callback_id d) as [h|] eqn:E; [|done].
    apply A5 in E. congruence.
  - rewrite map_app. apply NoDup_app. split_and!; [done| |done].
    intros k Hk1 Hk2. apply list_elem_of_In, in_map_iff in Hk1 as (d1 & <- & Hd1).
    apply list_elem_of_In, in_map_iff in Hk2 as (d2 & He & Hd2).
    apply list_elem_of_In in Hd1, Hd2. destruct (A4 d1 Hd1) as (h & _ & Hs & _).
    specialize (B7 d2 Hd2). rewrite He in B7. congruence.
Qed.

Lemma with_slab_slot_spec tasks raw t c (w : World Sim) :
  slab_ok -> accepting_registration -> fresh_registration -> w_heap w !! raw = Some c ->
  exists w', with_slab_slot (register_chunk (length tasks) tasks raw t) w = Ret tt w' /\
    registers [mkEdgeCbData tasks raw t (slab_vacant_key (edge_cb_slab (w_env w)))] w w'.
Proof.
  intros Hs Ha Hf Hc. unfold with_slab_slot, register_chunk. mrun. mrun (ch_get_Some _ _ _ Hc).
  set (key := slab_vacant_key (edge_cb_slab (w_env w))).
  destruct (Hs (edge_cb_slab (w_env w))) as [Hnone _]. fold key in Hnone.
  set (cb := edge_cb _ _ _). set (h := vpi_register_result w cb).
  rewrite (returned_handle w cb (ar_change Ha)). fold h. pose proof (Ha w cb : h <> 0) as Hh. pose proof (Hf w cb Hh : w_cbs w !! h = None) as Hfr.
  unfold env_mod, modify. eexists. split; [done|].
  unfold registered. fold h. destruct (Z.eqb_spec h 0); [done|]. split; cbn.
  - unfold edge_regs. rewrite omap_app. done.
  - done.
  - destruct w as [e]. by destruct e.
  - intros d ->%list_elem_of_singleton. exists h, cb. cbn. by rewrite !lookup_insert_eq.
  - intros k h' Hk. rewrite lookup_insert_ne; [done|]. congruence.
  - intros h' cb' Hk. rewrite lookup_insert_ne; [done|]. congruence.
  - by intros d ->%list_elem_of_singleton.
  - apply NoDup_singleton.
Qed.

(** Reference chunking. *)
Fixpoint chunks16 (fuel : nat) (l : list Z) : list (list Z) :=
  match fuel, l with
  | S fuel, _ :: _ => take 16 l :: chunks16 fuel (drop 16 l)
  | _, _ => []
  end.

Lemma chunks16_concat fuel l : (length l <= fuel)%nat -> concat (chunks16 fuel l) = l.
Proof.
  revert l. induction fuel as [|fuel IH]; intros [|x l] Hl; cbn [chunks16]; try done; cbn in Hl; [lia|].
  cbn [concat]. rewrite IH; [apply take_drop|]. rewrite length_drop. cbn [length]. lia.
Qed.

Lemma chunks16_sizes fuel l : Forall (fun c => 1 <= length c <= 16)%nat (chunks16 fuel l).
Proof.
  revert l. induction fuel as [|fuel IH]; intros [|x l]; cbn [chunks16]; try constructor; [|apply IH].
  rewrite length_take. cbn [length]. lia.
Qed.

Lemma chunks16_fuel f1 f2 l : (length l <= f1)%nat -> (length l <= f2)%nat -> chunks16 f1 l = chunks16 f2 l.
Proof.
  revert f2 l. induction f1 as [|f1 IH]; intros [|f2] [|x l] H1 H2; cbn in H1, H2; try done; try lia.
  cbn [chunks16]. f_equal. apply IH; rewrite length_drop; cbn [length]; lia.
Qed.

(** The dispatch picks the copy for the length of the chunk. *)
Lemma register_chunk_by_len_eq raw chunk t :
  (1 <= length chunk <= 16)%nat -> register_chunk_by_len raw chunk t = register_chunk (length chunk) chunk raw t.
Proof.
  intros Hl. do 17 (destruct chunk as [|? chunk]; [first [done|cbn in Hl; lia]|]). cbn in Hl. lia.
Qed.

Lemma register_loop_spec fuel raw l t c idx (w : World Sim) :
  slab_ok -> accepting_registration -> fresh_registration -> w_heap w !! raw = Some c ->
  (length (drop idx l) < fuel)%nat ->
  exists w' ds, register_loop fuel raw l t idx w = Ret tt w' /\ registers ds w w' /\
    map ecd_task_ids ds = chunks16 (length l) (drop idx l) /\
    Forall (fun d => ecd_complex_handle_raw d = raw /\ ecd_edge_type d = t) ds.
Proof.
  intros Hs Ha Hf. revert idx w. induction fuel as [|fuel IH]; intros idx w Hc Hfuel; [lia|].
  cbn [register_loop]. destruct (Nat.ltb_spec idx (length l)) as [Hi|Hi].
  - set (chunk_end := Nat.min (idx + 16) (length l)). set (chunk := take (chunk_end - idx) (drop idx l)).
    assert (chunk = take 16 (drop idx l)) as Hch.
    { unfold chunk, chunk_end. destruct (decide (idx + 16 <= length l)%nat).
      - by replace (Nat.min (idx + 16) (length l) - idx)%nat with 16%nat by lia.
      - rewrite !take_ge; [done|rewrite length_drop; lia|rewrite length_drop; lia]. }
    assert (1 <= length chunk <= 16)%nat as Hlen by (rewrite Hch, length_take, length_drop; lia).
    rewrite register_chunk_by_len_eq by done.
    destruct (with_slab_slot_spec chunk raw t c w Hs Ha Hf Hc) as (w1 & E1 & R1). mrun E1.
    assert (drop chunk_end l = drop 16 (drop idx l)) as Hd.
    { rewrite drop_drop. unfold chunk_end. destruct (decide (idx + 16 <= length l)%nat).
      - by replace (Nat.min (idx + 16) (length l)) with (idx + 16)%nat by lia.
      - rewrite !drop_ge; [done|lia|lia]. }
    destruct (IH chunk_end w1) as (w2 & ds & E2 & R2 & Hm & Hall).
    { by rewrite (rg_heap _ _ _ R1). }
    { rewrite Hd, length_drop. rewrite length_drop in Hfuel |- *. lia. }
    exists w2. eexists (_ :: ds). split; [exact E2|]. split; [exact (registers_app _ ds w w1 w2 R1 R2)|]. cbn [map].
    split; [|by constructor].
    rewrite Hm, Hd. cbn [ecd_task_ids]. rewrite Hch.
    assert (length (drop idx l) = length l - idx)%nat as Hdl by apply length_drop.
    destruct (length l) as [|n] eqn:En; [lia|]. destruct (drop idx l) as [|x r] eqn:Er; [cbn in Hdl; lia|].
    change (chunks16 (S n) (x :: r)) with (take 16 (x :: r) :: chunks16 n (drop 16 (x :: r))).
    f_equal. apply chunks16_fuel; rewrite length_drop; cbn [length] in Hdl |- *; lia.
  - exists w, []. split_and!; [done|apply registers_nil| |constructor].
    rewrite drop_ge by done. by destruct (length l).
Qed.

Definition all_live (m : gmap Z (list Z)) (h : gmap Z ComplexHandle) : Prop :=
  forall raw tasks, m !! raw = Some tasks -> is_Some (h !! raw).

Definition chunk_plan (t : EdgeType) (l : list (Z * list Z)) : list (Z * EdgeType * list Z) :=
  flat_map (fun '(raw, tasks) => map (fun c => (raw, t, c)) (chunks16 (length tasks) tasks)) l.

Definition planned (d : EdgeCbData) : Z * EdgeType * list Z :=
  (ecd_complex_handle_raw d, ecd_edge_type d, ecd_task_ids d).

Lemma map_planned raw t ds :
  Forall (fun d => ecd_complex_handle_raw d = raw /\ ecd_edge_type d = t) ds ->
  map planned ds = map (fun c => (raw, t, c)) (map ecd_task_ids ds).
Proof.
  rewrite map_map. intros Hall. apply map_ext_in. intros d Hd. rewrite Forall_forall in Hall.
  destruct (Hall d) as [<- <-]; [by apply list_elem_of_In|done].
Qed.

Lemma register_block_spec t l (w : World Sim) :
  slab_ok -> accepting_registration -> fresh_registration ->
  Forall (fun p => is_Some (w_heap w !! fst p)) l ->
  exists w' ds, for_each l (fun '(raw, tasks) => register_tasks t raw tasks) w = Ret tt w' /\
    registers ds w w' /\ map planned ds = chunk_plan t l.
Proof.
  intros Hs Ha Hf. revert w. induction l as [|[raw tasks] l IH]; intros w Hl.
  - exists w, []. split_and!; [done|apply registers_nil|done].
  - apply Forall_cons in Hl as [[c Hc] Hl]. cbn [fst] in Hc. cbn [for_each].
    destruct (register_loop_spec (S (length tasks)) raw tasks t c 0 w Hs Ha Hf Hc) as (w1 & ds1 & E1 & R1 & M1 & A1).
    { rewrite length_drop. lia. }
    unfold register_tasks at 1. mrun E1.
    destruct (IH w1) as (w2 & ds2 & E2 & R2 & M2).
    { by rewrite (rg_heap _ _ _ R1). }
    exists w2, (ds1 ++ ds2). split_and!; [done|by apply (registers_app _ _ w w1)|].
    rewrite map_app, M2, (map_planned raw t ds1 A1), M1. done.
Qed.

Lemma hash_iter_live (m : gmap Z (list Z)) h :
  hash_iter_ok -> all_live m h -> Forall (fun p => is_Some (h !! fst p)) (hash_iter m).
Proof.
  intros Hh Hl. apply Forall_forall. intros [raw tasks] Hin. rewrite (Hh _ m) in Hin.
  apply elem_of_map_to_list in Hin. by apply (Hl raw tasks).
Qed.

(** C29: the chunked registration of pending edge waiters.  At the time step
    boundary the generated policy registers, for every signal and edge kind, one
    value-change callback per chunk: the chunks have 1 to 16 tasks and
    concatenate to the pending task list in order, each goes to the copy for its
    length, gets its own fresh slab slot, and the slot holds the handle of exactly
    that callback; nothing registered earlier is disturbed. *)
Theorem policy_registers_every_task (w : World Sim) :
  slab_ok -> hash_iter_ok -> accepting_registration -> fresh_registration ->
  (forall t, all_live (pending_cb_map t (w_env w)) (w_heap w)) ->
  exists w' ds, gen_callback_policy w = Ret tt w' /\ registers ds w w' /\
    map planned ds =
      chunk_plan Posedge (hash_iter (pending_posedge_cb_map (w_env w))) ++
      chunk_plan Negedge (hash_iter (pending_negedge_cb_map (w_env w))) ++
      chunk_plan Edge (hash_iter (pending_edge_cb_map (w_env w))) /\
    (forall l, concat (chunks16 (length l) l) = l /\
       Forall (fun c => 1 <= length c <= 16)%nat (chunks16 (length l) l)).
Proof.
  intros Hs Hh Ha Hf Hl. unfold gen_callback_policy, callback_policy_posedge, callback_policy_negedge, callback_policy_edge.
  mrun. destruct (register_block_spec Posedge (hash_iter (pending_posedge_cb_map (w_env w))) w Hs Ha Hf)
    as (w1 & ds1 & E1 & R1 & M1); [by apply hash_iter_live; [|apply (Hl Posedge)]|]. mrun E1.
  destruct (register_block_spec Negedge (hash_iter (pending_negedge_cb_map (w_env w))) w1 Hs Ha Hf)
    as (w2 & ds2 & E2 & R2 & M2).
  { rewrite (rg_heap _ _ _ R1). by apply hash_iter_live; [|apply (Hl Negedge)]. }
  assert (pending_negedge_cb_map (w_env w1) = pending_negedge_cb_map (w_env w)) as ->
    by (by rewrite (rg_env _ _ _ R1)).
  mrun E2. assert (pending_edge_cb_map (w_env w2) = pending_edge_cb_map (w_env w)) as ->
    by (by rewrite (rg_env _ _ _ R2), (rg_env _ _ _ R1)).
  destruct (register_block_spec Edge (hash_iter (pending_edge_cb_map (w_env w))) w2 Hs Ha Hf)
    as (w3 & ds3 & E3 & R3 & M3).
  { rewrite (rg_heap _ _ _ R2), (rg_heap _ _ _ R1). by apply hash_iter_live; [|apply (Hl Edge)]. }
  exists w3, (ds1 ++ ds2 ++ ds3). split_and!; [done| | |].
  - apply (registers_app _ _ w w1); [done|]. by apply (registers_app _ _ w1 w2).
  - by rewrite !map_app, M1, M2, M3.
  - intros l. split; [by apply chunks16_concat|apply chunks16_sizes].
Qed.

End ChunkTask.

(* ------------------------------------------------------------------ *)
(** ** Witness: eighteen tasks wait for a rising edge of one signal *)

Definition waiting_world : World CountSim :=
  set_w_env (set_pending_posedge_cb_map (<[1 := map Z.of_nat (seq 1 18)]> ∅) (w_env demo_world)) demo_world.

Lemma waiting_live t : all_live (pending_cb_map t (w_env waiting_world)) (w_heap waiting_world).
Proof.
  intros raw tasks. destruct t; cbn [pending_cb_map]; intros Hr; [|vm_compute in Hr; discriminate..].
  assert (raw = 1) as ->.
  { change (pending_posedge_cb_map (w_env waiting_world)) with
      (<[1 := map Z.of_nat (seq 1 18)]> (∅ : gmap Z (list Z))) in Hr.
    apply lookup_insert_Some in Hr as [[-> _]|[_ Hr]]; [done|by rewrite lookup_empty in Hr]. }
  eexists. vm_compute. reflexivity.
Qed.

Lemma policy_registers_every_task_witness :
  exists w' ds, gen_callback_policy waiting_world = Ret tt w' /\
    map planned ds = [(1, Posedge, map Z.of_nat (seq 1 16)); (1, Posedge, [17; 18])].
Proof.
  destruct list_containers_ok as [Hh Hs].
  destruct (policy_registers_every_task waiting_world Hs Hh count_accepting count_fresh waiting_live)
    as (w' & ds & E & _ & Hp & _).
  exists w', ds. split; [exact E|]. rewrite Hp. vm_compute. reflexivity.
Defined.
