(* ===== verification/NativeClock.v ===== *)
(** * The native clock driver

    [libverilua/src/native_clock.rs]: a boxed [NativeClock] drives a signal
    through the deferred [set] path and schedules its next edge with a one-shot
    [cbAfterDelay] callback that holds a pointer to it; a registry of signals is
    meant to keep one driver per signal.  A clock pointer is an address in
    [w_clocks]; a freed clock has no entry, so using it is undefined. *)

From S2P Require Import Prelude Bytes State Backend PutQueue ValueGetters ValueSetters.
#[local] Open Scope Z_scope.

(** [libc] on Linux. *)
Definition EIO : Z := 5.
Definition EBUSY : Z := 16.
Definition EEXIST : Z := 17.
Definition EINVAL : Z := 22.

Section NativeClock.
Context {Sim : Type} `{!VpiBackend Sim} {F : Features}.
Local Abbreviation W := (W Sim).

Definition clock_get (p : Z) : W NativeClock := fun w =>
  match w_clocks w !! p with Some c => Ret c w | None => UB "use of a freed NativeClock" end.
Definition clock_mod (p : Z) (f : NativeClock -> NativeClock) : W unit := fun w =>
  match w_clocks w !! p with
  | Some c => Ret tt (set_w_clocks (<[p := f c]> (w_clocks w)) w)
  | None => UB "use of a freed NativeClock"
  end.

Definition active_insert (s : Z) : W unit := modify (fun w => set_ACTIVE_SIGNALS ({[s]} ∪ ACTIVE_SIGNALS w) w).
Definition active_remove (s : Z) : W unit := modify (fun w => set_ACTIVE_SIGNALS (ACTIVE_SIGNALS w ∖ {[s]}) w).

(** [NativeClock::new] and [vpiml_native_clock_new]. *)
Definition NativeClock_new (raw : Z) : W NativeClock :=
  let! c := ch_get raw in
  assert_ (ch_env c) "NativeClock::new: ComplexHandle.env is null; create the handle after VeriluaEnv init" ;;
  ret (mkClock raw (vpi_handle c) 0 0 0 None false false).

Definition vpiml_native_clock_new (raw : Z) : W Z :=
  let! c := NativeClock_new raw in
  let! p := alloc in
  modify (fun w => set_w_clocks (<[p := c]> (w_clocks w)) w) ;; ret p.

Definition timer_cb (p delay : Z) : s_cb_data :=
  mkCb cbAfterDelay native_clock_toggle_callback_rtn
    (Some (vpiSimTime, u32 (hi32 delay), u32 (lo32 delay))) 0 (UdClock p).

(** The delay to the next edge: [u64] subtraction. *)
Definition next_delay (c : NativeClock) : Z :=
  if current_val c =? 1 then high_steps c else u64 (period_steps c - high_steps c).

Definition toggle (p : Z) (first_call : bool) : W Z :=
  let! c := clock_get p in
  vpiml_value ASet (complex_handle_raw c) (current_val c) ;;
  let! c := clock_get p in
  let delay := next_delay c in
  clock_mod p (set_current_val (Z.lxor (current_val c) 1)) ;;
  let! new_hdl := vpi_register_cb (timer_cb p delay) in
  if new_hdl =? 0 then
    when first_call (active_remove (signal_hdl c)) ;; ret EIO
  else clock_mod p (set_cb_handle (Some new_hdl)) ;; ret 0.

Definition start (p period high : Z) (start_high : bool) : W Z :=
  let! c := clock_get p in
  if bool_decide (is_Some (cb_handle c)) then ret EBUSY else
  let! active := gets ACTIVE_SIGNALS in
  if bool_decide (signal_hdl c ∈ active) then ret EEXIST else
  if (period <? 2) || (high <? 1) || (period <=? high) then ret EINVAL else
  active_insert (signal_hdl c) ;;
  clock_mod p (set_period_steps period) ;;
  clock_mod p (set_high_steps high) ;;
  clock_mod p (set_current_val (if start_high then 1 else 0)) ;;
  toggle p true.

Definition stop (p : Z) : W unit :=
  let! c := clock_get p in
  active_remove (signal_hdl c) ;;
  match cb_handle c with
  | Some h => clock_mod p (set_cb_handle None) ;; vpi_remove_cb h
  | None => ret tt
  end.

Definition is_running (p : Z) : W bool :=
  let! c := clock_get p in ret (bool_decide (is_Some (cb_handle c))).

(** [Drop]: stop, then free the box. *)
Definition drop_clock (p : Z) : W unit :=
  stop p ;; modify (fun w => set_w_clocks (delete p (w_clocks w)) w).

Definition native_clock_toggle_callback (p : Z) : W unit :=
  clock_mod p (set_cb_handle None) ;;
  let! c := clock_get p in
  if destroy_pending c then drop_clock p
  else
    clock_mod p (set_in_callback true) ;;
    toggle p false ;;
    clock_mod p (set_in_callback false) ;;
    let! c := clock_get p in
    when (destroy_pending c) (stop p ;; drop_clock p).

(** The C interface: a null handle is an error or a no-op. *)
Definition vpiml_native_clock_start (p period high start_high : Z) : W Z :=
  if p =? 0 then ret EINVAL else start p period high (negb (start_high =? 0)).
Definition vpiml_native_clock_stop (p : Z) : W unit := when (negb (p =? 0)) (stop p).
Definition vpiml_native_clock_is_running (p : Z) : W Z :=
  if p =? 0 then ret 0 else let! b := is_running p in ret (if b then 1 else 0).
Definition vpiml_native_clock_destroy (p : Z) : W unit :=
  when (negb (p =? 0))
    (let! c := clock_get p in
     if in_callback c then clock_mod p (set_destroy_pending true) ;; stop p
     else drop_clock p).

(** The simulator fires the one-shot timer [h]. *)
Definition fire_timer (h p : Z) : W unit :=
  modify (fun w => set_w_cbs (delete h (w_cbs w)) w) ;; native_clock_toggle_callback p.

(* ------------------------------------------------------------------ *)
(** ** Lemmas *)

Lemma clock_get_Some p c (w : World Sim) : w_clocks w !! p = Some c -> clock_get p w = Ret c w.
Proof. unfold clock_get. by intros ->. Qed.

Lemma clock_mod_Some p f c (w : World Sim) :
  w_clocks w !! p = Some c -> clock_mod p f w = Ret tt (set_w_clocks (<[p := f c]> (w_clocks w)) w).
Proof. unfold clock_mod. by intros ->. Qed.

(** The timers a trace armed: clock and delay. *)
Definition timer_delays (t : list Event) : list (Z * Z) :=
  omap (fun e => match e with
    | EvRegister (mkCb _ native_clock_toggle_callback_rtn (Some (_, hi, lo)) _ (UdClock p)) _ => Some (p, join64 hi lo)
    | _ => None
    end) t.

Lemma timer_delays_app t1 t2 : timer_delays (t1 ++ t2) = timer_delays t1 ++ timer_delays t2.
Proof. apply omap_app. Qed.

(** Two worlds agree on what the clocks own. *)
Record same_clocks (w w' : World Sim) : Prop := {
  sc_clocks : w_clocks w' = w_clocks w;
  sc_active : ACTIVE_SIGNALS w' = ACTIVE_SIGNALS w;
  sc_cbs : w_cbs w' = w_cbs w \/
    exists h, w_cbs w !! h = None /\ w_cbs w' = <[h := flush_cb]> (w_cbs w);
  sc_next : w_next w' = w_next w;
  sc_valid : forall r ch, valid_handle w r ch -> exists ch', valid_handle w' r ch' /\ vpi_handle ch' = vpi_handle ch;
  sc_timers : timer_delays (w_trace w') = timer_delays (w_trace w)
}.

(** The clock's write. *)
Lemma clock_write raw v c (w : World Sim) :
  quiet_put -> fresh_registration -> queue_wf w -> valid_handle w raw c ->
  exists w' c', vpiml_value ASet raw v w = Ret tt w' /\ queue_wf w' /\ valid_handle w' raw c' /\
    vpi_handle c' = vpi_handle c /\ same_clocks w w'.
Proof.
  intros Hq Hf Hwf Hv. pose proof (qw_heap w Hwf raw c (proj1 Hv)) as Hcw.
  unfold vpiml_value. mrun (ch_get_Some _ _ _ (proj1 Hv)). destruct inertial_put eqn:Hi.
  - unfold put_vectors. mrun (ch_mod_Some _ (upd_vectors (fill_u32 (beat_num c) v)) _ _ (proj1 Hv)).
    erewrite bind_Ret; [|apply ch_get_Some; cbn; apply lookup_insert_eq].
    destruct (vpi_put_value_quiet (vpi_handle (upd_vectors (fill_u32 (beat_num c) v) c))
      (VVec (put_value_vectors (upd_vectors (fill_u32 (beat_num c) v) c))) (inertial_flag ASet)
      (set_w_heap (<[raw := upd_vectors (fill_u32 (beat_num c) v) c]> (w_heap w)) w) Hq) as [s Hs].
    eexists _, (upd_vectors (fill_u32 (beat_num c) v) c). split_and!; [exact Hs| | |done|].
    + apply queue_wf_sim, queue_wf_trace. apply queue_wf_upd; [done|apply Hv|].
      apply upd_vectors_ok. intros l Hl. by rewrite length_fill_u32.
    + split; [cbn; apply lookup_insert_eq|apply Hv].
    + split; [done|done|by left|done| |].
      * intros r ch [Hr Hne]. cbn. destruct (decide (r = raw)) as [->|Hrr].
        -- rewrite (proj1 Hv) in Hr. injection Hr as <-. eexists. split; [split; [cbn; apply lookup_insert_eq|exact Hne]|done].
        -- exists ch. split; [split; [cbn; by rewrite lookup_insert_ne|done]|done].
      * cbn. rewrite timer_delays_app. apply app_nil_r.
  - rewrite (put_deferred_spec _ _ _ _ c w Hwf Hv).
    set (c' := upd_vectors (set_aval 0 v) (stamped (action_flag ASet) vpiVectorVal c)).
    destruct (accepts c (action_flag ASet)).
    + exists (queued raw c' w), c'. split_and!; [done| | |done|].
      * apply (queued_wf raw c); [done..|by eexists|].
        assert (upd_ok (upd_vectors (set_aval 0 v))) as Hu.
        { apply upd_vectors_ok. intros l Hl. unfold set_aval. by rewrite length_alter. }
        by apply Hu, stamped_wf.
      * split; [rewrite queued_heap; apply lookup_insert_eq|apply Hv].
      * set (w1 := set_w_env (enqueue raw (w_env (requeue raw c' w))) (requeue raw c' w)).
        destruct (wake_other w1) as (H1 & H2 & _).
        split; [done|done|exact (wake_cbs w1 Hf)| | |].
        -- unfold queued, wake, registered. destruct (late_flush _); [|done]. cbn. by destruct (_ =? 0).
        -- intros r ch [Hr Hne]. destruct (decide (r = raw)) as [->|Hrr].
           ++ rewrite (proj1 Hv) in Hr. injection Hr as <-. exists c'. split; [|done].
              split; [rewrite queued_heap; apply lookup_insert_eq|exact Hne].
           ++ exists ch. split; [|done]. split; [rewrite queued_heap; by rewrite lookup_insert_ne|done].
        -- unfold queued, wake, registered. destruct (late_flush _); [|done]. cbn.
           destruct (_ =? 0); cbn; rewrite !timer_delays_app; cbn; by rewrite !app_nil_r.
    + exists w, c. split_and!; [done..|]. split; [done|done|by left|done| |done].
      intros r ch Hr. by exists ch.
Qed.

(** *** The ownership invariant *)

Definition is_timer (cb : s_cb_data) : Prop := cb_rtn cb = native_clock_toggle_callback_rtn.

(** A timer the simulator holds points to a live clock that knows its handle,
    and the handle of a running clock is its timer; clocks drive live signals. *)
Record clock_inv (w : World Sim) : Prop := {
  ci_timer : forall h cb, w_cbs w !! h = Some cb -> is_timer cb ->
    exists p c, user_data cb = UdClock p /\ w_clocks w !! p = Some c /\ cb_handle c = Some h;
  ci_handle : forall p c h, w_clocks w !! p = Some c -> cb_handle c = Some h ->
    exists cb, w_cbs w !! h = Some cb /\ is_timer cb /\ user_data cb = UdClock p;
  ci_next : forall p c, w_clocks w !! p = Some c -> 0 < p < w_next w;
  ci_valid : forall p c, w_clocks w !! p = Some c ->
    exists ch, valid_handle w (complex_handle_raw c) ch /\ signal_hdl c = vpi_handle ch
}.

Lemma same_clocks_inv w w' : clock_inv w -> same_clocks w w' -> clock_inv w'.
Proof.
  intros [I1 I2 I3 I4] [S1 S2 S3 S4 S5 _]. split.
  - intros h cb Hh Ht. rewrite S1. apply (I1 h cb); [|done].
    destruct S3 as [E|(h' & Hn & E)]; rewrite E in Hh; [done|].
    apply lookup_insert_Some in Hh as [[-> <-]|[_ Hh]]; [done|done].
  - intros p c h Hp Hh. rewrite S1 in Hp. destruct (I2 p c h Hp Hh) as (cb & Hcb & Ht).
    exists cb. split; [|done]. destruct S3 as [E|(h' & Hn & E)]; rewrite E; [done|].
    rewrite lookup_insert_ne; [done|]. congruence.
  - intros p c. rewrite S1, S4. apply I3.
  - intros p c. rewrite S1. intros Hp. destruct (I4 p c Hp) as (ch & Hv & Hs).
    destruct (S5 _ _ Hv) as (ch' & Hv' & He). exists ch'. split; [done|congruence].
Qed.

(** A change of clock [p] that keeps its handle and its signal. *)
Lemma clock_mod_inv p c c' (w : World Sim) :
  clock_inv w -> w_clocks w !! p = Some c -> cb_handle c' = cb_handle c ->
  complex_handle_raw c' = complex_handle_raw c -> signal_hdl c' = signal_hdl c ->
  clock_inv (set_w_clocks (<[p := c']> (w_clocks w)) w).
Proof.
  intros [I1 I2 I3 I4] Hp Hh Hr Hs. split; cbn.
  - intros h cb Hcb Ht. destruct (I1 h cb Hcb Ht) as (q & d & Hu & Hq & Hd). exists q.
    destruct (decide (q = p)) as [->|Hne].
    + exists c'. rewrite lookup_insert_eq. split_and!; [done|done|congruence].
    + exists d. by rewrite lookup_insert_ne.
  - intros q d h. rewrite lookup_insert_Some. intros [[<- <-]|[_ Hq]] Hd; [|by apply (I2 q d h)].
    apply (I2 p c h); [done|congruence].
  - intros q d. rewrite lookup_insert_Some. intros [[<- <-]|[_ Hq]]; [by apply (I3 p c)|by apply (I3 q d)].
  - intros q d. rewrite lookup_insert_Some. intros [[<- <-]|[_ Hq]]; [|by apply (I4 q d)].
    rewrite Hr, Hs. by apply (I4 p c).
Qed.

(** *** The operations keep it *)

Section Ops.
Hypothesis Hquiet : quiet_put (Sim := Sim).
Hypothesis Haccept : accepting_registration (Sim := Sim).
Hypothesis Hfresh : fresh_registration (Sim := Sim).
Hypothesis Hdelay : gives_handle (Sim := Sim) cbAfterDelay.

Definition clocks_ok (w : World Sim) : Prop := queue_wf w /\ clock_inv w.

Lemma clocks_ok_clocks m (w : World Sim) :
  queue_wf w -> clock_inv (set_w_clocks m w) -> clocks_ok (set_w_clocks m w).
Proof. intros [H1 H2 H3 H4] Hc. split; [by split|done]. Qed.

Lemma queue_wf_active m (w : World Sim) : queue_wf w -> queue_wf (set_ACTIVE_SIGNALS m w).
Proof. intros [? ? ? ?]. by split. Qed.

Lemma clocks_ok_active m (w : World Sim) : clocks_ok w -> clocks_ok (set_ACTIVE_SIGNALS m w).
Proof. intros [Hq [? ? ? ?]]. split; [by apply queue_wf_active|by split]. Qed.

(** Arming the next timer of a stopped clock. *)
Lemma arm_spec p c d (w : World Sim) :
  clocks_ok w -> w_clocks w !! p = Some c -> cb_handle c = None ->
  exists h w', (let! new_hdl := vpi_register_cb (timer_cb p d) in
      if new_hdl =? 0 then ret EIO else clock_mod p (set_cb_handle (Some new_hdl)) ;; ret 0) w = Ret 0 w' /\
    clocks_ok w' /\ w_clocks w' = <[p := set_cb_handle (Some h) c]> (w_clocks w) /\
    w_cbs w' !! h = Some (timer_cb p d) /\ ACTIVE_SIGNALS w' = ACTIVE_SIGNALS w /\
    timer_delays (w_trace w') = timer_delays (w_trace w) ++ [(p, join64 (u32 (hi32 d)) (u32 (lo32 d)))].
Proof.
  intros [Hq [I1 I2 I3 I4]] Hp Hn. mrun. rewrite (returned_handle w (timer_cb p d) Hdelay). set (h := vpi_register_result w (timer_cb p d)).
  pose proof (Haccept w (timer_cb p d)) as Hne. fold h in Hne.
  pose proof (Hfresh w (timer_cb p d) Hne) as Hnone. fold h in Hnone.
  destruct (Z.eqb_spec h 0) as [|_]; [done|].
  assert (registered (timer_cb p d) w =
    set_w_cbs (<[h := timer_cb p d]> (w_cbs w)) (set_w_trace (w_trace w ++ [EvRegister (timer_cb p d) h]) w)) as ->.
  { unfold registered. fold h. by destruct (Z.eqb_spec h 0). }
  erewrite bind_Ret; [|by apply clock_mod_Some].
  exists h. eexists. split_and!; [done| |done|cbn; apply lookup_insert_eq|done|].
  - split; [destruct Hq; by split|]. split; cbn.
    + intros h' cb. rewrite lookup_insert_Some. intros [[<- <-]|[Hh Hcb]] Ht.
      * exists p, (set_cb_handle (Some h) c). by rewrite lookup_insert_eq.
      * destruct (I1 h' cb Hcb Ht) as (q & d' & Hu & Hd & Hdh). exists q, d'.
        rewrite lookup_insert_ne; [done|]. intros ->. congruence.
    + intros q d' h'. rewrite lookup_insert_Some. intros [[<- <-]|[Hqp Hd]] Hh'.
      * cbn in Hh'. injection Hh' as <-. exists (timer_cb p d). by rewrite lookup_insert_eq.
      * destruct (I2 q d' h' Hd Hh') as (cb & Hcb & Ht). exists cb. rewrite lookup_insert_ne; [done|]. congruence.
    + intros q d'. rewrite lookup_insert_Some. intros [[<- <-]|[_ Hd]]; [by apply (I3 p c)|by apply (I3 q d')].
    + intros q d'. rewrite lookup_insert_Some. intros [[<- <-]|[_ Hd]]; [by apply (I4 p c)|by apply (I4 q d')].
  - cbn. by rewrite timer_delays_app.
Qed.

(** The clock after an edge. *)
Definition toggled (c : NativeClock) (h : Z) : NativeClock :=
  set_cb_handle (Some h) (set_current_val (Z.lxor (current_val c) 1) c).

Lemma toggle_spec p first c (w : World Sim) :
  clocks_ok w -> w_clocks w !! p = Some c -> cb_handle c = None ->
  exists h w', toggle p first w = Ret 0 w' /\ clocks_ok w' /\
    w_clocks w' = <[p := toggled c h]> (w_clocks w) /\
    w_cbs w' !! h = Some (timer_cb p (next_delay c)) /\ ACTIVE_SIGNALS w' = ACTIVE_SIGNALS w /\
    timer_delays (w_trace w') = timer_delays (w_trace w) ++
      [(p, join64 (u32 (hi32 (next_delay c))) (u32 (lo32 (next_delay c))))].
Proof.
  intros [Hq Hi] Hp Hn. unfold toggle. mrun (clock_get_Some _ _ _ Hp).
  destruct (ci_valid w Hi p c Hp) as (ch & Hv & _).
  destruct (clock_write (complex_handle_raw c) (current_val c) ch w Hquiet Hfresh Hq Hv)
    as (w1 & ch' & E1 & Hq1 & _ & _ & Hs). mrun E1.
  assert (w_clocks w1 !! p = Some c) as Hp1 by (by rewrite (sc_clocks _ _ Hs)).
  pose proof (same_clocks_inv w w1 Hi Hs) as Hi1.
  mrun (clock_get_Some _ _ _ Hp1). mrun (clock_mod_Some _ (set_current_val (Z.lxor (current_val c) 1)) _ _ Hp1).
  set (c2 := set_current_val _ c). set (w2 := set_w_clocks (<[p := c2]> (w_clocks w1)) w1).
  assert (clocks_ok w2) as Hok2.
  { apply clocks_ok_clocks; [done|]. by apply (clock_mod_inv p c c2). }
  destruct (arm_spec p c2 (next_delay c) w2 Hok2) as (h & w3 & E3 & Hok3 & Hc3 & Hh3 & Ha3 & Ht3);
    [cbn; apply lookup_insert_eq|done|].
  exists h, w3. split_and!; [|done| |done| |].
  - revert E3. mrun. intros E3. destruct (_ =? 0) eqn:E0; [|exact E3].
    exfalso. cbn in E3. discriminate E3.
  - rewrite Hc3. cbn. by rewrite insert_insert_eq, (sc_clocks _ _ Hs).
  - rewrite Ha3. cbn. apply (sc_active _ _ Hs).
  - rewrite Ht3. change (w_trace w2) with (w_trace w1). by rewrite (sc_timers _ _ Hs).
Qed.

(** The timer of a clock goes: it fired, or it was removed. *)
Lemma release_ok p c h (w : World Sim) :
  clocks_ok w -> w_clocks w !! p = Some c -> cb_handle c = Some h ->
  clocks_ok (set_w_clocks (<[p := set_cb_handle None c]> (w_clocks w)) (set_w_cbs (delete h (w_cbs w)) w)).
Proof.
  intros [Hq [I1 I2 I3 I4]] Hp Hh. split; [destruct Hq; by split|]. split; cbn.
  - intros h' cb. rewrite lookup_delete_Some. intros [Hne Hcb] Ht.
    destruct (I1 h' cb Hcb Ht) as (q & d & Hu & Hd & Hdh). exists q, d.
    rewrite lookup_insert_ne; [done|]. intros ->. congruence.
  - intros q d h'. rewrite lookup_insert_Some. intros [[<- <-]|[Hqp Hd]] Hh'; [done|].
    destruct (I2 q d h' Hd Hh') as (cb & Hcb & Ht & Hu). exists cb. split_and!; [|done..].
    rewrite lookup_delete_ne; [done|]. intros ->.
    destruct (I2 p c h' Hp Hh) as (cb' & Hcb' & _ & Hu'). congruence.
  - intros q d. rewrite lookup_insert_Some. intros [[<- <-]|[_ Hd]]; [by apply (I3 p c)|by apply (I3 q d)].
  - intros q d. rewrite lookup_insert_Some. intros [[<- <-]|[_ Hd]]; [by apply (I4 p c)|by apply (I4 q d)].
Qed.

Lemma stop_spec p c (w : World Sim) :
  clocks_ok w -> w_clocks w !! p = Some c ->
  exists w', stop p w = Ret tt w' /\ clocks_ok w' /\
    w_clocks w' = <[p := set_cb_handle None c]> (w_clocks w) /\
    ACTIVE_SIGNALS w' = ACTIVE_SIGNALS w ∖ {[signal_hdl c]}.
Proof.
  intros Hok Hp. unfold stop. mrun (clock_get_Some _ _ _ Hp). unfold active_remove. mrun.
  destruct (cb_handle c) as [h|] eqn:Hh.
  - erewrite bind_Ret; [|by apply clock_mod_Some]. unfold vpi_remove_cb. mrun. unfold modify.
    eexists. split_and!; [done| |done|done].
    destruct (clocks_ok_active (ACTIVE_SIGNALS w ∖ {[signal_hdl c]}) _ (release_ok p c h w Hok Hp Hh)) as [Hq [? ? ? ?]].
    split; [destruct Hq; by split|by split].
  - eexists. split_and!; [done|by apply clocks_ok_active| |done].
    cbn. rewrite insert_id; [done|]. rewrite Hp. destruct c. cbn in *. by subst.
Qed.

Lemma drop_spec p c (w : World Sim) :
  clocks_ok w -> w_clocks w !! p = Some c ->
  exists w', drop_clock p w = Ret tt w' /\ clocks_ok w' /\ w_clocks w' = delete p (w_clocks w) /\
    ACTIVE_SIGNALS w' = ACTIVE_SIGNALS w ∖ {[signal_hdl c]}.
Proof.
  intros Hok Hp. unfold drop_clock.
  destruct (stop_spec p c w Hok Hp) as (w1 & E1 & [Hq1 [I1 I2 I3 I4]] & Hc1 & Ha1). mrun E1. unfold modify.
  eexists. split_and!; [done| |cbn; by rewrite Hc1, delete_insert_eq|done].
  split; [destruct Hq1; by split|]. split; cbn.
  - intros h cb Hcb Ht. destruct (I1 h cb Hcb Ht) as (q & d & Hu & Hd & Hdh). exists q, d.
    rewrite lookup_delete_ne; [done|]. intros ->. rewrite Hc1, lookup_insert_eq in Hd.
    injection Hd as <-. done.
  - intros q d h. rewrite lookup_delete_Some. intros [_ Hd]. by apply I2.
  - intros q d. rewrite lookup_delete_Some. intros [_ Hd]. by apply (I3 q d).
  - intros q d. rewrite lookup_delete_Some. intros [_ Hd]. by apply (I4 q d).
Qed.

Lemma fire_spec h cb (w : World Sim) :
  clocks_ok w -> w_cbs w !! h = Some cb -> is_timer cb ->
  exists p c w', user_data cb = UdClock p /\ w_clocks w !! p = Some c /\ cb_handle c = Some h /\
    fire_timer h p w = Ret tt w' /\ clocks_ok w' /\
    if destroy_pending c then w_clocks w' = delete p (w_clocks w)
    else exists h', w_clocks w' = <[p := set_in_callback false (toggled c h')]> (w_clocks w) /\
      w_cbs w' !! h' = Some (timer_cb p (next_delay c)) /\
      timer_delays (w_trace w') = timer_delays (w_trace w) ++
        [(p, join64 (u32 (hi32 (next_delay c))) (u32 (lo32 (next_delay c))))].
Proof.
  intros Hok Hcb Ht. destruct (ci_timer w (proj2 Hok) h cb Hcb Ht) as (p & c & Hu & Hp & Hh).
  exists p, c. unfold fire_timer, native_clock_toggle_callback. mrun.
  erewrite bind_Ret; [|by apply clock_mod_Some].
  set (w0 := set_w_cbs (delete h (w_cbs w)) w). set (c1 := set_cb_handle None c).
  set (w1 := set_w_clocks (<[p := c1]> (w_clocks w0)) w0).
  assert (clocks_ok w1) as Hok1 by by apply (release_ok p c h w).
  assert (w_clocks w1 !! p = Some c1) as Hp1 by (cbn; apply lookup_insert_eq).
  mrun (clock_get_Some _ _ _ Hp1). change (destroy_pending c1) with (destroy_pending c).
  destruct (destroy_pending c) eqn:Hd.
  - destruct (drop_spec p c1 w1 Hok1 Hp1) as (w2 & E2 & Hok2 & Hc2 & _).
    exists w2. split_and!; try done. rewrite Hc2. cbn. by rewrite delete_insert_eq.
  - mrun (clock_mod_Some p (set_in_callback true) _ _ Hp1).
    set (c2 := set_in_callback true c1). set (w2 := set_w_clocks (<[p := c2]> (w_clocks w1)) w1).
    assert (w_clocks w2 !! p = Some c2) as Hp2 by (cbn; apply lookup_insert_eq).
    assert (clocks_ok w2) as Hok2.
    { apply clocks_ok_clocks; [apply Hok1|]. by apply (clock_mod_inv p c1 c2); [apply Hok1|..]. }
    destruct (toggle_spec p false c2 w2 Hok2 Hp2) as (h' & w3 & E3 & Hok3 & Hc3 & Hh3 & _ & Ht3); [done|].
    mrun E3. assert (w_clocks w3 !! p = Some (toggled c2 h')) as Hp3 by (rewrite Hc3; apply lookup_insert_eq).
    mrun (clock_mod_Some p (set_in_callback false) _ _ Hp3).
    set (c4 := set_in_callback false (toggled c2 h')). set (w4 := set_w_clocks (<[p := c4]> (w_clocks w3)) w3).
    assert (w_clocks w4 !! p = Some c4) as Hp4 by (cbn; apply lookup_insert_eq).
    mrun (clock_get_Some _ _ _ Hp4). change (destroy_pending c4) with (destroy_pending c). rewrite Hd. cbn [when].
    exists w4. split_and!; try done.
    + apply clocks_ok_clocks; [apply Hok3|]. by apply (clock_mod_inv p (toggled c2 h') c4); [apply Hok3|..].
    + exists h'. split_and!; [|done|done].
      cbn. rewrite Hc3. cbn. by rewrite !insert_insert_eq.
Qed.

Lemma new_spec raw ch (w : World Sim) :
  clocks_ok w -> valid_handle w raw ch -> 0 < w_next w -> w_clocks w !! w_next w = None ->
  exists w', vpiml_native_clock_new raw w = Ret (w_next w) w' /\ clocks_ok w' /\
    w_clocks w' = <[w_next w := mkClock raw (vpi_handle ch) 0 0 0 None false false]> (w_clocks w).
Proof.
  intros [Hq [I1 I2 I3 I4]] Hv Hn Hnone. unfold vpiml_native_clock_new, NativeClock_new.
  mrun (ch_get_Some _ _ _ (proj1 Hv)). destruct (qw_heap w Hq raw ch (proj1 Hv)) as (_ & _ & ->). cbn [assert_]. mrun.
  unfold alloc. eexists. split_and!; [done| |done]. split; [destruct Hq; by split|]. split; cbn.
  - intros h cb Hcb Ht. destruct (I1 h cb Hcb Ht) as (q & d & Hu & Hd & Hdh). exists q, d.
    rewrite lookup_insert_ne; [done|]. congruence.
  - intros q d h. rewrite lookup_insert_Some. intros [[<- <-]|[_ Hd]] Hh; [done|by apply (I2 q d h)].
  - intros q d. rewrite lookup_insert_Some. intros [[<- <-]|[_ Hd]]; [lia|]. specialize (I3 q d Hd). lia.
  - intros q d. rewrite lookup_insert_Some. intros [[<- <-]|[_ Hd]]; [by exists ch|]. by apply (I4 q d).
Qed.

(** Every branch of [start]. *)
Lemma start_spec p c period high sh (w : World Sim) :
  clocks_ok w -> w_clocks w !! p = Some c ->
  if bool_decide (is_Some (cb_handle c)) then start p period high sh w = Ret EBUSY w
  else if bool_decide (signal_hdl c ∈ ACTIVE_SIGNALS w) then start p period high sh w = Ret EEXIST w
  else if (period <? 2) || (high <? 1) || (period <=? high) then start p period high sh w = Ret EINVAL w
  else exists h w', start p period high sh w = Ret 0 w' /\ clocks_ok w' /\
    let c' := set_current_val (if sh then 1 else 0) (set_high_steps high (set_period_steps period c)) in
    w_clocks w' = <[p := toggled c' h]> (w_clocks w) /\ w_cbs w' !! h = Some (timer_cb p (next_delay c')) /\
    ACTIVE_SIGNALS w' = {[signal_hdl c]} ∪ ACTIVE_SIGNALS w /\
    timer_delays (w_trace w') = timer_delays (w_trace w) ++
      [(p, join64 (u32 (hi32 (next_delay c'))) (u32 (lo32 (next_delay c'))))].
Proof.
  intros Hok Hp. unfold start. mrun (clock_get_Some _ _ _ Hp).
  case_bool_decide as Hr; [done|]. mrun. case_bool_decide as Ha; [done|].
  destruct (_ || _ || _); [done|]. unfold active_insert. mrun.
  erewrite bind_Ret; [|by apply clock_mod_Some].
  erewrite bind_Ret; [|apply clock_mod_Some; cbn; apply lookup_insert_eq].
  erewrite bind_Ret; [|apply clock_mod_Some; cbn; apply lookup_insert_eq]. cbn.
  rewrite !insert_insert_eq.
  set (c' := set_current_val _ _).
  match goal with |- context [toggle p true ?x] => set (w1 := x) end.
  assert (cb_handle c = None) as Hn by (destruct (cb_handle c); [exfalso; apply Hr; by eexists|done]).
  assert (clocks_ok w1) as Hok1.
  { assert (clocks_ok (set_w_clocks (<[p := c']> (w_clocks w)) (set_ACTIVE_SIGNALS ({[signal_hdl c]} ∪ ACTIVE_SIGNALS w) w))) as H.
    { apply clocks_ok_clocks; [apply queue_wf_active, Hok|].
      apply (clock_mod_inv p c c' (set_ACTIVE_SIGNALS ({[signal_hdl c]} ∪ ACTIVE_SIGNALS w) w)); [|done..].
      destruct (proj2 Hok) as [? ? ? ?]. by split. }
    exact H. }
  destruct (toggle_spec p true c' w1 Hok1) as (h & w2 & E2 & Hok2 & Hc2 & Hh2 & Ha2 & Ht2);
    [cbn; apply lookup_insert_eq|done|].
  exists h, w2. split_and!; [exact E2|done| |done|done|done].
  rewrite Hc2. cbn. by rewrite insert_insert_eq.
Qed.

(** *** Waveform *)

(** The delays after driving [v], [1 - v], [v], ... *)
Fixpoint waveform (period high v : Z) (n : nat) : list Z :=
  match n with
  | O => []
  | S n => (if v =? 1 then high else period - high) :: waveform period high (Z.lxor v 1) n
  end.

(** The simulator fires the clock's timer [n] times. *)
Fixpoint run_clock (n : nat) (p : Z) : W unit :=
  match n with
  | O => ret tt
  | S n =>
      let! c := clock_get p in
      match cb_handle c with
      | Some h => fire_timer h p ;; run_clock n p
      | None => ret tt
      end
  end.

Lemma join64_u32 d : in_width 64 d -> join64 (u32 (hi32 d)) (u32 (lo32 d)) = d.
Proof.
  intros Hd. unfold in_width in Hd.
  assert (u32 (lo32 d) = lo32 d) as ->.
  { apply wrap_small. rewrite lo32_mod. apply wrap_bound. lia. }
  assert (u32 (hi32 d) = hi32 d) as ->.
  { apply wrap_small. rewrite hi32_div. split; [apply Z.div_pos; lia|apply Z.div_lt_upper_bound; lia]. }
  by apply join64_split.
Qed.

(** A running clock of the given timing that last drove [v]. *)
Definition running (c : NativeClock) (period high v : Z) : Prop :=
  is_Some (cb_handle c) /\ destroy_pending c = false /\ period_steps c = period /\ high_steps c = high /\
  current_val c = Z.lxor v 1.

Definition bit (v : Z) : Prop := v = 0 \/ v = 1.

Lemma next_delay_wave c period high v :
  period_steps c = period -> high_steps c = high -> current_val c = v ->
  2 <= period < 2 ^ 64 -> 1 <= high < period ->
  next_delay c = (if v =? 1 then high else period - high) /\ in_width 64 (next_delay c).
Proof.
  intros Hp Hh Hv Hb1 Hb2. unfold next_delay. rewrite Hp, Hh, Hv. unfold u64, in_width.
  rewrite wrap_small by (unfold in_width; lia). destruct (v =? 1); lia.
Qed.

Lemma run_clock_wave n p c period high v (w : World Sim) :
  clocks_ok w -> w_clocks w !! p = Some c -> running c period high v -> bit v ->
  2 <= period < 2 ^ 64 -> 1 <= high < period ->
  exists w', run_clock n p w = Ret tt w' /\ clocks_ok w' /\
    timer_delays (w_trace w') =
      timer_delays (w_trace w) ++ map (pair p) (waveform period high (Z.lxor v 1) n).
Proof.
  intros Hok. revert c v w Hok. induction n as [|n IH]; intros c v w Hok Hp Hr Hb Hb1 Hb2.
  - exists w. split_and!; [done|done|]. by rewrite app_nil_r.
  - destruct Hr as ([h Hh] & Hd & Hpe & Hhi & Hv). cbn [run_clock]. mrun (clock_get_Some _ _ _ Hp). rewrite Hh.
    destruct (ci_handle w (proj2 Hok) p c h Hp Hh) as (cb & Hcb & Ht & Hu).
    destruct (fire_spec h cb w Hok Hcb Ht) as (p' & c' & w1 & Hu' & Hp' & Hh' & E1 & Hok1 & Hres).
    assert (p' = p) as -> by congruence. assert (c' = c) as -> by congruence. rewrite Hd in Hres.
    destruct Hres as (h1 & Hc1 & _ & Ht1). mrun E1.
    destruct (next_delay_wave c period high (Z.lxor v 1) Hpe Hhi Hv Hb1 Hb2) as [Hnd Hw].
    destruct (IH (set_in_callback false (toggled c h1)) (Z.lxor v 1) w1) as (w2 & E2 & Hok2 & Ht2); try done.
    + rewrite Hc1. apply lookup_insert_eq.
    + unfold running. cbn. rewrite Hv. split_and!; [by eexists|done..].
    + destruct Hb as [-> | ->]; [by right|by left].
    + exists w2. split_and!; [done|done|]. rewrite Ht2, Ht1, join64_u32, Hnd by done.
      rewrite <- app_assoc. done.
Qed.

Lemma waveform_consecutive period high v n i a b :
  bit v -> waveform period high v n !! i = Some a -> waveform period high v n !! S i = Some b -> a + b = period.
Proof.
  revert v i. induction n as [|n IH]; intros v i Hb Ha Hb'; [done|].
  destruct i as [|i].
  - destruct n as [|n]; [done|]. cbn in Ha, Hb'. apply (f_equal (default 0)) in Ha, Hb'. cbn in Ha, Hb'.
    destruct Hb as [-> | ->]; [change (Z.lxor 0 1) with 1 in Hb'|change (Z.lxor 1 1) with 0 in Hb']; cbn in Ha, Hb'; lia.
  - cbn in Ha, Hb'. apply (IH (Z.lxor v 1) i); [|done|done]. destruct Hb as [-> | ->]; [by right|by left].
Qed.

End Ops.

Inductive clock_step : World Sim -> World Sim -> Prop :=
| cs_new raw ch r w w' : valid_handle w raw ch -> 0 < w_next w ->
    vpiml_native_clock_new raw w = Ret r w' -> clock_step w w'
| cs_start p c period high sh r w w' : w_clocks w !! p = Some c ->
    vpiml_native_clock_start p period high sh w = Ret r w' -> clock_step w w'
| cs_stop p c w w' : w_clocks w !! p = Some c -> vpiml_native_clock_stop p w = Ret tt w' -> clock_step w w'
| cs_destroy p c w w' : w_clocks w !! p = Some c -> in_callback c = false ->
    vpiml_native_clock_destroy p w = Ret tt w' -> clock_step w w'
| cs_fire h cb p w w' : w_cbs w !! h = Some cb -> is_timer cb -> user_data cb = UdClock p ->
    fire_timer h p w = Ret tt w' -> clock_step w w'.

Lemma clock_step_ok w w' :
  quiet_put -> accepting_registration -> fresh_registration -> gives_handle cbAfterDelay ->
  clocks_ok w -> clock_step w w' -> clocks_ok w'.
Proof.
  intros Hq Ha Hf Hdl Hok Hs. destruct Hs as [raw ch r w w' Hv Hn E|p c period high sh r w w' Hp E|p c w w' Hp E
    |p c w w' Hp Hc E|h cb p w w' Hcb Ht Hu E].
  - assert (w_clocks w !! w_next w = None) as Hnone.
    { destruct (w_clocks w !! w_next w) as [c|] eqn:Ec; [|done].
      pose proof (ci_next w (proj2 Hok) _ _ Ec). lia. }
    destruct (new_spec raw ch w Hok Hv Hn Hnone) as (w1 & E1 & Hok1 & _). congruence.
  - unfold vpiml_native_clock_start in E. destruct (Z.eqb_spec p 0); [by injection E as _ <-|].
    pose proof (start_spec Hq Ha Hf Hdl p c period high (negb (sh =? 0)) w Hok Hp) as Hs.
    destruct (bool_decide _); [rewrite Hs in E; by injection E as _ <-|].
    destruct (bool_decide _); [rewrite Hs in E; by injection E as _ <-|].
    destruct (_ || _ || _); [rewrite Hs in E; by injection E as _ <-|].
    destruct Hs as (h & w1 & E1 & Hok1 & _). congruence.
  - unfold vpiml_native_clock_stop in E. destruct (Z.eqb_spec p 0); [by injection E as <-|].
    destruct (stop_spec p c w Hok Hp) as (w1 & E1 & Hok1 & _). cbn in E. congruence.
  - unfold vpiml_native_clock_destroy in E. destruct (Z.eqb_spec p 0); [by injection E as <-|].
    cbn [negb when] in E. rewrite (bind_Ret _ _ _ _ _ (clock_get_Some _ _ _ Hp)), Hc in E.
    destruct (drop_spec p c w Hok Hp) as (w1 & E1 & Hok1 & _). congruence.
  - destruct (fire_spec Hq Ha Hf Hdl h cb w Hok Hcb Ht) as (p' & c & w1 & Hu' & _ & _ & E1 & Hok1 & _).
    assert (p' = p) as -> by congruence. congruence.
Qed.

(** Starting a clock, on every branch: a running clock answers [EBUSY], a
    signal in the registry [EEXIST], unusable timing [EINVAL], each without
    touching anything; otherwise the clock drives the start value, arms one timer
    for the first half period, owns it, and the signal enters the registry. *)
Theorem clock_start_branches p c period high (sh : bool) (w : World Sim) :
  quiet_put -> accepting_registration -> fresh_registration -> gives_handle cbAfterDelay ->
  clocks_ok w -> w_clocks w !! p = Some c ->
  if bool_decide (is_Some (cb_handle c)) then start p period high sh w = Ret EBUSY w
  else if bool_decide (signal_hdl c ∈ ACTIVE_SIGNALS w) then start p period high sh w = Ret EEXIST w
  else if (period <? 2) || (high <? 1) || (period <=? high) then start p period high sh w = Ret EINVAL w
  else exists h w', start p period high sh w = Ret 0 w' /\ clocks_ok w' /\
    let c' := set_current_val (if sh then 1 else 0) (set_high_steps high (set_period_steps period c)) in
    w_clocks w' = <[p := toggled c' h]> (w_clocks w) /\ w_cbs w' !! h = Some (timer_cb p (next_delay c')) /\
    ACTIVE_SIGNALS w' = {[signal_hdl c]} ∪ ACTIVE_SIGNALS w /\
    timer_delays (w_trace w') = timer_delays (w_trace w) ++
      [(p, join64 (u32 (hi32 (next_delay c'))) (u32 (lo32 (next_delay c'))))].
Proof. intros Hq Ha Hf Hdl. by apply start_spec. Qed.

(** A simulator that returns no handle for a delay: [start] reports [EIO] and the
    clock holds no timer, but the simulator does; destroying the clock leaves it
    there, and its firing uses the freed clock. *)
Theorem null_timer_dangles p c period high sh (w : World Sim) :
  quiet_put -> accepting_registration -> fresh_registration -> vpi_null_handle cbAfterDelay = true ->
  clocks_ok w -> w_clocks w !! p = Some c -> cb_handle c = None -> in_callback c = false -> p <> 0 ->
  signal_hdl c ∉ ACTIVE_SIGNALS w -> 2 <= period -> 1 <= high < period ->
  exists w1 w2 h d, vpiml_native_clock_start p period high sh w = Ret EIO w1 /\ w_cbs w1 !! h = Some (timer_cb p d) /\
    vpiml_native_clock_destroy p w1 = Ret tt w2 /\ w_cbs w2 !! h = Some (timer_cb p d) /\
    fire_timer h p w2 = UB "use of a freed NativeClock".
Proof.
  intros Hq Ha Hf Hnull [Hwf Hi] Hp Hn Hc H0 Hs Hb1 Hb2.
  unfold vpiml_native_clock_start. destruct (Z.eqb_spec p 0); [done|]. unfold start. mrun (clock_get_Some _ _ _ Hp).
  rewrite bool_decide_eq_false_2 by (rewrite Hn; by intros [? ?]). mrun. rewrite bool_decide_eq_false_2 by done.
  destruct (Z.ltb_spec period 2); [lia|]. destruct (Z.ltb_spec high 1); [lia|]. destruct (Z.leb_spec period high); [lia|]. cbn [orb].
  unfold active_insert. mrun. erewrite bind_Ret; [|by apply clock_mod_Some].
  erewrite bind_Ret; [|apply clock_mod_Some; cbn; apply lookup_insert_eq].
  erewrite bind_Ret; [|apply clock_mod_Some; cbn; apply lookup_insert_eq]. cbn. rewrite !insert_insert_eq.
  set (c1 := set_current_val _ _). match goal with |- context [toggle p true ?x] => set (w0 := x) end.
  destruct (ci_valid w Hi p c Hp) as (ch & Hv & _).
  assert (queue_wf w0) as Hwf0 by (destruct Hwf; by split).
  destruct (clock_write (complex_handle_raw c1) (current_val c1) ch w0 Hq Hf Hwf0 Hv) as (w3 & ch' & E3 & _ & _ & _ & Hsame).
  assert (w_clocks w3 !! p = Some c1) as Hp3 by (rewrite (sc_clocks _ _ Hsame); cbn; apply lookup_insert_eq).
  set (c2 := set_current_val (Z.lxor (current_val c1) 1) c1). set (w4 := set_w_clocks (<[p := c2]> (w_clocks w3)) w3).
  set (cb := timer_cb p (next_delay c1)). set (h := vpi_register_result w4 cb).
  set (w1 := set_ACTIVE_SIGNALS (ACTIVE_SIGNALS (registered cb w4) ∖ {[signal_hdl c]}) (registered cb w4)).
  assert (registered cb w4 = set_w_cbs (<[h := cb]> (w_cbs w4)) (set_w_trace (w_trace w4 ++ [EvRegister cb h]) w4)) as Er.
  { unfold registered. fold h. destruct (Z.eqb_spec h 0) as [E|]; [by destruct (Ha w4 cb)|done]. }
  assert (w_clocks w1 !! p = Some c2) as Hp1 by (unfold w1; rewrite Er; cbn; apply lookup_insert_eq).
  assert (toggle p true w0 = Ret EIO w1) as Et.
  { unfold toggle. mrun (clock_get_Some p c1 w0 ltac:(cbn; apply lookup_insert_eq)). mrun E3. mrun (clock_get_Some _ _ _ Hp3).
    mrun (clock_mod_Some p (set_current_val (Z.lxor (current_val c1) 1)) _ _ Hp3). fold c2 w4 cb.
    unfold vpi_returned. change (reason cb) with cbAfterDelay. rewrite Hnull. done. }
  set (w2 := set_w_clocks (delete p (w_clocks w1)) (set_ACTIVE_SIGNALS (ACTIVE_SIGNALS w1 ∖ {[signal_hdl c]}) w1)).
  exists w1, w2, h, (next_delay c1). split_and!.
  - exact Et.
  - unfold w1. rewrite Er. cbn. apply lookup_insert_eq.
  - unfold vpiml_native_clock_destroy. destruct (Z.eqb_spec p 0); [done|]. cbn [negb when]. mrun (clock_get_Some _ _ _ Hp1).
    change (in_callback c2) with (in_callback c). rewrite Hc. unfold drop_clock, stop, active_remove. mrun (clock_get_Some _ _ _ Hp1).
    change (cb_handle c2) with (cb_handle c). rewrite Hn. done.
  - unfold w2, w1. rewrite Er. cbn. apply lookup_insert_eq.
  - unfold fire_timer, native_clock_toggle_callback, clock_mod. mrun. unfold bind at 1. cbn. by rewrite lookup_delete_eq.
Qed.

(** C38: memory safety of the clock timers.  Along any sequence of creations,
    starts, stops, destructions and timer firings, every timer the simulator
    holds belongs to a live clock that knows it, and firing it returns: a
    destroyed clock leaves no timer behind that would use its freed memory. *)
Theorem clock_timers_never_dangle (w w' : World Sim) :
  quiet_put -> accepting_registration -> fresh_registration -> gives_handle cbAfterDelay ->
  clocks_ok w -> rtc clock_step w w' ->
  clocks_ok w' /\
  forall h cb, w_cbs w' !! h = Some cb -> is_timer cb ->
    exists p c w2, user_data cb = UdClock p /\ w_clocks w' !! p = Some c /\ fire_timer h p w' = Ret tt w2.
Proof.
  intros Hq Ha Hf Hdl Hok Hr.
  assert (clocks_ok w') as Hok'.
  { induction Hr as [|w1 w2 w3 Hs _ IH]; [done|]. apply IH. by apply (clock_step_ok w1). }
  split; [done|]. intros h cb Hcb Ht.
  destruct (fire_spec Hq Ha Hf Hdl h cb w' Hok' Hcb Ht) as (p & c & w2 & Hu & Hp & _ & E & _).
  by exists p, c, w2.
Qed.

(** C39: the waveform.  After a successful start the clock's timers alternate
    between the high time and the rest of the period, starting with the phase of
    the start value, for any number of edges; any two consecutive delays sum to
    the period exactly, up to 64-bit periods. *)
Theorem clock_waveform n p c period high (sh : bool) (w : World Sim) :
  quiet_put -> accepting_registration -> fresh_registration -> gives_handle cbAfterDelay ->
  clocks_ok w -> w_clocks w !! p = Some c -> cb_handle c = None -> destroy_pending c = false ->
  signal_hdl c ∉ ACTIVE_SIGNALS w -> 2 <= period < 2 ^ 64 -> 1 <= high < period ->
  let wave := waveform period high (if sh then 1 else 0) (S n) in
  (exists w', (start p period high sh ;; run_clock n p) w = Ret tt w' /\ clocks_ok w' /\
    timer_delays (w_trace w') = timer_delays (w_trace w) ++ map (pair p) wave) /\
  (forall i a b, wave !! i = Some a -> wave !! S i = Some b -> a + b = period).
Proof.
  intros Hq Ha Hf Hdl Hok Hp Hn Hd Hs Hb1 Hb2 wave. split.
  - pose proof (start_spec Hq Ha Hf Hdl p c period high sh w Hok Hp) as Hst.
    rewrite bool_decide_eq_false_2 in Hst by (rewrite Hn; by intros [? ?]).
    rewrite bool_decide_eq_false_2 in Hst by done.
    destruct (Z.ltb_spec period 2); [lia|]. destruct (Z.ltb_spec high 1); [lia|].
    destruct (Z.leb_spec period high); [lia|]. cbn [orb] in Hst.
    destruct Hst as (h & w1 & E1 & Hok1 & Hc1 & _ & _ & Ht1).
    set (v := if sh then 1 else 0) in *. set (c' := set_current_val v _) in *.
    destruct (next_delay_wave c' period high v) as [Hnd Hw]; [done..|].
    destruct (run_clock_wave Hq Ha Hf Hdl n p (toggled c' h) period high v w1 Hok1) as (w2 & E2 & Hok2 & Ht2);
      [rewrite Hc1; apply lookup_insert_eq| | |done|done|].
    + unfold running. cbn. split_and!; [by eexists|done..].
    + unfold v. destruct sh; [by right|by left].
    + exists w2. split_and!; [by mrun E1|done|]. rewrite Ht2, Ht1, join64_u32, Hnd, <- app_assoc by done. done.
  - intros i a b. apply waveform_consecutive. destruct sh; [by right|by left].
Qed.

End NativeClock.

(* ------------------------------------------------------------------ *)
(** ** Witnesses and a registry defect *)

Lemma demo_clocks_ok : clocks_ok (F := verilator_features) demo_world.
Proof.
  split; [apply demo_wf|]. split.
  - intros h cb Hh. cbn in Hh. by rewrite lookup_empty in Hh.
  - intros p c h Hp. cbn in Hp. by rewrite lookup_empty in Hp.
  - intros p c Hp. cbn in Hp. by rewrite lookup_empty in Hp.
  - intros p c Hp. cbn in Hp. by rewrite lookup_empty in Hp.
Qed.

(** One clock, at address 3, on signal 1. *)
Definition clock_world : World CountSim :=
  match vpiml_native_clock_new 1 demo_world with Ret _ w => w | _ => demo_world end.

Definition demo_clock : NativeClock := mkClock 1 11 0 0 0 None false false.

Lemma clock_world_lookup : w_clocks clock_world !! 3 = Some demo_clock.
Proof. vm_compute. reflexivity. Qed.

Lemma clock_world_ok : clocks_ok (F := verilator_features) clock_world.
Proof.
  destruct (new_spec (F := verilator_features) 1 (demo_ch 11) demo_world demo_clocks_ok demo_valid1) as (w' & E & H & _);
    [reflexivity|vm_compute; reflexivity|].
  unfold clock_world. by rewrite E.
Qed.

Lemma clock_start_branches_witness :
  start (F := verilator_features) 3 1 1 true clock_world = Ret EINVAL clock_world.
Proof.
  pose proof (clock_start_branches (F := verilator_features) 3 demo_clock 1 1 true clock_world count_quiet
    count_accepting count_fresh eq_refl clock_world_ok clock_world_lookup) as H.
  rewrite bool_decide_eq_false_2 in H by (intros [? Hx]; discriminate Hx).
  rewrite bool_decide_eq_false_2 in H by (vm_compute; intros Hx; discriminate Hx). exact H.
Defined.

Lemma clock_waveform_witness :
  exists w', (start (F := verilator_features) 3 10 4 true ;; run_clock (F := verilator_features) 3 3) clock_world = Ret tt w' /\
    timer_delays (w_trace w') = [(3, 4); (3, 6); (3, 4); (3, 6)].
Proof.
  destruct (clock_waveform (F := verilator_features) 3 3 demo_clock 10 4 true clock_world count_quiet
    count_accepting count_fresh eq_refl clock_world_ok clock_world_lookup eq_refl eq_refl) as [(w' & E & _ & Ht) _].
  - vm_compute. intros Hx. discriminate Hx.
  - lia.
  - lia.
  - exists w'. split; [exact E|]. rewrite Ht. vm_compute. reflexivity.
Defined.

Definition started_world : World CountSim :=
  match start (F := verilator_features) 3 10 4 true clock_world with Ret _ w => w | _ => clock_world end.

Lemma clock_timers_never_dangle_witness :
  exists p c w2, w_clocks started_world !! p = Some c /\ fire_timer (F := verilator_features) 1 p started_world = Ret tt w2.
Proof.
  destruct (clock_timers_never_dangle (F := verilator_features) clock_world started_world count_quiet
    count_accepting count_fresh eq_refl clock_world_ok) as [_ H].
  - apply rtc_once. apply (cs_start 3 demo_clock 10 4 1 0).
    + exact clock_world_lookup.
    + vm_compute. reflexivity.
  - destruct (H 1 (timer_cb 3 4)) as (p & c & w2 & _ & Hc & E).
    + vm_compute. reflexivity.
    + reflexivity.
    + exists p, c, w2. split; [exact Hc|exact E].
Defined.

Lemma null_timer_dangles_witness :
  exists w1 w2 h d, vpiml_native_clock_start (VpiBackend0 := null_backend) (F := verilator_features) 3 10 4 1 clock_world = Ret EIO w1 /\
    vpiml_native_clock_destroy 3 w1 = Ret tt w2 /\ w_cbs w2 !! h = Some (timer_cb 3 d) /\
    fire_timer (VpiBackend0 := null_backend) (F := verilator_features) h 3 w2 = UB "use of a freed NativeClock".
Proof.
  destruct (null_timer_dangles (VpiBackend0 := null_backend) (F := verilator_features) 3 demo_clock 10 4 1 clock_world count_quiet
    null_accepting count_fresh eq_refl clock_world_ok clock_world_lookup eq_refl eq_refl) as (w1 & w2 & h & d & E1 & _ & E2 & H2 & E3).
  - lia.
  - vm_compute. intros Hx. discriminate Hx.
  - lia.
  - lia.
  - by exists w1, w2, h, d.
Defined.

(** Clock [a] drives a signal, a second clock on it is refused and destroyed,
    and a third one is started. *)
Definition three_clocks : W CountSim (Z * Z * Z * Z) :=
  let! a := vpiml_native_clock_new 1 in
  let! ra := vpiml_native_clock_start (F := verilator_features) a 10 5 1 in
  let! b := vpiml_native_clock_new 1 in
  let! rb := vpiml_native_clock_start (F := verilator_features) b 10 5 1 in
  vpiml_native_clock_destroy b ;;
  let! c := vpiml_native_clock_new 1 in
  let! rc := vpiml_native_clock_start (F := verilator_features) c 8 4 1 in
  let! running := vpiml_native_clock_is_running a in
  ret (ra, rb, rc, running).

(** The registry does not keep one driver per signal: destroying (or
    stopping) a clock that was refused with [EEXIST] removes the signal from the
    registry although another clock drives it, and a third clock then starts on
    the same signal while the first one is still running. *)
Theorem refused_clock_unregisters_driver :
  exists w', three_clocks demo_world = Ret (0, EEXIST, 0, 1) w' /\
    (exists a c, a <> c /\ option_map cb_handle (w_clocks w' !! a) = Some (Some 1) /\
       option_map cb_handle (w_clocks w' !! c) = Some (Some 2) /\
       option_map signal_hdl (w_clocks w' !! a) = option_map signal_hdl (w_clocks w' !! c)).
Proof.
  eexists. split; [vm_compute; reflexivity|]. exists 3, 5. split; [discriminate|]. vm_compute. split_and!; reflexivity.
Qed.
