(* ===== verification/EdgeEngine.v ===== *)
(** * The edge callbacks the simulator holds

    The bookkeeping behind one-shot edge waits: [edge_cb_slab] maps a callback id
    to the simulator's handle, the callback's data carries the id, and firing
    removes both.  [edge_inv] says that the slab and the callbacks held by the
    simulator describe each other; under it [slab.remove] never panics and
    [vpi_remove_cb] removes exactly the callback that fired.  [count_inv] relates
    the per-task wait counters of [merge_cb] to the registered and pending
    callbacks: a task that waits has exactly one, and the counter is never
    decremented below the number of waits. *)

From S2P Require Import Prelude Bytes State Backend PutQueue Frame Lifecycle Callbacks ChunkTask.
#[local] Open Scope Z_scope.

(** The callbacks that own a slab slot. *)
Definition slot_rtn (r : CbRtn) : Prop := r = edge_callback_rtn \/ exists n, r = edge_callback_chunk_rtn n.

(** The callback of slot [k]: its data, and as many tasks as its handler expects. *)
Record edge_slot (k : Z) (cb : s_cb_data) (d : EdgeCbData) : Prop := {
  es_data : user_data cb = UdEdge d;
  es_id : ecd_callback_id d = k;
  es_reason : reason cb = cbValueChange;
  es_rtn : (cb_rtn cb = edge_callback_rtn /\ length (ecd_task_ids d) = 1%nat) \/
    (cb_rtn cb = edge_callback_chunk_rtn (length (ecd_task_ids d)) /\ (1 <= length (ecd_task_ids d) <= 16)%nat)
}.

Lemma edge_slot_rtn k cb d : edge_slot k cb d -> slot_rtn (cb_rtn cb).
Proof. intros [_ _ _ [[-> _]|[-> _]]]; [by left|right; by eexists]. Qed.

Section Edge.
Context {Sim : Type} `{!VpiBackend Sim} `{!LuaRuntime Sim} {C0 : Containers} {F : Features}.
Local Abbreviation W := (W Sim).

Definition slab (w : World Sim) : gmap Z Z := edge_cb_slab (w_env w).

Record edge_inv (w : World Sim) : Prop := {
  ei_slab : forall k h, slab w !! k = Some h -> exists cb d,
    w_cbs w !! h = Some cb /\ edge_slot k cb d /\ is_Some (w_heap w !! ecd_complex_handle_raw d);
  ei_cbs : forall h cb, w_cbs w !! h = Some cb -> slot_rtn (cb_rtn cb) -> exists k, slab w !! k = Some h;
  ei_pend : forall t raw, is_Some (pending_cb_map t (w_env w) !! raw) -> is_Some (w_heap w !! raw);
  ei_infos : forall raw, is_Some (pending_edge_cb_infos (w_env w) !! raw) -> is_Some (w_heap w !! raw);
  ei_chunks : length (lua_sim_event_chunks (w_env w)) = 16%nat
}.

(** A held edge callback and its slot. *)
Lemma edge_inv_held w h cb :
  edge_inv w -> w_cbs w !! h = Some cb -> slot_rtn (cb_rtn cb) ->
  exists k d, slab w !! k = Some h /\ edge_slot k cb d /\ is_Some (w_heap w !! ecd_complex_handle_raw d).
Proof.
  intros Hi Hcb Hs. destruct (ei_cbs w Hi h cb Hcb Hs) as [k Hk].
  destruct (ei_slab w Hi k h Hk) as (cb' & d & Hcb' & Hd & Hl). rewrite Hcb in Hcb'. injection Hcb' as <-.
  by exists k, d.
Qed.

(** *** What leaves the edge bookkeeping alone *)

Definition same_counts (c c' : ComplexHandle) : Prop := forall t, cb_count t c' = cb_count t c.
Definition no_counts (c : ComplexHandle) : Prop := forall t, cb_count t c = ∅.

(** The callbacks change only outside the slots; handles keep their counters,
    and new handles have none. *)
Record edge_same (w w' : World Sim) : Prop := {
  sm_slab : slab w' = slab w;
  sm_pend : forall t, pending_cb_map t (w_env w') = pending_cb_map t (w_env w);
  sm_infos : pending_edge_cb_infos (w_env w') = pending_edge_cb_infos (w_env w);
  sm_chunks : lua_sim_event_chunks (w_env w') = lua_sim_event_chunks (w_env w);
  sm_heap : forall r c, w_heap w !! r = Some c -> exists c', w_heap w' !! r = Some c' /\ same_counts c c';
  sm_back : forall r c', w_heap w' !! r = Some c' ->
    (exists c, w_heap w !! r = Some c /\ same_counts c c') \/ no_counts c';
  sm_cbs : forall h cb, slot_rtn (cb_rtn cb) -> (w_cbs w' !! h = Some cb <-> w_cbs w !! h = Some cb)
}.

Lemma edge_same_inv w w' : edge_inv w -> edge_same w w' -> edge_inv w'.
Proof.
  intros [I1 I2 I3 I4 I5] [S1 S2 S3 S4 S5 S6 S7].
  assert (forall r, is_Some (w_heap w !! r) -> is_Some (w_heap w' !! r)) as Hlive.
  { intros r [c Hc]. destruct (S5 r c Hc) as (c' & Hc' & _). by exists c'. }
  split; rewrite ?S1, ?S3, ?S4; auto.
  - intros k h Hk. destruct (I1 k h Hk) as (cb & d & Hcb & Hd & Hl). exists cb, d. split_and!; [|done|auto].
    apply S7; [by apply (edge_slot_rtn k cb d)|done].
  - intros h cb Hh Hs. apply (I2 h cb); [|done]. by apply S7.
  - intros t raw. rewrite S2. intros Hr. by apply Hlive, (I3 t).
Qed.

Lemma frame_edge_same w w' : fresh_registration -> frame w w' -> edge_same w w'.
Proof.
  intros Hf Hfr. pose proof (fr_env w w' Hfr) as He. injection He as E1 E2 E3 E4 E5 E6 E7 E8 E9 E10 E11 E12 E13.
  assert (forall c c', core_ch c' = core_ch c -> same_counts c c') as Hct.
  { intros c c' He t. injection He. intros. destruct t; cbn; congruence. }
  split; try done.
  - by intros [].
  - intros r c Hc. destruct (frame_live w w' r c Hfr Hc) as (c' & Hc' & He). exists c'. split; [done|by apply Hct].
  - intros r c' Hc'. left. pose proof (fr_heap w w' Hfr r) as He. rewrite Hc' in He. cbn in He. symmetry in He.
    apply fmap_Some in He as (c & Hc & He). exists c. split; [done|by apply Hct].
  - intros h cb Hs. split; [|by apply (fr_keep w w' Hfr Hf)].
    intros Hh. destruct (fr_new w w' Hfr Hf h cb Hh) as [Hx| ->]; [done|]. by destruct Hs as [Hs|[n Hs]].
Qed.

(** A change of the callbacks outside the slots. *)
Lemma cbs_edge_same m w :
  (forall h cb, slot_rtn (cb_rtn cb) -> (m !! h = Some cb <-> w_cbs w !! h = Some cb)) -> edge_same w (set_w_cbs m w).
Proof. intros Hm. split; try done; [intros r c Hc; by exists c|intros r c Hc; left; by exists c]. Qed.

Lemma insert_edge_same h cb (m : gmap Z s_cb_data) :
  (forall cb', m !! h = Some cb' -> ~ slot_rtn (cb_rtn cb')) -> ~ slot_rtn (cb_rtn cb) ->
  forall h' cb', slot_rtn (cb_rtn cb') -> (<[h := cb]> m !! h' = Some cb' <-> m !! h' = Some cb').
Proof.
  intros Hm Hn h' cb' Hs. destruct (decide (h' = h)) as [->|]; [|by rewrite lookup_insert_ne].
  rewrite lookup_insert_eq. split; [by intros [= <-]|]. intros Hx. by apply Hm in Hx.
Qed.

Lemma delete_edge_same h (m : gmap Z s_cb_data) :
  (forall cb', m !! h = Some cb' -> ~ slot_rtn (cb_rtn cb')) ->
  forall h' cb', slot_rtn (cb_rtn cb') -> (delete h m !! h' = Some cb' <-> m !! h' = Some cb').
Proof.
  intros Hm h' cb' Hs. destruct (decide (h' = h)) as [->|]; [|by rewrite lookup_delete_ne].
  rewrite lookup_delete_eq. split; [done|]. intros Hx. by apply Hm in Hx.
Qed.

(** *** Taking a slot *)

(** The world after one edge callback was registered and its handle stored. *)
Definition slotted (rtn : CbRtn) (tasks : list Z) (raw : Z) (t : EdgeType) (c : ComplexHandle) (w : World Sim) : World Sim :=
  let k := slab_vacant_key (slab w) in
  let cb := edge_cb (vpi_handle c) rtn (mkEdgeCbData tasks raw t k) in
  let h := vpi_register_result w cb in
  set_w_env (set_edge_cb_slab (<[k := h]> (slab w)) (w_env w))
    (set_w_cbs (<[h := cb]> (w_cbs w)) (set_w_trace (w_trace w ++ [EvRegister cb h]) w)).

Definition slot_registration (rtn : CbRtn) (tasks : list Z) (raw : Z) (t : EdgeType) (k : Z) : W Z :=
  let! c := ch_get raw in vpi_register_cb (edge_cb (vpi_handle c) rtn (mkEdgeCbData tasks raw t k)).

Lemma with_slot_eq rtn tasks raw t c w :
  accepting_registration -> w_heap w !! raw = Some c ->
  with_slab_slot (slot_registration rtn tasks raw t) w = Ret tt (slotted rtn tasks raw t c w).
Proof.
  intros Ha Hc. unfold with_slab_slot, slot_registration. mrun. mrun (ch_get_Some _ _ _ Hc).
  unfold env_mod, modify, slotted. unfold registered. fold (slab w).
  set (cb := edge_cb _ _ _). rewrite (returned_handle w cb (ar_change Ha)).
  destruct (Z.eqb_spec (vpi_register_result w cb) 0) as [E|_]; [by destruct (Ha w cb)|done].
Qed.

Lemma slotted_inv rtn tasks raw t c w :
  slab_ok -> fresh_registration -> accepting_registration -> edge_inv w -> w_heap w !! raw = Some c ->
  (rtn = edge_callback_rtn /\ length tasks = 1%nat) \/
    (rtn = edge_callback_chunk_rtn (length tasks) /\ (1 <= length tasks <= 16)%nat) ->
  edge_inv (slotted rtn tasks raw t c w).
Proof.
  intros Hs Hf Ha [I1 I2 I3 I4 I5] Hc Hr. unfold slotted. set (k := slab_vacant_key (slab w)).
  set (cb := edge_cb _ _ _). set (h := vpi_register_result w cb).
  destruct (Hs (slab w)) as [Hk _]. fold k in Hk.
  pose proof (Hf w cb (Ha w cb)) as Hh. fold h in Hh.
  split; unfold slab; cbn; try done.
  - intros k' h'. rewrite lookup_insert_Some. intros [[<- <-]|[Hne Hk']].
    + exists cb, (mkEdgeCbData tasks raw t k). rewrite lookup_insert_eq. split_and!; [done| |by eexists]. by split.
    + destruct (I1 k' h' Hk') as (cb' & d & Hcb & Hd & Hl). exists cb', d.
      rewrite lookup_insert_ne; [done|]. congruence.
  - intros h' cb'. rewrite lookup_insert_Some. intros [[<- <-]|[Hne Hcb]] Hsr.
    + exists k. apply lookup_insert_eq.
    + destruct (I2 h' cb' Hcb Hsr) as [k' Hk']. exists k'. rewrite lookup_insert_ne; [done|]. congruence.
Qed.

(** *** Freeing a slot *)

Definition unslotted (k h : Z) (w : World Sim) : World Sim :=
  set_w_cbs (delete h (w_cbs w)) (set_w_trace (w_trace w ++ [EvRemove h])
    (set_w_env (set_edge_cb_slab (delete k (slab w)) (w_env w)) w)).

Lemma remove_edge_cb_eq k h w : slab w !! k = Some h -> remove_edge_cb k w = Ret tt (unslotted k h w).
Proof. intros Hk. unfold remove_edge_cb. mrun. fold (slab w). rewrite Hk. unfold vpi_remove_cb. mrun. done. Qed.

Lemma unslotted_inv k h w : edge_inv w -> slab w !! k = Some h -> edge_inv (unslotted k h w).
Proof.
  intros [I1 I2 I3 I4 I5] Hk. split; unfold slab; cbn; try done.
  - intros k' h'. rewrite lookup_delete_Some. intros [Hne Hk'].
    destruct (I1 k' h' Hk') as (cb & d & Hcb & Hd & Hl). exists cb, d. split_and!; [|done..].
    rewrite lookup_delete_ne; [done|]. intros ->.
    destruct (I1 k h' Hk) as (cb' & d' & Hcb' & Hd' & _). rewrite Hcb in Hcb'. injection Hcb' as <-.
    destruct Hd as [Hu Hi _ _], Hd' as [Hu' Hi' _ _]. rewrite Hu in Hu'. injection Hu' as <-. congruence.
  - intros h' cb'. rewrite lookup_delete_Some. intros [Hne Hcb] Hsr.
    destruct (I2 h' cb' Hcb Hsr) as [k' Hk']. exists k'. rewrite lookup_delete_ne; [done|]. congruence.
Qed.

(** *** The counters of merged callbacks *)

(** Slot [k] holds a callback for this signal, edge and task. *)
Definition wait := (Z * EdgeType * Z)%type.
Definition waits_at (w : World Sim) (k : Z) (x : wait) : Prop :=
  let '(raw, t, task) := x in
  exists h cb, slab w !! k = Some h /\ w_cbs w !! h = Some cb /\ user_data cb = UdEdge (mkEdgeCbData [task] raw t k).

Definition count_of (w : World Sim) (x : wait) : Z :=
  let '(raw, t, task) := x in
  match w_heap w !! raw with Some c => default 0 (cb_count t c !! task) | None => 0 end.

(** [P]: the waits that still have to be registered. *)
Record count_inv (P : list wait) (w : World Sim) : Prop := {
  ct_nodup : NoDup P;
  ct_disjoint : forall x k, x ∈ P -> ~ waits_at w k x;
  ct_unique : forall x k1 k2, waits_at w k1 x -> waits_at w k2 x -> k1 = k2;
  ct_iff : forall x, 0 < count_of w x <-> x ∈ P \/ exists k, waits_at w k x;
  ct_range : forall x, 0 <= count_of w x < 2 ^ 32
}.

(** The waits in the pending map. *)
Definition flat_infos (l : list (Z * list CallbackInfo)) : list wait :=
  flat_map (fun '(raw, infos) => map (fun i => (raw, cbi_edge_type i, cbi_task_id i)) infos) l.
Definition infos_of (w : World Sim) : list wait := flat_infos (map_to_list (pending_edge_cb_infos (w_env w))).

Lemma flat_infos_perm l1 l2 : l1 ≡ₚ l2 -> flat_infos l1 ≡ₚ flat_infos l2.
Proof. apply Permutation_flat_map. Qed.

Lemma count_inv_perm P1 P2 w : P1 ≡ₚ P2 -> count_inv P1 w -> count_inv P2 w.
Proof.
  intros Hp [C1 C2 C3 C4 C5]. split; try done.
  - by rewrite <- Hp.
  - intros x k Hx. apply C2. by rewrite Hp.
  - intros x. rewrite C4. by rewrite Hp.
Qed.

Lemma edge_same_waits w w' k x : edge_inv w -> edge_same w w' -> waits_at w' k x <-> waits_at w k x.
Proof.
  destruct x as [[raw t] task]. intros Hi Hs. pose proof (edge_same_inv w w' Hi Hs) as Hi'. cbn.
  rewrite (sm_slab _ _ Hs). split; intros (h & cb & Hk & Hh & Hu); exists h, cb; (split; [done|split; [|done]]).
  - destruct (ei_slab w' Hi' k h) as (cb' & d & Hcb & Hd & _); [by rewrite (sm_slab _ _ Hs)|].
    assert (cb' = cb) as -> by congruence. by apply (sm_cbs _ _ Hs h cb (edge_slot_rtn k cb d Hd)).
  - destruct (ei_slab w Hi k h Hk) as (cb' & d & Hcb & Hd & _).
    assert (cb' = cb) as -> by congruence. by apply (sm_cbs _ _ Hs h cb (edge_slot_rtn k cb d Hd)).
Qed.

Lemma edge_same_count w w' x : edge_same w w' -> count_of w' x = count_of w x.
Proof.
  destruct x as [[raw t] task]. intros Hs. cbn. destruct (w_heap w !! raw) as [c|] eqn:Hc.
  - destruct (sm_heap _ _ Hs raw c Hc) as (c' & -> & He). by rewrite (He t).
  - destruct (w_heap w' !! raw) as [c'|] eqn:Hc'; [|done].
    destruct (sm_back _ _ Hs raw c' Hc') as [(c & Hx & _)|Hn]; [congruence|]. by rewrite (Hn t), lookup_empty.
Qed.

Lemma edge_same_counts P w w' : edge_inv w -> edge_same w w' -> count_inv P w -> count_inv P w'.
Proof.
  intros Hi Hs [C1 C2 C3 C4 C5]. pose proof (fun k x => edge_same_waits w w' k x Hi Hs) as Hw.
  split; try done.
  - intros x k Hx. rewrite Hw. by apply C2.
  - intros x k1 k2. rewrite !Hw. apply C3.
  - intros x. rewrite (edge_same_count w w' x Hs), C4. by setoid_rewrite Hw.
  - intros x. rewrite (edge_same_count w w' x Hs). apply C5.
Qed.

(** Registering a pending wait. *)
Lemma slotted_waits rtn raw t task c w k x :
  slab_ok -> fresh_registration -> accepting_registration -> edge_inv w ->
  waits_at (slotted rtn [task] raw t c w) k x <->
  waits_at w k x \/ (k = slab_vacant_key (slab w) /\ x = (raw, t, task)).
Proof.
  intros Hs Hf Ha Hi. destruct x as [[raw' t'] task']. unfold slotted, waits_at.
  set (key := slab_vacant_key (slab w)). set (cb := edge_cb _ _ _). set (h := vpi_register_result w cb).
  destruct (Hs (slab w)) as [Hk _]. fold key in Hk. pose proof (Hf w cb (Ha w cb)) as Hh. fold h in Hh.
  unfold slab at 1. cbn. split.
  - intros (h' & cb' & Hk' & Hcb' & Hu). apply lookup_insert_Some in Hk' as [[<- <-]|[Hne Hk']].
    + rewrite lookup_insert_eq in Hcb'. injection Hcb' as <-. cbn in Hu. injection Hu as <- <- <-. by right.
    + left. exists h', cb'. rewrite lookup_insert_ne in Hcb'; [done|].
      destruct (ei_slab w Hi k h' Hk') as (cb2 & d & Hcb2 & _). congruence.
  - intros [(h' & cb' & Hk' & Hcb' & Hu)|[-> [= -> -> ->]]].
    + exists h', cb'. rewrite !lookup_insert_ne; [done|congruence|congruence].
    + exists h, cb. by rewrite !lookup_insert_eq.
Qed.

Lemma slotted_counts P rtn raw t task c w :
  slab_ok -> fresh_registration -> accepting_registration -> edge_inv w ->
  count_inv ((raw, t, task) :: P) w -> count_inv P (slotted rtn [task] raw t c w).
Proof.
  intros Hs Hf Ha Hi [C1 C2 C3 C4 C5]. apply NoDup_cons in C1 as [Cn C1].
  pose proof (fun k x => slotted_waits rtn raw t task c w k x Hs Hf Ha Hi) as Hw.
  assert (forall k, ~ waits_at w k (raw, t, task)) as Hno by (intros k; apply C2; set_solver).
  assert (forall x, count_of (slotted rtn [task] raw t c w) x = count_of w x) as Hc by by intros [[? ?] ?].
  split; [done|..].
  - intros x k Hx. rewrite Hw. intros [H'|[_ ->]]; [|done]. apply (C2 x k); [set_solver|done].
  - intros x k1 k2. rewrite !Hw. intros [H1|[-> ->]] [H2|[-> H2]]; try done; [by apply (C3 x)|by subst; apply Hno in H1|by apply Hno in H2].
  - intros x. rewrite Hc, C4, elem_of_cons. setoid_rewrite Hw. split.
    + intros [[->|Hx]|[k Hk]]; [right; by eexists; right|by left|right; exists k; by left].
    + intros [Hx|[k [Hk|[_ ->]]]]; [by left; right|by right; exists k|by left; left].
  - intros x. rewrite Hc. apply C5.
Qed.

(** Setting one counter. *)
Definition with_counts (raw : Z) (t : EdgeType) (m : gmap Z Z) (c : ComplexHandle) (w : World Sim) : World Sim :=
  set_w_heap (<[raw := set_cb_count t m c]> (w_heap w)) w.

Definition with_count (raw : Z) (t : EdgeType) (task n : Z) (c : ComplexHandle) (w : World Sim) : World Sim :=
  with_counts raw t (<[task := n]> (cb_count t c)) c w.

Lemma cb_count_set t t' m c : cb_count t' (set_cb_count t m c) = if decide (t' = t) then m else cb_count t' c.
Proof. by destruct t, t'. Qed.

Lemma with_count_of raw t task n c w x :
  w_heap w !! raw = Some c ->
  count_of (with_count raw t task n c w) x = if decide (x = (raw, t, task)) then n else count_of w x.
Proof.
  intros Hc. destruct x as [[raw' t'] task']. cbn. destruct (decide (raw' = raw)) as [->|].
  - rewrite lookup_insert_eq, Hc, cb_count_set. destruct (decide (t' = t)) as [->|].
    + destruct (decide (task' = task)) as [->|].
      * by rewrite lookup_insert_eq, decide_True.
      * rewrite lookup_insert_ne, decide_False by congruence. done.
    + by rewrite decide_False by congruence.
  - by rewrite lookup_insert_ne, decide_False by congruence.
Qed.

Lemma with_counts_inv raw t m c w :
  edge_inv w -> w_heap w !! raw = Some c -> edge_inv (with_counts raw t m c w).
Proof.
  intros [I1 I2 I3 I4 I5] Hc.
  assert (forall r, is_Some (w_heap w !! r) -> is_Some (w_heap (with_counts raw t m c w) !! r)) as Hl.
  { intros r Hr. cbn. destruct (decide (r = raw)) as [->|]; [rewrite lookup_insert_eq; by eexists|by rewrite lookup_insert_ne]. }
  split; try done.
  - intros k h Hk. destruct (I1 k h Hk) as (cb & d & H1 & H2 & H3). exists cb, d. split_and!; [done|done|by apply Hl].
  - intros t' r Hr. by apply Hl, (I3 t').
  - intros r Hr. by apply Hl, I4.
Qed.

(** One wait fires: its counter goes down, and at zero its slot is freed. *)
Lemma fired_counts P raw t task c k h w :
  edge_inv w -> count_inv P w -> w_heap w !! raw = Some c -> slab w !! k = Some h ->
  waits_at w k (raw, t, task) ->
  let n := count_of w (raw, t, task) in
  0 < n /\ u32 (n - 1) = n - 1 /\
  let w1 := with_count raw t task (n - 1) c w in
  count_inv P (if n - 1 =? 0 then unslotted k h w1 else w1).
Proof.
  intros Hi [C1 C2 C3 C4 C5] Hc Hk Hwt n.
  assert (0 < n) as Hn by (apply C4; right; by exists k).
  pose proof (C5 (raw, t, task)) as Hr. fold n in Hr.
  split_and!; [done|apply wrap_small; unfold in_width; lia|]. intros w1.
  pose proof (fun x => with_count_of raw t task (n - 1) c w x Hc) as Hco. fold w1 in Hco.
  assert (forall k x, waits_at w1 k x <-> waits_at w k x) as Hw1 by by intros k' [[? ?] ?].
  destruct (Z.eqb_spec (n - 1) 0) as [E|E].
  - assert (forall k' x, waits_at (unslotted k h w1) k' x <-> waits_at w k' x /\ k' <> k) as Hw2.
    { intros k' [[raw' t'] task']. unfold waits_at, unslotted, slab at 1. cbn. split.
      - intros (h' & cb' & Hk' & Hh' & Hu). apply lookup_delete_Some in Hk' as [Hne Hk'].
        apply lookup_delete_Some in Hh' as [Hne' Hh']. split; [|done]. by exists h', cb'.
      - intros [(h' & cb' & Hk' & Hh' & Hu) Hne]. exists h', cb'. split_and!; [by rewrite lookup_delete_ne| |done].
        rewrite lookup_delete_ne; [done|]. intros ->.
        destruct (ei_slab w Hi k h' Hk) as (cb2 & d2 & Hcb2 & [Hu2 Hi2 _ _] & _).
        assert (cb2 = cb') as -> by congruence. rewrite Hu in Hu2. injection Hu2 as <-. cbn in Hi2. congruence. }
    assert (forall x, count_of (unslotted k h w1) x = count_of w1 x) as Hc2 by by intros [[? ?] ?].
    split; [done|..].
    + intros x k' Hx. rewrite Hw2. intros [H' _]. by apply (C2 x k').
    + intros x k1 k2. rewrite !Hw2. intros [H1 _] [H2 _]. by apply (C3 x).
    + intros x. rewrite Hc2, Hco. setoid_rewrite Hw2. destruct (decide (x = (raw, t, task))) as [->|Hne].
      * split; [lia|]. intros [Hx|[k' [Hk' Hne]]]; [by apply (C2 _ k) in Hx|]. exfalso. apply Hne. by apply (C3 (raw, t, task)).
      * rewrite C4. split; (intros [Hx|[k' Hk']]; [by left|right; exists k']); [|tauto]. split; [done|]. intros ->.
        destruct x as [[raw' t'] task']. destruct Hk' as (h1 & cb1 & E1 & E2 & E3), Hwt as (h2 & cb2 & F1 & F2 & F3). congruence.
    + intros x. rewrite Hc2, Hco. destruct (decide _); [lia|apply C5].
  - split; [done|..].
    + intros x k' Hx. rewrite Hw1. by apply C2.
    + intros x k1 k2. rewrite !Hw1. apply C3.
    + intros x. rewrite Hco. setoid_rewrite Hw1. destruct (decide (x = (raw, t, task))) as [->|Hne]; [|apply C4].
      split; [|lia]. intros _. right. by exists k.
    + intros x. rewrite Hco. destruct (decide _); [lia|apply C5].
Qed.

(** One more wait: the first one has to be registered, the others only count. *)
Lemma waited_counts P raw t task c w :
  count_inv P w -> w_heap w !! raw = Some c ->
  let n := count_of w (raw, t, task) in n + 1 < 2 ^ 32 ->
  count_inv (if 1 <? n + 1 then P else P ++ [(raw, t, task)]) (with_count raw t task (n + 1) c w).
Proof.
  intros [C1 C2 C3 C4 C5] Hc n Hn. set (w1 := with_count _ _ _ _ _ _).
  pose proof (fun x => with_count_of raw t task (n + 1) c w x Hc) as Hco. fold w1 in Hco.
  assert (forall k x, waits_at w1 k x <-> waits_at w k x) as Hw1 by by intros k' [[? ?] ?].
  pose proof (C5 (raw, t, task)) as Hr. fold n in Hr. pose proof (C4 (raw, t, task)) as Hz. fold n in Hz.
  destruct (Z.ltb_spec 1 (n + 1)) as [H1|H1].
  - split; [done|..].
    + intros x k Hx. rewrite Hw1. by apply C2.
    + intros x k1 k2. rewrite !Hw1. apply C3.
    + intros x. rewrite Hco. setoid_rewrite Hw1. destruct (decide (x = (raw, t, task))) as [->|Hne]; [|apply C4].
      split; [|lia]. intros _. apply C4. fold n. lia.
    + intros x. rewrite Hco. destruct (decide _); [lia|apply C5].
  - assert (~ ((raw, t, task) ∈ P \/ exists k, waits_at w k (raw, t, task))) as Hnot by (rewrite <- Hz; lia).
    split.
    + apply NoDup_app. split_and!; [done| |apply NoDup_singleton]. intros x Hx ->%list_elem_of_singleton. tauto.
    + intros x k. rewrite Hw1, elem_of_app, list_elem_of_singleton. intros [Hx| ->] Hk; [by apply (C2 x k)|]. apply Hnot. right. by exists k.
    + intros x k1 k2. rewrite !Hw1. apply C3.
    + intros x. rewrite Hco, elem_of_app, list_elem_of_singleton. setoid_rewrite Hw1.
      destruct (decide (x = (raw, t, task))) as [->|Hne]; [|rewrite C4; naive_solver].
      split; [|lia]. intros _. left. by right.
    + intros x. rewrite Hco. destruct (decide _); [lia|apply C5].
Qed.

(** The pending map as a list of waits. *)
Lemma infos_push raw i (m : gmap Z (list CallbackInfo)) :
  flat_infos (map_to_list (push_at raw i m)) ≡ₚ
  flat_infos (map_to_list m) ++ [(raw, cbi_edge_type i, cbi_task_id i)].
Proof.
  unfold push_at. destruct (m !! raw) as [l|] eqn:E; cbn [default].
  - rewrite <- (insert_delete_id m raw l E) at 2. rewrite <- (insert_delete_eq m raw).
    rewrite (flat_infos_perm _ _ (map_to_list_insert (delete raw m) raw _ (lookup_delete_eq m raw))).
    rewrite (flat_infos_perm _ _ (map_to_list_insert (delete raw m) raw l (lookup_delete_eq m raw))).
    cbn. rewrite map_app. cbn. rewrite <- !app_assoc. apply Permutation_app_head, Permutation_app_comm.
  - rewrite (flat_infos_perm _ _ (map_to_list_insert m raw _ E)). cbn. apply Permutation_cons_append.
Qed.

End Edge.
