(* ===== verification/System.v ===== *)
(** * The running system

    The simulator fires the callbacks the library registered, in any order and
    with any values; every callback may resume Lua tasks, and a task may call any
    exported function.  [fire] is one such event: it removes a one-shot callback
    and runs its handler ([dispatch] follows the [cb_rtn] pointer).  [ApiOp] are
    the exported functions a script can call that use or change this state, and a
    Lua call is a [script]: a sequence of them.

    [sys_inv] is the invariant of the running system: every event that returns keeps
    it, as long as scripts use live handles. *)

From S2P Require Import Prelude Bytes State Backend PutQueue Frame ValueGetters ValueSetters Handles Lifecycle.
From S2P Require Import Callbacks ChunkTask NativeClock EdgeEngine.
#[local] Open Scope Z_scope.

Section System.
Context {Sim : Type} `{!VpiBackend Sim} `{!LuaRuntime Sim} {C0 : Containers} {F : Features}.
Local Abbreviation W := (W Sim).

(** ** Events *)

(** The simulator calls [cb_rtn]; [integer] is the value it stored for a value
    change. *)
Definition dispatch (fuel : nat) (cb : s_cb_data) (integer : Z) : W unit :=
  match cb_rtn cb, user_data cb with
  | start_callback_rtn, _ => start_callback
  | final_callback_rtn, _ => final_callback
  | rd_synch_callback_rtn, NormalCbData t => rd_synch_callback t
  | rw_synch_callback_rtn, RwSynchCbData t e => rw_synch_callback fuel t e
  | next_sim_time_callback_rtn, NormalCbData t => next_sim_time_callback t
  | libverilua_flush_put_values_rtn, _ => libverilua_flush_put_values fuel
  | libverilua_next_sim_time_cb_rtn, _ => next_sim_time_cb cb
  | edge_callback_rtn, UdEdge d => edge_callback d integer
  | edge_callback_always_rtn, UdEdge d => edge_callback_always d integer
  | edge_callback_chunk_rtn n, UdEdge d =>
      match chunk_handler n with Some f => f d integer | None => undefined "no such handler" end
  | time_callback_handler_rtn, TaskIDWithEnv t => time_callback_handler t
  | native_clock_toggle_callback_rtn, UdClock p => native_clock_toggle_callback p
  | _, _ => undefined "user_data is not what cb_rtn expects"
  end.

(** Every reason but a value change is one-shot (IEEE 1800, 38.36). *)
Definition one_shot (cb : s_cb_data) : bool := negb (reason cb =? cbValueChange).

Definition fire (fuel : nat) (h integer : Z) : W unit := fun w =>
  match w_cbs w !! h with
  | None => Ret tt w
  | Some cb =>
      (when (one_shot cb) (modify (fun w => set_w_cbs (delete h (w_cbs w)) w)) ;;
       dispatch fuel cb integer) w
  end.

(** ** Scripts

    Not among the operations: [vpiml_get_signal_width] and the other plain reads of
    VPI properties, which leave the world as it is ([Handles.v]); the decimal read
    under Verilator ([get_value_dec_str_verilator]); and the functions whose state
    is their own: the collection of the hierarchy ([HierarchyCollect.v]), Turso,
    bundles and the functions of [Utils.v].  [ApiControl] is the call that
    [c_simulator_control] makes there of a known command; what it asks for happens
    when the application has returned (IEEE 1800, 38.4). *)

Inductive ApiOp :=
| ApiWrite (op : WriteOp) (raw : Z)
| ApiRangeU32 (raw : Z) (vs : list Z) | ApiRangeU64 (raw : Z) (vs : list Z)
| ApiRangeHex (raw : Z) (vs : list string) | ApiRangeReset (raw : Z)
| ApiAwaitRd (task : Z) | ApiAwaitRw (task : Z) | ApiAwaitNsim (task : Z) | ApiAwaitTime (time task : Z)
| ApiAwaitEdge (t : EdgeType) (raw task : Z) | ApiAlways (t : EdgeType) (raw task : Z)
| ApiClockNew (raw : Z) | ApiClockStart (p period high start_high : Z)
| ApiClockStop (p : Z) | ApiClockDestroy (p : Z)
| ApiClockRunning (p : Z)
| ApiLookup (nm : string) | ApiIndex (raw idx : Z)
| ApiReadInt (raw : Z) | ApiRead64 (raw : Z) | ApiReadMulti (raw len : Z) | ApiReadStr (format raw : Z)
| ApiTopModule | ApiControl (cmd : Z).

Definition run_op (op : ApiOp) : W Z :=
  match op with
  | ApiWrite op raw => exported_write op raw ;; ret 0
  | ApiRangeU32 raw vs => vpiml_shuffled_range_u32 raw vs ;; ret 0
  | ApiRangeU64 raw vs => vpiml_shuffled_range_u64 raw vs ;; ret 0
  | ApiRangeHex raw vs => vpiml_shuffled_range_hex_str raw vs ;; ret 0
  | ApiRangeReset raw => vpiml_reset_shuffled_range raw ;; ret 0
  | ApiAwaitRd task => vpiml_register_rd_synch_callback task ;; ret 0
  | ApiAwaitRw task => vpiml_register_rw_synch_callback task ;; ret 0
  | ApiAwaitNsim task => vpiml_register_next_sim_time_callback task ;; ret 0
  | ApiAwaitTime time task => vpiml_register_time_callback time task ;; ret 0
  | ApiAwaitEdge t raw task => vpiml_register_edge_callback_common t raw task ;; ret 0
  | ApiAlways t raw task => vpiml_register_edge_callback_always t raw task ;; ret 0
  | ApiClockNew raw => vpiml_native_clock_new raw
  | ApiClockStart p period high sh => vpiml_native_clock_start p period high sh
  | ApiClockStop p => vpiml_native_clock_stop p ;; ret 0
  | ApiClockDestroy p => vpiml_native_clock_destroy p ;; ret 0
  | ApiClockRunning p => vpiml_native_clock_is_running p
  | ApiLookup nm => vpiml_handle_by_name_safe nm
  | ApiIndex raw idx => vpiml_handle_by_index raw idx
  | ApiReadInt raw => vpiml_get_value raw
  | ApiRead64 raw => vpiml_get_value64 raw
  | ApiReadMulti raw len => vpiml_get_value_multi raw len ;; ret 0
  | ApiReadStr format raw => get_value_fmt_str format raw ;; ret 0
  | ApiTopModule => vpiml_get_top_module ;; ret 0
  | ApiControl cmd => vpi_control (i32 cmd) ;; ret 0
  end.

(** What a script has to respect: live handles, usable arguments, no write in
    the ReadOnly phase, at most [2^32 - 2] waits of a task on one edge, a lookup
    of a signal of at most 1024 bits that has no handle yet under another name, no
    read past the words of the signal, and no clock where delays get no handle
    ([null_timer_dangles]). *)
Definition op_ok (w : World Sim) (op : ApiOp) : Prop :=
  match op with
  | ApiWrite op raw => rd_phase_active (w_env w) = false /\
      exists c, valid_handle w raw c /\ call_ok op c w
  | ApiRangeU32 raw vs | ApiRangeU64 raw vs => is_Some (w_heap w !! raw) /\ 0 < Z.of_nat (length vs) < 2 ^ 31
  | ApiRangeHex raw vs => is_Some (w_heap w !! raw) /\ 0 < Z.of_nat (length vs) < 2 ^ 31 /\
      Forall (fun s => has_nul s = false) vs
  | ApiRangeReset raw | ApiAlways _ raw _ => is_Some (w_heap w !! raw)
  | ApiAwaitEdge t raw task => is_Some (w_heap w !! raw) /\ count_of w (raw, t, task) + 1 < 2 ^ 32
  | ApiClockNew raw => exists c, valid_handle w raw c
  | ApiClockStart p _ _ _ => gives_handle cbAfterDelay /\ is_Some (w_clocks w !! p)
  | ApiClockStop p | ApiClockRunning p => is_Some (w_clocks w !! p)
  | ApiClockDestroy p => exists c, w_clocks w !! p = Some c /\ in_callback c = false
  | ApiLookup nm =>
      let h := vpi_handle_by_name_of (w_sim w) nm in
      0 <= u64 (vpi_size_of (w_sim w) h) <= 1024 /\
      (hdl_cache (w_env w) !! nm = None -> forall r c, w_heap w !! r = Some c -> vpi_handle c = h -> h = 0)
  | ApiIndex raw idx => exists c, w_heap w !! raw = Some c /\
      let h := vpi_handle_by_index_of (w_sim w) (vpi_handle c) (i32 idx) in
      (hdl_cache (w_env w) !! index_name (name c) idx = None ->
        h <> 0 /\ 0 <= u64 (vpi_size_of (w_sim w) h) <= 1024 /\
        forall r c', w_heap w !! r = Some c' -> vpi_handle c' <> h)
  | ApiReadInt raw | ApiReadStr _ raw => is_Some (w_heap w !! raw)
  | ApiRead64 raw => exists c, w_heap w !! raw = Some c /\
      ((if (1 <? beat_num c)%nat then 2 else 1) <= length (snd (vpi_get_vector (w_sim w) (vpi_handle c))))%nat
  | ApiReadMulti raw len => exists c, w_heap w !! raw = Some c /\ 0 <= len < 2 ^ 32 - 1 /\
      len <= Z.of_nat (length (snd (vpi_get_vector (w_sim w) (vpi_handle c))))
  | ApiTopModule => vpi_iterate_modules (w_sim w) <> 0 /\ vpi_scan_first (w_sim w) (vpi_iterate_modules (w_sim w)) <> 0
  | ApiControl cmd => 66 <= cmd <= 69
  | _ => True
  end.

(** A script: exported calls, and changes of the Lua and simulator state the
    library cannot see. *)
Inductive script : World Sim -> World Sim -> Prop :=
| sc_done w : script w w
| sc_sim s w w' : script (set_w_sim s w) w' -> script w w'
| sc_op op r w w1 w' : op_ok w op -> run_op op w = Ret r w1 -> script w1 w' -> script w w'.

(** Lua code reaches the library's state only through the exported functions and
    uses them as documented; it ends, normally or with an error. *)
Definition lua_scripted : Prop :=
  forall c w, exists r w', lua_call c w = Ret r w' /\ script w w'.
Definition lua_entry : Prop := forall w, is_Some (lua_global_fn w "finish_callback").

(** ** The invariant *)

(** A held callback has the data and the reason its handler expects. *)
Definition cb_typed (cb : s_cb_data) : Prop :=
  match cb_rtn cb, user_data cb with
  | final_callback_rtn, _ => reason cb = cbEndOfSimulation
  | rd_synch_callback_rtn, NormalCbData _ => reason cb = cbReadOnlySynch
  | rw_synch_callback_rtn, RwSynchCbData _ _ => reason cb = cbReadWriteSynch
  | next_sim_time_callback_rtn, NormalCbData _ => reason cb = cbNextSimTime
  | libverilua_flush_put_values_rtn, _ => cb = flush_cb
  | libverilua_next_sim_time_cb_rtn, _ => cb = sim_time_cb
  | edge_callback_rtn, UdEdge _ => reason cb = cbValueChange /\ chunk_task = false
  | edge_callback_always_rtn, UdEdge _ => reason cb = cbValueChange
  | edge_callback_chunk_rtn _, UdEdge _ => reason cb = cbValueChange /\ chunk_task = true
  | time_callback_handler_rtn, TaskIDWithEnv _ => reason cb = cbAfterDelay
  | native_clock_toggle_callback_rtn, UdClock _ => reason cb = cbAfterDelay /\ gives_handle cbAfterDelay
  | _, _ => False
  end.

(** The builds whose wait counters agree with the registered callbacks; with
    [chunk_task] as well as [merge_cb] they do not. *)
Definition counted : bool := merge_cb && negb chunk_task.

Lemma counted_spec : counted = true <-> merge_cb = true /\ chunk_task = false.
Proof. unfold counted. rewrite andb_true_iff, negb_true_iff. done. Qed.

(** [C] is what holds of the counters in those builds: between events, that they
    agree with the registered and pending waits. *)
Record base_with (C : Prop) (w : World Sim) : Prop := {
  b_queue : queue_wf w;
  b_ok : heap_ok w;
  b_idle : use_hdl_put_value_bak (w_env w) = false;
  b_cache : cache_wf w;
  b_clock : clock_inv w;
  b_edge : edge_inv w;
  b_count : counted = true -> C;
  b_typed : forall h cb, w_cbs w !! h = Some cb -> cb_typed cb;
  b_init : w_created w = true /\ initialized (w_env w) = true;
  b_next : 0 < w_next w
}.

(** The heartbeat: the next time step, or the flush that schedules it, is
    registered; after the flush of a time step it is the former. *)
Definition heartbeat (w : World Sim) : Prop :=
  has_next_sim_time_cb (w_env w) = true -> verilator_inner_step_callback = false ->
  (exists h, w_cbs w !! h = Some sim_time_cb) \/
  (wave_vpi = false /\ rw_phase_passed (w_env w) = false /\ exists h, w_cbs w !! h = Some flush_cb).

Record sched_inv (w : World Sim) : Prop := {
  s_late : late_ok w;
  s_due : flush_due w;
  s_beat : heartbeat w
}.

Definition sys_inv (w : World Sim) : Prop := base_with (count_inv (infos_of w) w) w /\ sched_inv w.

(** What every event assumes of the simulator and of Lua. *)
Record environment_ok : Prop := {
  ev_quiet : quiet_put (Sim := Sim);
  ev_accept : accepting_registration (Sim := Sim);
  ev_fresh : fresh_registration (Sim := Sim);
  ev_slab : slab_ok;
  ev_hash : hash_iter_ok;
  ev_lua : lua_scripted;
  ev_entry : lua_entry
}.

(** A combination of features that Cargo accepts. *)
Definition build_ok : Prop := features_wf F.

End System.

(** [P]: the waits that still have to be registered. *)
Notation base_inv P w := (base_with (count_inv P w) w).
