(* ===== verification/SystemApi.v ===== *)
(** * The exported functions keep the system invariant

    Preservation lemmas for [sys_inv], first per kind of state change (a write
    frame, a change of the held callbacks, a slab slot taken or freed, a counter,
    a clock), then per exported function.  [kept] says that the edge callbacks
    that own a slot stay held: this is what a handler relies on after it resumed
    Lua. *)

From S2P Require Import Prelude Bytes State Backend PutQueue Frame ValueGetters ValueSetters Handles Lifecycle.
From S2P Require Import Callbacks ChunkTask NativeClock EdgeEngine System.
#[local] Open Scope Z_scope.

Section SystemApi.
Context {Sim : Type} `{!VpiBackend Sim} `{!LuaRuntime Sim} {C0 : Containers} {F : Features}.
Local Abbreviation W := (W Sim).

Hypothesis Hq : quiet_put (Sim := Sim).
Hypothesis Ha : accepting_registration (Sim := Sim).
Hypothesis Hf : fresh_registration (Sim := Sim).

Definition kept (w w' : World Sim) : Prop :=
  forall h cb, w_cbs w !! h = Some cb -> slot_rtn (cb_rtn cb) -> w_cbs w' !! h = Some cb.

#[export] Instance kept_preorder : PreOrder kept.
Proof. split; [intros w h cb Hh _; exact Hh|]. intros w1 w2 w3 H1 H2 h cb Hh Hs. by apply H2; [apply H1|]. Qed.

Lemma flush_cb_typed : cb_typed flush_cb. Proof. done. Qed.

(** *** Writes *)

Lemma frame_infos (w w' : World Sim) : frame w w' -> infos_of w' = infos_of w.
Proof. intros Hfr. unfold infos_of. by rewrite (sm_infos _ _ (frame_edge_same w w' Hf Hfr)). Qed.

Lemma frame_base P (w w' : World Sim) : base_inv P w -> frame w w' -> queue_wf w' -> base_inv P w'.
Proof.
  intros B Hfr Hwf. pose proof (fr_env w w' Hfr) as He.
  injection He as E1 E2 E3 E4 E5 E6 E7 E8 E9 E10 E11 E12 E13.
  assert (forall r c', w_heap w' !! r = Some c' -> exists c, w_heap w !! r = Some c /\ core_ch c' = core_ch c) as Hback.
  { intros r c' Hc'. pose proof (fr_heap w w' Hfr r) as Hr. rewrite Hc' in Hr. cbn in Hr. symmetry in Hr.
    apply fmap_Some in Hr as (c & Hc & Hr). by exists c. }
  split; try done.
  - apply (fr_ok w w' Hfr), (b_ok _ w B).
  - rewrite E1. apply (b_idle _ w B).
  - destruct (b_cache _ w B) as [C1 C2]. split.
    + intros n r. rewrite E2. intros Hn. destruct (C1 n r Hn) as (c & Hc & Hnm & Hen).
      destruct (frame_live w w' r c Hfr Hc) as (c' & Hc' & Hcc). exists c'. injection Hcc. intros. split_and!; congruence.
    + intros r c' Hc'. destruct (Hback r c' Hc') as (c & Hc & _). rewrite (fr_next w w' Hfr). by apply (C2 r c).
  - destruct (b_clock _ w B) as [C1 C2 C3 C4]. split.
    + intros h cb Hh Ht. rewrite (fr_clocks w w' Hfr). apply (C1 h cb); [|done].
      destruct (fr_new w w' Hfr Hf h cb Hh) as [| ->]; [done|]. done.
    + intros p c h. rewrite (fr_clocks w w' Hfr). intros Hp Hh. destruct (C2 p c h Hp Hh) as (cb & Hcb & Ht).
      exists cb. split; [by apply (fr_keep w w' Hfr Hf)|done].
    + intros p c. rewrite (fr_clocks w w' Hfr), (fr_next w w' Hfr). apply C3.
    + intros p c. rewrite (fr_clocks w w' Hfr). intros Hp. destruct (C4 p c Hp) as (ch & Hv & Hs).
      destruct (frame_valid w w' _ ch Hfr Hv) as (ch' & Hv' & Hcc). exists ch'. injection Hcc. intros. split; [done|congruence].
  - apply (edge_same_inv w); [apply (b_edge _ w B)|by apply frame_edge_same].
  - intros Hm. apply (edge_same_counts P w); [apply (b_edge _ w B)|by apply frame_edge_same|by apply (b_count _ w B)].
  - intros h cb Hh. destruct (fr_new w w' Hfr Hf h cb Hh) as [Hh'| ->]; [by apply (b_typed _ w B h)|done].
  - rewrite (fr_created w w' Hfr), E10. apply (b_init _ w B).
  - rewrite (fr_next w w' Hfr). apply (b_next _ w B).
Qed.

Lemma frame_beat (w w' : World Sim) : frame w w' -> heartbeat w -> heartbeat w'.
Proof.
  intros Hfr Hb Hn Hi. pose proof (fr_env w w' Hfr) as He.
  injection He as E1 E2 E3 E4 E5 E6 E7 E8 E9 E10 E11 E12 E13.
  destruct Hb as [[h Hh]|(Hw & Hp & h & Hh)]; [congruence|done|left|right].
  - exists h. by apply (fr_keep w w' Hfr Hf).
  - split_and!; [done|congruence|]. exists h. by apply (fr_keep w w' Hfr Hf).
Qed.

Lemma frame_sched (w w' : World Sim) : frame w w' -> sched_inv w -> sched_inv w'.
Proof.
  intros Hfr [S1 S2 S3]. split; [by apply (fr_late w w' Hfr)|by apply (fr_due w w' Hfr)|by apply (frame_beat w)].
Qed.

Lemma frame_kept (w w' : World Sim) : frame w w' -> kept w w'.
Proof. intros Hfr h cb Hh _. by apply (fr_keep w w' Hfr Hf). Qed.

Lemma frame_sys (w w' : World Sim) : sys_inv w -> frame w w' -> queue_wf w' -> sys_inv w' /\ kept w w'.
Proof.
  intros [B S] Hfr Hwf. split; [|by apply frame_kept]. split; [|by apply (frame_sched w)].
  rewrite (frame_infos w w' Hfr). by apply (frame_base _ w).
Qed.

(** *** The held callbacks *)

(** Callbacks other than edge slots and clock timers come and go. *)
Lemma cbs_base P m t (w : World Sim) :
  base_inv P w ->
  (forall h cb, slot_rtn (cb_rtn cb) -> (m !! h = Some cb <-> w_cbs w !! h = Some cb)) ->
  (forall h cb, is_timer cb -> (m !! h = Some cb <-> w_cbs w !! h = Some cb)) ->
  (forall h cb, m !! h = Some cb -> w_cbs w !! h = Some cb \/ cb_typed cb) ->
  base_inv P (set_w_cbs m (set_w_trace t w)).
Proof.
  intros [B1 B2 B3 B4 B5 B6 B7 B8 B9 B10] Hs Ht Hty.
  pose proof (cbs_edge_same m w Hs) as Hsame.
  split; try done.
  - by destruct B1.
  - destruct B4. by split.
  - destruct B5 as [C1 C2 C3 C4]. split; cbn.
    + intros h cb Hh Htm. apply (C1 h cb); [by apply Ht|done].
    + intros p c h Hp Hh. destruct (C2 p c h Hp Hh) as (cb & Hcb & Htm & Hu). exists cb. split; [by apply Ht|done].
    + done.
    + done.
  - pose proof (edge_same_inv w _ B6 Hsame) as [I1 I2 I3 I4 I5]. by split.
  - intros Hm. destruct (edge_same_counts P w _ B6 Hsame (B7 Hm)) as [C1 C2 C3 C4 C5]. by split.
  - intros h cb Hh. destruct (Hty h cb Hh) as [Hx|Hx]; [by apply (B8 h)|done].
Qed.

(** Registering such a callback. *)
Definition plain_rtn (r : CbRtn) : Prop := ~ slot_rtn r /\ r <> native_clock_toggle_callback_rtn.

Lemma registered_eq cb (w : World Sim) :
  registered cb w = set_w_cbs (<[vpi_register_result w cb := cb]> (w_cbs w))
    (set_w_trace (w_trace w ++ [EvRegister cb (vpi_register_result w cb)]) w).
Proof.
  unfold registered. destruct (Z.eqb_spec (vpi_register_result w cb) 0) as [E|]; [by destruct (Ha w cb)|done].
Qed.

Lemma fresh_result cb (w : World Sim) : w_cbs w !! vpi_register_result w cb = None.
Proof. apply Hf, Ha. Qed.

Lemma insert_fresh_iff h cb (m : gmap Z s_cb_data) (Q : s_cb_data -> Prop) :
  m !! h = None -> ~ Q cb -> forall h' cb', Q cb' -> (<[h := cb]> m !! h' = Some cb' <-> m !! h' = Some cb').
Proof.
  intros Hn Hc h' cb' HQ. destruct (decide (h' = h)) as [->|]; [|by rewrite lookup_insert_ne].
  rewrite lookup_insert_eq, Hn. split; [intros [= <-]; done|done].
Qed.

Lemma delete_iff h cb (m : gmap Z s_cb_data) (Q : s_cb_data -> Prop) :
  m !! h = Some cb -> ~ Q cb -> forall h' cb', Q cb' -> (delete h m !! h' = Some cb' <-> m !! h' = Some cb').
Proof.
  intros Hn Hc h' cb' HQ. destruct (decide (h' = h)) as [->|]; [|by rewrite lookup_delete_ne].
  rewrite lookup_delete_eq, Hn. split; [done|intros [= <-]; done].
Qed.

Lemma register_base P cb (w : World Sim) :
  base_inv P w -> plain_rtn (cb_rtn cb) -> cb_typed cb -> base_inv P (registered cb w).
Proof.
  intros B [Hs Ht] Hty. rewrite registered_eq. pose proof (fresh_result cb w) as Hn.
  apply cbs_base; [done| | |].
  - by apply (insert_fresh_iff _ cb _ (fun cb => slot_rtn (cb_rtn cb))).
  - by apply (insert_fresh_iff _ cb _ is_timer).
  - intros h cb'. rewrite lookup_insert_Some. intros [[_ <-]|[_ Hh]]; [by right|by left].
Qed.

Lemma registered_keep cb (w : World Sim) h cb' : w_cbs w !! h = Some cb' -> w_cbs (registered cb w) !! h = Some cb'.
Proof.
  intros Hh. rewrite registered_eq. cbn. rewrite lookup_insert_ne; [done|]. intros <-. by rewrite fresh_result in Hh.
Qed.

Lemma registered_held cb (w : World Sim) : exists h, w_cbs (registered cb w) !! h = Some cb.
Proof. rewrite registered_eq. eexists. apply lookup_insert_eq. Qed.

Lemma register_sched cb (w : World Sim) : sched_inv w -> sched_inv (registered cb w).
Proof.
  intros [S1 S2 S3]. split.
  - intros Hr. rewrite registered_env in Hr. destruct (S1 Hr) as [Hi [h Hh]]. split; [done|]. exists h. by apply registered_keep.
  - unfold flush_due, pending in *. by rewrite registered_env.
  - unfold heartbeat in *. rewrite registered_env. intros Hn Hi. destruct (S3 Hn Hi) as [[h Hh]|(H1 & H2 & h & Hh)]; [left|right].
    + exists h. by apply registered_keep.
    + split_and!; [done|done|]. exists h. by apply registered_keep.
Qed.

Lemma register_sys cb (w : World Sim) :
  sys_inv w -> plain_rtn (cb_rtn cb) -> cb_typed cb -> sys_inv (registered cb w) /\ kept w (registered cb w).
Proof.
  intros [B S] Hp Hty. split; [split|].
  - unfold infos_of. rewrite registered_env. by apply register_base.
  - by apply register_sched.
  - intros h cb' Hh _. by apply registered_keep.
Qed.

(** The trace is not part of the invariant. *)
Lemma trace_sys t (w : World Sim) : sys_inv w -> sys_inv (set_w_trace t w).
Proof. intros H. apply (frame_sys w); [done|apply frame_trace|apply queue_wf_trace, H]. Qed.

Lemma freed_sys cb (w : World Sim) :
  sys_inv w -> plain_rtn (cb_rtn cb) -> cb_typed cb -> sys_inv (freed cb w) /\ kept w (freed cb w).
Proof.
  intros H Hp Hty. destruct (register_sys cb w H Hp Hty) as [H1 H2]. split; [by apply trace_sys|exact H2].
Qed.

(** A one-shot callback fires: it is no longer held. *)
Definition released (h : Z) (w : World Sim) : World Sim := set_w_cbs (delete h (w_cbs w)) w.

Lemma released_base P h cb (w : World Sim) :
  base_inv P w -> w_cbs w !! h = Some cb -> plain_rtn (cb_rtn cb) -> base_inv P (released h w).
Proof.
  intros B Hh [Hs Ht].
  assert (base_inv P (set_w_cbs (delete h (w_cbs w)) (set_w_trace (w_trace w) w))) as H.
  { apply cbs_base; [done| | |].
    - by apply (delete_iff _ cb _ (fun cb => slot_rtn (cb_rtn cb))).
    - by apply (delete_iff _ cb _ is_timer).
    - intros h' cb'. rewrite lookup_delete_Some. intros [_ Hx]. by left. }
  unfold released. by destruct w.
Qed.

Lemma released_sched h cb (w : World Sim) :
  sched_inv w -> w_cbs w !! h = Some cb -> cb <> flush_cb -> cb <> sim_time_cb -> sched_inv (released h w).
Proof.
  intros [S1 S2 S3] Hh H1 H2.
  assert (forall h' cb', cb' <> cb -> w_cbs w !! h' = Some cb' -> w_cbs (released h w) !! h' = Some cb') as Hk.
  { intros h' cb' Hne Hh'. cbn. rewrite lookup_delete_ne; [done|]. intros ->. congruence. }
  split; [|done|].
  - intros Hr. destruct (S1 Hr) as [Hi [h' Hh']]. split; [done|]. exists h'. by apply Hk.
  - intros Hn Hi. destruct (S3 Hn Hi) as [[h' Hh']|(H3 & H4 & h' & Hh')]; [left|right].
    + exists h'. by apply Hk.
    + split_and!; [done|done|]. exists h'. by apply Hk.
Qed.

(** *** The environment's flags *)

Lemma env_base P e (w : World Sim) :
  base_inv P w ->
  hdl_put_value e = hdl_put_value (w_env w) -> hdl_put_value_bak e = hdl_put_value_bak (w_env w) ->
  use_hdl_put_value_bak e = use_hdl_put_value_bak (w_env w) -> hdl_cache e = hdl_cache (w_env w) ->
  edge_cb_slab e = edge_cb_slab (w_env w) -> initialized e = initialized (w_env w) ->
  length (lua_sim_event_chunks e) = length (lua_sim_event_chunks (w_env w)) ->
  (forall t raw, is_Some (pending_cb_map t e !! raw) -> is_Some (w_heap w !! raw)) ->
  (forall raw, is_Some (pending_edge_cb_infos e !! raw) -> is_Some (w_heap w !! raw)) ->
  base_inv P (set_w_env e w).
Proof.
  intros [B1 B2 B3 B4 B5 B6 B7 B8 B9 B10] E1 E2 E3 E4 E5 E6 E7 E8 E9.
  split; try done; cbn.
  - apply queue_wf_env; [done..|by left].
  - congruence.
  - destruct B4 as [C1 C2]. split; cbn; [by rewrite E4|done].
  - by destruct B5.
  - destruct B6 as [I1 I2 I3 I4 I5]. split; unfold slab; cbn; rewrite ?E5; try done. congruence.
  - intros Hm. destruct (B7 Hm) as [C1 C2 C3 C4 C5].
    assert (forall k x, waits_at (set_w_env e w) k x <-> waits_at w k x) as Hx.
    { intros k [[raw t] task]. unfold waits_at, slab. cbn. by rewrite E5. }
    split; try done.
    + intros x k Hin. rewrite Hx. by apply C2.
    + intros x k1 k2. rewrite !Hx. apply C3.
    + intros x. setoid_rewrite Hx. apply C4.
  - split; [apply B9|]. rewrite E6. apply B9.
Qed.

(** *** Edge slots *)

Lemma slotted_base P rtn tasks raw t c (w : World Sim) :
  slab_ok -> base_inv P w -> w_heap w !! raw = Some c ->
  (rtn = edge_callback_rtn /\ length tasks = 1%nat /\ chunk_task = false) \/
    (rtn = edge_callback_chunk_rtn (length tasks) /\ (1 <= length tasks <= 16)%nat /\ chunk_task = true) ->
  forall P', (counted = true -> count_inv P' (slotted rtn tasks raw t c w)) ->
  base_inv P' (slotted rtn tasks raw t c w).
Proof.
  intros Hs B Hc Hr P' Hct. pose proof (slotted_inv rtn tasks raw t c w Hs Hf Ha (b_edge _ w B) Hc ltac:(tauto)) as He.
  set (k := slab_vacant_key (slab w)). set (cb := edge_cb (vpi_handle c) rtn (mkEdgeCbData tasks raw t k)).
  pose proof (fresh_result cb w) as Hn.
  destruct B as [B1 B2 B3 B4 B5 B6 B7 B8 B9 B10]. split; try done.
  - by destruct B1.
  - by destruct B4.
  - destruct B5 as [C1 C2 C3 C4]. split; try done; cbn -[slab].
    + intros h cb'. fold k. fold cb. rewrite lookup_insert_Some. intros [[<- <-]|[_ Hh]] Ht; [|by apply (C1 h cb')].
      destruct Hr as [(-> & _)|(-> & _)]; discriminate Ht.
    + intros p cl h Hp Hh. destruct (C2 p cl h Hp Hh) as (cb' & Hcb & Ht). exists cb'. fold k. fold cb.
      rewrite lookup_insert_ne; [done|]. congruence.
  - intros h cb'. cbn -[slab]. fold k. fold cb. rewrite lookup_insert_Some. intros [[<- <-]|[_ Hh]]; [|by apply (B8 h)].
    by destruct Hr as [(-> & _ & ?)|(-> & _ & ?)].
Qed.

Lemma unslotted_base C k h (w : World Sim) :
  base_with C w -> slab w !! k = Some h ->
  forall C', (counted = true -> C') -> base_with C' (unslotted k h w).
Proof.
  intros B Hk C' Hct. pose proof (unslotted_inv k h w (b_edge _ w B) Hk) as He.
  destruct (ei_slab w (b_edge _ w B) k h Hk) as (cb & d & Hcb & Hd & _).
  pose proof (edge_slot_rtn k cb d Hd) as Hs.
  destruct B as [B1 B2 B3 B4 B5 B6 B7 B8 B9 B10]. split; try done.
  - by destruct B1.
  - by destruct B4.
  - destruct B5 as [C1 C2 C3 C4]. split; try done; cbn.
    + intros h' cb'. rewrite lookup_delete_Some. intros [_ Hh]. by apply (C1 h' cb').
    + intros p cl h' Hp Hh. destruct (C2 p cl h' Hp Hh) as (cb' & Hcb' & Ht & Hu). exists cb'.
      rewrite lookup_delete_ne; [done|]. intros ->. assert (cb' = cb) as -> by congruence.
      unfold is_timer in Ht. rewrite Ht in Hs. by destruct Hs as [Hs|[n Hs]].
  - intros h' cb'. cbn. rewrite lookup_delete_Some. intros [_ Hh]. by apply (B8 h').
Qed.

(** Freeing a slot touches nothing the schedule needs. *)
Lemma unslotted_sched C k h (w : World Sim) : base_with C w -> slab w !! k = Some h -> sched_inv w -> sched_inv (unslotted k h w).
Proof.
  intros B Hk Hsc. destruct (ei_slab w (b_edge _ w B) k h Hk) as (cb & d & Hcb & Hd & _).
  destruct (edge_slot_rtn k cb d Hd) as [Hs|[n Hs]];
    (destruct (released_sched h cb w Hsc Hcb) as [S1 S2 S3]; [intros ->; discriminate Hs..|]; by split).
Qed.

(** *** Counters *)

Lemma counts_base C raw t m c (w : World Sim) :
  base_with C w -> w_heap w !! raw = Some c ->
  forall C', (counted = true -> C') -> base_with C' (with_counts raw t m c w).
Proof.
  intros B Hc C' Hct. pose proof (with_counts_inv raw t m c w (b_edge _ w B) Hc) as He.
  destruct B as [B1 B2 B3 B4 B5 B6 B7 B8 B9 B10].
  set (c' := set_cb_count t m c) in *.
  assert (vpi_handle c' = vpi_handle c /\ name c' = name c /\ ch_env c' = ch_env c) as (Hv & Hn & Hen) by by destruct t.
  split; try done.
  - apply (queue_wf_upd raw (set_cb_count t m) c w B1 Hc).
    split_and!; [by destruct t..|]. intros Hw. by destruct t.
  - intros r cr. cbn. rewrite lookup_insert_Some. intros [[<- <-]|[_ Hr]]; [|by apply (B2 r)].
    destruct (B2 raw c Hc) as [O1 O2 O3]. by destruct t; split.
  - destruct B4 as [C1 C2]. split; cbn.
    + intros nm r Hr. destruct (C1 nm r Hr) as (cr & Hcr & Hnm & He'). destruct (decide (r = raw)) as [->|].
      * assert (cr = c) as -> by congruence. exists c'. rewrite lookup_insert_eq. split_and!; [done|congruence|congruence].
      * exists cr. by rewrite lookup_insert_ne.
    + intros r cr. rewrite lookup_insert_Some. intros [[<- _]|[_ Hr]]; [by apply (C2 raw c)|by apply (C2 r cr)].
  - destruct B5 as [C1 C2 C3 C4]. split; try done. intros p cl Hp. destruct (C4 p cl Hp) as (ch & [Hch Hne] & Hs).
    destruct (decide (complex_handle_raw cl = raw)) as [E|].
    + rewrite E in *. assert (ch = c) as -> by congruence. exists c'. split; [split|congruence]; [|congruence].
      cbn. apply lookup_insert_eq.
    + exists ch. split; [split|done]; [|done]. cbn. by rewrite lookup_insert_ne.
Qed.

(** *** Clocks *)

(** What a clock operation may change besides the clocks: what a write may
    change, and the timers. *)
Record clk_frame (w w' : World Sim) : Prop := {
  kf_created : w_created w' = w_created w;
  kf_env : core_env (w_env w') = core_env (w_env w);
  kf_heap : forall r, core_ch <$> w_heap w' !! r = core_ch <$> w_heap w !! r;
  kf_ok : heap_ok w -> heap_ok w';
  kf_next : w_next w <= w_next w';
  kf_keep : forall h cb, ~ is_timer cb -> w_cbs w !! h = Some cb -> w_cbs w' !! h = Some cb;
  kf_new : forall h cb, ~ is_timer cb -> w_cbs w' !! h = Some cb -> w_cbs w !! h = Some cb \/ cb = flush_cb;
  kf_typed : (forall h cb, w_cbs w !! h = Some cb -> cb_typed cb) -> forall h cb, w_cbs w' !! h = Some cb -> cb_typed cb;
  kf_late : late_ok w -> late_ok w';
  kf_due : flush_due w -> flush_due w'
}.

#[export] Instance clk_frame_preorder : PreOrder clk_frame.
Proof.
  split.
  - intros w. split; auto. reflexivity.
  - intros w1 w2 w3 [A1 A2 A3 A4 A5 A6 A7 A8 A9 A10] [B1 B2 B3 B4 B5 B6 B7 B8 B9 B10].
    split; [by rewrite B1|by rewrite B2|intros r; by rewrite B3|auto|by etrans|auto..].
    + intros h cb Ht Hh. destruct (B7 h cb Ht Hh) as [Hh'| ->]; [by apply A7|by right].
    + intros Ht. by apply B8, A8.
Qed.

Lemma frame_clk (w w' : World Sim) : frame w w' -> clk_frame w w'.
Proof.
  intros Hfr. split; try apply Hfr; try done.
  - by rewrite (fr_next w w' Hfr).
  - intros h cb _. by apply (fr_keep w w' Hfr Hf).
  - intros h cb _. by apply (fr_new w w' Hfr Hf).
  - intros Ht h cb Hh. destruct (fr_new w w' Hfr Hf h cb Hh) as [Hx| ->]; [by apply (Ht h)|done].
Qed.

Lemma clk_clocks m (w : World Sim) : clk_frame w (set_w_clocks m w).
Proof. split; auto. reflexivity. Qed.

Lemma clk_active m (w : World Sim) : clk_frame w (set_ACTIVE_SIGNALS m w).
Proof. split; auto. reflexivity. Qed.

(** Timers come and go. *)
Lemma clk_cbs m t (w : World Sim) :
  (forall h cb, ~ is_timer cb -> (m !! h = Some cb <-> w_cbs w !! h = Some cb)) ->
  (forall h cb, m !! h = Some cb -> w_cbs w !! h = Some cb \/ cb_typed cb) ->
  clk_frame w (set_w_cbs m (set_w_trace t w)).
Proof.
  intros Hm Hty. split; auto; cbn.
  - reflexivity.
  - intros h cb Ht. by apply Hm.
  - intros h cb Ht Hh. left. by apply Hm.
  - intros Hx h cb Hh. destruct (Hty h cb Hh) as [H|H]; [by apply (Hx h)|done].
  - intros Hl Hr. destruct (Hl Hr) as [Hi [h Hh]]. split; [done|]. exists h. by apply Hm.
Qed.

Lemma clk_arm p d (w : World Sim) : gives_handle (Sim := Sim) cbAfterDelay -> clk_frame w (registered (timer_cb p d) w).
Proof.
  intros Hd. rewrite registered_eq. apply clk_cbs.
  - apply (insert_fresh_iff _ _ _ (fun cb => ~ is_timer cb)); [apply fresh_result|]. intros Hn. by apply Hn.
  - intros h cb. rewrite lookup_insert_Some. intros [[_ <-]|[_ Hh]]; [by right|by left].
Qed.

Lemma clk_remove h cb t (w : World Sim) :
  w_cbs w !! h = Some cb -> is_timer cb -> clk_frame w (set_w_cbs (delete h (w_cbs w)) (set_w_trace t w)).
Proof.
  intros Hh Ht. apply clk_cbs.
  - apply (delete_iff _ cb _ (fun cb => ~ is_timer cb)); [done|]. intros Hn. by apply Hn.
  - intros h' cb'. rewrite lookup_delete_Some. intros [_ Hx]. by left.
Qed.

Lemma clk_edge_same (w w' : World Sim) : clk_frame w w' -> edge_same w w'.
Proof.
  intros Hk. pose proof (kf_env w w' Hk) as He.
  injection He as E1 E2 E3 E4 E5 E6 E7 E8 E9 E10 E11 E12 E13.
  assert (forall c c', core_ch c' = core_ch c -> same_counts c c') as Hct.
  { intros c c' Hc t. injection Hc. intros. destruct t; cbn; congruence. }
  assert (forall cb, slot_rtn (cb_rtn cb) -> ~ is_timer cb) as Hnt.
  { intros cb [Hs|[n Hs]]; unfold is_timer; congruence. }
  split; try done.
  - by intros [].
  - intros r c Hc. pose proof (kf_heap w w' Hk r) as Hr. rewrite Hc in Hr. apply fmap_Some in Hr as (c' & Hc' & Hr).
    exists c'. split; [done|]. by apply Hct.
  - intros r c' Hc'. left. pose proof (kf_heap w w' Hk r) as Hr. rewrite Hc' in Hr. cbn in Hr. symmetry in Hr.
    apply fmap_Some in Hr as (c & Hc & Hr). exists c. split; [done|by apply Hct].
  - intros h cb Hs. split; [|by apply (kf_keep w w' Hk), Hnt].
    intros Hh. destruct (kf_new w w' Hk h cb (Hnt cb Hs) Hh) as [Hx| ->]; [done|]. by destruct Hs as [Hs|[n Hs]].
Qed.

Lemma clk_sys (w w' : World Sim) : sys_inv w -> clk_frame w w' -> clocks_ok w' -> sys_inv w' /\ kept w w'.
Proof.
  intros [B [S1 S2 S3]] Hk [Hwf Hci]. pose proof (clk_edge_same w w' Hk) as Hsame.
  pose proof (kf_env w w' Hk) as He. injection He as E1 E2 E3 E4 E5 E6 E7 E8 E9 E10 E11 E12 E13.
  assert (infos_of w' = infos_of w) as Hinf by (unfold infos_of; by rewrite E7).
  split; [split|].
  - rewrite Hinf. split; try done.
    + apply (kf_ok w w' Hk), (b_ok _ w B).
    + rewrite E1. apply (b_idle _ w B).
    + destruct (b_cache _ w B) as [C1 C2]. split.
      * intros n r. rewrite E2. intros Hn. destruct (C1 n r Hn) as (c & Hc & Hnm & Hen).
        pose proof (kf_heap w w' Hk r) as Hr. rewrite Hc in Hr. apply fmap_Some in Hr as (c' & Hc' & Hr).
        exists c'. injection Hr. intros. split_and!; congruence.
      * intros r c' Hc'. pose proof (kf_heap w w' Hk r) as Hr. rewrite Hc' in Hr. cbn in Hr. symmetry in Hr.
        apply fmap_Some in Hr as (c & Hc & _). pose proof (C2 r c Hc). pose proof (kf_next w w' Hk). lia.
    + apply (edge_same_inv w); [apply (b_edge _ w B)|done].
    + intros Hm. apply (edge_same_counts _ w); [apply (b_edge _ w B)|done|by apply (b_count _ w B)].
    + apply (kf_typed w w' Hk), (b_typed _ w B).
    + rewrite (kf_created w w' Hk), E10. apply (b_init _ w B).
    + pose proof (kf_next w w' Hk). pose proof (b_next _ w B). lia.
  - split; [by apply (kf_late w w' Hk)|by apply (kf_due w w' Hk)|]. intros Hn Hi.
    destruct S3 as [[h Hh]|(H1 & H2 & h & Hh)]; [congruence|done|left|right].
    + exists h. by apply (kf_keep w w' Hk).
    + split_and!; [done|congruence|]. exists h. by apply (kf_keep w w' Hk).
  - intros h cb Hh Hs. by apply (sm_cbs w w' Hsame).
Qed.

Lemma sys_clocks_ok (w : World Sim) : sys_inv w -> clocks_ok w.
Proof. intros [B _]. split; [apply (b_queue _ w B)|apply (b_clock _ w B)]. Qed.

Lemma toggle_clk p first c r (w w' : World Sim) :
  gives_handle (Sim := Sim) cbAfterDelay -> clocks_ok w -> w_clocks w !! p = Some c -> toggle p first w = Ret r w' -> clk_frame w w'.
Proof.
  intros Hd [Hwf Hi] Hp. unfold toggle. mrun (clock_get_Some _ _ _ Hp).
  destruct (ci_valid w Hi p c Hp) as (ch & Hv & _).
  destruct (safe_plain (OpValue ASet (current_val c)) (complex_handle_raw c) ch w Hq Hwf Hv I I I) as ([] & w1 & E1 & _ & Hfr).
  cbn [write_method] in E1. mrun E1.
  assert (w_clocks w1 !! p = Some c) as Hp1 by (by rewrite (fr_clocks w w1 Hfr)).
  mrun (clock_get_Some _ _ _ Hp1). mrun (clock_mod_Some p (set_current_val (Z.lxor (current_val c) 1)) _ _ Hp1).
  set (c2 := set_current_val _ c). set (w2 := set_w_clocks (<[p := c2]> (w_clocks w1)) w1).
  set (cb := timer_cb p (next_delay c)). rewrite (returned_handle w2 cb Hd).
  destruct (Z.eqb_spec (vpi_register_result w2 cb) 0) as [E|_]; [by destruct (Ha w2 cb)|].
  assert (w_clocks (registered cb w2) !! p = Some c2) as Hp3.
  { rewrite registered_eq. cbn. apply lookup_insert_eq. }
  mrun (clock_mod_Some p (set_cb_handle (Some (vpi_register_result w2 cb))) _ _ Hp3). intros [= <- <-].
  etransitivity; [|apply clk_clocks]. etransitivity; [|by apply clk_arm].
  etransitivity; [|apply clk_clocks]. by apply frame_clk.
Qed.

Lemma stop_clk p c (w w' : World Sim) :
  clocks_ok w -> w_clocks w !! p = Some c -> stop p w = Ret tt w' -> clk_frame w w'.
Proof.
  intros [Hwf Hi] Hp. unfold stop. mrun (clock_get_Some _ _ _ Hp). unfold active_remove. mrun.
  destruct (cb_handle c) as [h|] eqn:Hh; [|intros [= <-]; apply clk_active].
  erewrite bind_Ret; [|by apply clock_mod_Some]. unfold vpi_remove_cb. mrun. intros [= <-].
  destruct (ci_handle w Hi p c h Hp Hh) as (cb & Hcb & Ht & _).
  set (w1 := set_w_clocks (<[p := set_cb_handle None c]> (w_clocks w))
    (set_ACTIVE_SIGNALS (ACTIVE_SIGNALS w ∖ {[signal_hdl c]}) w)).
  transitivity w1; [etransitivity; [apply (clk_active (ACTIVE_SIGNALS w ∖ {[signal_hdl c]}))|apply clk_clocks]|].
  by apply (clk_remove h cb (w_trace w1 ++ [EvRemove h]) w1).
Qed.

Lemma drop_clk p c (w w' : World Sim) :
  clocks_ok w -> w_clocks w !! p = Some c -> drop_clock p w = Ret tt w' -> clk_frame w w'.
Proof.
  intros Hok Hp. unfold drop_clock. destruct (stop_spec p c w Hok Hp) as (w1 & E1 & _). mrun E1. intros [= <-].
  transitivity w1; [by apply (stop_clk p c)|apply clk_clocks].
Qed.

Lemma start_clk p c period high sh r (w w' : World Sim) :
  gives_handle (Sim := Sim) cbAfterDelay -> clocks_ok w -> w_clocks w !! p = Some c -> start p period high sh w = Ret r w' -> clk_frame w w'.
Proof.
  intros Hd Hok Hp. unfold start. mrun (clock_get_Some _ _ _ Hp).
  destruct (bool_decide (is_Some (cb_handle c))); [intros [= _ <-]; reflexivity|]. mrun.
  destruct (bool_decide _); [intros [= _ <-]; reflexivity|].
  destruct (_ || _ || _); [intros [= _ <-]; reflexivity|]. unfold active_insert. mrun.
  erewrite bind_Ret; [|by apply clock_mod_Some].
  erewrite bind_Ret; [|apply clock_mod_Some; cbn; apply lookup_insert_eq].
  erewrite bind_Ret; [|apply clock_mod_Some; cbn; apply lookup_insert_eq]. cbn. rewrite !insert_insert_eq.
  set (c' := set_current_val _ _). intros E.
  set (w1 := set_ACTIVE_SIGNALS ({[signal_hdl c]} ∪ ACTIVE_SIGNALS w) w).
  transitivity (set_w_clocks (<[p := c']> (w_clocks w1)) w1).
  - transitivity w1; [apply clk_active|apply clk_clocks].
  - apply (toggle_clk p true c' r); [done| |cbn; apply lookup_insert_eq|exact E].
    apply clocks_ok_clocks; [apply queue_wf_active, Hok|].
    apply (clock_mod_inv p c c' w1); [|done..]. destruct (proj2 Hok) as [? ? ? ?]. by split.
Qed.

(** Firing a timer, the removal of the one-shot callback included. *)
Lemma fire_clk h cb p (w w' : World Sim) :
  gives_handle (Sim := Sim) cbAfterDelay -> clocks_ok w -> w_cbs w !! h = Some cb -> is_timer cb -> user_data cb = UdClock p ->
  fire_timer h p w = Ret tt w' -> clk_frame w w'.
Proof.
  intros Hd Hok Hcb Ht Hu. destruct (ci_timer w (proj2 Hok) h cb Hcb Ht) as (p' & c & Hu' & Hp & Hh).
  assert (p' = p) as -> by congruence. unfold fire_timer, native_clock_toggle_callback. mrun.
  erewrite bind_Ret; [|by apply clock_mod_Some].
  set (w0 := set_w_cbs (delete h (w_cbs w)) w). set (c1 := set_cb_handle None c).
  set (w1 := set_w_clocks (<[p := c1]> (w_clocks w0)) w0).
  assert (clocks_ok w1) as Hok1 by by apply (release_ok p c h w).
  assert (clk_frame w w1) as Hk1.
  { transitivity w0; [|apply clk_clocks]. pose proof (clk_remove h cb (w_trace w) w Hcb Ht) as Hk. unfold w0. by destruct w. }
  assert (w_clocks w1 !! p = Some c1) as Hp1 by (cbn; apply lookup_insert_eq).
  mrun (clock_get_Some _ _ _ Hp1). destruct (destroy_pending c1); intros E.
  - transitivity w1; [done|]. by apply (drop_clk p c1).
  - revert E. mrun (clock_mod_Some p (set_in_callback true) _ _ Hp1).
    set (c2 := set_in_callback true c1). set (w2 := set_w_clocks (<[p := c2]> (w_clocks w1)) w1).
    assert (w_clocks w2 !! p = Some c2) as Hp2 by (cbn; apply lookup_insert_eq).
    assert (clocks_ok w2) as Hok2.
    { apply clocks_ok_clocks; [apply Hok1|]. by apply (clock_mod_inv p c1 c2); [apply Hok1|..]. }
    destruct (toggle_spec Hq Ha Hf Hd p false c2 w2 Hok2 Hp2) as (h' & w3 & E3 & Hok3 & Hc3 & _); [done|]. mrun E3.
    pose proof (toggle_clk p false c2 0 w2 w3 Hd Hok2 Hp2 E3) as Hk3.
    assert (w_clocks w3 !! p = Some (toggled c2 h')) as Hp3 by (rewrite Hc3; apply lookup_insert_eq).
    mrun (clock_mod_Some p (set_in_callback false) _ _ Hp3).
    set (c4 := set_in_callback false (toggled c2 h')). set (w4 := set_w_clocks (<[p := c4]> (w_clocks w3)) w3).
    assert (w_clocks w4 !! p = Some c4) as Hp4 by (cbn; apply lookup_insert_eq).
    assert (clk_frame w w4) as Hk4.
    { transitivity w1; [done|]. transitivity w2; [apply clk_clocks|]. transitivity w3; [done|apply clk_clocks]. }
    mrun (clock_get_Some _ _ _ Hp4). destruct (destroy_pending c4) eqn:Ed; cbn [when]; [|by intros [= <-]].
    assert (clocks_ok w4) as Hok4.
    { apply clocks_ok_clocks; [apply Hok3|]. by apply (clock_mod_inv p (toggled c2 h') c4); [apply Hok3|..]. }
    destruct (stop_spec p c4 w4 Hok4 Hp4) as (w5 & E5 & Hok5 & Hc5 & _). mrun E5. intros E6.
    transitivity w4; [done|]. transitivity w5; [by apply (stop_clk p c4)|].
    apply (drop_clk p (set_cb_handle None c4)); [done|rewrite Hc5; apply lookup_insert_eq|done].
Qed.

End SystemApi.
