(* ===== verification/SystemOps.v ===== *)
(** * Every exported function returns and keeps the invariant

    One lemma per function of [ApiOp], collected in [op_sys]; [script_sys] extends
    it to whole scripts and [lua_call_sys] to the calls into Lua the handlers
    make. *)

From S2P Require Import Prelude Bytes State Backend PutQueue Frame ValueGetters ValueSetters Handles Lifecycle.
From S2P Require Import Callbacks ChunkTask NativeClock EdgeEngine System SystemApi.
#[local] Open Scope Z_scope.

Section SystemOps.
Context {Sim : Type} `{!VpiBackend Sim} `{!LuaRuntime Sim} {C0 : Containers} {F : Features}.
Local Abbreviation W := (W Sim).

Hypothesis Henv : environment_ok.
Hypothesis Hbuild : build_ok.

Let Hq := ev_quiet Henv.
Let Ha := ev_accept Henv.
Let Hf := ev_fresh Henv.

(** [m] returns in a state of the invariant, with the edge callbacks kept. *)
Definition sys_ok {A} (m : W A) (w : World Sim) : Prop :=
  exists a w', m w = Ret a w' /\ sys_inv w' /\ kept w w'.

Lemma sys_bind {A B} (m : W A) (k : A -> W B) (w : World Sim) :
  sys_ok m w -> (forall a w', sys_inv w' -> sys_ok (k a) w') -> sys_ok (bind m k) w.
Proof.
  intros (a & w1 & E & H1 & K1) Hk. destruct (Hk a w1 H1) as (b & w2 & E2 & H2 & K2).
  exists b, w2. split_and!; [by mrun E|done|by transitivity w1].
Qed.

Lemma sys_ret {A} (a : A) (w : World Sim) : sys_inv w -> sys_ok (ret a) w.
Proof. intros H. exists a, w. split_and!; [done|done|reflexivity]. Qed.

(** Running [m] and dropping its result. *)
Lemma sys_then {A B} (m : W A) (b : B) (w : World Sim) : sys_ok m w -> sys_ok (bind m (fun _ => ret b)) w.
Proof. intros H. apply sys_bind; [done|]. intros a w' H'. by apply sys_ret. Qed.

Lemma get_env_created (w : World Sim) : w_created w = true -> get_verilua_env w = Ret tt w.
Proof. intros Hc. unfold get_verilua_env. mrun. by rewrite Hc. Qed.

Lemma sys_created (w : World Sim) : sys_inv w -> get_verilua_env w = Ret tt w.
Proof. intros [B _]. apply get_env_created, (b_init _ w B). Qed.

Lemma sys_ch_env (w : World Sim) raw c : sys_inv w -> w_heap w !! raw = Some c -> ch_env c = true.
Proof. intros [B _] Hc. apply (qw_heap w (b_queue _ w B) raw c Hc). Qed.

Lemma frame_ok {A} (m : W A) a (w w' : World Sim) :
  sys_inv w -> m w = Ret a w' -> frame w w' -> queue_wf w' -> sys_ok m w.
Proof. intros H E Hfr Hwf. exists a, w'. split; [done|]. by apply (frame_sys Ha Hf w). Qed.

(** *** Writes and random pools *)

Lemma write_sys op raw (w : World Sim) : sys_inv w -> op_ok w (ApiWrite op raw) -> sys_ok (run_op (ApiWrite op raw)) w.
Proof.
  intros H (Hrd & c & Hv & Hok). cbn [run_op]. apply sys_then.
  destruct (exported_write_facts op raw c w Hq (b_queue _ w (proj1 H)) Hv Hrd Hok) as (w' & E & Hwf & Hfr).
  by apply (frame_ok _ tt w w').
Qed.

Lemma range_sys raw upd c (w : World Sim) :
  sys_inv w -> w_heap w !! raw = Some c -> upd_ok_at upd c -> core_ch (upd c) = core_ch c ->
  (ch_ok c -> ch_ok (upd c)) -> sys_ok (ch_mod raw upd) w.
Proof.
  intros H Hc Hu Hcore Hok. eapply frame_ok; [done|by apply ch_mod_Some|by apply (frame_heap raw c)|].
  by apply queue_wf_upd; [apply (b_queue _ w (proj1 H))|..].
Qed.

(** *** Waiting for synchronisation points and time *)

Lemma register_ok cb (w : World Sim) : sys_inv w -> plain_rtn (cb_rtn cb) -> cb_typed cb -> sys_ok (register cb) w.
Proof.
  intros H Hp Ht. exists tt, (registered cb w). split; [done|]. by apply (register_sys Ha Hf).
Qed.

Lemma register_free_ok cb (w : World Sim) : sys_inv w -> plain_rtn (cb_rtn cb) -> cb_typed cb -> sys_ok (register_and_free cb) w.
Proof.
  intros H Hp Ht. exists tt, (freed cb w). split; [done|]. by apply (freed_sys Ha Hf).
Qed.

Ltac plain := split; [by intros [?|[? ?]]|done].

Lemma await_rw_sys task (w : World Sim) : sys_inv w -> sys_ok (vpiml_register_rw_synch_callback task) w.
Proof.
  intros H. unfold vpiml_register_rw_synch_callback, do_register_rw_synch_callback.
  apply sys_bind; [|intros e w' H'; apply register_ok; [done|plain|done]].
  destruct inertial_put; [by apply sys_ret|].
  exists (flush_epoch (w_env w)), w. mrun (sys_created w H). split_and!; [done|done|reflexivity].
Qed.

Lemma always_sys t raw task (w : World Sim) :
  sys_inv w -> is_Some (w_heap w !! raw) -> sys_ok (vpiml_register_edge_callback_always t raw task) w.
Proof.
  intros H [c Hc]. unfold vpiml_register_edge_callback_always, do_register_edge_callback_always, sys_ok.
  mrun (sys_created w H). mrun (ch_get_Some _ _ _ Hc).
  eexists _, _. split; [done|]. apply (register_sys Ha Hf); [done|plain|done].
Qed.

(** *** Waiting for an edge *)

Lemma base_perm P P' (w : World Sim) : (counted = true -> P ≡ₚ P') -> base_inv P w -> base_inv P' w.
Proof.
  intros Hp [B1 B2 B3 B4 B5 B6 B7 B8 B9 B10]. split; try done.
  intros Hm. apply (count_inv_perm P); [by apply Hp|by apply B7].
Qed.

Lemma slotted_sched rtn tasks raw t c (w : World Sim) : sched_inv w -> sched_inv (slotted rtn tasks raw t c w).
Proof.
  intros Hs. set (cb := edge_cb (vpi_handle c) rtn (mkEdgeCbData tasks raw t (slab_vacant_key (slab w)))).
  pose proof (register_sched Ha Hf cb w Hs) as [S1 S2 S3]. rewrite (registered_eq Ha) in S1, S2, S3. by split.
Qed.

Lemma slotted_kept rtn tasks raw t c (w : World Sim) : kept w (slotted rtn tasks raw t c w).
Proof.
  intros h cb Hh _. unfold slotted. cbn -[slab]. rewrite lookup_insert_ne; [done|]. intros <-.
  by rewrite (fresh_result Ha Hf) in Hh.
Qed.

Lemma push_infos_sys raw t task P (w : World Sim) :
  base_inv P w -> sched_inv w -> is_Some (w_heap w !! raw) ->
  (counted = true -> P ≡ₚ infos_of w ++ [(raw, t, task)]) ->
  let w' := set_w_env (set_pending_edge_cb_infos
    (push_at raw (mkCallbackInfo t task) (pending_edge_cb_infos (w_env w))) (w_env w)) w in
  sys_inv w' /\ kept w w'.
Proof.
  intros B [S1 S2 S3] Hl Hp w'. split; [|by intros h cb Hh _]. split; [|by split].
  apply (base_perm P).
  - intros Hm. rewrite (Hp Hm). symmetry. apply infos_push.
  - apply env_base; try done.
    + intros t' r Hr. apply (ei_pend w (b_edge _ w B) t' r). by destruct t'.
    + intros r. cbn. unfold push_at. destruct (decide (r = raw)) as [->|]; [done|].
      rewrite lookup_insert_ne by done. apply (ei_infos w (b_edge _ w B)).
Qed.

Lemma push_chunk_sys raw t task P (w : World Sim) :
  counted = false -> base_inv P w -> sched_inv w -> is_Some (w_heap w !! raw) ->
  let w' := set_w_env (set_pending_cb_map t (push_at raw task (pending_cb_map t (w_env w))) (w_env w)) w in
  sys_inv w' /\ kept w w'.
Proof.
  intros Hm B [S1 S2 S3] Hl w'. split; [|by intros h cb Hh _]. split.
  - apply (base_perm P); [congruence|]. apply env_base; try done; try by destruct t.
    + intros t' r Hr. destruct (decide (t' = t)) as [->|Hne].
      * replace (pending_cb_map t (set_pending_cb_map t (push_at raw task (pending_cb_map t (w_env w))) (w_env w)))
          with (push_at raw task (pending_cb_map t (w_env w))) in Hr by by destruct t.
        unfold push_at in Hr. destruct (decide (r = raw)) as [->|]; [done|].
        rewrite lookup_insert_ne in Hr by done. by apply (ei_pend w (b_edge _ w B) t).
      * apply (ei_pend w (b_edge _ w B) t'). by destruct t, t'.
    + intros r Hr. apply (ei_infos w (b_edge _ w B)). by destruct t.
  - destruct t; by split.
Qed.

Lemma edge_sys t raw task (w : World Sim) :
  sys_inv w -> op_ok w (ApiAwaitEdge t raw task) -> sys_ok (vpiml_register_edge_callback_common t raw task) w.
Proof.
  intros H [[c Hc] Hn]. destruct H as [B S]. destruct Hbuild as [Hopt Hchunk].
  unfold vpiml_register_edge_callback_common, from_complex_handle_raw, sys_ok.
  mrun (ch_get_Some _ _ _ Hc). rewrite (sys_ch_env w raw c (conj B S) Hc). mrun.
  destruct opt_cb_task eqn:Eo.
  - destruct merge_cb eqn:Em.
    + mrun (ch_get_Some _ _ _ Hc).
      assert (default 0 (cb_count t c !! task) = count_of w (raw, t, task)) as -> by (cbn; by rewrite Hc).
      set (n := count_of w (raw, t, task)) in *.
      mrun (ch_mod_Some raw (set_cb_count t (<[task := u32 (n + 1)]> (cb_count t c))) _ _ Hc).
      change (set_w_heap _ w) with (with_count raw t task (u32 (n + 1)) c w). set (w1 := with_count raw t task (u32 (n + 1)) c w).
      assert (sched_inv w1) as S1 by (destruct S; by split).
      assert (is_Some (w_heap w1 !! raw)) as Hl by (cbn; rewrite lookup_insert_eq; by eexists).
      destruct chunk_task eqn:Ec; cbn [orb negb when].
      { assert (counted = false) as Hnc by (unfold counted; by rewrite Ec, andb_false_r).
        pose proof (counts_base _ raw t (<[task := u32 (n + 1)]> (cb_count t c)) c w B Hc (count_inv [] w1) ltac:(congruence)) as B1.
        destruct (push_chunk_sys raw t task [] w1 Hnc B1 S1 Hl) as [H2 K2].
        eexists _, _. split; [done|]. split; [exact H2|exact K2]. }
      assert (counted = true) as Hct by by apply counted_spec.
      pose proof (b_count _ w B Hct) as Hcnt. pose proof (ct_range _ w Hcnt (raw, t, task)) as Hr. fold n in Hr.
      assert (u32 (n + 1) = n + 1) as Hu by (apply wrap_small; unfold in_width; lia).
      pose proof (waited_counts (infos_of w) raw t task c w Hcnt Hc Hn) as Hct1. fold n in Hct1.
      rewrite <- Hu in Hct1 at 2. fold w1 in Hct1. rewrite Hu.
      pose proof (counts_base _ raw t (<[task := u32 (n + 1)]> (cb_count t c)) c w B Hc _ (fun _ => Hct1)) as B1. fold w1 in B1.
      destruct (1 <? n + 1); cbn [negb when].
      * exists tt, w1. split_and!; [done|by split|by intros h cb Hh _].
      * destruct (push_infos_sys raw t task _ w1 B1 S1) as [H2 K2]; [done|done|].
        eexists _, _. split; [done|]. split; [exact H2|exact K2].
    + assert (counted = false) as Hnc by (unfold counted; by rewrite Em). mrun. destruct chunk_task; cbn [when].
      * eexists _, _. split; [done|]. apply (push_chunk_sys raw t task (infos_of w)); [done|done|done|by eexists].
      * eexists _, _. split; [done|]. apply (push_infos_sys raw t task (infos_of w)); [done|done|by eexists|congruence].
  - assert (merge_cb = false /\ chunk_task = false) as [Em Ec].
    { split; [destruct merge_cb; [by specialize (Hopt eq_refl)|done]|destruct chunk_task; [by specialize (Hchunk eq_refl)|done]]. }
    exists tt, (slotted edge_callback_rtn [task] raw t c w). split; [exact (with_slot_eq edge_callback_rtn [task] raw t c w Ha Hc)|].
    split; [|apply slotted_kept]. split; [|by apply slotted_sched].
    apply (slotted_base Ha Hf (infos_of w)); [apply Henv|done|done|by left|].
    unfold counted. rewrite Em. done.
Qed.

(** *** Clocks *)

Lemma clock_new_sys raw c (w : World Sim) : sys_inv w -> valid_handle w raw c -> sys_ok (vpiml_native_clock_new raw) w.
Proof.
  intros H Hv. pose proof (sys_clocks_ok w H) as Hok. pose proof (b_next _ w (proj1 H)) as Hn.
  assert (w_clocks w !! w_next w = None) as Hnone.
  { destruct (w_clocks w !! w_next w) as [cl|] eqn:Ec; [|done].
    pose proof (ci_next w (proj2 Hok) _ _ Ec). lia. }
  destruct (new_spec raw c w Hok Hv Hn Hnone) as (w' & E & Hok' & _).
  exists (w_next w), w'. split; [done|]. apply (clk_sys w); [done| |done].
  revert E. unfold vpiml_native_clock_new, NativeClock_new. mrun (ch_get_Some _ _ _ (proj1 Hv)).
  rewrite (sys_ch_env w raw c H (proj1 Hv)). cbn [assert_]. mrun. unfold alloc. intros [= <-].
  split; auto. cbn. lia.
Qed.

Lemma clock_start_sys p period high sh (w : World Sim) :
  gives_handle (Sim := Sim) cbAfterDelay -> sys_inv w -> is_Some (w_clocks w !! p) ->
  sys_ok (vpiml_native_clock_start p period high sh) w.
Proof.
  intros Hd H [c Hp]. pose proof (sys_clocks_ok w H) as Hok. unfold vpiml_native_clock_start.
  destruct (p =? 0); [by apply sys_ret|].
  pose proof (start_spec Hq Ha Hf Hd p c period high (negb (sh =? 0)) w Hok Hp) as Hs.
  assert (forall r, start p period high (negb (sh =? 0)) w = Ret r w -> sys_ok (start p period high (negb (sh =? 0))) w) as Hsame.
  { intros r E. exists r, w. split_and!; [done|done|reflexivity]. }
  destruct (bool_decide _); [by apply (Hsame EBUSY)|]. destruct (bool_decide _); [by apply (Hsame EEXIST)|].
  destruct (_ || _ || _); [by apply (Hsame EINVAL)|].
  destruct Hs as (h & w' & E & Hok' & _). exists 0, w'. split; [done|].
  apply (clk_sys w); [done| |done]. by apply (start_clk Hq Ha Hf p c period high (negb (sh =? 0)) 0 w w' Hd).
Qed.

Lemma clock_stop_sys p (w : World Sim) : sys_inv w -> is_Some (w_clocks w !! p) -> sys_ok (vpiml_native_clock_stop p) w.
Proof.
  intros H [c Hp]. pose proof (sys_clocks_ok w H) as Hok. unfold vpiml_native_clock_stop.
  destruct (negb (p =? 0)); [|by apply sys_ret]. cbn [when].
  destruct (stop_spec p c w Hok Hp) as (w' & E & Hok' & _). exists tt, w'. split; [done|].
  apply (clk_sys w); [done| |done]. by apply (stop_clk p c).
Qed.

Lemma clock_destroy_sys p c (w : World Sim) :
  sys_inv w -> w_clocks w !! p = Some c -> in_callback c = false -> sys_ok (vpiml_native_clock_destroy p) w.
Proof.
  intros H Hp Hc. pose proof (sys_clocks_ok w H) as Hok. unfold vpiml_native_clock_destroy.
  destruct (negb (p =? 0)); [|by apply sys_ret]. cbn [when]. unfold sys_ok. mrun (clock_get_Some _ _ _ Hp). rewrite Hc.
  destruct (drop_spec p c w Hok Hp) as (w' & E & Hok' & _). exists tt, w'. split; [done|].
  apply (clk_sys w); [done| |done]. by apply (drop_clk p c).
Qed.

(** *** Lookups *)

Lemma new_handle_ok h wd nm : ch_ok (new_handle h wd nm).
Proof. split; [done|by intros [? ?]|done]. Qed.

Lemma boxed_sys nm h wd (w : World Sim) :
  sys_inv w -> hdl_cache (w_env w) !! nm = None -> 0 <= wd <= 1024 ->
  (forall r c, w_heap w !! r = Some c -> vpi_handle c = h -> h = 0) ->
  sys_inv (boxed nm (new_handle h wd nm) w) /\ kept w (boxed nm (new_handle h wd nm) w).
Proof.
  intros [B [S1 S2 S3]] Hnm Hwd Hfresh. set (w' := boxed nm (new_handle h wd nm) w).
  assert (w_heap w !! w_next w = None) as Hnone.
  { destruct (w_heap w !! w_next w) as [c|] eqn:E; [|done]. pose proof (cw_next w (b_cache _ w B) _ _ E). lia. }
  assert (edge_same w w') as Hsame.
  { split; try done.
    - intros r c Hc. exists c. cbn. rewrite lookup_insert_ne; [done|]. congruence.
    - intros r c'. cbn. rewrite lookup_insert_Some. intros [[<- <-]|[_ Hr]]; [right; by intros []|left; by exists c']. }
  split; [|by intros h' cb Hh _]. split; [|by split]. destruct B as [B1 B2 B3 B4 B5 B6 B7 B8 B9 B10].
  split; try done.
  - by apply boxed_queue_wf.
  - intros r c. cbn. rewrite lookup_insert_Some. intros [[<- <-]|[_ Hr]]; [apply new_handle_ok|by apply (B2 r)].
  - by apply boxed_cache_wf.
  - destruct B5 as [C1 C2 C3 C4]. split; try done.
    + intros p c Hp. cbn. specialize (C3 p c Hp). lia.
    + intros p c Hp. destruct (C4 p c Hp) as (ch & [Hch Hne] & Hs). exists ch. split; [|done]. split; [|done].
      cbn. rewrite lookup_insert_ne; [done|]. congruence.
  - by apply (edge_same_inv w).
  - intros Hm. apply (edge_same_counts _ w); [done|done|by apply B7].
  - cbn. lia.
Qed.

Lemma lookup_sys nm (w : World Sim) : sys_inv w -> op_ok w (ApiLookup nm) -> sys_ok (vpiml_handle_by_name_safe nm) w.
Proof.
  intros H [Hwd Hfresh]. pose proof (b_cache _ w (proj1 H)) as Hcw.
  unfold vpiml_handle_by_name_safe, complex_handle_by_name, sys_ok. mrun.
  destruct (hdl_cache (w_env w) !! nm) as [hdl|] eqn:En.
  - destruct (cw_cache w Hcw nm hdl En) as (c & Hc & _). mrun. mrun (ch_get_Some _ _ _ Hc).
    eexists _, w. split_and!; [done|done|reflexivity].
  - mrun. set (h := vpi_handle_by_name_of (w_sim w) nm) in *.
    set (wd := if h =? 0 then 0 else vpi_size_of (w_sim w) h).
    assert (0 <= u64 wd <= 1024) as Hw.
    { unfold wd. destruct (h =? 0); [by vm_compute|done]. }
    erewrite bind_Ret; [|by apply create_handle_spec].
    erewrite bind_Ret; [|apply ch_get_Some; cbn; apply lookup_insert_eq].
    eexists _, _. split; [done|]. apply boxed_sys; [done|done|done|by apply Hfresh].
Qed.

Lemma index_sys raw idx (w : World Sim) : sys_inv w -> op_ok w (ApiIndex raw idx) -> sys_ok (vpiml_handle_by_index raw idx) w.
Proof.
  intros H (c & Hc & Hok). cbv zeta in Hok. unfold vpiml_handle_by_index, sys_ok. mrun (ch_get_Some _ _ _ Hc).
  destruct (hdl_cache (w_env w) !! index_name (name c) idx) as [hdl|] eqn:En.
  - exists hdl, w. split_and!; [done|done|reflexivity].
  - destruct (Hok eq_refl) as (Hh & Hwd & Hfresh). mrun. rewrite (proj2 (Z.eqb_neq _ _) Hh). cbn [negb assert_]. mrun.
    eexists _, _. split; [by apply create_handle_spec|]. apply boxed_sys; [done|done|done|].
    intros r c' Hr He. by destruct (Hfresh r c' Hr).
Qed.

(** *** Reads *)

Lemma same_sys {A} (m : W A) a (w : World Sim) : sys_inv w -> m w = Ret a w -> sys_ok m w.
Proof. intros H E. exists a, w. split_and!; [done|done|reflexivity]. Qed.

Lemma read64_sys raw (w : World Sim) : sys_inv w -> op_ok w (ApiRead64 raw) -> sys_ok (vpiml_get_value64 raw) w.
Proof. intros H (c & Hc & Hl). destruct (get_value64_spec raw c w Hc Hl) as (v & E & _). by apply (same_sys _ v). Qed.

Lemma read_multi_sys raw len (w : World Sim) :
  sys_inv w -> op_ok w (ApiReadMulti raw len) -> sys_ok (vpiml_get_value_multi raw len) w.
Proof.
  intros H (c & Hc & Hl & Hn). destruct (get_value_multi_spec raw len c w Hc Hl Hn) as (l & E & _).
  by apply (same_sys _ (len :: l)).
Qed.

(** Only the handle's own read buffer is written. *)
Lemma read_str_sys format raw (w : World Sim) : sys_inv w -> is_Some (w_heap w !! raw) -> sys_ok (get_value_fmt_str format raw) w.
Proof.
  intros H [c Hc]. unfold get_value_fmt_str, sys_ok. mrun (ch_get_Some _ _ _ Hc).
  set (s := as_bytes _). change (sys_ok (if vcs then normalize_value_str_to_c_ptr raw s true false else
    if iverilog then let! resolve := env_get resolve_x_as_zero in
      if resolve then normalize_value_str_to_c_ptr raw s true true else ret s else ret s) w).
  assert (forall trim repl, sys_ok (normalize_value_str_to_c_ptr raw s trim repl) w) as Hn.
  { intros trim repl. unfold normalize_value_str_to_c_ptr. destruct (normalize_value_str s trim repl) as [buf|]; [|by apply sys_ret].
    apply sys_then, (range_sys raw _ c); [done|done| |done|].
    - split_and!; [done..|]. intros Hw. exact Hw.
    - intros [? ? ?]. by split. }
  destruct vcs; [apply Hn|]. destruct iverilog; [|by apply sys_ret]. unfold sys_ok. mrun.
  destruct (resolve_x_as_zero (w_env w)); [apply Hn|by apply sys_ret].
Qed.

(** *** The top module, and the control of the simulation *)

Lemma vars_sys v (w : World Sim) : sys_inv w -> sys_inv (set_w_vars v w) /\ kept w (set_w_vars v w).
Proof.
  intros [[B1 B2 B3 B4 B5 B6 B7 B8 B9 B10] [S1 S2 S3]]. split; [|by intros h cb Hh _].
  assert (edge_same w (set_w_vars v w)) as Hs.
  { split; try done; [intros r c Hc; by exists c|intros r c Hc; left; by exists c]. }
  split; [|by split]. split; try done.
  - destruct B1. by split.
  - destruct B4. by split.
  - destruct B5. by split.
  - by apply (edge_same_inv w).
  - intros Hm. by apply (edge_same_counts _ w); [..|apply B7].
Qed.

Lemma top_module_sys (w : World Sim) : sys_inv w -> op_ok w ApiTopModule -> sys_ok vpiml_get_top_module w.
Proof.
  intros H [Hi Ht]. unfold vpiml_get_top_module, vpi_free_object, env_var, set_var, sys_ok. mrun.
  rewrite (proj2 (Z.eqb_neq _ _) Hi). cbn [negb assert_]. mrun. rewrite (proj2 (Z.eqb_neq _ _) Ht). cbn [negb assert_]. mrun.
  pose proof (trace_sys Ha Hf (w_trace w ++ [EvFree (vpi_iterate_modules (w_sim w))]) w H) as H1.
  cbn [w_vars set_w_trace]. destruct (w_vars w !! _); mrun; eexists _, _; (split; [done|]).
  - split; [exact H1|by intros h cb Hh _].
  - split; [by apply vars_sys|by intros h cb Hh _].
Qed.

Lemma control_sys cmd (w : World Sim) : sys_inv w -> op_ok w (ApiControl cmd) -> sys_ok (vpi_control (i32 cmd)) w.
Proof.
  intros H _. unfold vpi_control, sys_ok. eexists _, _. split; [done|]. split; [by apply (trace_sys Ha Hf)|]. by intros h cb Hh _.
Qed.

(** *** All exported functions *)

Lemma pool_length {T} (vs : list T) : 0 < Z.of_nat (length vs) < 2 ^ 31 -> pool_ok (mkShuffled vs (Z.of_nat (length vs))).
Proof. by intros. Qed.

Lemma op_sys op (w : World Sim) : sys_inv w -> op_ok w op -> sys_ok (run_op op) w.
Proof.
  intros H Hok.
  destruct op as [op raw|raw vs|raw vs|raw vs|raw|task|task|task|time task|t raw task|t raw task|raw|p period high sh|p|p|p|nm|raw idx|raw|raw|raw len|format raw| |cmd];
    cbn [run_op op_ok] in *.
  - by apply write_sys.
  - destruct Hok as [[c Hc] Hl]. apply sys_then, (range_sys raw _ c); [done|done| |done|].
    + split_and!; [done..|]. intros Hw. exact Hw.
    + intros [? ? _]. by split.
  - destruct Hok as [[c Hc] Hl]. apply sys_then, (range_sys raw _ c); [done|done| |done|].
    + split_and!; [done..|]. intros Hw. exact Hw.
    + intros [? ? _]. by split.
  - destruct Hok as ([c Hc] & Hl & Hn). apply sys_then, (range_sys raw _ c); [done|done| |done|].
    + split_and!; [done..|]. intros Hw. exact Hw.
    + intros [? ? _]. by split.
  - destruct Hok as [c Hc]. apply sys_then, (range_sys raw _ c); [done|done| |done|].
    + split_and!; [done..|]. intros Hw. exact Hw.
    + intros [? ? _]. by split.
  - apply sys_then, register_ok; [done|plain|done].
  - by apply sys_then, await_rw_sys.
  - apply sys_then, register_free_ok; [done|plain|done].
  - apply sys_then, register_ok; [done|plain|done].
  - by apply sys_then, edge_sys.
  - by apply sys_then, always_sys.
  - destruct Hok as [c Hv]. by apply (clock_new_sys raw c).
  - destruct Hok as [Hd Hp]. by apply clock_start_sys.
  - by apply sys_then, clock_stop_sys.
  - destruct Hok as (c & Hp & Hc). by apply sys_then, (clock_destroy_sys p c).
  - destruct Hok as [c Hp]. unfold vpiml_native_clock_is_running, is_running. destruct (p =? 0); [by apply sys_ret|].
    apply (same_sys _ (if bool_decide (is_Some (cb_handle c)) then 1 else 0)); [done|].
    mrun (clock_get_Some _ _ _ Hp). done.
  - by apply lookup_sys.
  - by apply index_sys.
  - destruct Hok as [c Hc]. unfold vpiml_get_value. eapply same_sys; [done|]. mrun (ch_get_Some _ _ _ Hc). done.
  - by apply read64_sys.
  - by apply sys_then, read_multi_sys.
  - by apply sys_then, read_str_sys.
  - by apply sys_then, top_module_sys.
  - by apply sys_then, control_sys.
Qed.

Lemma script_sys (w w' : World Sim) : script w w' -> sys_inv w -> sys_inv w' /\ kept w w'.
Proof.
  induction 1 as [w|s w w' _ IH|op r w w1 w' Hop E _ IH]; intros H.
  - split; [done|reflexivity].
  - destruct IH as [H' K']; [|by split].
    by apply (frame_sys Ha Hf w); [|apply frame_sim|apply queue_wf_sim, H].
  - destruct (op_sys op w H Hop) as (r' & w1' & E' & H1 & K1). rewrite E in E'. injection E' as <- <-.
    destruct (IH H1) as [H2 K2]. split; [done|by transitivity w1].
Qed.

(** A call into Lua ends, normally or with an error, and keeps the invariant. *)
Lemma lua_call_sys c (w : World Sim) : sys_inv w -> exists r w', call_lua c w = Ret r w' /\ sys_inv w' /\ kept w w'.
Proof.
  intros H. unfold call_lua. mrun. set (w1 := set_w_trace _ w).
  destruct (ev_lua Henv c w1) as (r & w' & E & Hs). exists r, w'. split; [done|].
  destruct (script_sys w1 w' Hs) as [H' K']; [by apply (trace_sys Ha Hf)|]. by split.
Qed.

End SystemOps.
