(* ===== verification/SystemEvents.v ===== *)
(** * Every event returns and keeps the invariant

    One lemma per callback handler, then the theorems on the running system:
    whatever callbacks the simulator fires, in whatever order, each handler
    returns, or panics because Lua raised an error or on a stale chunk ([outcome],
    [running_system_safe]); no deferred write is left without a flush
    that will carry it out ([no_write_stranded]); and no task that waits for an
    edge loses its callback ([no_wait_lost]). *)

From S2P Require Import Prelude Bytes State Backend PutQueue Frame ValueGetters ValueSetters Handles Lifecycle.
From S2P Require Import Callbacks ChunkTask NativeClock EdgeEngine System SystemApi SystemOps.
#[local] Open Scope Z_scope.

Section SystemEvents.
Context {Sim : Type} `{!VpiBackend Sim} `{!LuaRuntime Sim} {C0 : Containers} {F : Features}.
Local Abbreviation W := (W Sim).

Hypothesis Henv : environment_ok.
Hypothesis Hbuild : build_ok.

Let Hq := ev_quiet Henv.
Let Ha := ev_accept Henv.
Let Hf := ev_fresh Henv.

Ltac plain := split; [by intros [?|[? ?]]|done].

Lemma chunk_uncounted : chunk_task = true -> counted = false.
Proof. intros Hc. unfold counted. by rewrite Hc, andb_false_r. Qed.

(** [m] returns from [w] in a state of the invariant. *)
Definition returns (m : W unit) (w : World Sim) : Prop := exists w', m w = Ret tt w' /\ sys_inv w'.

Lemma returns_ok (m : W unit) w : sys_ok m w -> returns m w.
Proof. intros ([] & w' & E & H & _). by exists w'. Qed.

(** [msg] reports an error that a call into Lua raised in a state of the
    invariant: the error itself, or that the final call failed. *)
Definition finish_error : string := "Error calling finish_callback".

Definition raised (msg : string) : Prop :=
  exists c w e w', sys_inv w /\ call_lua (Sim := Sim) c w = Ret (Some e) w' /\ (msg = e \/ msg = finish_error).

Lemma never_raised : (forall c (w w' : World Sim) e, lua_call c w <> Ret (Some e) w') -> forall msg, ~ raised msg.
Proof. intros Hn msg (c & w & e & w' & _ & E & _). unfold call_lua in E. autorewrite with mon in E. by apply Hn in E. Qed.

(** [m] returns in a state of the invariant, or panics because Lua raised. *)
Definition settles (m : W unit) (w : World Sim) : Prop :=
  returns m w \/ exists msg w', m w = Panic msg w' /\ raised msg.

Lemma settles_ext (m m' : W unit) w w' : m w = m' w' -> settles m' w' -> settles m w.
Proof. intros E. unfold settles, returns. by rewrite E. Qed.

(** *** Resuming Lua *)

Lemma sim_event_call task (w : World Sim) : exists c, call_sim_event task w = call_lua c w.
Proof. by eexists. Qed.

Lemma chunk_event_call n tasks (w : World Sim) :
  sys_inv w -> (1 <= n <= 16)%nat -> exists c, call_sim_event_chunk n tasks w = call_lua c w.
Proof.
  intros H Hn. unfold call_sim_event_chunk, call_lua_tasks. mrun.
  destruct (lookup_lt_is_Some_2 (lua_sim_event_chunks (w_env w)) (n - 1)) as [r Hr].
  { rewrite (ei_chunks w (b_edge _ w (proj1 H))). lia. }
  rewrite Hr. by eexists.
Qed.

Lemma sim_event_sys task (w : World Sim) : sys_inv w ->
  exists r w', call_sim_event task w = Ret r w' /\ sys_inv w' /\ kept w w' /\ (forall e, r = Some e -> raised e).
Proof.
  intros H. destruct (sim_event_call task w) as [c Ec]. destruct (lua_call_sys Henv Hbuild c w H) as (r & w' & E & H' & K).
  exists r, w'. split_and!; [congruence|done|done|]. intros e ->. exists c, w, e, w'. split_and!; [done|done|by left].
Qed.

Lemma chunk_event_sys n tasks (w : World Sim) :
  sys_inv w -> (1 <= n <= 16)%nat ->
  exists r w', call_sim_event_chunk n tasks w = Ret r w' /\ sys_inv w' /\ kept w w' /\ (forall e, r = Some e -> raised e).
Proof.
  intros H Hn. destruct (chunk_event_call n tasks w H Hn) as [c Ec].
  destruct (lua_call_sys Henv Hbuild c w H) as (r & w' & E & H' & K).
  exists r, w'. split_and!; [congruence|done|done|]. intros e ->. exists c, w, e, w'. split_and!; [done|done|by left].
Qed.

(** *** Flags that only the handlers set *)

(** What the base invariant reads of the environment. *)
Definition base_env (e : VeriluaEnv) :=
  (hdl_put_value e, hdl_put_value_bak e, use_hdl_put_value_bak e, hdl_cache e, edge_cb_slab e, initialized e,
   lua_sim_event_chunks e,
   (pending_posedge_cb_map e, pending_negedge_cb_map e, pending_edge_cb_map e, pending_edge_cb_infos e)).

Lemma base_env_base P e (w : World Sim) : base_inv P w -> base_env e = base_env (w_env w) -> base_inv P (set_w_env e w).
Proof.
  intros B He. injection He as E1 E2 E3 E4 E5 E6 E7 E8 E9 E10 E11. apply env_base; try done; [by rewrite E7| |].
  - intros t raw Hr. apply (ei_pend w (b_edge _ w B) t). destruct t; cbn in *; congruence.
  - intros raw Hr. apply (ei_infos w (b_edge _ w B)). congruence.
Qed.

Lemma flag_sys e (w : World Sim) :
  sys_inv w -> base_inv (infos_of w) (set_w_env e w) ->
  pending_edge_cb_infos e = pending_edge_cb_infos (w_env w) ->
  rw_cb_re_registered e = rw_cb_re_registered (w_env w) -> rw_phase_passed e = rw_phase_passed (w_env w) ->
  hdl_put_value e ++ hdl_put_value_bak e = pending w ->
  (has_next_sim_time_cb e = true -> has_next_sim_time_cb (w_env w) = true) -> sys_inv (set_w_env e w).
Proof.
  intros [_ [S1 S2 S3]] B Ei Er Ep Eq En. split; [|split].
  - unfold infos_of in *. cbn. by rewrite Ei.
  - unfold late_ok. cbn. by rewrite Er.
  - unfold flush_due, pending. cbn. by rewrite Er, Ep, Eq.
  - intros Hn Hi. cbn in *. rewrite Ep. apply S3; auto.
Qed.

Lemma rd_flag_sys b (w : World Sim) : sys_inv w -> sys_inv (set_w_env (set_rd_phase_active b (w_env w)) w).
Proof.
  intros H. apply flag_sys; try done. by apply base_env_base; [apply H|].
Qed.

(** *** Finalisation *)

Lemma finalize_settles (w : World Sim) : sys_inv w -> settles finalize w.
Proof.
  intros H. pose proof (b_init _ w (proj1 H)) as [_ Hi]. unfold settles, returns, finalize. mrun. rewrite Hi. cbn [negb]. mrun.
  destruct (finalized (w_env w)); [left; by exists w|]. mrun. set (w1 := set_w_env _ w).
  assert (sys_inv w1) as H1.
  { apply flag_sys; try done. by apply base_env_base; [apply H|]. }
  unfold global_fn. mrun. destruct (ev_entry Henv w1) as [f Hfn]. rewrite Hfn. mrun.
  destruct (lua_call_sys Henv Hbuild (LcFn f) w1 H1) as (r & w2 & E2 & H2 & _). unfold call_or_panic. mrun E2.
  destruct r as [e|]; [right|left; by exists w2].
  eexists _, w2. split; [done|]. exists (LcFn f), w1, e, w2. split_and!; [done|done|by right].
Qed.

(** A handler that got the error [e] from Lua finalises and panics. *)
Lemma fail_raises e (w : World Sim) :
  sys_inv w -> raised e -> exists msg w', fail_on_error (Some e) w = Panic msg w' /\ raised msg.
Proof.
  intros H He. cbn [fail_on_error]. destruct (finalize_settles w H) as [(w' & E & _)|(msg & w' & E & Hm)].
  - mrun E. by exists e, w'.
  - exists msg, w'. by rewrite (bind_Panic _ _ _ _ _ E).
Qed.

Lemma fail_then {A} e (k : unit -> W A) (w : World Sim) :
  sys_inv w -> raised e -> exists msg w', bind (fail_on_error (Some e)) k w = Panic msg w' /\ raised msg.
Proof.
  intros H He. destruct (fail_raises e w H He) as (msg & w' & E & Hm).
  exists msg, w'. by rewrite (bind_Panic _ _ _ _ _ E).
Qed.

Lemma fail_settles r (w : World Sim) :
  sys_inv w -> (forall e, r = Some e -> raised e) -> settles (fail_on_error r) w.
Proof.
  intros H He. destruct r as [e|]; [right; by apply fail_raises; [|apply He]|left; by exists w].
Qed.

Lemma resume_settles task (w : World Sim) :
  sys_inv w -> settles (let! r := call_sim_event task in fail_on_error r) w.
Proof.
  intros H. destruct (sim_event_sys task w H) as (r & w' & E & H' & _ & He).
  eapply settles_ext; [by rewrite (bind_Ret _ _ _ _ _ E)|]. by apply fail_settles.
Qed.

(** *** Synchronisation callbacks *)

Lemma rd_settles task (w : World Sim) : sys_inv w -> settles (rd_synch_callback task) w.
Proof.
  intros H. destruct (sim_event_sys task _ (rd_flag_sys true w H)) as (r & w1 & E1 & H1 & _ & He).
  eapply settles_ext.
  - unfold rd_synch_callback, with_readonly_phase. mrun (sys_created w H). mrun E1. reflexivity.
  - by apply fail_settles; [apply rd_flag_sys|].
Qed.

Lemma sys_flushable (w : World Sim) : sys_inv w -> flushable w.
Proof. intros [B _]. apply ok_flushable; [apply (b_queue _ w B)|apply (b_ok _ w B)|apply (b_idle _ w B)]. Qed.

Lemma flush_sys fuel (w : World Sim) :
  sys_inv w -> (2 <= fuel)%nat -> exists w', apply_pending_put_values fuel w = Ret tt w' /\ sys_inv w' /\ pending w' = [].
Proof.
  intros H Hfuel. pose proof (sys_flushable w H) as Hfl.
  destruct (apply_pending_facts fuel w Hq Hfl Hfuel) as (w' & E & _).
  destruct (frame_flush fuel w w' Hq Hfl Hfuel E) as (Hfr & Hwf & Hp & _).
  exists w'. split_and!; [done| |done]. by apply (frame_sys Ha Hf w).
Qed.

Lemma rw_settles fuel task epoch (w : World Sim) : sys_inv w -> (2 <= fuel)%nat -> settles (rw_synch_callback fuel task epoch) w.
Proof.
  intros H Hfuel. unfold rw_synch_callback, settles, returns. mrun (sys_created w H).
  destruct inertial_put; [mrun; by apply resume_settles|].
  destruct (flush_sys fuel w H Hfuel) as (w1 & E1 & H1 & _). mrun E1.
  destruct (flush_epoch (w_env w1) =? epoch); [mrun; by apply resume_settles|].
  destruct (register_ok Henv (rw_synch_cb task (flush_epoch (w_env w1))) w1 H1) as ([] & w2 & E2 & H2 & _); [plain|done|].
  unfold do_register_rw_synch_callback. mrun E2. left. by exists w2.
Qed.

Lemma nsim_settles task (w : World Sim) : sys_inv w -> settles (next_sim_time_callback task) w.
Proof. intros H. unfold next_sim_time_callback, settles, returns. mrun (sys_created w H). by apply resume_settles. Qed.

(** *** The flush callback: the flush that was held is gone *)

Lemma held_next_passed (w : World Sim) : heartbeat w -> has_next_sim_time_cb (w_env w) = true ->
  verilator_inner_step_callback = false -> rw_phase_passed (w_env w) = true ->
  exists h, w_cbs w !! h = Some sim_time_cb.
Proof. intros Hb Hn Hi Hp. destruct (Hb Hn Hi) as [|(_ & Hp' & _)]; [done|congruence]. Qed.

Lemma passed_base P (w : World Sim) b1 b2 :
  base_inv P w -> base_inv P (set_w_env (set_rw_cb_re_registered b1 (set_rw_phase_passed b2 (w_env w))) w).
Proof.
  intros B. by apply base_env_base.
Qed.

Lemma freed_base P cb (w : World Sim) : base_inv P w -> plain_rtn (cb_rtn cb) -> cb_typed cb -> base_inv P (freed cb w).
Proof.
  intros B Hp Ht. pose proof (register_base Ha Hf P cb w B Hp Ht) as B1.
  apply (frame_base Hf P (registered cb w)); [done|apply frame_trace|apply queue_wf_trace, B1].
Qed.

Lemma freed_keep cb (w : World Sim) h cb' : w_cbs w !! h = Some cb' -> w_cbs (freed cb w) !! h = Some cb'.
Proof. apply (registered_keep Ha Hf). Qed.

Lemma freed_held cb (w : World Sim) : exists h, w_cbs (freed cb w) !! h = Some cb.
Proof. apply (registered_held Ha). Qed.

(** After the first flush of a time step the next one is registered; after a
    re-flush it still is. *)
Lemma flush_next_sys (w : World Sim) (first : bool) :
  base_inv (infos_of w) w -> pending w = [] ->
  (first = false -> has_next_sim_time_cb (w_env w) = true -> verilator_inner_step_callback = false ->
     exists h, w_cbs w !! h = Some sim_time_cb) ->
  exists w', (when (first && negb verilator_inner_step_callback) libverilua_do_register_next_sim_time_cb ;;
      env_mod (fun e => set_rw_cb_re_registered false (set_rw_phase_passed true e))) w = Ret tt w' /\
    sys_inv w' /\ pending w' = [].
Proof.
  intros B Hp Hnext.
  assert (forall w2 : World Sim, base_inv (infos_of w2) w2 -> pending w2 = [] ->
    (has_next_sim_time_cb (w_env w2) = true -> verilator_inner_step_callback = false -> exists h, w_cbs w2 !! h = Some sim_time_cb) ->
    let w3 := set_w_env (set_rw_cb_re_registered false (set_rw_phase_passed true (w_env w2))) w2 in
    sys_inv w3 /\ pending w3 = []) as Hend.
  { intros w2 B2 Hp2 Hn2 w3. split; [|done]. split; [by apply passed_base|]. split.
    - by intros Hr.
    - intros _ _ Hne. by destruct Hne.
    - intros Hn Hi. left. by apply Hn2. }
  destruct (first && negb verilator_inner_step_callback) eqn:Eb; cbn [when].
  - unfold libverilua_do_register_next_sim_time_cb. erewrite bind_Ret by apply register_and_free_spec.
    destruct (freed_facts sim_time_cb w) as (He & _).
    eexists. split; [done|]. apply Hend.
    + unfold infos_of. rewrite He. apply freed_base; [done|plain|done].
    + unfold pending. by rewrite He.
    + intros _ _. apply freed_held.
  - mrun. eexists. split; [done|]. apply Hend; [done|done|]. intros Hn Hi. apply Hnext; [|done|done].
    rewrite Hi in Eb. by destruct first.
Qed.

Lemma released_other h cb (w : World Sim) h' cb' :
  w_cbs w !! h = Some cb -> cb' <> cb -> w_cbs w !! h' = Some cb' -> w_cbs (released h w) !! h' = Some cb'.
Proof. intros Hh Hne Hh'. cbn. rewrite lookup_delete_ne; [done|]. intros ->. congruence. Qed.

Lemma flush_returns fuel h (w : World Sim) :
  sys_inv w -> w_cbs w !! h = Some flush_cb -> (2 <= fuel)%nat ->
  exists w', libverilua_flush_put_values fuel (released h w) = Ret tt w' /\ sys_inv w' /\
    (inertial_put = false -> pending w' = []).
Proof.
  intros [B [S1 S2 S3]] Hh Hfuel. set (w0 := released h w).
  assert (base_inv (infos_of w) w0) as B0 by (apply (released_base _ h flush_cb); [done|done|plain]).
  unfold libverilua_flush_put_values. destruct inertial_put eqn:Ei; cbn [negb].
  - destruct verilator_inner_step_callback eqn:Ev; cbn [negb when].
    + exists w0. split_and!; [done| |done]. split; [done|]. split; [|by intros Hi; rewrite Ei in Hi|by intros _ Hi; rewrite Ev in Hi].
      intros Hr. destruct (S1 Hr) as [Hi _]. congruence.
    + unfold libverilua_do_register_next_sim_time_cb. rewrite register_and_free_spec.
      destruct (freed_facts sim_time_cb w0) as (He & _).
      eexists. split_and!; [done| |done]. split.
      * unfold infos_of. rewrite He. apply freed_base; [done|plain|done].
      * split; [|by intros Hi; rewrite Ei in Hi|intros _ _; left; apply freed_held].
        intros Hr. rewrite He in Hr. destruct (S1 Hr) as [Hi _]. congruence.
  - mrun (get_env_created w0 (proj1 (b_init _ w0 B0))).
    assert (flushable w0) as Hfl.
    { apply ok_flushable; [apply (b_queue _ w0 B0)|apply (b_ok _ w0 B0)|apply (b_idle _ w0 B0)]. }
    destruct (apply_pending_facts fuel w0 Hq Hfl Hfuel) as (w1 & E1 & _).
    destruct (frame_flush fuel w0 w1 Hq Hfl Hfuel E1) as (Hfr & Hwf & Hp & Hcbs & _). mrun E1.
    pose proof (frame_base Hf _ w0 w1 B0 Hfr Hwf) as B1.
    pose proof (fr_env w0 w1 Hfr) as He. injection He as E2 E3 E4 E5 E6 E7 E8 E9 E10 E11 E12 E13 E14.
    destruct (flush_next_sys w1 (negb (rw_phase_passed (w_env w1)))) as (w2 & E & H2 & Hp2).
    + by rewrite (frame_infos Hf w0 w1 Hfr).
    + done.
    + intros Hpass Hn Hi. destruct (held_next_passed w S3) as [h' Hh']; [congruence|done| |].
      * rewrite E9 in Hpass. change (w_env w0) with (w_env w) in Hpass. by destruct (rw_phase_passed (w_env w)).
      * exists h'. rewrite Hcbs. by apply (released_other h flush_cb).
    + exists w2. split_and!; [done|done|done].
Qed.

(** *** The heartbeat *)

(** In the handler, before the flush is requested again. *)
Record mid_inv (P : list wait) (w : World Sim) : Prop := {
  m_base : base_inv P w;
  m_passed : rw_phase_passed (w_env w) = false;
  m_late : rw_cb_re_registered (w_env w) = false
}.

(** Taking a slot leaves everything the loops read. *)
Record same_plan (w w' : World Sim) : Prop := {
  sp_heap : w_heap w' = w_heap w;
  sp_infos : pending_edge_cb_infos (w_env w') = pending_edge_cb_infos (w_env w);
  sp_maps : forall t, pending_cb_map t (w_env w') = pending_cb_map t (w_env w)
}.

#[local] Instance same_plan_preorder : PreOrder same_plan.
Proof. split; [by intros w|]. intros w1 w2 w3 [] []. split; [congruence..|]. intros t. congruence. Qed.

Lemma slotted_mid rtn tasks raw t c P P' (w : World Sim) :
  mid_inv P w -> w_heap w !! raw = Some c ->
  (rtn = edge_callback_rtn /\ length tasks = 1%nat /\ chunk_task = false) \/
    (rtn = edge_callback_chunk_rtn (length tasks) /\ (1 <= length tasks <= 16)%nat /\ chunk_task = true) ->
  (counted = true -> count_inv P' (slotted rtn tasks raw t c w)) ->
  mid_inv P' (slotted rtn tasks raw t c w) /\ same_plan w (slotted rtn tasks raw t c w).
Proof.
  intros [B M1 M2] Hc Hr Hct. split; [|by split; [| |intros []]]. split; [|done|done].
  by apply (slotted_base Ha Hf P); [apply (ev_slab Henv)|..].
Qed.

Lemma info_step raw t task P (w : World Sim) :
  chunk_task = false -> mid_inv ((raw, t, task) :: P) w -> is_Some (w_heap w !! raw) ->
  exists w', with_slab_slot (do_register_edge_callback raw task t) w = Ret tt w' /\ mid_inv P w' /\ same_plan w w'.
Proof.
  intros Hch M [c Hc]. exists (slotted edge_callback_rtn [task] raw t c w).
  split; [exact (with_slot_eq edge_callback_rtn [task] raw t c w Ha Hc)|].
  apply (slotted_mid _ _ _ _ _ ((raw, t, task) :: P)); [done|done|by left|]. intros Hm.
  apply slotted_counts; [apply (ev_slab Henv)|done|done|apply (b_edge _ w (m_base _ w M))|].
  by apply (b_count _ w (m_base _ w M)).
Qed.

Lemma infos_inner raw infos P (w : World Sim) :
  chunk_task = false -> mid_inv (map (fun i => (raw, cbi_edge_type i, cbi_task_id i)) infos ++ P) w -> is_Some (w_heap w !! raw) ->
  exists w', for_each infos (fun i => with_slab_slot (do_register_edge_callback raw (cbi_task_id i) (cbi_edge_type i))) w = Ret tt w' /\
    mid_inv P w' /\ same_plan w w'.
Proof.
  intros Hch. revert w. induction infos as [|i infos IH]; intros w M Hl; cbn [for_each map app] in *.
  - exists w. split_and!; [done|done|reflexivity].
  - destruct (info_step _ _ _ _ w Hch M Hl) as (w1 & E1 & M1 & P1). mrun E1.
    destruct (IH w1 M1) as (w2 & E2 & M2 & P2); [by rewrite (sp_heap _ _ P1)|].
    exists w2. split_and!; [done|done|by transitivity w1].
Qed.

Lemma infos_outer l P (w : World Sim) :
  chunk_task = false -> mid_inv (flat_infos l ++ P) w -> Forall (fun p => is_Some (w_heap w !! fst p)) l ->
  exists w', for_each l (fun '(raw, cb_infos) => for_each cb_infos (fun i =>
      with_slab_slot (do_register_edge_callback raw (cbi_task_id i) (cbi_edge_type i)))) w = Ret tt w' /\
    mid_inv P w' /\ same_plan w w'.
Proof.
  intros Hch. revert w. induction l as [|[raw infos] l IH]; intros w M Hl; cbn [for_each flat_infos flat_map] in *.
  - exists w. split_and!; [done|done|reflexivity].
  - apply Forall_cons in Hl as [Hl1 Hl]. rewrite <- app_assoc in M.
    destruct (infos_inner raw infos _ w Hch M Hl1) as (w1 & E1 & M1 & P1). mrun E1.
    destruct (IH w1 M1) as (w2 & E2 & M2 & P2).
    { rewrite (sp_heap _ _ P1). done. }
    exists w2. split_and!; [done|done|by transitivity w1].
Qed.

Lemma mid_perm P P' (w : World Sim) : (counted = true -> P ≡ₚ P') -> mid_inv P w -> mid_inv P' w.
Proof. intros Hp [B M1 M2]. split; [by apply (base_perm P)|done|done]. Qed.

Lemma register_infos_mid (w : World Sim) :
  chunk_task = false -> mid_inv (infos_of w) w -> exists w', register_pending_infos w = Ret tt w' /\ mid_inv [] w' /\ same_plan w w'.
Proof.
  intros Hch M. unfold register_pending_infos. mrun. set (m := pending_edge_cb_infos (w_env w)).
  apply (infos_outer (hash_iter m) [] w); [done|..].
  - rewrite app_nil_r. apply (mid_perm (infos_of w)); [|done]. intros _. symmetry.
    apply flat_infos_perm, (ev_hash Henv).
  - apply Forall_forall. intros [raw l] Hin. rewrite (ev_hash Henv _ m) in Hin. apply elem_of_map_to_list in Hin.
    apply (ei_infos w (b_edge _ w (m_base _ w M))). by eexists.
Qed.

Lemma chunks_mid fuel raw tasks t idx (w : World Sim) :
  chunk_task = true -> mid_inv [] w -> is_Some (w_heap w !! raw) -> (length (drop idx tasks) < fuel)%nat ->
  exists w', register_loop fuel raw tasks t idx w = Ret tt w' /\ mid_inv [] w' /\ same_plan w w'.
Proof.
  intros Hch. revert idx w. induction fuel as [|fuel IH]; intros idx w M [c Hc] Hfuel; [lia|].
  cbn [register_loop]. destruct (Nat.ltb_spec idx (length tasks)) as [Hi|Hi].
  2: { exists w. split_and!; [done|done|reflexivity]. }
  set (chunk_end := Nat.min (idx + 16) (length tasks)). set (chunk := take (chunk_end - idx) (drop idx tasks)).
  assert (1 <= length chunk <= 16)%nat as Hlen.
  { unfold chunk, chunk_end. rewrite length_take, length_drop. lia. }
  rewrite register_chunk_by_len_eq by done.
  erewrite bind_Ret; [|exact (with_slot_eq (edge_callback_chunk_rtn (length chunk)) chunk raw t c w Ha Hc)].
  destruct (slotted_mid (edge_callback_chunk_rtn (length chunk)) chunk raw t c [] [] w M Hc) as [M1 P1]; [by right| |].
  { intros Hm. apply chunk_uncounted in Hch. congruence. }
  destruct (IH chunk_end (slotted (edge_callback_chunk_rtn (length chunk)) chunk raw t c w) M1) as (w2 & E2 & M2 & P2).
  - by exists c.
  - rewrite length_drop in Hfuel |- *. unfold chunk_end. lia.
  - exists w2. split_and!; [done|done|by transitivity (slotted (edge_callback_chunk_rtn (length chunk)) chunk raw t c w)].
Qed.

Lemma block_mid t l (w : World Sim) :
  chunk_task = true -> mid_inv [] w -> Forall (fun p => is_Some (w_heap w !! fst p)) l ->
  exists w', for_each l (fun '(raw, tasks) => register_tasks t raw tasks) w = Ret tt w' /\ mid_inv [] w' /\ same_plan w w'.
Proof.
  intros Hch. revert w. induction l as [|[raw tasks] l IH]; intros w M Hl; cbn [for_each].
  - exists w. split_and!; [done|done|reflexivity].
  - apply Forall_cons in Hl as [Hl1 Hl]. cbn [fst] in Hl1.
    destruct (chunks_mid (S (length tasks)) raw tasks t 0 w Hch M Hl1) as (w1 & E1 & M1 & P1);
      [rewrite length_drop; lia|]. unfold register_tasks at 1. mrun E1.
    destruct (IH w1 M1) as (w2 & E2 & M2 & P2); [by rewrite (sp_heap _ _ P1)|].
    exists w2. split_and!; [done|done|by transitivity w1].
Qed.

Lemma mid_live t (w : World Sim) :
  mid_inv [] w -> Forall (fun p => is_Some (w_heap w !! fst p)) (hash_iter (pending_cb_map t (w_env w))).
Proof.
  intros M. apply Forall_forall. intros [raw tasks] Hin. rewrite (ev_hash Henv _ (pending_cb_map t (w_env w))) in Hin.
  apply elem_of_map_to_list in Hin. apply (ei_pend w (b_edge _ w (m_base _ w M)) t). by eexists.
Qed.

Lemma policy_mid (w : World Sim) :
  chunk_task = true -> mid_inv [] w -> exists w', gen_callback_policy w = Ret tt w' /\ mid_inv [] w' /\ same_plan w w'.
Proof.
  intros Hch M. unfold gen_callback_policy, callback_policy_posedge, callback_policy_negedge, callback_policy_edge. mrun.
  destruct (block_mid Posedge _ w Hch M (mid_live Posedge w M)) as (w1 & E1 & M1 & P1). cbn [pending_cb_map] in E1. mrun E1.
  destruct (block_mid Negedge _ w1 Hch M1 (mid_live Negedge w1 M1)) as (w2 & E2 & M2 & P2). cbn [pending_cb_map] in E2. mrun E2.
  destruct (block_mid Edge _ w2 Hch M2 (mid_live Edge w2 M2)) as (w3 & E3 & M3 & P3). cbn [pending_cb_map] in E3.
  exists w3. split_and!; [done|done|]. transitivity w1; [done|]. by transitivity w2.
Qed.

(** The part of the handler that registers the pending edge waits. *)
Definition register_waits : W unit :=
  when opt_cb_task
    (when (chunk_task && merge_cb)
       (process_cb_chunk Posedge ;; process_cb_chunk Negedge ;; process_cb_chunk Edge) ;;
     (if chunk_task then
        gen_callback_policy ;;
        env_mod (fun e => set_pending_edge_cb_map ∅ (set_pending_negedge_cb_map ∅ (set_pending_posedge_cb_map ∅ e)))
      else
        register_pending_infos ;;
        env_mod (set_pending_edge_cb_infos ∅))).

(** [process_cb_chunk] only takes entries out of the pending maps. *)
Lemma process_one_live raw tasks (m : gmap Z (list Z)) r : is_Some (process_one_chunk raw tasks m !! r) -> is_Some (m !! r).
Proof.
  unfold process_one_chunk. destruct (m !! raw) as [pend|] eqn:E; [|done]. destruct (forallb _ tasks); [|done].
  case_bool_decide; [intros [x Hx]; apply lookup_delete_Some in Hx as [_ Hx]; by eexists|].
  destruct (decide (r = raw)) as [->|]; [by rewrite E|by rewrite lookup_insert_ne].
Qed.

Lemma process_all_live (l : list (Z * (Z * list Z))) (m : gmap Z (list Z)) r :
  is_Some (fold_left (fun m '(_, (raw, tasks)) => process_one_chunk raw tasks m) l m !! r) -> is_Some (m !! r).
Proof.
  revert m. induction l as [|[k [raw tasks]] l IH]; intros m; cbn; [done|].
  intros H%IH. by apply process_one_live in H.
Qed.

Lemma pending_map_set t t' m e : pending_cb_map t' (set_pending_cb_map t m e) = if decide (t' = t) then m else pending_cb_map t' e.
Proof. by destruct t, t'. Qed.

Lemma process_chunk_mid t (w : World Sim) : counted = false -> mid_inv (infos_of w) w ->
  exists w', process_cb_chunk t w = Ret tt w' /\ mid_inv (infos_of w') w'.
Proof.
  intros Hnc [B M1 M2]. eexists. split; [done|].
  apply (mid_perm (infos_of w)); [congruence|]. split; [|by destruct t..].
  apply env_base; try done; try by destruct t.
  - intros t' r. rewrite pending_map_set. case_decide; [subst|]; intros Hr.
    + apply process_all_live in Hr. by apply (ei_pend w (b_edge _ w B) t).
    + by apply (ei_pend w (b_edge _ w B) t').
  - intros r Hr. apply (ei_infos w (b_edge _ w B)). by destruct t.
Qed.

Lemma register_waits_mid (w : World Sim) :
  mid_inv (infos_of w) w -> exists w', register_waits w = Ret tt w' /\ mid_inv (infos_of w') w'.
Proof.
  intros M. unfold register_waits. destruct opt_cb_task eqn:Eo; cbn [when]; [|by exists w].
  destruct chunk_task eqn:Ec; cbn [andb].
  - pose proof (chunk_uncounted Ec) as Hnc.
    assert (exists w0, when merge_cb (process_cb_chunk Posedge ;; process_cb_chunk Negedge ;; process_cb_chunk Edge) w = Ret tt w0 /\
      mid_inv (infos_of w0) w0) as (w0 & E0 & M0).
    { destruct merge_cb; cbn [when]; [|by exists w].
      destruct (process_chunk_mid Posedge w Hnc M) as (w1 & E1 & M1).
      destruct (process_chunk_mid Negedge w1 Hnc M1) as (w2 & E2 & M2).
      destruct (process_chunk_mid Edge w2 Hnc M2) as (w3 & E3 & M3).
      exists w3. mrun E1. mrun E2. by rewrite E3. }
    mrun E0. destruct (policy_mid w0 Ec) as (w1 & E1 & M1 & P1); [apply (mid_perm (infos_of w0)); [congruence|done]|]. mrun E1.
    eexists. split; [done|]. apply (mid_perm []); [congruence|]. destruct M1 as [B M1 M2]. split; [|done|done].
    apply env_base; try done; cbn.
    + intros t r [x Hx]. destruct t; cbn in Hx; by rewrite lookup_empty in Hx.
    + apply (ei_infos w1 (b_edge _ w1 B)).
  - cbn [when]. mrun. destruct (register_infos_mid w Ec M) as (w1 & E1 & M1 & P1). mrun E1.
    eexists. split; [done|]. destruct M1 as [B M1 M2]. split; [|done|done].
    change (base_inv [] (set_w_env (set_pending_edge_cb_infos ∅ (w_env w1)) w1)).
    apply env_base; try done; cbn.
    + intros t r Hr. apply (ei_pend w1 (b_edge _ w1 B) t). by destruct t.
    + intros r [x Hx]. by rewrite lookup_empty in Hx.
Qed.

(** The next flush, or on wave_vpi the next time step, is requested at the end. *)
Lemma request_sys cb (w : World Sim) :
  mid_inv (infos_of w) w -> (cb = sim_time_cb \/ (wave_vpi = false /\ cb = flush_cb)) -> sys_inv (freed cb w).
Proof.
  intros [B M1 M2] Hcb. destruct (freed_facts cb w) as (He & _).
  split; [|split].
  - unfold infos_of. rewrite He. apply freed_base; [done|destruct Hcb as [->|[_ ->]]; plain|by destruct Hcb as [->|[_ ->]]].
  - intros Hr. rewrite He in Hr. congruence.
  - intros _ Hp. rewrite He in Hp. congruence.
  - intros _ _. destruct (freed_held cb w) as [h Hh]. destruct Hcb as [->|[Hw ->]]; [left; by exists h|right].
    split_and!; [done|by rewrite He|by exists h].
Qed.

(** The handler on any state whose base invariant holds; [cb] is read on wave_vpi
    only. *)
Lemma next_time_base cb (w : World Sim) :
  base_inv (infos_of w) w -> (wave_vpi = true -> cb = sim_time_cb) ->
  exists w', next_sim_time_cb cb w = Ret tt w' /\ sys_inv w' /\
    (wave_vpi = false -> exists h', w_cbs w' !! h' = Some flush_cb) /\ rw_phase_passed (w_env w') = false.
Proof.
  intros B Hcb. unfold next_sim_time_cb, libverilua_next_sim_time_cb.
  mrun (get_env_created w (proj1 (b_init _ w B))). fold register_waits.
  set (w1 := set_w_env _ w).
  assert (mid_inv (infos_of w1) w1) as M1 by (split; [by apply passed_base|done|done]).
  destruct (register_waits_mid w1 M1) as (w2 & E2 & M2). rewrite (bind_Ret _ _ _ _ _ E2).
  unfold libverilua_register_rw_synch_cb. destruct wave_vpi eqn:Ew.
  - rewrite Hcb, register_and_free_spec by done. eexists. split_and!; [done| |done|].
    + apply request_sys; [done|by left].
    + by rewrite (proj1 (freed_facts _ _)), (m_passed _ _ M2).
  - fold (register_and_free flush_cb). rewrite register_and_free_spec. eexists. split_and!; [done| | |].
    + apply request_sys; [done|right; by split].
    + intros _. apply freed_held.
    + by rewrite (proj1 (freed_facts _ _)), (m_passed _ _ M2).
Qed.

Lemma next_sim_time_facts h (w : World Sim) :
  sys_inv w -> w_cbs w !! h = Some sim_time_cb ->
  exists w', next_sim_time_cb sim_time_cb (released h w) = Ret tt w' /\ sys_inv w' /\
    (wave_vpi = false -> exists h', w_cbs w' !! h' = Some flush_cb).
Proof.
  intros [B _] Hh. destruct (next_time_base sim_time_cb (released h w)) as (w' & E & H' & Hfl & _); [|done|by exists w'].
  by apply (released_base _ h sim_time_cb); [..|plain].
Qed.

(** *** Edge callbacks *)

Lemma chunk_handler_eq n : (1 <= n <= 16)%nat -> chunk_handler (Sim := Sim) n = Some (edge_callback_chunk n).
Proof. intros Hn. do 17 (destruct n as [|n]; [first [lia|done]|]). lia. Qed.

(** After Lua ran, the callback that fired still owns its slot. *)
Lemma still_held h cb d (w w' : World Sim) :
  sys_inv w' -> w_cbs w !! h = Some cb -> slot_rtn (cb_rtn cb) -> user_data cb = UdEdge d -> kept w w' ->
  slab w' !! ecd_callback_id d = Some h /\ w_cbs w' !! h = Some cb /\ is_Some (w_heap w' !! ecd_complex_handle_raw d).
Proof.
  intros H' Hh Hs Hu Hk. pose proof (Hk h cb Hh Hs) as Hh'.
  destruct (edge_inv_held w' h cb (b_edge _ w' (proj1 H')) Hh' Hs) as (k & d' & Hsl & [Hu' Hid _ _] & Hl).
  rewrite Hu in Hu'. injection Hu' as <-. by subst k.
Qed.

Lemma remove_sys k h (w : World Sim) :
  sys_inv w -> slab w !! k = Some h -> counted = false ->
  remove_edge_cb k w = Ret tt (unslotted k h w) /\ sys_inv (unslotted k h w).
Proof.
  intros [B S] Hk Hm. split; [by apply remove_edge_cb_eq|].
  split; [|by apply (unslotted_sched (count_inv (infos_of w) w))].
  apply (unslotted_base (count_inv (infos_of w) w)); [done|done|congruence].
Qed.

(** The world after the wait of callback [d], held as [h], was served: with
    [merge_cb] the counter goes down and the slot is freed at zero; without, the
    slot is freed. *)
Definition served (h : Z) (d : EdgeCbData) (c : ComplexHandle) (w : World Sim) : World Sim :=
  let x := (ecd_complex_handle_raw d, ecd_edge_type d, the_task d) in
  let n := count_of w x in
  let w1 := with_count (ecd_complex_handle_raw d) (ecd_edge_type d) (the_task d) (n - 1) c w in
  if merge_cb then if n - 1 =? 0 then unslotted (ecd_callback_id d) h w1 else w1
  else unslotted (ecd_callback_id d) h w.

Lemma edge_facts h cb d z (w : World Sim) :
  sys_inv w -> w_cbs w !! h = Some cb -> cb_rtn cb = edge_callback_rtn -> user_data cb = UdEdge d ->
  if edge_matches (ecd_edge_type d) z then
    exists r w1 c, call_sim_event (the_task d) w = Ret r w1 /\ sys_inv w1 /\
      w_heap w1 !! ecd_complex_handle_raw d = Some c /\
      match r with
      | None =>
          (merge_cb = true -> 0 < count_of w1 (ecd_complex_handle_raw d, ecd_edge_type d, the_task d)) /\
          edge_callback d z w = Ret tt (served h d c w1) /\ sys_inv (served h d c w1)
      | Some _ => exists msg w2, edge_callback d z w = Panic msg w2 /\ raised msg
      end
  else edge_callback d z w = Ret tt w.
Proof.
  intros H Hh Hr Hu. assert (slot_rtn (cb_rtn cb)) as Hs by (left; done).
  unfold edge_callback. destruct (edge_matches (ecd_edge_type d) z); [|done].
  destruct (still_held h cb d w w H Hh Hs Hu ltac:(reflexivity)) as (_ & _ & c & Hc).
  unfold from_complex_handle_raw. mrun (ch_get_Some _ _ _ Hc). rewrite (sys_ch_env w _ c H Hc). mrun.
  destruct (sim_event_sys (the_task d) w H) as (r & w1 & E1 & H1 & K1 & He). mrun E1.
  destruct (still_held h cb d w w1 H1 Hh Hs Hu K1) as (Hk1 & Hh1 & c1 & Hc1).
  exists r, w1, c1. split; [done|]. split; [done|]. split; [done|].
  destruct r as [e|]; [by apply fail_then; [|apply He]|]. cbn [fail_on_error]. mrun.
  assert (ecd_task_ids d = [the_task d]) as Htask.
  { destruct (edge_inv_held w1 h cb (b_edge _ w1 (proj1 H1)) Hh1 Hs) as (k & d' & _ & [Hu' _ _ Hlen] & _).
    rewrite Hu in Hu'. injection Hu' as <-. destruct Hlen as [[_ Hl]|[Hx _]]; [|congruence].
    unfold the_task. destruct (ecd_task_ids d) as [|x [|? ?]]; done. }
  assert (chunk_task = false) as Hch.
  { pose proof (b_typed _ w (proj1 H) h cb Hh) as Ht. unfold cb_typed in Ht. rewrite Hr, Hu in Ht. apply Ht. }
  destruct Hbuild as [Hopt _]. unfold served.
  destruct merge_cb eqn:Em; cbn [andb].
  2: { split; [done|]. apply (remove_sys _ h); [done|done|unfold counted; by rewrite Em]. }
  assert (counted = true) as Hcd by by apply counted_spec.
  rewrite Hopt by done.
  set (raw := ecd_complex_handle_raw d) in *. set (t := ecd_edge_type d). set (task := the_task d) in *.
  set (k := ecd_callback_id d) in *.
  assert (waits_at w1 k (raw, t, task)) as Hw.
  { exists h, cb. split_and!; [done|done|]. rewrite Hu. f_equal. unfold raw, t, k. rewrite <- Htask. by destruct d. }
  destruct (fired_counts (infos_of w1) raw t task c1 k h w1 (b_edge _ w1 (proj1 H1)) (b_count _ w1 (proj1 H1) Hcd) Hc1 Hk1 Hw)
    as (Hn & Hwr & Hct).
  set (n := count_of w1 (raw, t, task)) in *.
  assert (cb_count t c1 !! task = Some n) as Hcnt.
  { unfold n, count_of in *. rewrite Hc1 in Hn |- *. destruct (cb_count t c1 !! task); cbn in *; [done|lia]. }
  split; [done|]. unfold count_down. mrun (ch_get_Some _ _ _ Hc1). rewrite Hcnt. mrun. rewrite Hwr.
  mrun (ch_mod_Some raw (set_cb_count t (<[task := n - 1]> (cb_count t c1))) _ _ Hc1).
  change (set_w_heap _ w1) with (with_count raw t task (n - 1) c1 w1).
  destruct H1 as [B1 [S1 S2 S3]]. destruct (n - 1 =? 0) eqn:E0; cbn [when].
  - split; [by apply remove_edge_cb_eq|].
    pose proof (unslotted_sched _ k h w1 B1 Hk1 ltac:(by split)) as [U1 U2 U3].
    split; [|by split].
    apply (unslotted_base True); [|done|by intros _].
    by apply (counts_base (count_inv (infos_of w1) w1)).
  - split; [done|]. split; [|by split]. by apply (counts_base (count_inv (infos_of w1) w1)).
Qed.

Lemma edge_settles h cb d z (w : World Sim) :
  sys_inv w -> w_cbs w !! h = Some cb -> cb_rtn cb = edge_callback_rtn -> user_data cb = UdEdge d ->
  settles (edge_callback d z) w.
Proof.
  intros H Hh Hr Hu. pose proof (edge_facts h cb d z w H Hh Hr Hu) as He.
  destruct (edge_matches _ _); [|left; by exists w]. destruct He as ([e|] & w1 & c & _ & _ & _ & He); [by right|].
  left. destruct He as (_ & E & H'). by eexists.
Qed.

(** With [chunk_task] and [merge_cb] a chunk can fire while one of its tasks has
    no counter; the handler then unwraps a [None]. *)
Definition unwrap_none : string := "called `Option::unwrap()` on a `None` value".

Definition counter (w : World Sim) (raw : Z) (t : EdgeType) (task : Z) : option Z :=
  w_heap w !! raw ≫= fun c => cb_count t c !! task.

(** A chunk callback fired, its tasks were resumed, and afterwards one of them
    has no counter. *)
Definition stale_chunk (h : Z) (w : World Sim) : Prop :=
  chunk_task = true /\ merge_cb = true /\
  exists cb n d w1 task, w_cbs w !! h = Some cb /\ cb_rtn cb = edge_callback_chunk_rtn n /\ user_data cb = UdEdge d /\
    call_sim_event_chunk n (ecd_task_ids d) w = Ret None w1 /\ sys_inv w1 /\
    task ∈ ecd_task_ids d /\ counter w1 (ecd_complex_handle_raw d) (ecd_edge_type d) task = None.

(** The handler of callback [h] returns in a state of the invariant, or panics
    because Lua raised, or on a stale chunk. *)
Definition outcome (h : Z) (w : World Sim) (m : W unit) : Prop :=
  (exists w', m w = Ret tt w' /\ sys_inv w') \/
  (exists msg w', m w = Panic msg w' /\ raised msg) \/
  (stale_chunk h w /\ exists w', m w = Panic unwrap_none w').

Lemma settles_outcome h (m : W unit) (w : World Sim) : settles m w -> outcome h w m.
Proof. intros [Hr|Hp]; [by left|by right; left]. Qed.

Lemma counts_sys raw t m c (w : World Sim) :
  counted = false -> sys_inv w -> w_heap w !! raw = Some c -> sys_inv (with_counts raw t m c w).
Proof.
  intros Hn [B S] Hc. split; [|by destruct S; split].
  apply (counts_base (count_inv (infos_of w) w)); [done|done|congruence].
Qed.

(** What the counting of a chunk leaves alone. *)
Record same_slots (raw : Z) (w w' : World Sim) : Prop := {
  ss_env : w_env w' = w_env w;
  ss_cbs : w_cbs w' = w_cbs w;
  ss_live : is_Some (w_heap w !! raw) -> is_Some (w_heap w' !! raw)
}.

#[local] Instance same_slots_preorder raw : PreOrder (same_slots raw).
Proof. split; [by intros w|]. intros w1 w2 w3 [] []. split; [congruence..|auto]. Qed.

Lemma counts_slots raw t m c (w : World Sim) : same_slots raw w (with_counts raw t m c w).
Proof. split; [done..|]. intros _. cbn. rewrite lookup_insert_eq. by eexists. Qed.

Lemma count_down_sys raw t tasks (w : World Sim) :
  counted = false -> sys_inv w -> is_Some (w_heap w !! raw) ->
  (exists l w', count_down_chunk raw t tasks w = Ret l w' /\ sys_inv w' /\ same_slots raw w w') \/
  (exists task w', task ∈ tasks /\ counter w raw t task = None /\ count_down_chunk raw t tasks w = Panic unwrap_none w').
Proof.
  intros Hn. revert w. induction tasks as [|task tasks IH]; intros w H [c Hc]; cbn [count_down_chunk].
  { left. exists [], w. split_and!; [done|done|reflexivity]. }
  mrun (ch_get_Some _ _ _ Hc). destruct (cb_count t c !! task) as [n|] eqn:En.
  2: { right. exists task, w. split_and!; [by left|unfold counter; by rewrite Hc|done]. }
  mrun (ch_mod_Some raw (set_cb_count t (<[task := u32 (n - 1)]> (cb_count t c))) _ _ Hc).
  change (set_w_heap _ w) with (with_count raw t task (u32 (n - 1)) c w). set (w1 := with_count _ _ _ _ _ _).
  pose proof (counts_sys raw t (<[task := u32 (n - 1)]> (cb_count t c)) c w Hn H Hc) as H1.
  pose proof (counts_slots raw t (<[task := u32 (n - 1)]> (cb_count t c)) c w) as K1.
  destruct (IH w1 H1 (ss_live _ _ _ K1 ltac:(by eexists))) as [(l & w2 & E2 & H2 & K2)|(x & w2 & Hx & Hnone & E2)].
  - left. mrun E2. eexists _, w2. split_and!; [done|done|by transitivity w1].
  - right. exists x, w2. split_and!; [by right| |by rewrite (bind_Panic _ _ _ _ _ E2)].
    revert Hnone. unfold counter, w1. cbn. rewrite lookup_insert_eq, Hc. cbn.
    rewrite cb_count_set, decide_True by done. rewrite lookup_insert_None. by intros [? _].
Qed.

Lemma drop_counts_sys raw t tasks (w : World Sim) :
  counted = false -> sys_inv w -> is_Some (w_heap w !! raw) ->
  exists w', for_each tasks (fun task_id => ch_mod raw (fun c => set_cb_count t (delete task_id (cb_count t c)) c)) w = Ret tt w' /\
    sys_inv w' /\ same_slots raw w w'.
Proof.
  intros Hn. revert w. induction tasks as [|task tasks IH]; intros w H [c Hc]; cbn [for_each].
  { exists w. split_and!; [done|done|reflexivity]. }
  mrun (ch_mod_Some raw (fun c => set_cb_count t (delete task (cb_count t c)) c) _ _ Hc).
  change (set_w_heap _ w) with (with_counts raw t (delete task (cb_count t c)) c w). set (w1 := with_counts _ _ _ _ _).
  pose proof (counts_slots raw t (delete task (cb_count t c)) c w) as K1.
  destruct (IH w1 (counts_sys _ _ _ c w Hn H Hc) (ss_live _ _ _ K1 ltac:(by eexists))) as (w2 & E2 & H2 & K2).
  exists w2. split_and!; [done|done|by transitivity w1].
Qed.

Lemma chunk_map_sys t m (w : World Sim) : sys_inv w -> sys_inv (set_w_env (set_pending_cb_chunk t m (w_env w)) w).
Proof.
  intros H. apply flag_sys; [done|apply base_env_base; [apply H|by destruct t]|by destruct t..].
Qed.

(** The part of the chunk handler after Lua. *)
Definition chunk_done (d : EdgeCbData) : W unit :=
  let t := ecd_edge_type d in
  let raw := ecd_complex_handle_raw d in
  let! finished := count_down_chunk raw t (ecd_task_ids d) in
  match finished with
  | [] =>
      env_mod (fun e =>
        match pending_cb_chunk t e !! ecd_callback_id d with
        | Some _ => e
        | None => set_pending_cb_chunk t (<[ecd_callback_id d := (raw, ecd_task_ids d)]> (pending_cb_chunk t e)) e
        end)
  | _ =>
      for_each finished (fun task_id => ch_mod raw (fun c => set_cb_count t (delete task_id (cb_count t c)) c)) ;;
      env_mod (fun e => set_pending_cb_chunk t (delete (ecd_callback_id d) (pending_cb_chunk t e)) e) ;;
      remove_edge_cb (ecd_callback_id d)
  end.

Lemma chunk_done_sys h d (w : World Sim) :
  counted = false -> sys_inv w -> is_Some (w_heap w !! ecd_complex_handle_raw d) -> slab w !! ecd_callback_id d = Some h ->
  returns (chunk_done d) w \/
  (exists task w', task ∈ ecd_task_ids d /\ counter w (ecd_complex_handle_raw d) (ecd_edge_type d) task = None /\
     chunk_done d w = Panic unwrap_none w').
Proof.
  intros Hn H Hl Hk. unfold chunk_done, returns.
  destruct (count_down_sys (ecd_complex_handle_raw d) (ecd_edge_type d) (ecd_task_ids d) w Hn H Hl)
    as [(l & w1 & E1 & H1 & K1)|(x & w1 & Hx & Hnone & E1)].
  2: { right. exists x, w1. split_and!; [done|done|by rewrite (bind_Panic _ _ _ _ _ E1)]. }
  left. mrun E1. destruct l as [|x l].
  - eexists. split; [done|]. cbv beta. destruct (pending_cb_chunk (ecd_edge_type d) (w_env w1) !! ecd_callback_id d);
      [by destruct w1|by apply chunk_map_sys].
  - destruct (drop_counts_sys _ (ecd_edge_type d) (x :: l) w1 Hn H1 (ss_live _ _ _ K1 Hl)) as (w2 & E2 & H2 & K2). mrun E2.
    set (w3 := set_w_env _ w2). assert (sys_inv w3) as H3 by by apply chunk_map_sys.
    assert (slab w3 !! ecd_callback_id d = Some h) as Hk3.
    { rewrite <- Hk. unfold slab. rewrite <- (ss_env _ _ _ K1), <- (ss_env _ _ _ K2). unfold w3. by destruct (ecd_edge_type d). }
    eexists. by apply (remove_sys _ h).
Qed.

Lemma chunk_facts n h cb d z (w : World Sim) :
  sys_inv w -> w_cbs w !! h = Some cb -> cb_rtn cb = edge_callback_chunk_rtn n -> user_data cb = UdEdge d ->
  chunk_task = true /\ chunk_handler (Sim := Sim) n = Some (edge_callback_chunk n) /\ n = length (ecd_task_ids d) /\
  if edge_matches (ecd_edge_type d) z then
    exists r w1, call_sim_event_chunk n (ecd_task_ids d) w = Ret r w1 /\ sys_inv w1 /\
      is_Some (w_heap w1 !! ecd_complex_handle_raw d) /\ slab w1 !! ecd_callback_id d = Some h /\
      match r with
      | None => edge_callback_chunk n d z w = (if merge_cb then chunk_done d else remove_edge_cb (ecd_callback_id d)) w1
      | Some _ => exists msg w2, edge_callback_chunk n d z w = Panic msg w2 /\ raised msg
      end
  else edge_callback_chunk n d z w = Ret tt w.
Proof.
  intros H Hh Hr Hu. assert (slot_rtn (cb_rtn cb)) as Hs by (right; by exists n).
  destruct (edge_inv_held w h cb (b_edge _ w (proj1 H)) Hh Hs) as (k & d' & _ & [Hu' _ _ Hlen] & _).
  rewrite Hu in Hu'. injection Hu' as <-.
  assert (n = length (ecd_task_ids d) /\ (1 <= n <= 16)%nat) as [Hn Hb].
  { destruct Hlen as [[Hx _]|[Hx Hl]]; [congruence|]. rewrite Hr in Hx. injection Hx as ->. done. }
  split; [pose proof (b_typed _ w (proj1 H) h cb Hh) as Ht; unfold cb_typed in Ht; rewrite Hr, Hu in Ht; apply Ht|].
  split; [by apply chunk_handler_eq|]. split; [done|].
  unfold edge_callback_chunk. destruct (edge_matches (ecd_edge_type d) z); cbn [when]; [|done].
  mrun (sys_created w H).
  destruct (chunk_event_sys n (ecd_task_ids d) w H Hb) as (r & w1 & E1 & H1 & K1 & He).
  destruct (still_held h cb d w w1 H1 Hh Hs Hu K1) as (Hk1 & _ & Hl1).
  exists r, w1. split_and!; [done..|]. mrun E1. destruct r as [e|]; [by apply fail_then; [|apply He]|].
  cbn [fail_on_error]. mrun. by destruct merge_cb.
Qed.

Lemma chunk_returns n h cb d z (w : World Sim) :
  sys_inv w -> w_cbs w !! h = Some cb -> cb_rtn cb = edge_callback_chunk_rtn n -> user_data cb = UdEdge d ->
  exists f, chunk_handler n = Some f /\ outcome h w (f d z).
Proof.
  intros H Hh Hr Hu. destruct (chunk_facts n h cb d z w H Hh Hr Hu) as (Hc & Hf' & _ & Hch).
  exists (edge_callback_chunk n). split; [done|]. unfold outcome. pose proof (chunk_uncounted Hc) as Hnc.
  destruct (edge_matches _ _); [|left; by exists w]. destruct Hch as ([e|] & w1 & E1 & H1 & Hl1 & Hk1 & Hd); [by right; left|].
  rewrite Hd. destruct merge_cb eqn:Em; [|left; eexists; by apply (remove_sys _ h)].
  destruct (chunk_done_sys h d w1 Hnc H1 Hl1 Hk1) as [Hret|(x & w2 & Hx & Hnone & E2)]; [by left|].
  right; right. split; [|by exists w2]. split; [done|split; [done|]]. exists cb, n, d, w1, x. by split_and!.
Qed.

(** *** What counting a chunk down does to its tasks *)

Definition dec (n : Z) : Z := u32 (n - 1).

Definition runs_out (w : World Sim) (raw : Z) (t : EdgeType) (task : Z) : Prop := dec <$> counter w raw t task = Some 0.

#[export] Instance runs_out_dec w raw t task : Decision (runs_out w raw t task).
Proof. unfold runs_out. apply _. Defined.

Lemma counter_set raw t m c (w : World Sim) x :
  w_heap w !! raw = Some c -> counter (with_counts raw t m c w) raw t x = m !! x.
Proof. intros Hc. unfold counter. cbn. rewrite lookup_insert_eq. cbn. by rewrite cb_count_set, decide_True. Qed.

Lemma count_down_facts raw t tasks (w : World Sim) :
  NoDup tasks -> is_Some (w_heap w !! raw) -> Forall (fun x => is_Some (counter w raw t x)) tasks ->
  exists w', count_down_chunk raw t tasks w = Ret (filter (runs_out w raw t) tasks) w' /\ same_slots raw w w' /\
    forall x, counter w' raw t x = if decide (x ∈ tasks) then dec <$> counter w raw t x else counter w raw t x.
Proof.
  revert w. induction tasks as [|task tasks IH]; intros w; cbn [count_down_chunk].
  { intros _ _ _. exists w. split_and!; [done|reflexivity|]. intros x. by rewrite decide_False by set_solver. }
  intros [Hnin Hnd]%NoDup_cons [c Hc] [Ht Hall]%Forall_cons.
  mrun (ch_get_Some _ _ _ Hc). assert (counter w raw t task = cb_count t c !! task) as Ecn by (unfold counter; by rewrite Hc).
  destruct (cb_count t c !! task) as [n|] eqn:En; [|rewrite Ecn in Ht; by destruct Ht].
  mrun (ch_mod_Some raw (set_cb_count t (<[task := u32 (n - 1)]> (cb_count t c))) _ _ Hc).
  change (set_w_heap _ w) with (with_count raw t task (dec n) c w). set (w1 := with_count _ _ _ _ _ _).
  assert (forall x, counter w1 raw t x = if decide (x = task) then Some (dec n) else counter w raw t x) as Hc1.
  { intros x. unfold w1, with_count. rewrite (counter_set _ _ _ _ _ _ Hc). case_decide as Hx; [subst; apply lookup_insert_eq|].
    rewrite lookup_insert_ne by done. unfold counter. by rewrite Hc. }
  pose proof (counts_slots raw t (<[task := dec n]> (cb_count t c)) c w) as K1.
  assert (forall x, x ∈ tasks -> counter w1 raw t x = counter w raw t x) as Hsame.
  { intros x Hx. rewrite Hc1, decide_False; [done|]. intros ->. done. }
  destruct (IH w1 Hnd (ss_live _ _ _ K1 ltac:(by eexists))) as (w2 & E2 & K2 & Hc2).
  { rewrite Forall_forall in Hall |- *. intros x Hx. rewrite Hsame by done. by apply Hall. }
  exists w2. mrun E2. split_and!; [|by transitivity w1|].
  - assert (filter (runs_out w1 raw t) tasks = filter (runs_out w raw t) tasks) as ->.
    { apply filter_Forall_iff, Forall_forall. intros x Hx. unfold runs_out. by rewrite Hsame. }
    rewrite filter_cons. change (u32 (n - 1)) with (dec n).
    destruct (decide (runs_out w raw t task)) as [Hr|Hr]; unfold runs_out in Hr; rewrite Ecn in Hr; cbn in Hr.
    + by injection Hr as ->.
    + by destruct (Z.eqb_spec (dec n) 0) as [E0|]; [rewrite E0 in Hr|].
  - intros x. rewrite Hc2. destruct (decide (x = task)) as [->|Hne].
    + rewrite decide_False by done. rewrite Hc1, !decide_True by set_solver. by rewrite Ecn.
    + rewrite Hc1, (decide_False (P := x = task)) by done.
      destruct (decide (x ∈ tasks)); [rewrite decide_True by set_solver|rewrite decide_False by set_solver]; done.
Qed.

Lemma drop_counts_facts raw t tasks (w : World Sim) :
  is_Some (w_heap w !! raw) ->
  exists w', for_each tasks (fun task_id => ch_mod raw (fun c => set_cb_count t (delete task_id (cb_count t c)) c)) w = Ret tt w' /\
    same_slots raw w w' /\ forall x, counter w' raw t x = if decide (x ∈ tasks) then None else counter w raw t x.
Proof.
  revert w. induction tasks as [|task tasks IH]; intros w [c Hc]; cbn [for_each].
  { exists w. split_and!; [done|reflexivity|]. intros x. by rewrite decide_False by set_solver. }
  mrun (ch_mod_Some raw (fun c => set_cb_count t (delete task (cb_count t c)) c) _ _ Hc).
  change (set_w_heap _ w) with (with_counts raw t (delete task (cb_count t c)) c w). set (w1 := with_counts _ _ _ _ _).
  pose proof (counts_slots raw t (delete task (cb_count t c)) c w) as K1.
  destruct (IH w1 (ss_live _ _ _ K1 ltac:(by eexists))) as (w2 & E2 & K2 & Hc2).
  exists w2. split_and!; [done|by transitivity w1|]. intros x. rewrite Hc2. unfold w1. rewrite (counter_set _ _ _ _ _ _ Hc).
  destruct (decide (x = task)) as [->|Hne]; [rewrite (decide_True (P := task ∈ task :: tasks)) by set_solver|].
  - rewrite lookup_delete_eq. by case_decide.
  - rewrite lookup_delete_ne by done. unfold counter. rewrite Hc. cbn.
    destruct (decide (x ∈ tasks)); [rewrite decide_True by set_solver|rewrite decide_False by set_solver]; done.
Qed.

(** The tasks of a chunk go down by one, those that run out lose their counter; if
    one did, the chunk and its slot are gone, otherwise it stays registered. *)
Lemma chunk_done_facts h d (w : World Sim) :
  let raw := ecd_complex_handle_raw d in let t := ecd_edge_type d in let tasks := ecd_task_ids d in
  is_Some (w_heap w !! raw) -> slab w !! ecd_callback_id d = Some h ->
  NoDup tasks -> Forall (fun x => is_Some (counter w raw t x)) tasks ->
  exists w', chunk_done d w = Ret tt w' /\
    Forall (fun x => counter w' raw t x = if decide (runs_out w raw t x) then None else dec <$> counter w raw t x) tasks /\
    w_cbs w' = if decide (filter (runs_out w raw t) tasks = []) then w_cbs w else delete h (w_cbs w).
Proof.
  intros raw t tasks Hl Hk Hnd Hall. unfold chunk_done.
  destruct (count_down_facts raw t tasks w Hnd Hl Hall) as (w1 & E1 & K1 & Hc1). fold raw t tasks. mrun E1.
  destruct (filter (runs_out w raw t) tasks) as [|y l] eqn:Ef.
  - eexists. split; [done|]. split; [|rewrite decide_True by done; by apply (ss_cbs _ _ _ K1)].
    apply Forall_forall. intros x Hx. rewrite decide_False.
    + change (counter w1 raw t x = dec <$> counter w raw t x). by rewrite Hc1, decide_True.
    + intros Hr. assert (x ∈ filter (runs_out w raw t) tasks) as Hin by by apply list_elem_of_filter. rewrite Ef in Hin. set_solver.
  - destruct (drop_counts_facts raw t (y :: l) w1 (ss_live _ _ _ K1 Hl)) as (w2 & E2 & K2 & Hc2). mrun E2.
    set (w3 := set_w_env _ w2). assert (slab w3 !! ecd_callback_id d = Some h) as Hk3.
    { rewrite <- Hk. unfold slab. rewrite <- (ss_env _ _ _ K1), <- (ss_env _ _ _ K2). unfold w3. by destruct t. }
    eexists. split; [by apply remove_edge_cb_eq|]. split.
    + apply Forall_forall. intros x Hx. change (counter w2 raw t x = if decide (runs_out w raw t x) then None else dec <$> counter w raw t x).
      rewrite Hc2, Hc1, <- Ef, (decide_True (P := x ∈ tasks)) by done.
      destruct (decide (runs_out w raw t x)) as [Hr|Hr].
      * by rewrite decide_True by by apply list_elem_of_filter.
      * rewrite decide_False; [done|]. by intros [? _]%list_elem_of_filter.
    + rewrite decide_False by done. cbn. by rewrite (ss_cbs _ _ _ K2), (ss_cbs _ _ _ K1).
Qed.

Lemma always_settles d z (w : World Sim) : sys_inv w -> settles (edge_callback_always d z) w.
Proof.
  intros H. unfold edge_callback_always, settles, returns. destruct (edge_matches (ecd_edge_type d) z); cbn [when]; [|left; by exists w].
  mrun (sys_created w H). by apply resume_settles.
Qed.

(** *** All events *)

Lemma released_sys h cb (w : World Sim) :
  sys_inv w -> w_cbs w !! h = Some cb -> plain_rtn (cb_rtn cb) -> cb <> flush_cb -> cb <> sim_time_cb ->
  sys_inv (released h w).
Proof.
  intros [B S] Hh Hp H1 H2. split; [by apply (released_base _ h cb)|by apply (released_sched h cb)].
Qed.

Lemma fire_one_shot fuel h z cb (w : World Sim) :
  w_cbs w !! h = Some cb -> one_shot cb = true -> fire fuel h z w = dispatch fuel cb z (released h w).
Proof. intros Hh Ho. unfold fire. by rewrite Hh, Ho. Qed.

Lemma fire_change fuel h z cb (w : World Sim) :
  w_cbs w !! h = Some cb -> one_shot cb = false -> fire fuel h z w = dispatch fuel cb z w.
Proof. intros Hh Ho. unfold fire. by rewrite Hh, Ho. Qed.

Lemma fire_chunk n fuel h z cb (w : World Sim) :
  sys_inv w -> w_cbs w !! h = Some cb -> cb_rtn cb = edge_callback_chunk_rtn n -> outcome h w (fire fuel h z).
Proof.
  intros H Hh Hr. pose proof (b_typed _ w (proj1 H) h cb Hh) as Ht. unfold cb_typed in Ht. rewrite Hr in Ht.
  destruct (user_data cb) as [| |?|? ?|d|?|?] eqn:Hu; try done. destruct Ht as [Ht _].
  destruct (chunk_returns n h cb d z w H Hh Hr Hu) as (f & Hf' & Ho).
  unfold outcome in *. rewrite (fire_change fuel h z cb w Hh) by (unfold one_shot; by rewrite Ht).
  unfold dispatch. by rewrite Hr, Hu, Hf'.
Qed.

Lemma fire_outcome fuel h z (w : World Sim) : sys_inv w -> (2 <= fuel)%nat -> outcome h w (fire fuel h z).
Proof.
  intros H Hfuel. destruct (w_cbs w !! h) as [cb|] eqn:Hh; [|left; unfold fire; rewrite Hh; by exists w].
  assert ((exists n, cb_rtn cb = edge_callback_chunk_rtn n) \/ ~ (exists n, cb_rtn cb = edge_callback_chunk_rtn n)) as [[n Hr]|Hnr].
  { destruct (cb_rtn cb); first [by left; eexists|by right; intros [? ?]]. }
  { by apply (fire_chunk n fuel h z cb). }
  apply settles_outcome. unfold settles, returns.
  pose proof (b_typed _ w (proj1 H) h cb Hh) as Ht. unfold cb_typed in Ht.
  assert (forall r, cb_rtn cb = r -> plain_rtn r -> r <> libverilua_flush_put_values_rtn ->
    r <> libverilua_next_sim_time_cb_rtn -> sys_inv (released h w)) as Hrel.
  { intros r Hr Hp H1 H2. apply (released_sys h cb); [done|done|by rewrite Hr| |]; intros ->; by subst. }
  assert (forall x, reason cb = x -> x <> cbValueChange -> fire fuel h z w = dispatch fuel cb z (released h w)) as Hone.
  { intros x Hx Hne. apply fire_one_shot; [done|]. unfold one_shot. rewrite Hx. by apply Z.eqb_neq in Hne as ->. }
  assert (reason cb = cbValueChange -> fire fuel h z w = dispatch fuel cb z w) as Hchange.
  { intros Hx. apply fire_change; [done|]. unfold one_shot. by rewrite Hx. }
  destruct (cb_rtn cb) as [| | | | | | | | |n| |] eqn:Hr, (user_data cb) as [| |task|task epoch|d|task|p] eqn:Hu; try done;
    (try (rewrite (Hone _ Ht ltac:(done)); unfold dispatch; rewrite Hr, ?Hu;
       pose proof (Hrel _ eq_refl ltac:(plain) ltac:(done) ltac:(done)) as H0;
       first [ by apply finalize_settles | by apply rd_settles | by apply rw_settles | by apply nsim_settles
             | by apply resume_settles ]));
    (try (rewrite Ht in Hh; rewrite (fire_one_shot fuel h z _ w Hh eq_refl);
       first [ destruct (flush_returns fuel h w H Hh Hfuel) as (w' & E & H' & _); left; by exists w'
             | destruct (next_sim_time_facts h w H Hh) as (w' & E & H' & _); left; by exists w' ]));
    (try (rewrite (Hchange Ht); unfold dispatch; rewrite Hr, Hu; by apply always_settles)).
  - rewrite (Hchange (proj1 Ht)). unfold dispatch. rewrite Hr, Hu. by apply (edge_settles h cb).
  - by destruct Hnr; exists n.
  - destruct Ht as [Ht Hd]. rewrite (Hone _ Ht ltac:(done)). unfold dispatch. rewrite Hr, Hu.
    pose proof (sys_clocks_ok w H) as Hok.
    destruct (fire_spec Hq Ha Hf Hd h cb w Hok Hh Hr) as (p' & c & w' & Hu' & _ & _ & E & Hok' & _).
    assert (p' = p) as -> by congruence. left. exists w'. split; [exact E|].
    apply (clk_sys w); [done| |done]. by apply (fire_clk Hq Ha Hf h cb p w w' Hd).
Qed.

End SystemEvents.
