(* ===== verification/VerilatorHelper.v ===== *)
(** * The Verilator main program's entry points

    [libverilua/src/verilator_helper.rs]: the trace functions the C++ main
    program installs, the time-step hook of builds with
    [verilator_inner_step_callback], and [verilator_has_pending_put_values], which
    keeps the ReadWrite loop of [verilator_main.cpp] going while deferred writes
    wait for their flush. *)

From S2P Require Import Prelude Bytes State Backend PutQueue Frame ValueGetters ValueSetters Handles Lifecycle.
From S2P Require Import Callbacks ChunkTask NativeClock EdgeEngine System SystemApi SystemOps SystemEvents.
#[local] Open Scope Z_scope.

(** ** Trace functions

    The three thread-local function pointers, and the calls made through them: the
    function and whether it got the trace path. *)

Record VerilatorFuncs := mkFuncs {
  SIMULATION_INITIALIZE_TRACE : option Z;
  SIMULATION_ENABLE_TRACE : option Z;
  SIMULATION_DISABLE_TRACE : option Z;
  trace_calls : list (Z * option string)
}.

Definition verilua_alloc_verilator_func (func : option Z) (name : list byte) : M VerilatorFuncs unit :=
  match from_utf8 name with
  | None => panic "called `Result::unwrap()` on an `Err` value: Utf8Error"
  | Some name => modify (fun s =>
      if bool_decide (name = "simulation_initializeTrace"%string) then
        mkFuncs func (SIMULATION_ENABLE_TRACE s) (SIMULATION_DISABLE_TRACE s) (trace_calls s)
      else if bool_decide (name = "simulation_enableTrace"%string) then
        mkFuncs (SIMULATION_INITIALIZE_TRACE s) func (SIMULATION_DISABLE_TRACE s) (trace_calls s)
      else if bool_decide (name = "simulation_disableTrace"%string) then
        mkFuncs (SIMULATION_INITIALIZE_TRACE s) (SIMULATION_ENABLE_TRACE s) func (trace_calls s)
      else s)
  end.

Definition call_trace_func (get : VerilatorFuncs -> option Z) (arg : option string) : M VerilatorFuncs unit :=
  let! f := gets get in
  match f with
  | None => panic "called `Option::unwrap()` on a `None` value"
  | Some f => modify (fun s => mkFuncs (SIMULATION_INITIALIZE_TRACE s) (SIMULATION_ENABLE_TRACE s)
                                 (SIMULATION_DISABLE_TRACE s) (trace_calls s ++ [(f, arg)]))
  end.

Definition verilator_simulation_initializeTrace (trace_file_path : string) : M VerilatorFuncs unit :=
  call_trace_func SIMULATION_INITIALIZE_TRACE (Some trace_file_path).
Definition verilator_simulation_enableTrace : M VerilatorFuncs unit := call_trace_func SIMULATION_ENABLE_TRACE None.
Definition verilator_simulation_disableTrace : M VerilatorFuncs unit := call_trace_func SIMULATION_DISABLE_TRACE None.

(** ** The loop of the main program *)

Section VerilatorHelper.
Context {Sim : Type} `{!VpiBackend Sim} `{!LuaRuntime Sim} {C0 : Containers} {F : Features}.
Local Abbreviation W := (W Sim).

(** The handler gets a null [cb_data], which only wave_vpi would read. *)
Definition verilator_next_sim_time_callback : W unit :=
  if verilator_inner_step_callback then
    if wave_vpi then undefined "vpi_register_cb of a null cb_data" else next_sim_time_cb sim_time_cb
  else panic "`feature = verilator_inner_step_callback` is not enabled".

Definition verilator_has_pending_put_values : W bool :=
  if inertial_put then ret false
  else get_verilua_env_no_init ;;
       let! e := gets w_env in
       ret (rw_phase_passed e && negb (match hdl_put_value e with [] => true | _ => false end)).

(** The hook keeps the invariant of the running system and requests the flush of
    the new time step, whose ReadWrite phase has not passed. *)
Lemma inner_step_sys (w : World Sim) :
  environment_ok -> build_ok -> verilator_inner_step_callback = true -> wave_vpi = false -> sys_inv w ->
  exists w', verilator_next_sim_time_callback w = Ret tt w' /\ sys_inv w' /\
    (exists h, w_cbs w' !! h = Some flush_cb) /\ rw_phase_passed (w_env w') = false.
Proof.
  intros He Hb Hi Hw [B _]. unfold verilator_next_sim_time_callback. rewrite Hi, Hw.
  destruct (next_time_base He sim_time_cb w B ltac:(done)) as (w' & E & H' & Hfl & Hp).
  exists w'. split_and!; [done|done|by apply Hfl|done].
Qed.

(** What the query reads, where the environment exists. *)
Lemma has_pending_eq (w : World Sim) : w_created w = true ->
  verilator_has_pending_put_values w =
  Ret (negb inertial_put && rw_phase_passed (w_env w) && bool_decide (hdl_put_value (w_env w) <> [])) w.
Proof.
  intros Hc. unfold verilator_has_pending_put_values, get_verilua_env_no_init. destruct inertial_put; [done|].
  mrun. rewrite Hc. cbn [negb when]. mrun. by destruct (hdl_put_value (w_env w)).
Qed.
End VerilatorHelper.
