(* ===== verification/Running.v ===== *)
(** * Theorems on the running system

    An [event] is anything that happens to the library after initialisation: the
    simulator fires a callback it holds, the embedding calls a step function, the
    Verilator main program calls its time-step hook, or Lua code runs.  The
    theorems hold along every sequence of events, in every build Cargo accepts.
    Builds that combine [chunk_task] with [merge_cb] have one more outcome: a chunk
    callback panics when a task it resumed has no wait counter ([stale_chunk]); the
    last section shows that this can happen. *)

From S2P Require Import Prelude Bytes State Backend PutQueue Frame ValueGetters ValueSetters Handles Lifecycle.
From S2P Require Import Callbacks ChunkTask NativeClock EdgeEngine System SystemApi SystemOps SystemEvents VerilatorHelper.
#[local] Open Scope Z_scope.

Section Running.
Context {Sim : Type} `{!VpiBackend Sim} `{!LuaRuntime Sim} {C0 : Containers} {F : Features}.

Inductive event (fuel : nat) : World Sim -> World Sim -> Prop :=
| ev_fire h z w w' : fire fuel h z w = Ret tt w' -> event fuel w w'
| ev_step s w w' : verilua_step fuel s w = Ret tt w' -> event fuel w w'
| ev_inner w w' : verilator_next_sim_time_callback w = Ret tt w' -> event fuel w w'
| ev_script w w' : script w w' -> event fuel w w'.

Lemma step_sys fuel s (w w' : World Sim) :
  environment_ok -> build_ok -> (2 <= fuel)%nat -> sys_inv w -> verilua_step fuel s w = Ret tt w' -> sys_inv w'.
Proof.
  intros He Hb Hfuel H. unfold verilua_step. mrun (sys_created w H).
  rewrite (proj2 (b_init _ w (proj1 H))). cbn [assert_]. mrun.
  destruct (step_field s (w_env w)) as [f|]; [|done]. unfold call_or_panic.
  destruct (lua_call_sys He Hb (LcFn f) w H) as ([e|] & w1 & E1 & H1 & _); mrun E1; [done|]. intros E2.
  destruct (flush_sys He fuel w1 H1 Hfuel) as (w2 & E2' & H2 & _). congruence.
Qed.

Lemma event_sys fuel (w w' : World Sim) :
  environment_ok -> build_ok -> (2 <= fuel)%nat -> sys_inv w -> event fuel w w' -> sys_inv w'.
Proof.
  intros He Hb Hfuel H Hev. destruct Hev as [h z w w' E|s w w' E|w w' E|w w' Hs].
  - destruct (fire_outcome He Hb fuel h z w H Hfuel) as [(w2 & E2 & H2)|[(msg & w2 & E2 & _)|(_ & w2 & E2)]]; congruence.
  - by apply (step_sys fuel s w).
  - unfold verilator_next_sim_time_callback in E. destruct verilator_inner_step_callback eqn:Ei; [|done].
    destruct wave_vpi eqn:Ew; [done|]. destruct (inner_step_sys w He Hb Ei Ew H) as (w2 & E2 & H2 & _).
    unfold verilator_next_sim_time_callback in E2. rewrite Ei, Ew in E2. congruence.
  - by apply (script_sys He Hb w w' Hs H).
Qed.

Lemma events_sys fuel (w w' : World Sim) :
  environment_ok -> build_ok -> (2 <= fuel)%nat -> sys_inv w -> rtc (event fuel) w w' -> sys_inv w'.
Proof.
  intros He Hb Hfuel H Hr. induction Hr as [|w1 w2 w3 Hev _ IH]; [done|]. apply IH. by apply (event_sys fuel w1).
Qed.

(** C1: safety and progress of the running system.  Along any sequence of events
    - callbacks fired in any order with any values, step calls, the time-step hook,
    Lua scripts using live handles - the invariant holds, and whichever callback fires next, its
    handler returns: no [slab.remove] of a missing key, no failed queue assertion,
    no freed clock, no endless flush.  A handler panics in two cases only: Lua
    raised an error, which it reports, or a chunk callback of a build with both
    [chunk_task] and [merge_cb] finds, after Lua ran, a task without a counter. *)
Theorem running_system_safe fuel (w w' : World Sim) :
  environment_ok -> build_ok -> (2 <= fuel)%nat -> sys_inv w -> rtc (event fuel) w w' ->
  sys_inv w' /\ forall h z,
    (exists w2, fire fuel h z w' = Ret tt w2 /\ sys_inv w2) \/
    (exists msg w2, fire fuel h z w' = Panic msg w2 /\ raised msg) \/
    (stale_chunk h w' /\ exists w2, fire fuel h z w' = Panic unwrap_none w2).
Proof.
  intros He Hb Hfuel H Hr. pose proof (events_sys fuel w w' He Hb Hfuel H Hr) as H'.
  split; [done|]. intros h z. by apply (fire_outcome He Hb).
Qed.

(** What the [void*] of a callback points to. *)
Definition user_data_valid (h : Z) (cb : s_cb_data) (w : World Sim) : Prop :=
  match user_data cb with
  | UdClock p => is_timer cb -> exists c, w_clocks w !! p = Some c /\ cb_handle c = Some h
  | UdEdge d => slot_rtn (cb_rtn cb) ->
      is_Some (w_heap w !! ecd_complex_handle_raw d) /\ edge_cb_slab (w_env w) !! ecd_callback_id d = Some h
  | _ => True
  end.

(** C4: the casts of the callback handlers are sound.  Whatever runs, a callback the
    simulator holds carries, behind its untyped [user_data], the data its [cb_rtn]
    casts it to, and was registered for the reason that handler is written for; the
    clock or the signal handle it points to is alive, the clock refers back to this
    very callback, and the slab slot of an edge wait is the one of its own handle. *)
Theorem callback_data_typed fuel (w w' : World Sim) h cb :
  environment_ok -> build_ok -> (2 <= fuel)%nat -> sys_inv w -> rtc (event fuel) w w' ->
  w_cbs w' !! h = Some cb -> cb_typed cb /\ user_data_valid h cb w'.
Proof.
  intros He Hb Hfuel H Hr Hcb. destruct (events_sys fuel w w' He Hb Hfuel H Hr) as [B _].
  pose proof (b_typed _ w' B h cb Hcb) as Ht. split; [done|]. unfold user_data_valid.
  destruct (user_data cb) as [| | | |d| |p] eqn:Eu; try done.
  - intros Hs. destruct (edge_inv_held w' h cb (b_edge _ w' B) Hcb Hs) as (k & d' & Hk & [Ed <- _ _] & Hl).
    rewrite Eu in Ed. by injection Ed as <-.
  - intros Hp. destruct (ci_timer w' (b_clock _ w' B) h cb Hcb Hp) as (p' & c & Ep & Hc & Hh). rewrite Eu in Ep. injection Ep as <-. by exists c.
Qed.

(** C2: no deferred write is stranded, in a build without inertial puts that has
    its heartbeat, the [cbNextSimTime] chain: Verilator builds with
    [verilator_inner_step_callback], the default of [xmake.lua], have none and are
    the subject of [verilator_loop_progress].  Once the heartbeat is installed, at
    every reachable moment the simulator holds the flush or the next-time-step
    callback; a write made after the flush of the time step has a flush pending in
    the same step; the next-time-step callback returns and, except under [wave_vpi],
    whose signals cannot be written, requests the flush; and the flush leaves
    nothing pending. *)
Theorem no_write_stranded fuel (w w' : World Sim) :
  environment_ok -> build_ok -> (2 <= fuel)%nat -> sys_inv w -> rtc (event fuel) w w' ->
  inertial_put = false -> verilator_inner_step_callback = false -> has_next_sim_time_cb (w_env w') = true ->
  (exists h cb, w_cbs w' !! h = Some cb /\ (cb = sim_time_cb \/ cb = flush_cb)) /\
  (pending w' <> [] -> rw_phase_passed (w_env w') = true -> exists h, w_cbs w' !! h = Some flush_cb) /\
  (forall h z, w_cbs w' !! h = Some sim_time_cb ->
     exists w2, fire fuel h z w' = Ret tt w2 /\ (wave_vpi = false -> exists h2, w_cbs w2 !! h2 = Some flush_cb)) /\
  (forall h z, w_cbs w' !! h = Some flush_cb -> exists w2, fire fuel h z w' = Ret tt w2 /\ pending w2 = []).
Proof.
  intros He Hb Hfuel H Hr Hi Hv Hn. pose proof (events_sys fuel w w' He Hb Hfuel H Hr) as H'.
  destruct H' as [B [S1 S2 S3]]. split_and!.
  - destruct (S3 Hn Hv) as [[h Hh]|(_ & _ & h & Hh)]; exists h; eexists; (split; [exact Hh|]); [by left|by right].
  - intros Hp Hpass. by destruct (S1 (S2 Hi Hpass Hp)) as [_ Hh].
  - intros h z Hh. destruct (next_sim_time_facts He h w' (conj B (Build_sched_inv _ S1 S2 S3)) Hh) as (w2 & E & _ & Hfl).
    exists w2. split; [|done]. by rewrite (fire_one_shot fuel h z sim_time_cb w' Hh eq_refl).
  - intros h z Hh. destruct (flush_returns He fuel h w' (conj B (Build_sched_inv _ S1 S2 S3)) Hh Hfuel) as (w2 & E & _ & Hp).
    exists w2. split; [|by apply Hp]. by rewrite (fire_one_shot fuel h z flush_cb w' Hh eq_refl).
Qed.

(** C3: no edge wait is lost, and none is served by two callbacks.  At every
    reachable moment the slab and the edge callbacks held by the simulator name
    each other; and where waits are merged, without chunks, a signal, edge and task have a positive
    counter exactly when they wait in the pending list or in exactly one registered
    callback, never in both. *)
Theorem no_wait_lost fuel (w w' : World Sim) :
  environment_ok -> build_ok -> (2 <= fuel)%nat -> sys_inv w -> rtc (event fuel) w w' ->
  (forall k h, edge_cb_slab (w_env w') !! k = Some h -> exists cb d, w_cbs w' !! h = Some cb /\ edge_slot k cb d) /\
  (forall h cb, w_cbs w' !! h = Some cb -> slot_rtn (cb_rtn cb) -> exists k, edge_cb_slab (w_env w') !! k = Some h) /\
  (merge_cb = true -> chunk_task = false -> forall x,
    (0 < count_of w' x <-> x ∈ infos_of w' \/ exists k, waits_at w' k x) /\
    (x ∈ infos_of w' -> forall k, ~ waits_at w' k x) /\
    (forall k1 k2, waits_at w' k1 x -> waits_at w' k2 x -> k1 = k2) /\ NoDup (infos_of w')).
Proof.
  intros He Hb Hfuel H Hr. pose proof (events_sys fuel w w' He Hb Hfuel H Hr) as [B _].
  split_and!.
  - intros k h Hk. destruct (ei_slab w' (b_edge _ w' B) k h Hk) as (cb & d & Hcb & Hd & _). by exists cb, d.
  - apply (ei_cbs w' (b_edge _ w' B)).
  - intros Hm Hc x. destruct (b_count _ w' B (proj2 counted_spec (conj Hm Hc))) as [C1 C2 C3 C4 C5]. split_and!; [apply C4| |apply C3|done].
    intros Hx k. by apply C2.
Qed.

(** C11: what the firing of an edge callback does.  A change that is not the
    awaited edge, or to X or Z, changes nothing.  The awaited edge resumes exactly
    the waiting task, and afterwards the wait is served: the callback and its slot
    are gone, or, with merged waits, the counter went down and they are gone when
    it reached zero.  A chunk resumes exactly its tasks, in one call; without merged
    waits it is gone afterwards, with merged waits every task counts down by one,
    those that run out lose their counter, and the chunk is gone exactly if one
    did.  If Lua raises, nothing of this happens: the handler panics. *)
Theorem edge_wait_served fuel h cb d z (w : World Sim) :
  environment_ok -> build_ok -> sys_inv w -> w_cbs w !! h = Some cb -> user_data cb = UdEdge d ->
  let raw := ecd_complex_handle_raw d in let t := ecd_edge_type d in let tasks := ecd_task_ids d in
  (cb_rtn cb = edge_callback_rtn ->
   if edge_matches t z then
     exists r w1 c, call_sim_event (the_task d) w = Ret r w1 /\ w_heap w1 !! raw = Some c /\
       match r with
       | Some _ => exists msg w2, fire fuel h z w = Panic msg w2 /\ raised msg
       | None => fire fuel h z w = Ret tt (served h d c w1) /\
           (merge_cb = false -> w_cbs (served h d c w1) !! h = None /\
              edge_cb_slab (w_env (served h d c w1)) !! ecd_callback_id d = None)
       end
   else fire fuel h z w = Ret tt w) /\
  (forall n, cb_rtn cb = edge_callback_chunk_rtn n ->
   if edge_matches t z then
     n = length tasks /\ exists r w1, call_sim_event_chunk n tasks w = Ret r w1 /\
       match r with
       | Some _ => exists msg w2, fire fuel h z w = Panic msg w2 /\ raised msg
       | None =>
           (merge_cb = false -> fire fuel h z w = Ret tt (unslotted (ecd_callback_id d) h w1)) /\
           (merge_cb = true -> NoDup tasks -> Forall (fun x => is_Some (counter w1 raw t x)) tasks ->
              exists w2, fire fuel h z w = Ret tt w2 /\
                Forall (fun x => counter w2 raw t x = if decide (runs_out w1 raw t x) then None else dec <$> counter w1 raw t x) tasks /\
                w_cbs w2 = if decide (filter (runs_out w1 raw t) tasks = []) then w_cbs w1 else delete h (w_cbs w1))
       end
   else fire fuel h z w = Ret tt w).
Proof.
  intros He Hb H Hh Hu raw t tasks. pose proof (b_typed _ w (proj1 H) h cb Hh) as Ht. unfold cb_typed in Ht. split.
  - intros Hr. rewrite Hr, Hu in Ht. destruct Ht as [Ht _].
    rewrite (fire_change fuel h z cb w Hh) by (unfold one_shot; by rewrite Ht). unfold dispatch. rewrite Hr, Hu.
    pose proof (edge_facts He Hb h cb d z w H Hh Hr Hu) as Hf. fold t in Hf. destruct (edge_matches t z); [|done].
    destruct Hf as (r & w1 & c & E1 & _ & Hc & Hf). exists r, w1, c. split; [done|]. split; [done|].
    destruct r as [e|]; [done|]. destruct Hf as (_ & E & _). split; [done|]. intros Hm. unfold served. rewrite Hm. cbn. by rewrite !lookup_delete_eq.
  - intros n Hr. rewrite Hr, Hu in Ht. destruct Ht as [Ht _].
    destruct (chunk_facts He Hb n h cb d z w H Hh Hr Hu) as (_ & Hf & Hn & Hch). fold t in Hch.
    rewrite (fire_change fuel h z cb w Hh) by (unfold one_shot; by rewrite Ht). unfold dispatch. rewrite Hr, Hu, Hf.
    destruct (edge_matches t z); [|done]. split; [done|].
    destruct Hch as (r & w1 & E1 & _ & Hl & Hk & Hd). exists r, w1. split; [done|].
    destruct r as [e|]; [done|]. rewrite Hd. split.
    + intros ->. by apply remove_edge_cb_eq.
    + intros -> Hnd Hall. by apply chunk_done_facts.
Qed.

(** C12: the wake-up discipline of [await_rw].  The callback first flushes; the
    task is resumed only if nothing was flushed since it asked (in particular not
    by this very callback), otherwise the wait is registered again with the new
    epoch and Lua is not called. *)
Theorem rw_wakeup_discipline fuel task epoch (w : World Sim) :
  environment_ok -> build_ok -> (2 <= fuel)%nat -> sys_inv w -> inertial_put = false ->
  exists w1, apply_pending_put_values fuel w = Ret tt w1 /\ pending w1 = [] /\
    (if flush_epoch (w_env w1) =? epoch then
       exists r w2, call_sim_event task w1 = Ret r w2 /\ rw_synch_callback fuel task epoch w = fail_on_error r w2
     else rw_synch_callback fuel task epoch w =
       Ret tt (registered (rw_synch_cb task (flush_epoch (w_env w1))) w1)) /\
    (pending w <> [] -> epoch = flush_epoch (w_env w) -> flush_epoch (w_env w1) <> epoch).
Proof.
  intros He Hb Hfuel H Hi.
  pose proof (sys_flushable w H) as Hfl.
  destruct (apply_pending_facts fuel w (ev_quiet He) Hfl Hfuel) as (w1 & E1 & Hwf & Hp & _ & _ & Hep & _).
  destruct (flush_sys He fuel w H Hfuel) as (w1' & E1' & H1 & _). assert (w1' = w1) as -> by congruence.
  exists w1. split; [done|]. split; [done|]. unfold rw_synch_callback. mrun (sys_created w H). rewrite Hi. mrun E1. split.
  - destruct (flush_epoch (w_env w1) =? epoch); mrun.
    + destruct (sim_event_sys He Hb task w1 H1) as (r & w2 & E2 & _). exists r, w2. split; [done|]. by mrun E2.
    + done.
  - intros Hne ->. rewrite Hep. case_decide as Ha.
    + destruct (pending w) as [|r q] eqn:Epq; [done|].
      destruct (pending_write w r (fl_wf w Hfl)) as [x Hx]; [rewrite Epq; set_solver|].
      exfalso. revert Ha. unfold abs_queue. rewrite Epq, omap_cons, Hx. done.
    + intros Heq. unfold u64, wrap in Heq.
      pose proof (Z.mod_pos_bound (flush_epoch (w_env w) + 1) (2 ^ 64) eq_refl) as Hb1. rewrite Heq in Hb1.
      destruct (decide (flush_epoch (w_env w) + 1 < 2 ^ 64)).
      * rewrite Z.mod_small in Heq by lia. lia.
      * assert (flush_epoch (w_env w) + 1 = 2 ^ 64) as Hx by lia. rewrite Hx, Z_mod_same_full in Heq. lia.
Qed.

(** C13: the ReadWrite loop of the Verilator main program makes progress.  At every
    reachable moment the query for pending writes answers without effect; when it
    answers yes, the simulator holds the flush callback, and once that has fired
    the answer is no.  The time-step hook of builds that call the library directly
    returns, requests the flush of the new time step and makes the answer no. *)
Theorem verilator_loop_progress fuel (w w' : World Sim) :
  environment_ok -> build_ok -> (2 <= fuel)%nat -> sys_inv w -> rtc (event fuel) w w' ->
  exists b, verilator_has_pending_put_values w' = Ret b w' /\
    (b = true -> pending w' <> [] /\ (exists h, w_cbs w' !! h = Some flush_cb) /\
       forall h z, w_cbs w' !! h = Some flush_cb ->
         exists w2, fire fuel h z w' = Ret tt w2 /\ verilator_has_pending_put_values w2 = Ret false w2) /\
    (verilator_inner_step_callback = true -> wave_vpi = false ->
       exists w2, verilator_next_sim_time_callback w' = Ret tt w2 /\ (exists h, w_cbs w2 !! h = Some flush_cb) /\
         verilator_has_pending_put_values w2 = Ret false w2).
Proof.
  intros He Hb Hfuel H Hr. pose proof (events_sys fuel w w' He Hb Hfuel H Hr) as H'.
  eexists. split; [apply has_pending_eq, (proj1 (b_init _ w' (proj1 H')))|]. split.
  - rewrite !andb_true_iff, negb_true_iff, bool_decide_eq_true. intros [[Hi Hpass] Hq].
    assert (pending w' <> []) as Hp by (unfold pending; by destruct (hdl_put_value (w_env w'))).
    destruct H' as [B [S1 S2 S3]]. split; [done|]. split; [by destruct (S1 (S2 Hi Hpass Hp))|]. intros h z Hh.
    destruct (flush_returns He fuel h w' (conj B (Build_sched_inv _ S1 S2 S3)) Hh Hfuel) as (w2 & E & H2 & Hp2).
    exists w2. split; [by rewrite (fire_one_shot fuel h z flush_cb w' Hh eq_refl)|].
    rewrite (has_pending_eq w2) by apply (proj1 (b_init _ w2 (proj1 H2))). specialize (Hp2 Hi). unfold pending in Hp2.
    apply app_nil in Hp2 as [-> _]. by rewrite andb_false_r.
  - intros Hi Hw. destruct (inner_step_sys w' He Hb Hi Hw H') as (w2 & E & H2 & Hfl & Hpass).
    exists w2. split; [done|]. split; [done|].
    by rewrite (has_pending_eq w2), Hpass, andb_false_r by apply (proj1 (b_init _ w2 (proj1 H2))).
Qed.

End Running.

(* ------------------------------------------------------------------ *)
(** ** Witnesses: a task that waits for every rising edge of a signal *)

(** Icarus with merged waits and without chunking. *)
Definition merge_features : Features :=
  mkFeatures false true false false false false true true false false false.

(** Task 7 awaits the next rising edge of signal 1 whenever it is resumed. *)
Definition wait_again : Backend.W CountSim unit :=
  vpiml_register_edge_callback_common (F := merge_features) Posedge 1 7.

Definition can_wait (w : World CountSim) : bool :=
  bool_decide (is_Some (w_heap w !! 1)) && (count_of w (1, Posedge, 7) + 1 <? 2 ^ 32).

#[local] Instance WaitLua : LuaRuntime CountSim := {|
  lua_call := fun _ w =>
    match (if can_wait w then wait_again w else NoFuel) with Ret _ w' => Ret None w' | _ => Ret None w end;
  lua_global_fn := fun _ s => Some (Z.of_nat (String.length s));
  lua_registry_key := fun _ f => f;
  path_is_file := fun _ _ => false
|}.

Lemma wait_lua_scripted : lua_scripted (F := merge_features).
Proof.
  intros c w. cbn. destruct (can_wait w) eqn:Ec; [|exists None, w; split; [done|constructor]].
  apply andb_prop in Ec as [Hl Hn]. apply bool_decide_eq_true_1 in Hl. apply Z.ltb_lt in Hn.
  destruct (wait_again w) as [[] w'| | |] eqn:E; try (exists None, w; split; [done|constructor]).
  exists None, w'. split; [done|]. apply (sc_op (ApiAwaitEdge Posedge 1 7) 0 w w' w').
  - by split.
  - cbn. by rewrite (bind_Ret _ _ _ _ _ E).
  - constructor.
Qed.

Lemma wait_environment : environment_ok (F := merge_features).
Proof.
  destruct list_containers_ok. split; [apply count_quiet|apply count_accepting|apply count_fresh|done|done|apply wait_lua_scripted|by intros w; eexists].
Qed.

Lemma merge_build : build_ok (F := merge_features).
Proof. done. Qed.

Lemma wait_quiet : forall msg, ~ raised (F := merge_features) msg.
Proof.
  apply never_raised. intros c w w' e. cbn. destruct (can_wait w); [|done]. by destruct (wait_again w).
Qed.

(** The initialised system with two signals, nothing waiting, and the heartbeat. *)
Definition running_world : World CountSim :=
  mkWorld (set_has_next_sim_time_cb true (set_initialized true VeriluaEnv_default)) true demo_heap ∅ ∅ 3 ∅
    (<[1 := sim_time_cb]> ∅) [] (mkCount 0).

Lemma running_cbs h cb : w_cbs running_world !! h = Some cb -> h = 1 /\ cb = sim_time_cb.
Proof. cbn. rewrite lookup_insert_Some, lookup_empty. naive_solver. Qed.

Lemma running_counts x : count_of running_world x = 0.
Proof.
  destruct x as [[raw t] task]. unfold count_of. destruct (w_heap running_world !! raw) as [c|] eqn:E; [|done].
  apply demo_heap_inv in E as [[-> ->]|[-> ->]]; by destruct t.
Qed.

Lemma running_inv {B : VpiBackend CountSim} {F : Features} : sys_inv (VpiBackend0 := B) (F := F) running_world.
Proof.
  split; [split|split].
  - destruct (demo_wf (F := F)) as [H1 H2 H3 H4]. by split.
  - intros r c [[-> ->]|[-> ->]]%demo_heap_inv; (split; [done|by intros [? ?]|done]).
  - done.
  - split; [done|]. intros r c [[-> _]|[-> _]]%demo_heap_inv; cbn; lia.
  - split; try done; try (intros p c; cbn; by rewrite ?lookup_empty).
    intros h cb [-> ->]%running_cbs. done.
  - split; try done; try (intros t raw [x Hx]; destruct t; cbn in Hx; by rewrite lookup_empty in Hx).
    + intros h cb [-> ->]%running_cbs [Hs|[n Hs]]; done.
    + intros raw [x Hx]. cbn in Hx. by rewrite lookup_empty in Hx.
  - intros _. assert (forall k x, ~ waits_at running_world k x) as Hno.
    { intros k [[raw t] task] (h & cb & Hk & _). change ((∅ : gmap Z Z) !! k = Some h) in Hk. by rewrite lookup_empty in Hk. }
    split.
    + apply NoDup_nil_2.
    + intros x k _. apply Hno.
    + intros x k1 k2 Hx. by apply Hno in Hx.
    + intros x. rewrite running_counts. split; [lia|]. intros [Hx|[k Hk]]; [set_solver|by apply Hno in Hk].
    + intros x. rewrite running_counts. lia.
  - intros h cb [-> ->]%running_cbs. done.
  - done.
  - done.
  - intros Hr. by vm_compute in Hr.
  - intros _ Hp. by vm_compute in Hp.
  - intros _ _. left. exists 1. done.
Qed.

(** Task 7 waits, the next time step registers its callback, the edge comes. *)
Definition after (m : Backend.W CountSim unit) (w : World CountSim) : World CountSim :=
  match m w with Ret _ w' => w' | _ => w end.
Definition waiting : World CountSim := after wait_again running_world.
Definition armed : World CountSim := after (fire (F := merge_features) 2 1 0) waiting.
Definition resumed : World CountSim := after (fire (F := merge_features) 2 1 1) armed.

Lemma run_to_armed : rtc (event (F := merge_features) 2) running_world armed.
Proof.
  eapply rtc_l; [apply (ev_script 2 running_world waiting)|].
  - apply (sc_op (ApiAwaitEdge Posedge 1 7) 0 running_world waiting waiting).
    + split; [by eexists|by rewrite running_counts].
    + vm_compute. reflexivity.
    + constructor.
  - apply rtc_once, (ev_fire 2 1 0). vm_compute. reflexivity.
Qed.

Lemma run_to_resumed : rtc (event (F := merge_features) 2) running_world resumed.
Proof.
  eapply rtc_r; [apply run_to_armed|]. apply (ev_fire 2 1 1). vm_compute. reflexivity.
Qed.

Lemma running_system_safe_witness :
  exists w2, fire (F := merge_features) 2 1 1 resumed = Ret tt w2 /\ count_of resumed (1, Posedge, 7) = 1.
Proof.
  destruct (running_system_safe (F := merge_features) 2 running_world resumed wait_environment merge_build (le_n 2)
    running_inv run_to_resumed) as [_ Hs].
  destruct (Hs 1 1) as [(w2 & E & _)|[(msg & w2 & _ & Hr)|((Hc & _) & _)]]; [|by destruct (wait_quiet msg)|discriminate Hc].
  exists w2. split; [exact E|]. vm_compute. reflexivity.
Defined.

Lemma no_write_stranded_witness :
  exists w2, fire (F := merge_features) 2 2 0 armed = Ret tt w2 /\ pending w2 = [].
Proof.
  destruct (no_write_stranded (F := merge_features) 2 running_world armed wait_environment merge_build (le_n 2)
    running_inv run_to_armed eq_refl eq_refl ltac:(vm_compute; reflexivity)) as (_ & _ & _ & Hfl).
  apply (Hfl 2 0). vm_compute. reflexivity.
Defined.

Lemma no_wait_lost_witness : exists k, waits_at armed k (1, Posedge, 7).
Proof.
  destruct (no_wait_lost (F := merge_features) 2 running_world armed wait_environment merge_build (le_n 2)
    running_inv run_to_armed) as (_ & _ & Hw).
  destruct (Hw eq_refl eq_refl (1, Posedge, 7)) as ([Hc _] & _).
  destruct Hc as [Hx|Hk]; [vm_compute; reflexivity| |exact Hk].
  exfalso. vm_compute in Hx. inversion Hx.
Defined.

Definition armed_cb : s_cb_data := edge_cb 11 edge_callback_rtn (mkEdgeCbData [7] 1 Posedge 1).

(** A write and an [await_rw] of task 9 in the armed state. *)
Lemma callback_data_typed_witness :
  w_cbs armed !! 1 = Some armed_cb /\ cb_typed (F := merge_features) armed_cb /\
  edge_cb_slab (w_env armed) !! 1 = Some 1 /\ is_Some (w_heap armed !! 1).
Proof.
  assert (E : w_cbs armed !! 1 = Some armed_cb) by (vm_compute; reflexivity).
  destruct (callback_data_typed (F := merge_features) 2 running_world armed 1 armed_cb wait_environment merge_build (le_n 2)
    running_inv run_to_armed E) as [Ht Hv].
  destruct Hv as [Hl Hs]; [by left|]. split_and!; [exact E|exact Ht|exact Hs|exact Hl].
Defined.

Definition written : World CountSim := after (exported_write (F := merge_features) (OpValue ASet 1) 2) armed.

Lemma written_inv : sys_inv (F := merge_features) written.
Proof.
  pose proof (events_sys (F := merge_features) 2 running_world armed wait_environment merge_build (le_n 2)
    running_inv run_to_armed) as H.
  destruct (op_sys (F := merge_features) wait_environment merge_build (ApiWrite (OpValue ASet 1) 2) armed H)
    as (r & w' & E & H' & _).
  - split; [vm_compute; reflexivity|]. exists (demo_ch 12). split; [|done].
    split; [vm_compute; reflexivity|discriminate].
  - cbn in E. unfold written, after. destruct (exported_write (OpValue ASet 1) 2 armed) as [[] w1| | |] eqn:E1.
    + rewrite (bind_Ret _ _ _ _ _ E1) in E. injection E as _ <-. done.
    + done.
    + done.
    + done.
Qed.

(** A write after the flush of the time step. *)
Definition flushed : World CountSim := after (fire (F := merge_features) 2 2 0) armed.
Definition posted : World CountSim := after (exported_write (F := merge_features) (OpValue ASet 1) 2) flushed.

Lemma run_to_posted : rtc (event (F := merge_features) 2) running_world posted.
Proof.
  eapply rtc_r; [eapply rtc_r; [apply run_to_armed|apply (ev_fire 2 2 0 armed flushed); vm_compute; reflexivity]|].
  apply (ev_script 2 flushed posted).
  apply (sc_op (ApiWrite (OpValue ASet 1) 2) 0 flushed posted posted); [|vm_compute; reflexivity|constructor].
  split; [vm_compute; reflexivity|]. exists (demo_ch 12). split; [|done]. split; [vm_compute; reflexivity|discriminate].
Qed.

Lemma verilator_loop_progress_witness :
  verilator_has_pending_put_values (F := merge_features) posted = Ret true posted /\
  exists h, w_cbs posted !! h = Some flush_cb.
Proof.
  destruct (verilator_loop_progress (F := merge_features) 2 running_world posted wait_environment merge_build (le_n 2)
    running_inv run_to_posted) as (b & E & Hb & _).
  assert (b = true) as -> by (revert E; vm_compute; congruence).
  split; [exact E|]. destruct (Hb eq_refl) as (_ & Hh & _). exact Hh.
Defined.

Lemma rw_wakeup_discipline_witness :
  exists w1, rw_synch_callback (F := merge_features) 2 9 0 written =
    Ret tt (registered (rw_synch_cb 9 (flush_epoch (w_env w1))) w1) /\ flush_epoch (w_env w1) <> 0.
Proof.
  destruct (rw_wakeup_discipline (F := merge_features) 2 9 0 written wait_environment merge_build (le_n 2)
    written_inv eq_refl) as (w1 & _ & _ & Hw & He).
  exists w1. assert (flush_epoch (w_env w1) <> 0) as Hne.
  { apply He; [vm_compute; discriminate|vm_compute; reflexivity]. }
  split; [|exact Hne]. apply Z.eqb_neq in Hne. rewrite Hne in Hw. exact Hw.
Defined.

(* ------------------------------------------------------------------ *)
(** ** [chunk_task] with [merge_cb]: a stale chunk *)

(** Task 7 awaits a rising edge again the first time it is resumed, and ends the
    second time ([puts] of the demo simulator counts the resumptions). *)
Definition wait_chunk : Backend.W CountSim unit :=
  vpiml_register_edge_callback_common (F := iverilog_features) Posedge 1 7.

#[local] Instance TwiceLua : LuaRuntime CountSim := {|
  lua_call := fun _ w =>
    let w1 := set_w_sim (mkCount (puts (w_sim w) + 1)) w in
    match (if can_wait w1 && (puts (w_sim w) =? 0) then wait_chunk w1 else NoFuel) with
    | Ret _ w' => Ret None w'
    | _ => Ret None w1
    end;
  lua_global_fn := fun _ s => Some (Z.of_nat (String.length s));
  lua_registry_key := fun _ f => f;
  path_is_file := fun _ _ => false
|}.

Lemma twice_scripted : lua_scripted (LuaRuntime0 := TwiceLua) (F := iverilog_features).
Proof.
  intros c w. cbn. set (w1 := set_w_sim _ w).
  assert (script (LuaRuntime0 := TwiceLua) (F := iverilog_features) w w1) as Hw1 by (apply (sc_sim (mkCount (puts (w_sim w) + 1))); constructor).
  destruct (can_wait w1 && _) eqn:Ec; [|by exists None, w1].
  apply andb_prop in Ec as [[Hl Hn]%andb_prop _]. apply bool_decide_eq_true_1 in Hl. apply Z.ltb_lt in Hn.
  destruct (wait_chunk w1) as [[] w'| | |] eqn:E; try by exists None, w1.
  exists None, w'. split; [done|]. apply (sc_sim (mkCount (puts (w_sim w) + 1))), (sc_op (ApiAwaitEdge Posedge 1 7) 0 w1 w' w').
  - by split.
  - cbn. by rewrite (bind_Ret _ _ _ _ _ E).
  - constructor.
Qed.

Lemma twice_environment : environment_ok (LuaRuntime0 := TwiceLua) (F := iverilog_features).
Proof.
  destruct list_containers_ok.
  split; [apply count_quiet|apply count_accepting|apply count_fresh|done|done|apply twice_scripted|by intros w; eexists].
Qed.

Definition fires (l : list (Z * Z)) : Backend.W CountSim unit :=
  for_each l (fun '(h, z) => fire (LuaRuntime0 := TwiceLua) (F := iverilog_features) 2 h z).

Local Abbreviation steps := (rtc (event (LuaRuntime0 := TwiceLua) (F := iverilog_features) 2)).

Lemma fires_steps l (w w' : World CountSim) : fires l w = Ret tt w' -> steps w w'.
Proof.
  revert w. induction l as [|[h z] l IH]; intros w; cbn.
  - intros [= <-]. constructor.
  - intros ([] & w1 & E1 & E2)%bind_Ret_inv. eapply rtc_l; [by apply (ev_fire 2 h z)|by apply IH].
Qed.

Lemma twice_quiet : forall msg, ~ raised (LuaRuntime0 := TwiceLua) (F := iverilog_features) msg.
Proof.
  apply never_raised. intros c w w' e. cbn. destruct (can_wait _ && _); [|done]. by destruct (wait_chunk _).
Qed.

Lemma chunk_build : build_ok (F := iverilog_features).
Proof. done. Qed.

(** Two rising edges within one time step: the next time step makes a chunk for
    task 7; an edge, and the task waits again; a second edge, and the task ends;
    the flush; the next time step. *)
Definition two_edges : list (Z * Z) := [(1, 0); (1, 1); (1, 1); (2, 0); (1, 0)].

(** With [chunk_task] and [merge_cb] together, two edges in one time step
    break the bookkeeping, although the script does nothing wrong.  The second edge
    serves the wait of the task that was still in the pending list; the next time
    step registers a chunk for that entry all the same, and the edge after it
    resumes the finished task once more and then panics on the counter that no
    longer exists. *)
Theorem repeated_edge_panics :
  environment_ok (LuaRuntime0 := TwiceLua) (F := iverilog_features) /\
  exists w, steps running_world w /\
    (exists cb, w_cbs w !! 1 = Some cb /\ user_data cb = UdEdge (mkEdgeCbData [7] 1 Posedge 1)) /\
    count_of w (1, Posedge, 7) = 0 /\
    stale_chunk (LuaRuntime0 := TwiceLua) (F := iverilog_features) 1 w /\
    exists w', fire (LuaRuntime0 := TwiceLua) (F := iverilog_features) 2 1 1 w = Panic unwrap_none w'.
Proof.
  split; [exact twice_environment|].
  set (w1 := after wait_chunk running_world). set (w := after (fires two_edges) w1).
  assert (steps running_world w) as Hr.
  { eapply rtc_l; [|apply (fires_steps two_edges w1); vm_compute; reflexivity]. apply ev_script.
    apply (sc_op (ApiAwaitEdge Posedge 1 7) 0 running_world w1 w1); [|vm_compute; reflexivity|constructor].
    split; [by eexists|by rewrite running_counts]. }
  assert (exists w', fire (LuaRuntime0 := TwiceLua) (F := iverilog_features) 2 1 1 w = Panic unwrap_none w') as [w' Ep].
  { eexists. vm_compute. reflexivity. }
  pose proof (events_sys 2 running_world w twice_environment chunk_build (le_n 2) running_inv Hr) as H.
  exists w. split_and!; [done| | | |by exists w'].
  - eexists. split; [vm_compute; reflexivity|reflexivity].
  - vm_compute. reflexivity.
  - destruct (fire_outcome twice_environment chunk_build 2 1 1 w H (le_n 2)) as [(w2 & E2 & _)|[(msg & w2 & E2 & Hr2)|[Hs _]]]; [congruence| |done].
    by destruct (twice_quiet _ Hr2).
Qed.

(** A chunk with task 7, which waits again when it is resumed: the chunk stays. *)
Definition chunk_armed : World CountSim := after (fires [(1, 0)]) (after wait_chunk running_world).
Definition chunk_cb : s_cb_data := edge_cb 11 (edge_callback_chunk_rtn 1) (mkEdgeCbData [7] 1 Posedge 1).

Lemma chunk_armed_inv : sys_inv (F := iverilog_features) chunk_armed.
Proof.
  set (w1 := after wait_chunk running_world).
  apply (events_sys (LuaRuntime0 := TwiceLua) 2 running_world chunk_armed twice_environment chunk_build (le_n 2) running_inv).
  eapply rtc_l; [|apply (fires_steps [(1, 0)] w1); vm_compute; reflexivity]. apply ev_script.
  apply (sc_op (ApiAwaitEdge Posedge 1 7) 0 running_world w1 w1); [|vm_compute; reflexivity|constructor].
  split; [by eexists|by rewrite running_counts].
Qed.

Lemma edge_wait_served_witness :
  (fire (LuaRuntime0 := WaitLua) (F := merge_features) 2 1 0 armed = Ret tt armed /\
   exists w1 c, call_sim_event (LuaRuntime0 := WaitLua) 7 armed = Ret None w1 /\
     fire (LuaRuntime0 := WaitLua) (F := merge_features) 2 1 1 armed =
       Ret tt (served (F := merge_features) 1 (mkEdgeCbData [7] 1 Posedge 1) c w1)) /\
  exists w1 w2, call_sim_event_chunk (LuaRuntime0 := TwiceLua) 1 [7] chunk_armed = Ret None w1 /\
    fires [(1, 1)] chunk_armed = Ret tt w2 /\ counter w2 1 Posedge 7 = Some 1 /\ w_cbs w2 = w_cbs w1.
Proof.
  split.
  - pose proof (events_sys (LuaRuntime0 := WaitLua) (F := merge_features) 2 running_world armed wait_environment merge_build (le_n 2)
      running_inv run_to_armed) as H.
    assert (w_cbs armed !! 1 = Some armed_cb) as Hh by (vm_compute; reflexivity).
    split.
    + exact (proj1 (edge_wait_served (LuaRuntime0 := WaitLua) (F := merge_features) 2 1 armed_cb (mkEdgeCbData [7] 1 Posedge 1) 0 armed
        wait_environment merge_build H Hh eq_refl) eq_refl).
    + destruct (proj1 (edge_wait_served (LuaRuntime0 := WaitLua) (F := merge_features) 2 1 armed_cb (mkEdgeCbData [7] 1 Posedge 1) 1 armed
        wait_environment merge_build H Hh eq_refl) eq_refl) as ([e|] & w1 & c & E1 & _ & E).
      { destruct E as (msg & w2 & _ & Hr). by destruct (wait_quiet msg). }
      destruct E as [E _]. exists w1, c. split; [exact E1|exact E].
  - assert (w_cbs chunk_armed !! 1 = Some chunk_cb) as Hh by (vm_compute; reflexivity).
    destruct (proj2 (edge_wait_served (LuaRuntime0 := TwiceLua) (F := iverilog_features) 2 1 chunk_cb
      (mkEdgeCbData [7] 1 Posedge 1) 1 chunk_armed twice_environment chunk_build chunk_armed_inv Hh eq_refl) 1%nat eq_refl)
      as (_ & [e|] & w1 & E1 & Hm).
    { destruct Hm as (msg & w2 & _ & Hr). by destruct (twice_quiet msg). }
    destruct Hm as [_ Hm].
    assert (counter w1 1 Posedge 7 = Some 2) as Hc.
    { revert E1. cbn [ecd_task_ids].
      assert (counter (after (let! _ := call_sim_event_chunk (LuaRuntime0 := TwiceLua) 1 [7] in ret tt) chunk_armed) 1 Posedge 7 = Some 2)
        as Hv by (vm_compute; reflexivity).
      intros E1. revert Hv. unfold after. by rewrite (bind_Ret _ _ _ _ _ E1). }
    destruct (Hm eq_refl) as (w2 & E2 & Hct & Hcbs).
    + apply NoDup_singleton.
    + apply Forall_singleton. cbn [ecd_complex_handle_raw ecd_edge_type]. rewrite Hc. by eexists.
    + assert (~ runs_out w1 1 Posedge 7) as Hno by (unfold runs_out; rewrite Hc; by vm_compute).
      exists w1, w2. split; [exact E1|]. split; [cbn; by rewrite (bind_Ret _ _ _ _ _ E2)|].
      cbn [ecd_complex_handle_raw ecd_edge_type ecd_task_ids] in Hct. apply Forall_inv in Hct. cbv beta in Hct. rewrite Hc in Hct.
      rewrite decide_False in Hct by exact Hno. split; [exact Hct|].
      rewrite Hcbs. cbn [ecd_complex_handle_raw ecd_edge_type ecd_task_ids]. rewrite filter_cons_False by exact Hno. reflexivity.
Defined.
