(* ===== verification/Startup.v ===== *)
(** * From process start to the running system

    [System] and [Running] start from a world that satisfies [sys_inv].  This file
    shows where it comes from: the startup routines of a fresh process
    ([libverilua/src/lib.rs], [vpi_callback.rs]) register the start-of-simulation
    callback, and when the simulator fires it, [verilua_init] and the bootstrap of
    the heartbeat either establish [sys_inv] or panic with the message of a missing
    piece of configuration or of a script that failed. *)

From S2P Require Import Prelude Bytes State Backend PutQueue Frame ValueGetters ValueSetters Handles Lifecycle.
From S2P Require Import Callbacks ChunkTask NativeClock EdgeEngine System SystemApi SystemOps SystemEvents VerilatorHelper Running.
#[local] Open Scope Z_scope.

(** The messages of a start that is not configured, or whose scripts fail. *)
Definition startup_errors : list string := [
  "`feature = verilator_inner_step_callback` requires `feature = verilator`";
  "called `Result::unwrap()` on an `Err` value"; "VERILUA_HOME not set"; "No module exist...";
  "Canot find top module..."; "VL_POST_INIT_SCRIPT is set but empty"; "VL_LUA_SCRIPT not set!";
  "Failed to load verilua_init"; "Failed to load"; "Failed to load main_step"; "Failed to load posedge_step";
  "Failed to load negedge_step"; "Failed to load init.lua"; "Failed to load VL_POST_INIT_SCRIPT file";
  "Failed to execute VL_POST_INIT_SCRIPT source"; "Failed to call verilua_init" ]%string.

Definition chunk_global (i : nat) : string :=
  of_bytes (as_bytes "sim_event_chunk_" ++ as_bytes (to_decimal (Z.of_nat i))).

(** The Lua functions the start looks up. *)
Definition startup_globals : list string :=
  ["dofile"; "verilua_init"; "sim_event"; "lua_main_step"; "lua_posedge_step"; "lua_negedge_step"]%string ++
  map chunk_global (seq 1 16).

Section Startup.
Context {Sim : Type} `{!VpiBackend Sim} `{!LuaRuntime Sim} {C0 : Containers} {F : Features}.
Local Abbreviation W := (W Sim).

#[local] Ltac plain := split; [by intros [?|[? ?]]|done].

(** ** Configuration *)

(** The environment variables the start requires. *)
Definition vars_ok (w : World Sim) : Prop :=
  is_Some (w_vars w !! "VERILUA_HOME"%string) /\ is_Some (w_vars w !! "VL_LUA_SCRIPT"%string) /\
  w_vars w !! "VL_POST_INIT_SCRIPT"%string <> Some empty_str.

(** The build, the Lua library and the design are usable, and scripts raise no
    error and leave those variables alone. *)
Record usable : Prop := {
  us_build : negb verilator_inner_step_callback || verilator = true;
  us_globals : forall (w : World Sim) nm, nm ∈ startup_globals -> is_Some (lua_global_fn w nm);
  us_top : forall w : World Sim, vpi_iterate_modules (w_sim w) <> 0 /\
    vpi_scan_first (w_sim w) (vpi_iterate_modules (w_sim w)) <> 0;
  us_lua : forall c (w w' : World Sim) e, lua_call c w <> Ret (Some e) w';
  us_vars : forall c (w w' : World Sim), vars_ok w -> lua_call c w = Ret None w' -> vars_ok w'
}.

Hypothesis Henv : environment_ok.
Hypothesis Hbuild : build_ok.
Let Ha := ev_accept Henv.
Let Hf := ev_fresh Henv.

(** [cfg]: what is assumed when a panic is to be excluded. *)
Variable cfg : Prop.
Hypothesis Hcfg : cfg -> usable.

Definition good (w : World Sim) : Prop := sys_inv w /\ (cfg -> vars_ok w).

(** [m] ends in a good state, or panics for want of configuration. *)
Definition starts {A} (m : W A) (w : World Sim) : Prop :=
  match m w with
  | Ret _ w' => good w'
  | Panic msg _ => msg ∈ startup_errors /\ ~ cfg
  | _ => False
  end.

Lemma st_bind {A B} (m : W A) (k : A -> W B) w :
  starts m w -> (forall a w', good w' -> starts (k a) w') -> starts (bind m k) w.
Proof. unfold starts, bind. destruct (m w) as [a w'|msg w'| |]; [|done..]. intros H Hk. apply (Hk a w' H). Qed.

Lemma st_ret {A} (a : A) w : good w -> starts (ret a) w.
Proof. done. Qed.

Lemma st_gets {A B} (f : World Sim -> A) (k : A -> W B) w : starts (k (f w)) w -> starts (bind (gets f) k) w.
Proof. done. Qed.

Lemma st_panic {A} msg w : (cfg -> False) -> msg ∈ startup_errors -> starts (A := A) (panic msg) w.
Proof. by split. Qed.

Lemma st_assert {A} b msg (k : W A) w :
  (cfg -> b = true) -> msg ∈ startup_errors -> starts k w -> starts (assert_ b msg ;; k) w.
Proof.
  intros Hc He Hk. destruct b; [exact Hk|]. apply (st_panic (A := A) msg w); [|done]. intros c. by specialize (Hc c).
Qed.

Lemma st_when b m w : good w -> starts m w -> starts (when b m) w.
Proof. by destruct b. Qed.

(** A change of flags outside the invariant. *)
Lemma good_env e w :
  good w -> base_env e = base_env (w_env w) ->
  rw_cb_re_registered e = rw_cb_re_registered (w_env w) -> rw_phase_passed e = rw_phase_passed (w_env w) ->
  (has_next_sim_time_cb e = true -> has_next_sim_time_cb (w_env w) = true) -> good (set_w_env e w).
Proof.
  intros [H Hv] He H1 H2 H3. split; [|done]. injection He. intros. apply flag_sys; try done.
  - apply base_env_base; [apply H|done].
  - unfold pending. congruence.
Qed.

Lemma st_trace e w : good w -> starts (emit e) w.
Proof. intros [H Hv]. split; [|done]. by apply (trace_sys Ha Hf). Qed.

Lemma frame_vars v (w : World Sim) : frame w (set_w_vars v w).
Proof. split; auto. Qed.

Lemma queue_wf_vars v (w : World Sim) : queue_wf w -> queue_wf (set_w_vars v w).
Proof. intros [? ? ? ?]. by split. Qed.

Lemma st_set_top v w : good w -> starts (set_var "VL_DUT_TOP" v) w.
Proof.
  intros [H Hv]. split.
  - by apply (frame_sys Ha Hf w); [|apply frame_vars|apply queue_wf_vars, H].
  - intros c. destruct (Hv c) as (V1 & V2 & V3). unfold vars_ok. cbn. by rewrite !lookup_insert_ne by done.
Qed.

Lemma st_lua c msg w : good w -> msg ∈ startup_errors -> starts (call_or_panic c msg) w.
Proof.
  intros [H Hv] Hm. unfold call_or_panic, starts. destruct (lua_call_sys Henv Hbuild c w H) as (r & w' & E & H' & _).
  mrun E. unfold call_lua in E. autorewrite with mon in E. destruct r as [e|].
  { split; [done|]. intros x. by apply (us_lua (Hcfg x)) in E. }
  split; [done|]. intros x. eapply (us_vars (Hcfg x) c); [|exact E]. exact (Hv x).
Qed.

Lemma st_global nm msg w : good w -> nm ∈ startup_globals -> msg ∈ startup_errors -> starts (global_fn nm msg) w.
Proof.
  intros Hg Hn Hm. unfold global_fn. apply st_gets. destruct (lua_global_fn w nm) as [f|] eqn:E; [done|].
  apply st_panic; [|done]. intros c. destruct (us_globals (Hcfg c) w nm Hn) as [f Hx]. congruence.
Qed.

Lemma st_pin nm w : good w -> nm ∈ startup_globals -> starts (pin_global_fn nm) w.
Proof.
  intros Hg Hn. unfold pin_global_fn. apply st_bind; [apply st_global; [done|done|set_solver]|]. by intros f w' Hg'.
Qed.

Lemma st_expect k msg w : good w -> msg ∈ startup_errors -> (cfg -> is_Some (w_vars w !! k)) -> starts (expect_var k msg) w.
Proof.
  intros Hg Hm Hk. unfold expect_var, env_var. apply st_gets. destruct (w_vars w !! k) as [v|]; [done|].
  apply st_panic; [|done]. intros c. by destruct (Hk c).
Qed.

(** ** The bootstrap callbacks *)

Lemma good_created w : good w -> w_created w = true.
Proof. intros [H _]. apply (b_init _ w (proj1 H)). Qed.

Lemma no_init_good w : good w -> get_verilua_env_no_init w = Ret tt w.
Proof. intros Hg. unfold get_verilua_env_no_init. mrun. by rewrite (good_created w Hg). Qed.

Lemma good_freed cb w : good w -> plain_rtn (cb_rtn cb) -> cb_typed cb -> good (freed cb w).
Proof.
  intros [H Hv] Hp Ht. split; [by apply (freed_sys Ha Hf)|]. intros c. specialize (Hv c).
  unfold vars_ok, freed, registered in *. by destruct (_ =? 0).
Qed.

Lemma st_final w : good w -> starts bootstrap_register_final_callback w.
Proof.
  intros Hg. unfold bootstrap_register_final_callback, starts, do_register_final_callback.
  assert ((if dpi then ret tt else get_verilua_env_no_init) w = Ret tt w) as E by (destruct dpi; [done|by apply no_init_good]).
  mrun E. destruct (has_final_cb (w_env w)); cbn [negb when]; [done|]. mrun. rewrite register_and_free_spec.
  apply good_freed; [|plain|done]. by apply good_env.
Qed.

Lemma st_next w : good w -> exists w', bootstrap_register_next_sim_time_callback w = Ret tt w' /\ good w' /\
  has_next_sim_time_cb (w_env w') = true.
Proof.
  intros Hg. unfold bootstrap_register_next_sim_time_callback. mrun (no_init_good w Hg).
  destruct (has_next_sim_time_cb (w_env w)) eqn:Hn; cbn [negb when]; [by exists w|]. mrun.
  set (w1 := set_w_env _ w). destruct Hg as [[B [S1 S2 S3]] Hv].
  assert (base_inv (infos_of w1) w1) as B1 by by apply base_env_base.
  destruct verilator_inner_step_callback eqn:Ei; cbn [negb when].
  - exists w1. split_and!; [done| |done]. split; [|done]. split; [done|]. split; [done|done|]. intros _ Hx. congruence.
  - unfold libverilua_do_register_next_sim_time_cb. rewrite register_and_free_spec.
    destruct (freed_facts sim_time_cb w1) as (He & _). eexists. split_and!; [done| |by rewrite He].
    split.
    + split; [unfold infos_of; rewrite He; apply (freed_base Henv); [done|plain|done]|]. split.
      * intros Hr. rewrite He in Hr. destruct (S1 Hr) as [Hi [h Hh]]. split; [done|].
        exists h. by apply (freed_keep Henv).
      * unfold flush_due, pending. rewrite He. apply S2.
      * intros _ _. left. apply (freed_held Henv).
    + intros c. specialize (Hv c). unfold vars_ok, freed, registered in *. by destruct (_ =? 0).
Qed.

(** ** initialize *)

Lemma st_bootstrap w : good w -> starts initialize_bootstrap w.
Proof.
  intros Hg. unfold initialize_bootstrap. apply st_gets. apply st_bind; [by apply st_when; [|apply st_final]|].
  intros _ w1 Hg1. apply st_gets, st_when; [done|]. destruct (st_next w1 Hg1) as (w2 & E & H2 & _).
  unfold starts. by rewrite E.
Qed.

Lemma st_top w : good w -> starts vpiml_get_top_module w.
Proof.
  intros Hg. unfold vpiml_get_top_module. apply st_gets, st_assert; [|set_solver|].
  { intros c. apply negb_true_iff, Z.eqb_neq, (us_top (Hcfg c) w). }
  apply st_gets, st_assert; [|set_solver|].
  { intros c. apply negb_true_iff, Z.eqb_neq, (us_top (Hcfg c) w). }
  apply st_gets, st_bind; [by apply st_trace|]. intros _ w1 Hg1. unfold env_var. apply st_gets, st_bind.
  - destruct (w_vars w1 !! "VL_DUT_TOP"%string); [done|by apply st_set_top].
  - by intros _ w2 Hg2.
Qed.

Lemma st_scripts w : good w -> starts initialize_scripts w.
Proof.
  intros Hg. unfold initialize_scripts. apply st_bind; [apply st_global; [done|set_solver|set_solver]|].
  intros _ w1 Hg1. apply st_bind; [apply st_expect; [done|set_solver|intros c; apply Hg1; done]|].
  intros home w2 Hg2. apply st_bind.
  { apply st_when; [done|]. unfold env_var. apply st_gets. by apply good_env. }
  intros _ w3 Hg3. unfold env_var at 1. apply st_gets, st_bind; [by apply good_env|].
  intros _ w4 Hg4. apply st_bind; [apply st_lua; [done|unfold startup_errors; set_solver]|].
  intros _ w5 Hg5. unfold env_var at 1. apply st_gets, st_bind.
  { destruct (w_vars w5 !! "VL_DUT_TOP"%string); [done|]. apply st_bind; [by apply st_top|].
    intros nm w6 Hg6. by apply st_set_top. }
  intros _ w6 Hg6. unfold env_var at 1. apply st_gets, st_bind.
  { destruct (w_vars w6 !! "VL_POST_INIT_SCRIPT"%string) as [p|] eqn:E; [|done]. case_bool_decide as Hp.
    - apply st_panic; [|set_solver]. intros c. destruct Hg6 as [_ Hv]. destruct (Hv c) as (_ & _ & V). congruence.
    - apply st_gets. destruct (path_is_file w6 p); (apply st_lua; [done|unfold startup_errors; set_solver]). }
  intros _ w7 Hg7. apply st_bind; [apply st_expect; [done|set_solver|intros c; apply Hg7; done]|].
  intros script w8 Hg8. apply st_bind; [apply st_lua; [done|unfold startup_errors; set_solver]|].
  intros _ w9 Hg9. apply st_bind; [apply st_global; [done|set_solver|set_solver]|].
  intros f w10 Hg10. apply st_lua; [done|unfold startup_errors; set_solver].
Qed.

Lemma chunk_global_in i : (1 <= i <= 16)%nat -> chunk_global i ∈ startup_globals.
Proof.
  intros Hi. unfold startup_globals. apply elem_of_app. right. apply list_elem_of_fmap_2. apply elem_of_seq. lia.
Qed.

Lemma st_chunks n : forall i w, (1 <= i)%nat -> (i + n <= 17)%nat -> good w -> starts (pin_chunks i n) w.
Proof.
  induction n as [|n IH]; intros i w Hi Hn Hg; cbn [pin_chunks]; [done|].
  apply st_bind; [apply st_pin; [done|apply chunk_global_in; lia]|]. intros key w1 Hg1.
  apply st_bind; [|intros _ w2 Hg2; apply IH; [lia|lia|done]].
  destruct Hg1 as [H Hv]. split; [|done]. apply flag_sys; try done. apply env_base; try done.
  - apply H.
  - cbn. apply length_insert.
  - intros t raw Hr. apply (ei_pend w1 (b_edge _ w1 (proj1 H)) t). by destruct t.
  - apply (ei_infos w1 (b_edge _ w1 (proj1 H))).
Qed.

Lemma st_pins w : good w -> starts initialize_pins w.
Proof.
  intros Hg. unfold initialize_pins. apply st_bind; [apply st_pin; [done|set_solver]|].
  intros ev w1 Hg1. apply st_bind; [by apply good_env|].
  intros _ w2 Hg2. apply st_bind; [apply st_global; [done|set_solver|set_solver]|].
  intros m w3 Hg3. apply st_bind; [by apply good_env|].
  intros _ w4 Hg4. apply st_bind; [apply st_global; [done|set_solver|set_solver]|].
  intros p w5 Hg5. apply st_bind; [by apply good_env|].
  intros _ w6 Hg6. apply st_bind; [apply st_global; [done|set_solver|set_solver]|].
  intros n w7 Hg7. apply st_bind; [by apply good_env|].
  intros _ w8 Hg8. apply st_when; [done|]. apply st_chunks; [lia|done|done].
Qed.

(** The start callback from the first write of [initialized] on. *)
Lemma st_start w : good (set_w_env (set_initialized true (w_env w)) w) -> w_created w = true ->
  initialized (w_env w) = false ->
  match start_callback w with
  | Ret _ w' => good w' /\ has_next_sim_time_cb (w_env w') = true
  | Panic msg _ => msg ∈ startup_errors /\ ~ cfg
  | _ => False
  end.
Proof.
  intros Hg Hc Hi. unfold start_callback, verilua_init. mrun (get_env_created w Hc).
  assert (starts initialize w) as Hs.
  { unfold initialize. apply st_assert; [intros c; apply (us_build (Hcfg c))|set_solver|]. apply st_gets. rewrite Hi.
    change (starts (initialize_bootstrap ;; initialize_scripts ;; initialize_pins) (set_w_env (set_initialized true (w_env w)) w)).
    apply st_bind; [by apply st_bootstrap|]. intros _ w1 Hg1. apply st_bind; [by apply st_scripts|].
    intros _ w2 Hg2. by apply st_pins. }
  unfold starts in Hs. unfold bind at 1. destruct (initialize w) as [[] w1|msg w1| |]; [|done..].
  destruct (st_next w1 Hs) as (w2 & E & H2 & Hn). by rewrite E.
Qed.
End Startup.

(* ------------------------------------------------------------------ *)
(** ** The fresh process *)

Section Process.
Context {Sim : Type} `{!VpiBackend Sim} `{!LuaRuntime Sim} {C0 : Containers} {F : Features}.

(** Nothing created, allocated or registered. *)
Record fresh_process (w : World Sim) : Prop := {
  fp_created : w_created w = false;
  fp_heap : w_heap w = ∅;
  fp_clocks : w_clocks w = ∅;
  fp_cbs : w_cbs w = ∅;
  fp_next : 0 < w_next w
}.

(** The environment after the startup routines. *)
Definition booted_env : VeriluaEnv := set_has_final_cb true (set_has_start_cb true VeriluaEnv_default).

Lemma freed_eq cb (w : World Sim) : accepting_registration (Sim := Sim) ->
  freed cb w = set_w_cbs (<[vpi_register_result w cb := cb]> (w_cbs w)) (set_w_trace (w_trace (freed cb w)) w).
Proof.
  intros Ha. unfold freed, registered. destruct (Z.eqb_spec (vpi_register_result w cb) 0) as [E|]; [by destruct (Ha w cb)|done].
Qed.

Lemma freed_trace cb (w : World Sim) :
  w_trace (freed cb w) = w_trace w ++ [EvRegister cb (vpi_register_result w cb); EvFree (vpi_returned w cb)].
Proof. unfold freed, registered. cbn. destruct (_ =? 0); cbn; by rewrite <- app_assoc. Qed.

Lemma startup_world (w : World Sim) : environment_ok -> fresh_process w ->
  exists w1 h1 h2, vlog_startup_routines_bootstrap w = Ret tt w1 /\ h1 <> h2 /\
    w_created w1 = true /\ w_env w1 = booted_env /\ w_heap w1 = ∅ /\ w_clocks w1 = ∅ /\ w_next w1 = w_next w /\
    w_vars w1 = w_vars w /\ w_cbs w1 = <[h2 := final_cb]> (<[h1 := start_cb]> ∅) /\
    w_trace w1 = w_trace w ++ [EvRegister start_cb h1; EvFree (if vpi_null_handle cbStartOfSimulation then 0 else h1);
      EvRegister final_cb h2; EvFree (if vpi_null_handle cbEndOfSimulation then 0 else h2)].
Proof.
  intros He [Hc Hh Hk Hcb Hn]. pose proof (ev_accept He) as Ha. pose proof (ev_fresh He) as Hf.
  unfold vlog_startup_routines_bootstrap, vlog_startup_routines. cbn [for_each].
  set (w0 := set_w_created true (set_w_env (set_has_start_cb true VeriluaEnv_default) w)).
  assert (bootstrap_register_start_callback w = Ret tt (freed start_cb w0)) as E1.
  { unfold bootstrap_register_start_callback, get_verilua_env_no_init. mrun. by rewrite Hc. }
  mrun E1. set (w1 := freed start_cb w0). pose proof (freed_eq start_cb w0 Ha) as Ew1. fold w1 in Ew1.
  set (w2 := set_w_env (set_has_final_cb true (w_env w1)) w1).
  assert (bootstrap_register_final_callback w1 = Ret tt (freed final_cb w2)) as E2.
  { unfold bootstrap_register_final_callback, get_verilua_env_no_init, do_register_final_callback.
    assert (w_created w1 = true /\ has_final_cb (w_env w1) = false) as [Hc1 Hf1] by by rewrite Ew1.
    destruct dpi; mrun; rewrite ?Hc1; cbn [negb when]; mrun; rewrite Hf1; cbn [negb when]; mrun; done. }
  mrun E2. exists (freed final_cb w2), (vpi_register_result w0 start_cb), (vpi_register_result w2 final_cb).
  pose proof (freed_eq final_cb w2 Ha) as Ew3.
  assert (w_cbs w1 = <[vpi_register_result w0 start_cb := start_cb]> ∅) as Ecb.
  { rewrite Ew1. cbn. by rewrite Hcb. }
  split_and!; [done| |by rewrite Ew3; unfold w2; rewrite Ew1..| |].
  - intros Heq. pose proof (Hf w2 final_cb (Ha _ _)) as Hx. change (w_cbs w2) with (w_cbs w1) in Hx.
    rewrite Ecb, Heq, lookup_insert_eq in Hx. done.
  - rewrite Ew3. cbn [w_cbs set_w_cbs]. change (w_cbs w2) with (w_cbs w1). by rewrite Ecb.
  - rewrite freed_trace. change (w_trace w2) with (w_trace w1). unfold w1. rewrite freed_trace. by rewrite <- app_assoc.
Qed.

(** The invariant of the running system, once [initialized] is set. *)
Lemma blank_inv (w : World Sim) e : build_ok ->
  w_created w = true -> w_heap w = ∅ -> w_clocks w = ∅ -> 0 < w_next w ->
  e = set_initialized true booted_env -> (forall h cb, w_cbs w !! h = Some cb -> cb = final_cb) ->
  sys_inv (set_w_env e w).
Proof.
  intros Hb Hc Hh Hk Hn -> Hcb. split; [split|split]; cbn.
  - split; cbn; rewrite ?Hh.
    + split; [constructor|]. split; [by intros r c|]. intros x Hx. by apply elem_of_nil in Hx.
    + by intros ?? ?.
    + by intros ??.
    + done.
  - intros r c. cbn. by rewrite Hh.
  - done.
  - split; cbn; [by intros ??|]. by rewrite Hh.
  - split; cbn; rewrite ?Hk; try done. intros h cb Hx Ht. by rewrite (Hcb h cb Hx) in Ht.
  - split; cbn; try done.
    + intros h cb Hx Hs. rewrite (Hcb h cb Hx) in Hs. by destruct Hs as [?|[??]].
    + intros [] raw [x Hx]; cbn in Hx; by rewrite lookup_empty in Hx.
    + intros raw [x Hx]. by rewrite lookup_empty in Hx.
  - intros _. assert (forall k x, ~ waits_at (set_w_env (set_initialized true booted_env) w) k x) as Hno.
    { intros k [[raw t] task] (h & cb & Hx & _). change ((∅ : gmap Z Z) !! k = Some h) in Hx. by rewrite lookup_empty in Hx. }
    assert (forall x, count_of (set_w_env (set_initialized true booted_env) w) x = 0) as Hz.
    { intros [[raw t] task]. unfold count_of. cbn. by rewrite Hh. }
    split.
    + apply NoDup_nil_2.
    + intros x k _. apply Hno.
    + intros x k1 k2 Hx. by apply Hno in Hx.
    + intros x. rewrite Hz. split; [lia|]. intros [Hx|[k Hx]]; [by apply elem_of_nil in Hx|by apply Hno in Hx].
    + intros x. by rewrite Hz.
  - intros h cb Hx. by rewrite (Hcb h cb Hx).
  - done.
  - done.
  - done.
  - by intros _ Hp.
  - done.
Qed.

(** The start callback in a process that has booted and nothing else. *)
Lemma booted_start cfg (w : World Sim) : environment_ok -> build_ok -> (cfg -> usable (Sim := Sim)) -> (cfg -> vars_ok w) ->
  w_created w = true -> w_env w = booted_env -> w_heap w = ∅ -> w_clocks w = ∅ -> 0 < w_next w ->
  (forall h cb, w_cbs w !! h = Some cb -> cb = final_cb) ->
  match start_callback w with
  | Ret _ w' => sys_inv w' /\ has_next_sim_time_cb (w_env w') = true
  | Panic msg _ => msg ∈ startup_errors /\ ~ cfg
  | _ => False
  end.
Proof.
  intros He Hb Hcfg Hvars Hc Hv Hh Hk Hn Hcb.
  assert (good cfg (set_w_env (set_initialized true (w_env w)) w)) as Hg by (split; [by apply blank_inv; try done; rewrite Hv|exact Hvars]).
  pose proof (st_start He Hb cfg Hcfg w Hg Hc ltac:(by rewrite Hv)) as Hst.
  destruct (start_callback w) as [[] w2|msg w2| |]; try done. by destruct Hst as [[H2 _] Hn2].
Qed.

(** C5: from process start to the running system.  In a fresh process the startup
    routines leave the start callback registered; when the simulator fires it, the
    handler - loading the Lua side, whatever its scripts do through the library -
    ends, and either the invariant of the running system holds with the heartbeat
    installed, and goes on holding along every sequence of events, or it panics
    with one of the configuration messages or that of a script that failed, which a
    configured start with scripts that raise no error never does. *)
Theorem process_start_safe (w : World Sim) :
  environment_ok -> build_ok -> fresh_process w ->
  exists w1 h, vlog_startup_routines_bootstrap w = Ret tt w1 /\ w_cbs w1 !! h = Some start_cb /\
    forall fuel z, (2 <= fuel)%nat ->
      match fire fuel h z w1 with
      | Ret _ w2 => sys_inv w2 /\ has_next_sim_time_cb (w_env w2) = true /\
          (forall w3, rtc (event fuel) w2 w3 -> sys_inv w3)
      | Panic msg _ => msg ∈ startup_errors /\ ~ (usable (Sim := Sim) /\ vars_ok w)
      | _ => False
      end.
Proof.
  intros He Hb Hfresh. destruct (startup_world w He Hfresh) as (w1 & h1 & h2 & E & Hne & Hc & Hv & Hh & Hk & Hn & Hvars & Hcbs & _).
  assert (w_cbs w1 !! h1 = Some start_cb) as Hs by (rewrite Hcbs, lookup_insert_ne by done; apply lookup_insert_eq).
  exists w1, h1. split; [done|]. split; [done|]. intros fuel z Hfuel.
  rewrite (fire_one_shot fuel h1 z start_cb w1 Hs eq_refl). unfold dispatch. cbn [cb_rtn start_cb].
  pose proof (booted_start (usable (Sim := Sim) /\ vars_ok w) (released h1 w1) He Hb (fun c => proj1 c)) as Hst.
  assert (forall h cb, w_cbs (released h1 w1) !! h = Some cb -> cb = final_cb) as Hfin.
  { intros h cb. cbn. rewrite Hcbs, lookup_delete_Some, lookup_insert_Some, lookup_insert_Some, lookup_empty. naive_solver. }
  specialize (Hst ltac:(intros [_ Hvo]; unfold vars_ok in *; cbn; by rewrite Hvars) Hc Hv Hh Hk ltac:(cbn; rewrite Hn; apply Hfresh) Hfin).
  destruct (start_callback (released h1 w1)) as [[] w2|msg w2| |]; try done.
  destruct Hst as [H2 Hn2]. split_and!; [done|done|]. intros w3 Hr. by apply (events_sys fuel w2).
Qed.
End Process.

(* ------------------------------------------------------------------ *)
(** ** Witness: the demo simulator from the first instruction on *)

#[local] Existing Instance WaitLua.

Definition bootstrapped : World CountSim :=
  after (vlog_startup_routines_bootstrap (F := merge_features)) fresh_world.

Lemma fresh_world_fresh : fresh_process fresh_world.
Proof. done. Qed.

Lemma bootstrapped_held h : w_cbs bootstrapped !! h = Some start_cb -> h = 1.
Proof.
  assert (w_cbs bootstrapped = <[2 := final_cb]> (<[1 := start_cb]> ∅)) as -> by (vm_compute; reflexivity).
  rewrite !lookup_insert_Some, lookup_empty. naive_solver.
Qed.

Lemma process_start_safe_witness :
  exists w2, fire (F := merge_features) 2 1 0 bootstrapped = Ret tt w2 /\ sys_inv (F := merge_features) w2 /\
    has_next_sim_time_cb (w_env w2) = true.
Proof.
  destruct (process_start_safe (F := merge_features) fresh_world wait_environment merge_build fresh_world_fresh)
    as (w1 & h & E & Hh & Hs).
  assert (vlog_startup_routines_bootstrap (F := merge_features) fresh_world = Ret tt bootstrapped) as E' by (vm_compute; reflexivity).
  assert (w1 = bootstrapped) as -> by congruence.
  assert (h = 1) as -> by exact (bootstrapped_held h Hh).
  specialize (Hs 2%nat 0 (le_n 2)).
  assert (exists w2, fire (F := merge_features) 2 1 0 bootstrapped = Ret tt w2) as [w2 E2]
    by (eexists; vm_compute; reflexivity).
  exists w2. rewrite E2 in Hs. destruct Hs as (H2 & Hn & _). split; [exact E2|]. split; [exact H2|exact Hn].
Defined.
