(* ===== verification/WaveValue.v ===== *)
(** * Waveform values and time

    The pure part of the waveform back end [wave_vpi/wellen_impl/src/lib.rs]:
    conversion of recorded values to words, hexadecimal and decimal text, and
    the search of the time table.  Strings the code builds byte by byte are
    lists of bytes; [u8] arithmetic wraps as in the release profile. *)

From S2P Require Import Prelude Bytes.
From Stdlib Require Import Sorting.Sorted.
#[local] Open Scope Z_scope.

(** ** Words *)

Definition div_ceil (a b : nat) : nat := ((a + b - 1) / b)%nat.

(** [chunks_exact(n)] on a slice; the rest shorter than [n] is dropped. *)
Fixpoint chunks_exact (fuel n : nat) (l : list byte) : list (list byte) :=
  match fuel with
  | O => []
  | S fuel => if (length l <? n)%nat then [] else take n l :: chunks_exact fuel n (drop n l)
  end.

(** [BigEndian::read_u32] of a four-byte chunk. *)
Definition read_u32_be (chunk : list byte) : Z := be_value chunk.

(** The loop that builds the padded first word: byte [i] of [k] is shifted to
    its place. *)
Definition first_word (k : nat) (bytes : list byte) : Z :=
  fold_left (fun acc '(i, b) => u32 (Z.lor acc (Z.shiftl (byteZ b) ((Z.of_nat k - 1 - Z.of_nat i) * 8))))
            (imap (fun i b => (i, b)) (take k bytes)) 0.

Definition bytes_to_u32s_be (bytes : list byte) : list Z :=
  let len := length bytes in
  let padding := ((4 - len mod 4) mod 4)%nat in
  if (0 <? padding)%nat then
    first_word (4 - padding) bytes
      :: map read_u32_be (chunks_exact len 4 (drop (4 - padding) bytes))
  else map read_u32_be (chunks_exact len 4 bytes).

Definition bytes_last_u32_be (bytes : list byte) : Z :=
  let len := length bytes in
  if (4 <=? len)%nat then read_u32_be (drop (len - 4) bytes)
  else be_value (replicate (4 - len) x00 ++ bytes).

Definition cover_with_32 (size : nat) : nat := div_ceil size 32.

(** ** Text *)

(** [(nibble << 1) | (b - b'0')] in [u8]. *)
Definition nibble_step (nibble : Z) (b : byte) : Z :=
  Z.lor (u8 (Z.shiftl nibble 1)) (u8 (byteZ b - 0x30)).
Definition nibble_of (chunk : list byte) : Z := fold_left nibble_step chunk 0.

(** The digit of a nibble: [b'0' + nibble] or [b'a' + nibble - 10]. *)
Definition digit_of (nibble : Z) : Z :=
  if nibble <? 10 then u8 (0x30 + nibble) else u8 (0x61 + nibble - 10).

(** [String::push] of a [u8] converted with [as char]: UTF-8 of U+0000..U+00FF. *)
Definition push_char (c : Z) : list byte :=
  if c <? 0x80 then [Zbyte c] else [Zbyte (Z.lor 0xC0 (Z.shiftr c 6)); Zbyte (Z.lor 0x80 (Z.land c 0x3F))].

(** [chunks(4)]: the last chunk may be shorter. *)
Fixpoint chunks (fuel n : nat) (l : list byte) : list (list byte) :=
  match fuel, l with
  | S fuel, _ :: _ => take n l :: chunks fuel n (drop n l)
  | _, _ => []
  end.

Definition has (c : byte) (l : list byte) : bool := bool_decide (c ∈ l).

Definition xz_digit (chunk : list byte) : list byte :=
  if has "x" chunk then ["x"%byte]
  else if has "z" chunk then ["z"%byte]
  else push_char (digit_of (nibble_of chunk)).

Definition padding_of (len : nat) : nat := ((4 - len mod 4) mod 4)%nat.

Definition bit_string_to_hex_with_xz (bit_str : list byte) : list byte :=
  let len := length bit_str in
  if (len =? 0)%nat then ["0"%byte] else
  let padded := replicate (padding_of len) "0"%byte ++ bit_str in
  concat (map xz_digit (chunks (length padded) 4 padded)).

(** The two-state hexadecimal path: a first digit from the unpadded bits, then
    the [while idx < len] loop over four bits at a time. *)
Fixpoint hex_loop (fuel : nat) (bytes : list byte) (idx : nat) : option (list byte) :=
  if (idx <? length bytes)%nat then
    match fuel with
    | O => None
    | S fuel =>
        match hex_loop fuel bytes (idx + 4) with
        | Some rest => Some (Zbyte (digit_of (nibble_of (take 4 (drop idx bytes)))) :: rest)
        | None => None
        end
    end
  else Some [].

Definition two_state_hex (bits : list byte) : option (list byte) :=
  let len := length bits in
  let padding := padding_of len in
  if (0 <? padding)%nat then
    match hex_loop len bits (4 - padding) with
    | Some rest => Some (Zbyte (digit_of (nibble_of (take (4 - padding) bits))) :: rest)
    | None => None
    end
  else hex_loop len bits 0.

(** [u128::from_str_radix(s, 16)]. *)
Definition from_str_radix_16 (s : list byte) : option Z :=
  let digits := match s with b :: r => if bool_decide (b = "+"%byte) then r else s | [] => [] end in
  if (length digits =? 0)%nat then None
  else if forallb (fun b => match hex_digit b with Some _ => true | None => false end) digits
       then if hex_value digits <? 2 ^ 128 then Some (hex_value digits) else None
       else None.

(** The decimal text of a value that may hold X or Z. *)
Definition x_state_dec (bits : list byte) : string :=
  let hex := bit_string_to_hex_with_xz bits in
  if has "x" hex || has "z" hex then "x"%string
  else match from_str_radix_16 hex with Some v => to_decimal v | None => "x"%string end.

(** ** The time table *)

(** The halving loop of [slice::binary_search]: [base] and [size] narrow the
    range; [mid] is taken unless its element is greater. *)
Fixpoint bs_loop (fuel : nat) (t : list Z) (time : Z) (base size : nat) : option nat :=
  if (1 <? size)%nat then
    match fuel with
    | O => None
    | S fuel =>
        let half := (size / 2)%nat in
        let mid := (base + half)%nat in
        let base := if time <? nth mid t 0 then base else mid in
        bs_loop fuel t time base (size - half)
    end
  else Some base.

Definition binary_search (t : list Z) (time : Z) : option (nat + nat) :=
  if (length t =? 0)%nat then Some (inr 0%nat) else
  match bs_loop (length t) t time 0 (length t) with
  | Some base =>
      let v := nth base t 0 in
      if v =? time then Some (inl base)
      else Some (inr (base + (if Z.ltb v time then 1 else 0))%nat)
  | None => None
  end.

Definition find_nearest_time_index (t : list Z) (time : Z) : option nat :=
  match binary_search t time with
  | Some (inl index) => Some index
  | Some (inr index) => Some (Nat.min (index - 1) (length t - 1))
  | None => None
  end.

(* ------------------------------------------------------------------ *)
(** ** Words: lemmas *)

Definition words_value (ws : list Z) : Z := fold_left (fun a w => a * 2 ^ 32 + w) ws 0.

Lemma words_value_acc ws a :
  fold_left (fun a w => a * 2 ^ 32 + w) ws a = a * 2 ^ (32 * Z.of_nat (length ws)) + words_value ws.
Proof.
  unfold words_value. revert a. induction ws as [|w ws IH]; intros a; cbn [fold_left length].
  - cbn. lia.
  - rewrite (IH (a * 2 ^ 32 + w)), (IH (0 * 2 ^ 32 + w)).
    rewrite Nat2Z.inj_succ, Z.mul_succ_r, Z.pow_add_r by lia. ring.
Qed.

Lemma words_value_cons w ws :
  words_value (w :: ws) = w * 2 ^ (32 * Z.of_nat (length ws)) + words_value ws.
Proof. unfold words_value at 1. cbn [fold_left]. by rewrite words_value_acc. Qed.

Lemma chunks_exact_words n (l : list byte) fuel :
  length l = (4 * n)%nat -> (n <= fuel)%nat ->
  length (chunks_exact fuel 4 l) = n /\
  words_value (map read_u32_be (chunks_exact fuel 4 l)) = be_value l /\
  Forall (in_width 32) (map read_u32_be (chunks_exact fuel 4 l)) /\
  (l <> [] -> last (map read_u32_be (chunks_exact fuel 4 l)) = Some (be_value (drop (length l - 4) l))).
Proof.
  revert l fuel. induction n as [|n IH]; intros l fuel Hl Hf.
  { destruct l; [|done]. destruct fuel; cbn; repeat split; auto; done. }
  destruct fuel as [|fuel]; [lia|]. cbn [chunks_exact].
  destruct (Nat.ltb_spec (length l) 4); [lia|].
  destruct (IH (drop 4 l) fuel) as (H1 & H2 & H3 & H4); [rewrite length_drop; lia|lia|].
  cbn [map length]. repeat split.
  - by rewrite H1.
  - rewrite words_value_cons, length_map, H1, H2. unfold read_u32_be.
    rewrite <- (take_drop 4 l) at 3. rewrite be_value_app, length_drop, Hl.
    replace (Z.of_nat (4 * S n - 4)) with (4 * Z.of_nat n) by lia.
    rewrite (Z.mul_comm 32), (Z.mul_comm 4), !Z.pow_mul_r by lia.
    f_equal. f_equal. rewrite <- !Z.pow_mul_r by lia. change 256 with (2 ^ 8).
    rewrite <- Z.pow_mul_r by lia. f_equal. lia.
  - constructor; [|done]. unfold in_width, read_u32_be. pose proof (be_value_bound (take 4 l)) as Hb.
    rewrite length_take in Hb. replace (4 `min` length l)%nat with 4%nat in Hb by lia.
    change (2 ^ 32) with (256 ^ Z.of_nat 4). done.
  - intros _. rewrite last_cons. destruct n as [|n].
    + destruct (chunks_exact fuel 4 (drop 4 l)); [|done]. cbn. unfold read_u32_be.
      rewrite Hl. cbn. by rewrite take_ge by lia.
    + rewrite H4 by (intros E%(f_equal length); rewrite length_drop in E; cbn in E; lia).
      rewrite length_drop, drop_drop. do 3 f_equal. lia.
Qed.

Lemma lor_add w hi lo : 0 <= w -> in_width w lo -> Z.lor (hi * 2 ^ w) lo = hi * 2 ^ w + lo.
Proof.
  intros Hw Hlo. rewrite <- Z.shiftl_mul_pow2 by lia.
  assert (Z.land (Z.shiftl hi w) lo = 0) as Hl.
  { rewrite <- (wrap_small w lo Hlo). unfold wrap. apply Z.bits_inj_0. intros n.
    rewrite Z.land_spec. destruct (decide (n < w)).
    - by rewrite Z.shiftl_spec_low by lia.
    - by rewrite Z.mod_pow2_bits_high, andb_false_r by lia. }
  by rewrite (Z.add_nocarry_lxor _ _ Hl), (Z.lxor_lor _ _ Hl).
Qed.

Lemma first_word_value k bytes :
  (0 < k < 4)%nat -> (k <= length bytes)%nat -> first_word k bytes = be_value (take k bytes).
Proof.
  intros Hk Hl. unfold first_word. assert (length (take k bytes) = k) as Ht by (rewrite length_take; lia).
  set (l := take k bytes) in *. clearbody l.
  destruct k as [|[|[|[|k]]]]; try lia; destruct l as [|a [|b [|c [|? ?]]]]; try done;
    unfold be_value; cbn -[Z.lor Z.shiftl Z.mul Z.add le_value u32]; unfold le_value;
    rewrite ?Z.shiftl_0_r, ?Z.lor_0_l; pose proof (byteZ_bound a).
  - unfold u32. rewrite wrap_small; [lia|split; lia].
  - pose proof (byteZ_bound b). rewrite Z.shiftl_mul_pow2 by lia.
    unfold u32 at 2. rewrite wrap_small by (split; lia). change ((Z.of_nat 2 - 1 - Z.of_nat 0) * 8) with 8.
    rewrite lor_add by (try split; lia). unfold u32. rewrite wrap_small by (split; lia). lia.
  - pose proof (byteZ_bound b). pose proof (byteZ_bound c). rewrite !Z.shiftl_mul_pow2 by lia.
    unfold u32 at 3. rewrite wrap_small by (split; lia).
    change ((Z.of_nat 3 - 1 - Z.of_nat 0) * 8) with 16. change ((Z.of_nat 3 - 1 - Z.of_nat 1) * 8) with 8.
    rewrite (lor_add 16) by (try split; lia).
    unfold u32 at 2. rewrite wrap_small by (split; lia).
    replace (byteZ a * 2 ^ 16 + byteZ b * 2 ^ 8) with ((byteZ a * 2 ^ 8 + byteZ b) * 2 ^ 8) by lia.
    rewrite lor_add by (try split; lia). unfold u32. rewrite wrap_small by (split; lia). lia.
Qed.

Lemma mod4_padding len : exists q p : nat,
  (len + p = 4 * q)%nat /\ (p < 4)%nat /\ padding_of len = p /\ div_ceil len 4 = q.
Proof.
  unfold padding_of, div_ceil. pose proof (Nat.div_mod len 4 ltac:(lia)) as Hd.
  pose proof (Nat.mod_upper_bound len 4 ltac:(lia)) as Hm.
  set (r := (len mod 4)%nat) in *. set (d := (len / 4)%nat) in *.
  destruct r as [|[|[|[|r]]]]; [..|lia];
    [exists d, 0%nat|exists (S d), 3%nat|exists (S d), 2%nat|exists (S d), 1%nat];
    (split; [lia|split; [lia|split; [done|]]]); symmetry;
    [apply Nat.div_unique with 3%nat|apply Nat.div_unique with 0%nat
    |apply Nat.div_unique with 1%nat|apply Nat.div_unique with 2%nat]; lia.
Qed.

Lemma be_value_zeros n : be_value (replicate n x00) = 0.
Proof.
  unfold be_value. induction n as [|n IH]; [done|].
  cbn [replicate rev]. rewrite le_value_app, IH. cbn [le_value]. by rewrite Z.mul_0_r.
Qed.

Lemma words_facts bytes :
  length (bytes_to_u32s_be bytes) = div_ceil (length bytes) 4 /\
  words_value (bytes_to_u32s_be bytes) = be_value bytes /\
  Forall (in_width 32) (bytes_to_u32s_be bytes) /\
  (bytes <> [] -> last (bytes_to_u32s_be bytes) = Some (bytes_last_u32_be bytes)).
Proof.
  destruct (mod4_padding (length bytes)) as (q & p & Hq & Hp & Hpad & Hdiv).
  unfold bytes_to_u32s_be. fold (padding_of (length bytes)). rewrite Hpad, Hdiv.
  unfold bytes_last_u32_be. destruct (Nat.ltb_spec 0 p) as [Hp0|Hp0].
  - assert (4 - p <= length bytes)%nat as Hk by (destruct q; [|lia]; lia).
    destruct (chunks_exact_words (q - 1) (drop (4 - p) bytes) (length bytes)) as (H1 & H2 & H3 & H4);
      [rewrite length_drop; lia|lia|].
    rewrite first_word_value by lia. cbn [length]. rewrite length_map, words_value_cons, length_map, H1, H2.
    pose proof (be_value_bound (take (4 - p) bytes)) as Hb. rewrite length_take in Hb.
    replace ((4 - p) `min` length bytes)%nat with (4 - p)%nat in Hb by lia.
    assert (in_width 32 (be_value (take (4 - p) bytes))) as Hw.
    { split; [lia|]. eapply Z.lt_le_trans; [apply Hb|]. change (2 ^ 32) with (256 ^ 4).
      apply Z.pow_le_mono_r; lia. }
    repeat split.
    + lia.
    + rewrite <- (take_drop (4 - p) bytes) at 3. rewrite be_value_app, length_drop.
      f_equal. f_equal. change 256 with (2 ^ 8). rewrite <- Z.pow_mul_r by lia. f_equal. lia.
    + by constructor.
    + intros _. rewrite last_cons. destruct (Nat.leb_spec 4 (length bytes)).
      * rewrite H4 by (intros E%(f_equal length); rewrite length_drop in E; cbn in E; lia).
        rewrite length_drop, drop_drop. unfold read_u32_be. do 3 f_equal. lia.
      * assert (drop (4 - p) bytes = []) as -> by (apply drop_ge; lia).
        replace (map read_u32_be (chunks_exact (length bytes) 4 [])) with (@nil Z)
          by (by destruct (length bytes)).
        cbn. f_equal. rewrite take_ge by lia. rewrite be_value_app.
        rewrite be_value_zeros. lia.
  - assert (p = 0)%nat as -> by lia.
    destruct (chunks_exact_words q bytes (length bytes)) as (H1 & H2 & H3 & H4); [lia|lia|].
    rewrite length_map. repeat split; auto. intros Hne. rewrite H4 by done.
    destruct (Nat.leb_spec 4 (length bytes)); [done|]. destruct bytes; [done|cbn in *; lia].
Qed.

(* ------------------------------------------------------------------ *)
(** ** Text: lemmas *)

Definition bit01 (b : byte) : Prop := b = "0"%byte \/ b = "1"%byte.
Definition xz (b : byte) : Prop := b = "x"%byte \/ b = "z"%byte.
#[export] Instance xz_decision b : Decision (xz b).
Proof. unfold xz. apply _. Defined.

(** The number a string of binary digits denotes. *)
Definition bit_value (l : list byte) : Z := fold_left (fun a b => 2 * a + (byteZ b - 0x30)) l 0.

Lemma bit_value_acc l a :
  fold_left (fun a b => 2 * a + (byteZ b - 0x30)) l a = a * 2 ^ Z.of_nat (length l) + bit_value l.
Proof.
  unfold bit_value. revert a. induction l as [|b l IH]; intros a; cbn [fold_left length]; [lia|].
  rewrite (IH (2 * a + _)), (IH (2 * 0 + _)), Nat2Z.inj_succ, Z.pow_succ_r by lia. ring.
Qed.

Lemma bit_value_app l1 l2 :
  bit_value (l1 ++ l2) = bit_value l1 * 2 ^ Z.of_nat (length l2) + bit_value l2.
Proof. unfold bit_value at 1. by rewrite fold_left_app, bit_value_acc. Qed.

Lemma hex_value_acc l a :
  fold_left (fun a b => 16 * a + default 0 (hex_digit b)) l a =
  a * 16 ^ Z.of_nat (length l) + hex_value l.
Proof.
  unfold hex_value. revert a. induction l as [|b l IH]; intros a; cbn [fold_left length]; [lia|].
  rewrite (IH (16 * a + _)), (IH (16 * 0 + _)), Nat2Z.inj_succ, Z.pow_succ_r by lia. ring.
Qed.

Lemma hex_value_cons b l :
  hex_value (b :: l) = default 0 (hex_digit b) * 16 ^ Z.of_nat (length l) + hex_value l.
Proof. unfold hex_value at 1. cbn [fold_left]. by rewrite hex_value_acc. Qed.

(** At most four binary digits: no wrap-around happens. *)
Lemma nibble_ok l :
  Forall bit01 l -> (length l <= 4)%nat -> nibble_of l = bit_value l /\ 0 <= nibble_of l < 16.
Proof.
  intros Hl Hn. destruct l as [|a [|b [|c [|d [|e l]]]]]; [| | | | |cbn in Hn; lia];
    repeat match goal with H : Forall _ (_ :: _) |- _ => apply Forall_cons in H as [[-> | ->] H] end;
    by vm_compute.
Qed.

Lemma nibble_pad p l : nibble_of (replicate p "0"%byte ++ l) = nibble_of l.
Proof. unfold nibble_of. rewrite fold_left_app. by induction p. Qed.

Definition nib_digit (n : Z) : byte := Zbyte (digit_of n).

Lemma nib_digit_ok n : 0 <= n < 16 ->
  hex_digit (nib_digit n) = Some n /\ push_char (digit_of n) = [nib_digit n] /\
  nib_digit n <> "x"%byte /\ nib_digit n <> "z"%byte /\ nib_digit n <> "+"%byte.
Proof.
  intros Hn. assert (exists k, (k < 16)%nat /\ n = Z.of_nat k) as (k & Hk & ->)
    by (exists (Z.to_nat n); lia).
  do 16 (destruct k as [|k]; [by vm_compute|]). lia.
Qed.

Lemma has_spec c l : has c l = true <-> c ∈ l.
Proof. unfold has. by rewrite bool_decide_eq_true. Qed.

Lemma has_01 l : Forall bit01 l -> has "x" l = false /\ has "z" l = false.
Proof.
  intros Hl. rewrite Forall_forall in Hl.
  split; apply not_true_is_false; intros [|]%has_spec%Hl; done.
Qed.

(** Digits of four-bit groups. *)
Lemma xz_digit_01 l : Forall bit01 l -> (length l <= 4)%nat -> xz_digit l = [nib_digit (nibble_of l)].
Proof.
  intros Hl Hn. unfold xz_digit. destruct (has_01 l Hl) as [-> ->].
  destruct (nibble_ok l Hl Hn) as [_ Hb]. by apply nib_digit_ok.
Qed.

Lemma chunks_unfold fuel n l : (0 < n)%nat -> (length l <= fuel)%nat -> l <> [] ->
  chunks fuel n l = take n l :: chunks (fuel - 1) n (drop n l).
Proof.
  intros Hn Hf Hl. destruct fuel as [|fuel]; [destruct l; cbn in *; [done|lia]|].
  destruct l; [done|]. cbn [chunks]. do 2 f_equal. lia.
Qed.

Definition hex_char (b : byte) : Prop := exists n, 0 <= n < 16 /\ b = nib_digit n.

Lemma bit_value_nonneg l : Forall bit01 l -> 0 <= bit_value l < 2 ^ Z.of_nat (length l).
Proof.
  induction l as [|b l IH] using rev_ind; intros Hl; [by vm_compute|].
  apply Forall_app in Hl as [Hl Hb]. rewrite Forall_singleton in Hb. specialize (IH Hl).
  rewrite bit_value_app, length_app. cbn [length].
  rewrite Nat2Z.inj_add, Z.pow_add_r by lia. change (2 ^ Z.of_nat 1) with 2.
  assert (0 <= bit_value [b] < 2) by (unfold bit01 in Hb; destruct Hb; subst b; by vm_compute). lia.
Qed.

Lemma chunks_hex n l fuel :
  length l = (4 * n)%nat -> (4 * n <= fuel)%nat -> Forall bit01 l ->
  let h := concat (map xz_digit (chunks fuel 4 l)) in
  length h = n /\ hex_value h = bit_value l /\ Forall hex_char h.
Proof.
  revert l fuel. induction n as [|n IH]; intros l fuel Hl Hf H01; cbn zeta.
  { destruct l; [|done]. destruct fuel; by vm_compute. }
  rewrite chunks_unfold by (try lia; intros ->; done). cbn [map concat].
  destruct (IH (drop 4 l) (fuel - 1)%nat) as (H1 & H2 & H3);
    [rewrite length_drop; lia|lia|by apply Forall_drop|].
  assert (Forall bit01 (take 4 l)) as Ht by by apply Forall_take.
  rewrite xz_digit_01 by (auto; rewrite length_take; lia).
  destruct (nibble_ok (take 4 l) Ht) as [Hv Hb]; [rewrite length_take; lia|].
  destruct (nib_digit_ok _ Hb) as [Hd _]. cbn [app length]. repeat split.
  - by rewrite H1.
  - rewrite hex_value_cons, Hd, H1, H2. cbn [default from_option id].
    rewrite <- (take_drop 4 l) at 3. rewrite bit_value_app, length_drop, Hv. f_equal. f_equal.
    change 16 with (2 ^ 4). rewrite <- Z.pow_mul_r by lia. f_equal. lia.
  - constructor; [|done]. by exists (nibble_of (take 4 l)).
Qed.

Lemma hex_loop_chunks n bits idx fuel fuel' :
  length bits = (idx + 4 * n)%nat -> (n <= fuel)%nat -> (4 * n <= fuel')%nat -> Forall bit01 bits ->
  hex_loop fuel bits idx = Some (concat (map xz_digit (chunks fuel' 4 (drop idx bits)))).
Proof.
  revert idx fuel fuel'. induction n as [|n IH]; intros idx fuel fuel' Hl Hf Hf' H01.
  - assert (drop idx bits = []) as -> by (apply drop_ge; lia).
    destruct fuel; cbn [hex_loop]; (destruct (Nat.ltb_spec idx (length bits)); [lia|]);
      by destruct fuel'.
  - destruct fuel as [|fuel]; [lia|]. cbn [hex_loop].
    destruct (Nat.ltb_spec idx (length bits)); [|lia].
    rewrite (IH (idx + 4)%nat fuel (fuel' - 1)%nat) by (auto; lia).
    assert (length (drop idx bits) = (4 * S n)%nat) by (rewrite length_drop; lia).
    rewrite (chunks_unfold fuel' 4) by (try lia; intros E; rewrite E in *; done).
    cbn [map concat]. rewrite xz_digit_01, drop_drop.
    + cbn [app]. done.
    + by apply Forall_take, Forall_drop.
    + rewrite length_take. lia.
Qed.

Lemma padding_01 p : Forall bit01 (replicate p "0"%byte).
Proof. apply Forall_replicate. by left. Qed.

Lemma bit_value_pad p l : bit_value (replicate p "0"%byte ++ l) = bit_value l.
Proof.
  rewrite bit_value_app. assert (bit_value (replicate p "0"%byte) = 0) as ->; [|lia].
  induction p; [done|]. unfold bit_value in *. cbn [replicate fold_left]. done.
Qed.

(** The hexadecimal text of binary digits, on both paths. *)
Lemma hex_facts bits : Forall bit01 bits -> bits <> [] ->
  let h := bit_string_to_hex_with_xz bits in
  two_state_hex bits = Some h /\ length h = div_ceil (length bits) 4 /\
  hex_value h = bit_value bits /\ Forall hex_char h.
Proof.
  intros H01 Hne. destruct (mod4_padding (length bits)) as (q & p & Hq & Hp & Hpad & Hdiv).
  unfold bit_string_to_hex_with_xz, two_state_hex. rewrite Hpad.
  assert (length bits <> 0)%nat by (destruct bits; done).
  destruct (Nat.eqb_spec (length bits) 0); [done|].
  set (padded := replicate p "0"%byte ++ bits). cbn zeta.
  assert (length padded = (4 * q)%nat) as Hlp by (unfold padded; rewrite length_app, length_replicate; lia).
  assert (Forall bit01 padded) as Hp01 by (apply Forall_app; auto using padding_01).
  destruct (chunks_hex q padded (length padded)) as (H1 & H2 & H3); [done|lia|done|].
  split; [|rewrite H1, Hdiv, H2; unfold padded; rewrite bit_value_pad; done].
  destruct (Nat.ltb_spec 0 p).
  - rewrite (hex_loop_chunks (q - 1) bits (4 - p) _ (length padded - 1)%nat) by (auto; lia).
    rewrite (chunks_unfold (length padded)) by (try lia; intros E; rewrite E in Hlp; cbn in Hlp; lia).
    cbn [map concat].
    assert (take 4 padded = replicate p "0"%byte ++ take (4 - p) bits) as Ht.
    { unfold padded. rewrite take_app, take_ge by (rewrite length_replicate; lia). by rewrite length_replicate. }
    assert (drop 4 padded = drop (4 - p) bits) as Hd.
    { unfold padded. rewrite drop_app, drop_ge by (rewrite length_replicate; lia). by rewrite length_replicate. }
    rewrite Hd, Ht, xz_digit_01, nibble_pad.
    + done.
    + apply Forall_app. split; [apply padding_01|by apply Forall_take].
    + rewrite length_app, length_replicate, length_take. lia.
  - assert (p = 0)%nat as -> by lia. rewrite (hex_loop_chunks q bits 0 _ (length padded)) by (auto; lia).
    done.
Qed.

Definition bit01xz (b : byte) : Prop := bit01 b \/ xz b.

Lemma concat_chunks fuel n l : (0 < n)%nat -> (length l <= fuel)%nat -> concat (chunks fuel n l) = l.
Proof.
  intros Hn. revert l. induction fuel as [|fuel IH]; intros l Hf.
  - by destruct l; [|cbn in Hf; lia].
  - destruct l as [|b l]; [done|]. rewrite chunks_unfold by (try lia; done). cbn [concat].
    replace (S fuel - 1)%nat with fuel by lia.
    rewrite IH by (rewrite length_drop; cbn [length] in *; lia). apply take_drop.
Qed.

Lemma chunks_length fuel n l : Forall (fun c => (length c <= n)%nat) (chunks fuel n l).
Proof.
  revert l. induction fuel as [|fuel IH]; intros l; [constructor|].
  destruct l; [constructor|]. cbn [chunks]. constructor; [|apply IH].
  rewrite length_take. lia.
Qed.

Lemma xz_digit_cases l : Forall bit01xz l -> (length l <= 4)%nat ->
  (Exists xz l -> xz_digit l = ["x"%byte] \/ xz_digit l = ["z"%byte]) /\
  (~ Exists xz l -> Forall hex_char (xz_digit l) /\ Forall bit01 l).
Proof.
  intros Hl Hn. split.
  - intros (b & Hb & Hxz)%Exists_exists. unfold xz_digit. destruct (has "x" l) eqn:Ex; [by left|].
    destruct (has "z" l) eqn:Ez; [by right|]. exfalso.
    destruct Hxz as [-> | ->]; apply has_spec in Hb; congruence.
  - intros Hne. assert (Forall bit01 l) as H01.
    { apply Forall_forall. intros b Hb. rewrite Forall_forall in Hl.
      destruct (Hl b Hb) as [|Hx]; [done|]. destruct Hne. apply Exists_exists. eauto. }
    split; [|done]. rewrite xz_digit_01 by done. constructor; [|constructor].
    destruct (nibble_ok l H01 Hn) as [_ Hb]. by exists (nibble_of l).
Qed.

Lemma hex_char_not_xz b : hex_char b -> ~ xz b.
Proof.
  intros (n & Hn & ->) Hx. destruct (nib_digit_ok n Hn) as (_ & _ & ? & ? & _). by destruct Hx.
Qed.

(** The hexadecimal text has an X or Z digit exactly when a bit is X or Z. *)
Lemma hex_xz bits : Forall bit01xz bits ->
  has "x" (bit_string_to_hex_with_xz bits) || has "z" (bit_string_to_hex_with_xz bits) = true
  <-> Exists xz bits.
Proof.
  intros Hb. rewrite orb_true_iff, !has_spec.
  transitivity (Exists xz (bit_string_to_hex_with_xz bits)).
  { rewrite Exists_exists. unfold xz. split; [intros []; eauto|].
    intros (b & ? & [-> | ->]); auto. }
  unfold bit_string_to_hex_with_xz. destruct (Nat.eqb_spec (length bits) 0) as [E|E].
  { apply nil_length_inv in E as ->. split; intros H; [|by inversion H].
    apply Exists_cons in H as [[|]|H]; by try inversion H. }
  set (padded := replicate _ _ ++ bits).
  assert (Exists xz bits <-> Exists xz padded) as ->.
  { unfold padded. rewrite Exists_app. split; [by right|]. intros [H|H]; [|done].
    apply Exists_exists in H as (b & Hr & Hx). apply elem_of_replicate in Hr as [-> _].
    by destruct Hx. }
  assert (Forall bit01xz padded) as Hp.
  { unfold padded. apply Forall_app. split; [|done]. apply Forall_replicate. by left; left. }
  clearbody padded. clear E Hb bits.
  transitivity (Exists xz (concat (chunks (length padded) 4 padded))); [|by rewrite concat_chunks by lia].
  assert (Forall bit01xz (concat (chunks (length padded) 4 padded))) as Hc
    by by rewrite concat_chunks by lia.
  pose proof (chunks_length (length padded) 4 padded) as Hlen. clear Hp.
  induction (chunks (length padded) 4 padded) as [|c cs IH]; cbn [map concat] in *; [done|].
  rewrite Forall_app in Hc. destruct Hc as [Hc Hcs]. rewrite Forall_cons in Hlen. destruct Hlen as [Hl Hls].
  rewrite !Exists_app, (IH Hcs Hls). destruct (xz_digit_cases c Hc Hl) as [H1 H2].
  destruct (decide (Exists xz c)) as [Hx|Hx].
  - split; [by left|]. intros _. left. destruct (H1 Hx) as [-> | ->]; [constructor; by left|constructor; by right].
  - destruct (H2 Hx) as [H3 _]. split; (intros [H|H]; [|by right]); [|done]. exfalso.
    apply Exists_exists in H as (b & Hb & Hxb). rewrite Forall_forall in H3.
    by apply (hex_char_not_xz b); [apply H3|].
Qed.

Lemma from_str_radix_hex h : Forall hex_char h -> h <> [] ->
  from_str_radix_16 h = if hex_value h <? 2 ^ 128 then Some (hex_value h) else None.
Proof.
  intros Hh Hne. unfold from_str_radix_16.
  assert ((match h with b :: r => if bool_decide (b = "+"%byte) then r else h | [] => [] end) = h) as ->.
  { destruct h as [|b r]; [done|]. apply Forall_cons in Hh as [(n & Hn & ->) _].
    rewrite bool_decide_false; [done|]. by apply nib_digit_ok. }
  destruct (Nat.eqb_spec (length h) 0); [by destruct h|].
  rewrite (proj2 (forallb_forall _ _)); [done|]. intros b Hb. apply list_elem_of_In in Hb.
  rewrite Forall_forall in Hh. destruct (Hh b Hb) as (n' & Hn & ->).
  by rewrite (proj1 (nib_digit_ok n' Hn)).
Qed.

Lemma not_xz_01 bits : Forall bit01xz bits -> ~ Exists xz bits -> Forall bit01 bits.
Proof.
  intros Hb Hx. apply Forall_forall. intros b Hin. rewrite Forall_forall in Hb.
  destruct (Hb b Hin); [done|]. destruct Hx. apply Exists_exists. eauto.
Qed.

Lemma x_state_dec_facts bits : Forall bit01xz bits -> bits <> [] ->
  x_state_dec bits =
    if decide (Exists xz bits) then "x"%string
    else if bit_value bits <? 2 ^ 128 then to_decimal (bit_value bits) else "x"%string.
Proof.
  intros Hb Hne. unfold x_state_dec. pose proof (hex_xz bits Hb) as Hx. cbn zeta.
  destruct (decide (Exists xz bits)) as [He|He].
  - by rewrite (proj2 Hx He).
  - destruct (has _ _ || has _ _) eqn:E; [by destruct He; apply Hx|].
    destruct (hex_facts bits (not_xz_01 _ Hb He) Hne) as (_ & Hl & Hv & Hh).
    rewrite from_str_radix_hex; [|done|].
    2:{ intros E'. rewrite E' in Hl. destruct (mod4_padding (length bits)) as (q & p & ? & ? & _ & Hd).
        rewrite Hd in Hl. destruct bits; [done|cbn in *; lia]. }
    rewrite Hv. by destruct (bit_value bits <? 2 ^ 128).
Qed.

(* ------------------------------------------------------------------ *)
(** ** The time table: lemmas *)

Definition nondecreasing (t : list Z) : Prop :=
  forall i j, (i <= j < length t)%nat -> nth i t 0 <= nth j t 0.

Lemma sorted_nondecreasing t : StronglySorted Z.lt t -> nondecreasing t.
Proof.
  intros Hs. induction Hs as [|x t Hs IH Hx]; intros i j Hij; cbn in *; [lia|].
  destruct i, j; try lia.
  - rewrite Forall_forall in Hx. apply Z.lt_le_incl, Hx, list_elem_of_In, nth_In. lia.
  - apply IH. lia.
Qed.

(** What the narrowed range satisfies. *)
Definition range_ok (t : list Z) (time : Z) (base size : nat) : Prop :=
  (1 <= size)%nat /\ (base + size <= length t)%nat /\
  (base = 0%nat \/ nth base t 0 <= time) /\
  forall j, (base + size <= j < length t)%nat -> time < nth j t 0.

Lemma bs_loop_range t time fuel base size :
  nondecreasing t -> range_ok t time base size -> (size <= fuel + 1)%nat ->
  exists b, bs_loop fuel t time base size = Some b /\ range_ok t time b 1.
Proof.
  intros Hs. revert base size. induction fuel as [|fuel IH]; intros base size Hr Hf;
    cbn [bs_loop]; (destruct (Nat.ltb_spec 1 size) as [H1|H1]; [|exists base;
      destruct Hr as (? & ? & ? & ?); replace size with 1%nat in * by lia; by repeat split]).
  { lia. }
  destruct Hr as (H2 & H3 & H4 & H5).
  assert (1 <= size / 2 /\ 2 * (size / 2) <= size)%nat as Hh.
  { split; [apply Nat.div_le_lower_bound; lia|apply Nat.Div0.mul_div_le]. }
  set (half := (size / 2)%nat) in *. clearbody half.
  destruct (Z.ltb_spec time (nth (base + half) t 0)) as [Hlt|Hge]; apply IH; try lia;
    (split; [lia|split; [lia|split]]).
  - done.
  - intros j Hj. eapply Z.lt_le_trans; [apply Hlt|]. destruct (decide (base + half <= j)%nat).
    + apply Hs. lia.
    + assert (half <= size - half \/ size - half < half)%nat by lia. lia.
  - by right.
  - intros j Hj. apply H5. lia.
Qed.

(** The index found: the last time not after [time], the first one when there
    is none. *)
Definition nearest (t : list Z) (time : Z) (i : nat) : Prop :=
  (i < length t)%nat /\
  (nth i t 0 <= time \/ i = 0%nat) /\
  forall j, (i < j < length t)%nat -> time < nth j t 0.

Lemma find_nearest_facts t time :
  nondecreasing t -> t <> [] ->
  exists i, find_nearest_time_index t time = Some i /\ nearest t time i.
Proof.
  intros Hs Hne. assert (0 < length t)%nat by (destruct t; [done|cbn; lia]).
  unfold find_nearest_time_index, binary_search.
  destruct (Nat.eqb_spec (length t) 0); [lia|].
  destruct (bs_loop_range t time (length t) 0 (length t) Hs) as (b & -> & _ & Hb & Hl & Hg).
  { split; [lia|split; [lia|split; [by left|]]]. intros; lia. }
  { lia. }
  assert (nearest t time b) as Hn.
  { split; [lia|split; [tauto|]]. intros j Hj. apply Hg. lia. }
  destruct (Z.eqb_spec (nth b t 0) time); [by exists b|].
  destruct (Z.ltb_spec (nth b t 0) time).
  - exists b. split; [|done]. f_equal. lia.
  - destruct Hl as [->|]; [|lia]. exists 0%nat. split; [|done]. by f_equal.
Qed.

(** The nearest index is unique on a strictly increasing table. *)
Lemma nearest_exact t i : StronglySorted Z.lt t -> (i < length t)%nat ->
  find_nearest_time_index t (nth i t 0) = Some i.
Proof.
  intros Hs Hi. destruct (find_nearest_facts t (nth i t 0)) as (k & -> & Hk & Hle & Hgt).
  { by apply sorted_nondecreasing. } { intros ->. cbn in Hi. lia. }
  f_equal. destruct (decide (k = i)) as [|Hne]; [done|]. exfalso.
  assert (forall a b, (a < b < length t)%nat -> nth a t 0 < nth b t 0) as Hlt.
  { clear -Hs. induction Hs as [|x t Hs IH Hx]; intros a b Hab; cbn in *; [lia|].
    destruct a, b; try lia.
    - rewrite Forall_forall in Hx. apply Hx, list_elem_of_In, nth_In. lia.
    - apply IH. lia. }
  destruct (decide (k < i)%nat).
  - specialize (Hgt i). lia.
  - destruct Hle as [|]; [|lia]. specialize (Hlt i k). lia.
Qed.

(** Text of recorded bits: on binary digits the two hexadecimal paths agree
    and show the number in as many digits as nibbles; with unknown bits the
    hexadecimal text has an unknown digit exactly when a bit is X or Z, and the
    decimal text is [x] then, the number when it fits 128 bits, [x] beyond. *)
Theorem text_of_bits_spec bits : Forall bit01xz bits -> bits <> [] ->
  (Forall bit01 bits ->
     two_state_hex bits = Some (bit_string_to_hex_with_xz bits) /\
     length (bit_string_to_hex_with_xz bits) = div_ceil (length bits) 4 /\
     hex_value (bit_string_to_hex_with_xz bits) = bit_value bits) /\
  (has "x" (bit_string_to_hex_with_xz bits) || has "z" (bit_string_to_hex_with_xz bits) = true
     <-> Exists xz bits) /\
  x_state_dec bits =
    if decide (Exists xz bits) then "x"%string
    else if bit_value bits <? 2 ^ 128 then to_decimal (bit_value bits) else "x"%string.
Proof.
  intros Hb Hne. split; [|split; [by apply hex_xz|by apply x_state_dec_facts]].
  intros H01. by destruct (hex_facts bits H01 Hne) as (? & ? & ? & _).
Qed.

Lemma text_of_bits_spec_witness :
  let bits := ["1"; "0"; "1"; "1"; "0"]%byte in
  two_state_hex bits = Some (bit_string_to_hex_with_xz bits) /\ x_state_dec bits = "22"%string.
Proof.
  assert (Forall bit01 ["1"; "0"; "1"; "1"; "0"]%byte) as H01.
  { repeat (constructor; [(by left) || (by right)|]). constructor. }
  destruct (text_of_bits_spec ["1"; "0"; "1"; "1"; "0"]%byte) as (H1 & _ & H2).
  - eapply Forall_impl; [exact H01|]. intros b Hb. left. exact Hb.
  - discriminate.
  - split; [apply (H1 H01)|]. rewrite H2. reflexivity.
Defined.

(** A VHDL bit outside [0], [1], [x], [z]: the digit is U+008F. *)
Example nine_state_hex_garbage :
  bit_string_to_hex_with_xz ["0"; "0"; "0"; "h"]%byte = [xc2; x8f].
Proof. reflexivity. Qed.
