(* ===== verification/WaveData.v ===== *)
(** * The waveform back end: data

    The state of [wave_vpi/wellen_impl/src/lib.rs]: the static caches, the boxes
    it hands to C as opaque pointers, and the cache files.  The [wellen] crate
    (hierarchy, signals, values), the serialisers and the allocator are type
    classes of operations; what theorems assume of them are the named
    predicates at the end.  A C string is an [option string] ([None] is the
    null pointer); an address is a [Z], null is 0. *)

From S2P Require Import Prelude Bytes State WaveValue.
#[local] Open Scope Z_scope.

(** [SignalRef], [ScopeRef] and [VarRef] are newtypes of [NonZeroU32]. *)
Definition SignalRef : Type := positive.
Definition ScopeRef : Type := positive.
Definition VarRef : Type := positive.

(** The enumerations of [wellen], with the variants the code tells apart. *)
Inductive VarType := Wire | Reg | Logic | SparseArray | OtherVarType (n : Z).
Inductive ScopeType := Module_ | OtherScopeType (n : Z).
Inductive States := Two | Four | Nine.
Record Timescale := mkTimescale { ts_factor : Z; ts_exponent : option Z }.

#[export] Instance VarType_eq_decision : EqDecision VarType.
Proof. solve_decision. Defined.
#[export] Instance ScopeType_eq_decision : EqDecision ScopeType.
Proof. solve_decision. Defined.
#[export] Instance States_eq_decision : EqDecision States.
Proof. solve_decision. Defined.

(** [SignalValueRef]: a bit vector or one of the other kinds of value. *)
Inductive SignalValueRef (BV O : Type) := BitVec (bv : BV) | OtherValue (o : O).
Arguments BitVec {BV O} bv.
Arguments OtherValue {BV O} o.

(** ** The crate [wellen] *)

Record LoadOptions := mkLoadOptions { multi_thread : bool; remove_scopes_with_empty_name : bool }.
Definition LOAD_OPTS : LoadOptions := mkLoadOptions true false.

Class Wellen := {
  (* values *)
  BitVecRef : Type;
  OtherRef : Type;
  bv_states : BitVecRef -> States;
  bv_be_bytes : BitVecRef -> option (list byte);
  bv_width : BitVecRef -> Z;
  to_bit_string : SignalValueRef BitVecRef OtherRef -> option string;
  sv_width : SignalValueRef BitVecRef OtherRef -> option Z;
  (* signals *)
  Signal : Type;
  DataOffset : Type;
  sig_ref : Signal -> SignalRef;
  get_offset : Signal -> Z -> option DataOffset;
  get_value_at : Signal -> DataOffset -> Z -> SignalValueRef BitVecRef OtherRef;
  get_first_time_idx : Signal -> option Z;
  time_indices : Signal -> list Z;
  SignalSource : Type;
  Hierarchy : Type;
  load_signals : SignalSource -> list SignalRef -> Hierarchy -> bool -> list Signal * SignalSource;
  (* hierarchy *)
  h_scopes : Hierarchy -> list ScopeRef;
  scope_type : Hierarchy -> ScopeRef -> ScopeType;
  scope_name : Hierarchy -> ScopeRef -> string;
  scope_scopes : Hierarchy -> ScopeRef -> list ScopeRef;
  scope_vars : Hierarchy -> ScopeRef -> list VarRef;
  all_vars : Hierarchy -> list VarRef;
  var_signal_ref : Hierarchy -> VarRef -> SignalRef;
  var_var_type : Hierarchy -> VarRef -> VarType;
  var_full_name : Hierarchy -> VarRef -> string;
  lookup_var : Hierarchy -> list string -> string -> option VarRef;
  timescale : Hierarchy -> option Timescale;
  (* files *)
  Body : Type;
  read_header_from_file : string -> LoadOptions -> option (Hierarchy * Body);
  read_body : Body -> Hierarchy -> option (SignalSource * list Z)
}.

Section Data.
Context {wellen : Wellen}.

Definition SignalValue : Type := SignalValueRef BitVecRef OtherRef.

Record FileModifiedInfo := mkModified { fm_size : Z; fm_time : Z }.
Record WaveVpiMeta := mkMeta {
  modified : FileModifiedInfo;
  sigref_count : nat;
  sigref : gmap string SignalRef;
  sigref_null : gset string
}.
Record SignalInfo := mkInfo { signal : Signal; var_type : VarType }.

Inductive WellenIteratorItem := ItModule (s : ScopeRef) | ItSignal (h : Z).

(** What a heap box of this library holds: a boxed [vpiHandle], a
    [WellenModuleHandle] or a [WellenModuleIterator]. *)
Inductive Boxed :=
| SignalBox (r : SignalRef)
| ModuleBox (name : string)
| IterBox (items : list WellenIteratorItem) (index : nat).

Definition SIGNAL_REF_COUNT_THRESHOLD : nat := 15.
Definition META_FILE : string := ".wave_vpi.meta.yaml".
Definition SIGNAL_CACHE_FILE : string := ".wave_vpi.signal.bin".

(** [boxes] is the heap; [files] the files of the working directory. *)
Record WaveWorld := mkWave {
  TIME_TABLE : option (list Z);
  HIERARCHY : option Hierarchy;
  WAVE_SOURCE : option SignalSource;
  WAVE_FILE_MODIFIED : option FileModifiedInfo;
  SIGNAL_REF_CACHE : option (gmap string SignalRef);
  SIGNAL_REF_CACHE_NULL : option (gset string);
  SIGNAL_CACHE : option (gmap SignalRef SignalInfo);
  SIGNAL_NAME_CACHE : option (gmap SignalRef string);
  HAS_NEWLY_ADD_SIGNAL_REF : bool;
  MODULE_HANDLE_CACHE : option (gmap ScopeRef Z);
  MODULE_HANDLE_PTR_MAP : option (gmap Z ScopeRef);
  ITERATOR_HANDLE_PTR_SET : option (gset Z);
  VALUE_STR_BUFFER : list byte;
  boxes : gmap Z Boxed;
  files : gmap string (list byte)
}.

Definition set_TIME_TABLE (v : option (list Z)) (w : WaveWorld) : WaveWorld :=
  mkWave v (HIERARCHY w) (WAVE_SOURCE w) (WAVE_FILE_MODIFIED w) (SIGNAL_REF_CACHE w)
    (SIGNAL_REF_CACHE_NULL w) (SIGNAL_CACHE w) (SIGNAL_NAME_CACHE w) (HAS_NEWLY_ADD_SIGNAL_REF w)
    (MODULE_HANDLE_CACHE w) (MODULE_HANDLE_PTR_MAP w) (ITERATOR_HANDLE_PTR_SET w)
    (VALUE_STR_BUFFER w) (boxes w) (files w).
Definition set_HIERARCHY (v : option Hierarchy) (w : WaveWorld) : WaveWorld :=
  mkWave (TIME_TABLE w) v (WAVE_SOURCE w) (WAVE_FILE_MODIFIED w) (SIGNAL_REF_CACHE w)
    (SIGNAL_REF_CACHE_NULL w) (SIGNAL_CACHE w) (SIGNAL_NAME_CACHE w) (HAS_NEWLY_ADD_SIGNAL_REF w)
    (MODULE_HANDLE_CACHE w) (MODULE_HANDLE_PTR_MAP w) (ITERATOR_HANDLE_PTR_SET w)
    (VALUE_STR_BUFFER w) (boxes w) (files w).
Definition set_WAVE_SOURCE (v : option SignalSource) (w : WaveWorld) : WaveWorld :=
  mkWave (TIME_TABLE w) (HIERARCHY w) v (WAVE_FILE_MODIFIED w) (SIGNAL_REF_CACHE w)
    (SIGNAL_REF_CACHE_NULL w) (SIGNAL_CACHE w) (SIGNAL_NAME_CACHE w) (HAS_NEWLY_ADD_SIGNAL_REF w)
    (MODULE_HANDLE_CACHE w) (MODULE_HANDLE_PTR_MAP w) (ITERATOR_HANDLE_PTR_SET w)
    (VALUE_STR_BUFFER w) (boxes w) (files w).
Definition set_WAVE_FILE_MODIFIED (v : option FileModifiedInfo) (w : WaveWorld) : WaveWorld :=
  mkWave (TIME_TABLE w) (HIERARCHY w) (WAVE_SOURCE w) v (SIGNAL_REF_CACHE w)
    (SIGNAL_REF_CACHE_NULL w) (SIGNAL_CACHE w) (SIGNAL_NAME_CACHE w) (HAS_NEWLY_ADD_SIGNAL_REF w)
    (MODULE_HANDLE_CACHE w) (MODULE_HANDLE_PTR_MAP w) (ITERATOR_HANDLE_PTR_SET w)
    (VALUE_STR_BUFFER w) (boxes w) (files w).
Definition set_SIGNAL_REF_CACHE (v : option (gmap string SignalRef)) (w : WaveWorld) : WaveWorld :=
  mkWave (TIME_TABLE w) (HIERARCHY w) (WAVE_SOURCE w) (WAVE_FILE_MODIFIED w) v
    (SIGNAL_REF_CACHE_NULL w) (SIGNAL_CACHE w) (SIGNAL_NAME_CACHE w) (HAS_NEWLY_ADD_SIGNAL_REF w)
    (MODULE_HANDLE_CACHE w) (MODULE_HANDLE_PTR_MAP w) (ITERATOR_HANDLE_PTR_SET w)
    (VALUE_STR_BUFFER w) (boxes w) (files w).
Definition set_SIGNAL_REF_CACHE_NULL (v : option (gset string)) (w : WaveWorld) : WaveWorld :=
  mkWave (TIME_TABLE w) (HIERARCHY w) (WAVE_SOURCE w) (WAVE_FILE_MODIFIED w) (SIGNAL_REF_CACHE w)
    v (SIGNAL_CACHE w) (SIGNAL_NAME_CACHE w) (HAS_NEWLY_ADD_SIGNAL_REF w) (MODULE_HANDLE_CACHE w)
    (MODULE_HANDLE_PTR_MAP w) (ITERATOR_HANDLE_PTR_SET w) (VALUE_STR_BUFFER w) (boxes w) (files
    w).
Definition set_SIGNAL_CACHE (v : option (gmap SignalRef SignalInfo)) (w : WaveWorld) : WaveWorld :=
  mkWave (TIME_TABLE w) (HIERARCHY w) (WAVE_SOURCE w) (WAVE_FILE_MODIFIED w) (SIGNAL_REF_CACHE w)
    (SIGNAL_REF_CACHE_NULL w) v (SIGNAL_NAME_CACHE w) (HAS_NEWLY_ADD_SIGNAL_REF w)
    (MODULE_HANDLE_CACHE w) (MODULE_HANDLE_PTR_MAP w) (ITERATOR_HANDLE_PTR_SET w)
    (VALUE_STR_BUFFER w) (boxes w) (files w).
Definition set_SIGNAL_NAME_CACHE (v : option (gmap SignalRef string)) (w : WaveWorld) : WaveWorld :=
  mkWave (TIME_TABLE w) (HIERARCHY w) (WAVE_SOURCE w) (WAVE_FILE_MODIFIED w) (SIGNAL_REF_CACHE w)
    (SIGNAL_REF_CACHE_NULL w) (SIGNAL_CACHE w) v (HAS_NEWLY_ADD_SIGNAL_REF w) (MODULE_HANDLE_CACHE
    w) (MODULE_HANDLE_PTR_MAP w) (ITERATOR_HANDLE_PTR_SET w) (VALUE_STR_BUFFER w) (boxes w) (files
    w).
Definition set_HAS_NEWLY_ADD_SIGNAL_REF (v : bool) (w : WaveWorld) : WaveWorld :=
  mkWave (TIME_TABLE w) (HIERARCHY w) (WAVE_SOURCE w) (WAVE_FILE_MODIFIED w) (SIGNAL_REF_CACHE w)
    (SIGNAL_REF_CACHE_NULL w) (SIGNAL_CACHE w) (SIGNAL_NAME_CACHE w) v (MODULE_HANDLE_CACHE w)
    (MODULE_HANDLE_PTR_MAP w) (ITERATOR_HANDLE_PTR_SET w) (VALUE_STR_BUFFER w) (boxes w) (files
    w).
Definition set_MODULE_HANDLE_CACHE (v : option (gmap ScopeRef Z)) (w : WaveWorld) : WaveWorld :=
  mkWave (TIME_TABLE w) (HIERARCHY w) (WAVE_SOURCE w) (WAVE_FILE_MODIFIED w) (SIGNAL_REF_CACHE w)
    (SIGNAL_REF_CACHE_NULL w) (SIGNAL_CACHE w) (SIGNAL_NAME_CACHE w) (HAS_NEWLY_ADD_SIGNAL_REF w)
    v (MODULE_HANDLE_PTR_MAP w) (ITERATOR_HANDLE_PTR_SET w) (VALUE_STR_BUFFER w) (boxes w) (files
    w).
Definition set_MODULE_HANDLE_PTR_MAP (v : option (gmap Z ScopeRef)) (w : WaveWorld) : WaveWorld :=
  mkWave (TIME_TABLE w) (HIERARCHY w) (WAVE_SOURCE w) (WAVE_FILE_MODIFIED w) (SIGNAL_REF_CACHE w)
    (SIGNAL_REF_CACHE_NULL w) (SIGNAL_CACHE w) (SIGNAL_NAME_CACHE w) (HAS_NEWLY_ADD_SIGNAL_REF w)
    (MODULE_HANDLE_CACHE w) v (ITERATOR_HANDLE_PTR_SET w) (VALUE_STR_BUFFER w) (boxes w) (files
    w).
Definition set_ITERATOR_HANDLE_PTR_SET (v : option (gset Z)) (w : WaveWorld) : WaveWorld :=
  mkWave (TIME_TABLE w) (HIERARCHY w) (WAVE_SOURCE w) (WAVE_FILE_MODIFIED w) (SIGNAL_REF_CACHE w)
    (SIGNAL_REF_CACHE_NULL w) (SIGNAL_CACHE w) (SIGNAL_NAME_CACHE w) (HAS_NEWLY_ADD_SIGNAL_REF w)
    (MODULE_HANDLE_CACHE w) (MODULE_HANDLE_PTR_MAP w) v (VALUE_STR_BUFFER w) (boxes w) (files w).
Definition set_VALUE_STR_BUFFER (v : list byte) (w : WaveWorld) : WaveWorld :=
  mkWave (TIME_TABLE w) (HIERARCHY w) (WAVE_SOURCE w) (WAVE_FILE_MODIFIED w) (SIGNAL_REF_CACHE w)
    (SIGNAL_REF_CACHE_NULL w) (SIGNAL_CACHE w) (SIGNAL_NAME_CACHE w) (HAS_NEWLY_ADD_SIGNAL_REF w)
    (MODULE_HANDLE_CACHE w) (MODULE_HANDLE_PTR_MAP w) (ITERATOR_HANDLE_PTR_SET w) v (boxes w)
    (files w).
Definition set_boxes (v : gmap Z Boxed) (w : WaveWorld) : WaveWorld :=
  mkWave (TIME_TABLE w) (HIERARCHY w) (WAVE_SOURCE w) (WAVE_FILE_MODIFIED w) (SIGNAL_REF_CACHE w)
    (SIGNAL_REF_CACHE_NULL w) (SIGNAL_CACHE w) (SIGNAL_NAME_CACHE w) (HAS_NEWLY_ADD_SIGNAL_REF w)
    (MODULE_HANDLE_CACHE w) (MODULE_HANDLE_PTR_MAP w) (ITERATOR_HANDLE_PTR_SET w)
    (VALUE_STR_BUFFER w) v (files w).
Definition set_files (v : gmap string (list byte)) (w : WaveWorld) : WaveWorld :=
  mkWave (TIME_TABLE w) (HIERARCHY w) (WAVE_SOURCE w) (WAVE_FILE_MODIFIED w) (SIGNAL_REF_CACHE w)
    (SIGNAL_REF_CACHE_NULL w) (SIGNAL_CACHE w) (SIGNAL_NAME_CACHE w) (HAS_NEWLY_ADD_SIGNAL_REF w)
    (MODULE_HANDLE_CACHE w) (MODULE_HANDLE_PTR_MAP w) (ITERATOR_HANDLE_PTR_SET w)
    (VALUE_STR_BUFFER w) (boxes w) v.
End Data.
Arguments WaveWorld : clear implicits.
Arguments WaveWorld {wellen}.
Arguments Boxed : clear implicits.

(** ** Serialisers, allocator and host *)

Class Serde `{wellen : Wellen} := {
  meta_to_yaml : WaveVpiMeta -> list byte;
  meta_from_yaml : list byte -> option WaveVpiMeta;
  cache_to_rmp : gmap SignalRef SignalInfo -> list byte;
  cache_from_rmp : list byte -> option (gmap SignalRef SignalInfo)
}.

(** The address of a new box, given the addresses in use. *)
Class Allocator := fresh_addr : gset Z -> Z.

(** What the process sees of its host: the environment variable, the size and
    modification time (seconds since the epoch) of a file, whether a file can
    be created and whether one can be mapped. *)
Record Host := mkHost {
  hierarchy_only : bool;
  metadata : string -> option (Z * Z);
  can_create : string -> bool;
  can_map : bool
}.

(** ** What theorems assume of them *)

(** The allocator returns an address that is not null and not in use. *)
Definition alloc_ok `{Allocator} : Prop := forall X, fresh_addr X ∉ X /\ fresh_addr X <> 0.

(** What was serialised is read back. *)
Definition serde_ok `{Serde} : Prop :=
  (forall m, meta_from_yaml (meta_to_yaml m) = Some m) /\
  (forall c, cache_from_rmp (cache_to_rmp c) = Some c).

(** Loading one signal yields that signal. *)
Definition load_ok `{Wellen} : Prop :=
  forall src r h mt, exists sg src', load_signals src [r] h mt = ([sg], src') /\ sig_ref sg = r.

(** The bit string of [v] in [width] bits, most significant first. *)
Fixpoint bits_of (width : nat) (v : Z) : list byte :=
  match width with
  | O => []
  | S k => (if Z.testbit v (Z.of_nat k) then "1"%byte else "0"%byte) :: bits_of k v
  end.

(** The accessors of a bit vector of positive width agree: two-state vectors
    have big-endian bytes and a string of the same number; the string of a
    four-state vector is made of [0], [1], [x], [z]. *)
Definition bit_vec_ok `{Wellen} : Prop :=
  forall bv, 0 < bv_width bv < 2 ^ 31 /\ sv_width (BitVec bv) = Some (bv_width bv) /\
  (bv_states bv = Two -> exists data,
     bv_be_bytes bv = Some data /\
     length data = div_ceil (Z.to_nat (bv_width bv)) 8 /\ be_value data < 2 ^ bv_width bv /\
     to_bit_string (BitVec bv) = Some (of_bytes (bits_of (Z.to_nat (bv_width bv)) (be_value data)))) /\
  (bv_states bv <> Two -> exists s,
     to_bit_string (BitVec bv) = Some s /\ Z.of_nat (str_len s) = bv_width bv /\
     (bv_states bv = Four -> Forall bit01xz (as_bytes s))).

(** Full names: at least two components, looked up to a variable of the same
    signal, with no inner NUL, in UTF-8. *)
Definition has_nul (s : string) : bool := has x00 (as_bytes s).
Definition c_name (s : string) : Prop := is_str s = true /\ has_nul s = false.

(** The names of scopes are C strings; a full name has a path. *)
Definition hierarchy_ok `{Wellen} (h : Hierarchy) : Prop :=
  (forall s, c_name (scope_name h s)) /\
  (forall v, c_name (var_full_name h v) /\ has "." (as_bytes (var_full_name h v)) = true).
