(* ===== verification/WaveImpl.v ===== *)
(** * The waveform back end: operations

    The functions of [wave_vpi/wellen_impl/src/lib.rs] in the state monad over
    [WaveWorld], one definition per function, in the order of the source.
    [value_p] is the union field the call writes. *)

From S2P Require Import Prelude Bytes State WaveValue WaveData.
#[local] Open Scope Z_scope.

(** The object kinds and properties of [vpi_user.rs]. *)
Definition vpiMemory : Z := 29.
Definition vpiModule : Z := 32.
Definition vpiNet : Z := 36.
Definition vpiReg : Z := 48.
Definition vpiType : Z := 1.
Definition vpiName : Z := 2.
Definition vpiSize : Z := 4.
Definition vpiDefName : Z := 9.

(** [s.split('.')] and [s.rsplit_once(".")]. *)
Fixpoint split_dot (l : list byte) : list (list byte) :=
  match l with
  | [] => [[]]
  | b :: l' =>
      if bool_decide (b = "."%byte) then [] :: split_dot l'
      else match split_dot l' with
           | seg :: segs => (b :: seg) :: segs
           | [] => [[b]]
           end
  end.

Fixpoint rsplit_dot (l : list byte) : option (list byte * list byte) :=
  match l with
  | [] => None
  | b :: l' =>
      match rsplit_dot l' with
      | Some (path, name) => Some (b :: path, name)
      | None => if bool_decide (b = "."%byte) then Some ([], l') else None
      end
  end.

Section Ops.
Context {wellen : Wellen} {serde : Serde} {allocator : Allocator}.

Definition WM (A : Type) : Type := M WaveWorld A.

(** ** Statics, boxes, C strings *)

Definition static_ {A} (f : WaveWorld -> option A) : WM A := fun w =>
  match f w with Some a => Ret a w | None => Panic "not initialized"%string w end.

Definition get_time_table := static_ TIME_TABLE.
Definition get_hierarchy := static_ HIERARCHY.
Definition get_signal_ref_cache := static_ SIGNAL_REF_CACHE.
Definition get_signal_ref_cache_null := static_ SIGNAL_REF_CACHE_NULL.
Definition get_signal_cache := static_ SIGNAL_CACHE.
Definition get_signal_name_cache := static_ SIGNAL_NAME_CACHE.
Definition get_wave_source := static_ WAVE_SOURCE.
Definition get_module_handle_cache := static_ MODULE_HANDLE_CACHE.
Definition get_module_handle_ptr_map := static_ MODULE_HANDLE_PTR_MAP.
Definition get_iterator_handle_ptr_set := static_ ITERATOR_HANDLE_PTR_SET.

(** [opt.unwrap()]. *)
Definition unwrap {A} (o : option A) : WM A :=
  match o with Some a => ret a | None => panic "unwrap on None" end.

(** [Box::into_raw(Box::new(b))], a dereference, [Box::from_raw]. *)
Definition new_box (b : Boxed) : WM Z := fun w =>
  let a := fresh_addr (dom (boxes w)) in Ret a (set_boxes (<[a := b]> (boxes w)) w).
Definition deref (a : Z) : WM Boxed := fun w =>
  match boxes w !! a with Some b => Ret b w | None => UB "dangling pointer" end.
Definition free_box (a : Z) : WM unit := fun w =>
  match boxes w !! a with
  | Some _ => Ret tt (set_boxes (delete a (boxes w)) w)
  | None => UB "double free"
  end.
Definition deref_signal (a : Z) : WM SignalRef :=
  let! b := deref a in
  match b with SignalBox r => ret r | _ => undefined "not a signal handle" end.

(** [CStr::from_ptr(p).to_str().unwrap()] after the null assertion. *)
Definition to_str (p : option string) : WM string :=
  match p with
  | None => panic "assertion failed: !name.is_null()"
  | Some s => if is_str s then ret s else panic "invalid utf-8"
  end.
Definition CString_new (s : string) : WM string :=
  if has_nul s then panic "name contains NUL" else ret s.

(** The pointer returned is the buffer. *)
Definition store_value_str (value : list byte) : WM unit :=
  modify (set_VALUE_STR_BUFFER (value ++ [x00])).

(** ** Module handles *)

Definition get_or_create_module_handle (scope_ref : ScopeRef) : WM Z :=
  let! cache := get_module_handle_cache in
  match cache !! scope_ref with
  | Some cached => ret cached
  | None =>
      let! hierarchy := get_hierarchy in
      let! name := CString_new (scope_name hierarchy scope_ref) in
      let! handle_ptr := new_box (ModuleBox name) in
      let! cache := get_module_handle_cache in
      modify (set_MODULE_HANDLE_CACHE (Some (<[scope_ref := handle_ptr]> cache))) ;;
      let! ptrs := get_module_handle_ptr_map in
      modify (set_MODULE_HANDLE_PTR_MAP (Some (<[handle_ptr := scope_ref]> ptrs))) ;;
      ret handle_ptr
  end.

(** ** Initialisation *)

Definition init_statics (h : Hierarchy) : WM unit :=
  modify (set_TIME_TABLE (Some [])) ;;
  modify (set_HIERARCHY (Some h)) ;;
  modify (set_SIGNAL_REF_CACHE (Some ∅)) ;;
  modify (set_SIGNAL_REF_CACHE_NULL (Some ∅)) ;;
  modify (set_SIGNAL_CACHE (Some ∅)) ;;
  modify (set_SIGNAL_NAME_CACHE (Some ∅)) ;;
  modify (set_MODULE_HANDLE_CACHE (Some ∅)) ;;
  modify (set_MODULE_HANDLE_PTR_MAP (Some ∅)) ;;
  modify (set_ITERATOR_HANDLE_PTR_SET (Some ∅)).

(** Whether the meta file read back may be used. *)
Definition use_cached (m : option WaveVpiMeta) (size time : Z) : bool :=
  match m with
  | Some meta =>
      (fm_time (modified meta) =? time) && (fm_size (modified meta) =? size) &&
      (SIGNAL_REF_COUNT_THRESHOLD <=? sigref_count meta)%nat
  | None => false
  end.

(** The signal cache file: unreadable, unmappable or malformed gives the empty
    cache. *)
Definition load_signal_cache (host : Host) (f : gmap string (list byte)) : gmap SignalRef SignalInfo :=
  match f !! SIGNAL_CACHE_FILE with
  | Some data => if can_map host then default ∅ (cache_from_rmp data) else ∅
  | None => ∅
  end.

(** [if try_get_x().is_none() { X = Some(v) }]. *)
Definition init_if_none {A} (f : WaveWorld -> option A) (set : option A -> WaveWorld -> WaveWorld) (v : A)
  : WM unit :=
  modify (fun w => match f w with None => set (Some v) w | Some _ => w end).

Definition init_caches (host : Host) (cached_meta : option WaveVpiMeta) (use_cached_data : bool) : WM unit :=
  let! w := get in
  match SIGNAL_REF_CACHE w with
  | None =>
      let meta := if use_cached_data then cached_meta else None in
      modify (set_SIGNAL_REF_CACHE (Some (from_option sigref ∅ meta))) ;;
      modify (set_SIGNAL_REF_CACHE_NULL (Some (from_option sigref_null ∅ meta)))
  | Some _ => ret tt
  end ;;
  init_if_none SIGNAL_CACHE set_SIGNAL_CACHE (if use_cached_data then load_signal_cache host (files w) else ∅) ;;
  init_if_none SIGNAL_NAME_CACHE set_SIGNAL_NAME_CACHE ∅ ;;
  init_if_none MODULE_HANDLE_CACHE set_MODULE_HANDLE_CACHE ∅ ;;
  init_if_none MODULE_HANDLE_PTR_MAP set_MODULE_HANDLE_PTR_MAP ∅ ;;
  init_if_none ITERATOR_HANDLE_PTR_SET set_ITERATOR_HANDLE_PTR_SET ∅.

Definition expect {A} (o : option A) (msg : string) : WM A :=
  match o with Some a => ret a | None => panic msg end.

Definition wellen_initialize (host : Host) (filename : option string) : WM unit :=
  let! filename := to_str filename in
  let! hb := expect (read_header_from_file filename LOAD_OPTS) "Failed to load file!" in
  let '(hierarchy, body) := hb in
  if hierarchy_only host then init_statics hierarchy else
  let! sb := expect (read_body body hierarchy) "Failed to load body!" in
  let '(wave_source, time_table) := sb in
  modify (set_TIME_TABLE (Some time_table)) ;;
  modify (set_HIERARCHY (Some hierarchy)) ;;
  modify (set_WAVE_SOURCE (Some wave_source)) ;;
  let! md := expect (metadata host filename) "Failed to get file metadata" in
  let '(file_size, modified_timestamp) := md in
  assert_ (0 <=? modified_timestamp) "modified before the epoch" ;;
  modify (set_WAVE_FILE_MODIFIED (Some (mkModified file_size modified_timestamp))) ;;
  let! w := get in
  let cached_meta := (files w !! META_FILE) ≫= meta_from_yaml in
  init_caches host cached_meta (use_cached cached_meta file_size modified_timestamp).

(** ** Finalisation *)

Definition create_file (host : Host) (name : string) (content : list byte) : WM unit :=
  if can_create host name then modify (fun w => set_files (<[name := content]> (files w)) w)
  else panic "File::create".

Definition save_meta (host : Host) : WM unit :=
  let! w := get in
  match WAVE_FILE_MODIFIED w with
  | Some modified =>
      let! sigref := get_signal_ref_cache in
      let! sigref_null := get_signal_ref_cache_null in
      create_file host META_FILE (meta_to_yaml (mkMeta modified (size sigref) sigref sigref_null))
  | None => ret tt
  end.

Definition save_caches (host : Host) : WM unit :=
  let! c := get_signal_ref_cache in
  if (SIGNAL_REF_COUNT_THRESHOLD <=? size c)%nat then
    let! newly := gets HAS_NEWLY_ADD_SIGNAL_REF in
    when newly
      (save_meta host ;;
       let! cache := get_signal_cache in
       create_file host SIGNAL_CACHE_FILE (cache_to_rmp cache))
  else ret tt.

(** [if let Some(ref cell) = X { ... }]. *)
Definition if_some {A} (f : WaveWorld -> option A) (k : A -> WM unit) : WM unit := fun w =>
  match f w with Some a => k a w | None => Ret tt w end.

Definition wellen_finalize (host : Host) : WM unit :=
  save_caches host ;;
  if_some SIGNAL_NAME_CACHE (fun _ => modify (set_SIGNAL_NAME_CACHE (Some ∅))) ;;
  if_some ITERATOR_HANDLE_PTR_SET (fun its =>
    for_each (elements its) free_box ;; modify (set_ITERATOR_HANDLE_PTR_SET (Some ∅))) ;;
  if_some MODULE_HANDLE_CACHE (fun c =>
    for_each (map snd (map_to_list c)) free_box ;; modify (set_MODULE_HANDLE_CACHE (Some ∅))) ;;
  if_some MODULE_HANDLE_PTR_MAP (fun _ => modify (set_MODULE_HANDLE_PTR_MAP (Some ∅))).

(** ** Handles by name *)

Definition path_of (path : list byte) : list string := map of_bytes (split_dot path).

(** Lookup of a name seen for the first time: [None] when the hierarchy has no
    such variable. *)
Definition load_new_signal (name : string) : WM (option SignalRef) :=
  match rsplit_dot (as_bytes name) with
  | None => panic "not a valid name"
  | Some (path_str, signal_name) =>
      let! hierarchy := get_hierarchy in
      match lookup_var hierarchy (path_of path_str) (of_bytes signal_name) with
      | None =>
          let! nulls := get_signal_ref_cache_null in
          modify (set_SIGNAL_REF_CACHE_NULL (Some ({[name]} ∪ nulls))) ;;
          modify (set_HAS_NEWLY_ADD_SIGNAL_REF true) ;;
          ret None
      | Some var =>
          let id := var_signal_ref hierarchy var in
          let! src := get_wave_source in
          let '(loaded, src') := load_signals src [id] hierarchy (multi_thread LOAD_OPTS) in
          modify (set_WAVE_SOURCE (Some src')) ;;
          let! loaded_signal := unwrap (head loaded) in
          let loaded_id := sig_ref loaded_signal in
          assert_ (bool_decide (loaded_id = id)) "Failed to load signal" ;;
          let! cache := get_signal_cache in
          modify (set_SIGNAL_CACHE (Some (<[loaded_id := mkInfo loaded_signal (var_var_type hierarchy var)]> cache))) ;;
          let! names := get_signal_name_cache in
          let! cname := CString_new name in
          modify (set_SIGNAL_NAME_CACHE (Some (<[loaded_id := cname]> names))) ;;
          ret (Some loaded_id)
      end
  end.

Definition wellen_vpi_handle_by_name (name : option string) : WM Z :=
  let! name := to_str name in
  let! refs := get_signal_ref_cache in
  match refs !! name with
  | Some id =>
      let! names := get_signal_name_cache in
      let! cname := CString_new name in
      modify (set_SIGNAL_NAME_CACHE (Some (<[id := cname]> names))) ;;
      new_box (SignalBox id)
  | None =>
      let! nulls := get_signal_ref_cache_null in
      if bool_decide (name ∈ nulls) then ret 0 else
      let! id := load_new_signal name in
      match id with
      | None => ret 0
      | Some id =>
          let! refs := get_signal_ref_cache in
          modify (set_SIGNAL_REF_CACHE (Some (<[name := id]> refs))) ;;
          modify (set_HAS_NEWLY_ADD_SIGNAL_REF true) ;;
          new_box (SignalBox id)
      end
  end.

(** ** Values *)

(** [get_signal_cache().get(&handle).unwrap()]. *)
Definition signal_info (handle : Z) : WM SignalInfo :=
  let! r := deref_signal handle in
  let! cache := get_signal_cache in
  unwrap (cache !! r).

Definition wellen_get_int_value (handle time_table_idx : Z) : WM Z :=
  let! info := signal_info handle in
  let sg := signal info in
  match get_offset sg (u32 time_table_idx) with
  | Some off =>
      match get_value_at sg off 0 with
      | BitVec bv =>
          if bool_decide (bv_states bv = Two) then
            let! data := unwrap (bv_be_bytes bv) in
            ret (u32 (i32 (bytes_last_u32_be data)))
          else ret 0
      | OtherValue _ => panic "not yet implemented"
      end
  | None => ret 0
  end.

Definition put_str (format : Z) (text : list byte) : WM s_vpi_value :=
  store_value_str text ;; ret (VStr format (of_bytes text)).

(** The last element: [words[words.len() - 1]]. *)
Definition last_word (words : list Z) : WM Z :=
  match last words with Some v => ret v | None => panic "index out of bounds" end.

(** [vecvals.insert(0, ..)] for every word. *)
Definition vecvals_of (words : list Z) : list t_vpi_vecval :=
  fold_left (fun acc w => mkVec (i32 w) 0 :: acc) words [].

Definition hex_text (fmt : Z) (bits : list byte) : WM s_vpi_value :=
  match two_state_hex bits with Some hex => put_str fmt hex | None => out_of_fuel end.

Definition two_state_value (sv : SignalValue) (bv : BitVecRef) (v_format : Z) : WM s_vpi_value :=
  let! data := unwrap (bv_be_bytes bv) in
  let words := bytes_to_u32s_be data in
  let fmt := u32 v_format in
  if fmt =? vpiVectorVal then ret (VVec (vecvals_of words))
  else if fmt =? vpiIntVal then let! w := last_word words in ret (VInt (i32 w))
  else if fmt =? vpiHexStrVal then let! s := unwrap (to_bit_string sv) in hex_text fmt (as_bytes s)
  else if fmt =? vpiBinStrVal then let! s := unwrap (to_bit_string sv) in put_str fmt (as_bytes s)
  else if fmt =? vpiDecStrVal then
    let! w := last_word words in put_str fmt (as_bytes (to_decimal w))
  else panic "not yet implemented".

Definition x_state_value (sv : SignalValue) (bv : BitVecRef) (v_format : Z) : WM s_vpi_value :=
  let fmt := u32 v_format in
  if fmt =? vpiVectorVal then ret (VVec (replicate (cover_with_32 (Z.to_nat (bv_width bv))) vec0))
  else if fmt =? vpiIntVal then ret (VInt 0)
  else if fmt =? vpiHexStrVal then
    let! s := unwrap (to_bit_string sv) in put_str fmt (bit_string_to_hex_with_xz (as_bytes s))
  else if fmt =? vpiBinStrVal then let! s := unwrap (to_bit_string sv) in put_str fmt (as_bytes s)
  else if fmt =? vpiDecStrVal then
    let! s := unwrap (to_bit_string sv) in put_str fmt (as_bytes (x_state_dec (as_bytes s)))
  else panic "not yet implemented".

(** No value recorded up to the index. *)
Definition default_value (v_format : Z) : WM s_vpi_value :=
  let fmt := u32 v_format in
  if fmt =? vpiVectorVal then ret (VVec [vec0])
  else if fmt =? vpiIntVal then ret (VInt 0)
  else if (fmt =? vpiHexStrVal) || (fmt =? vpiBinStrVal) || (fmt =? vpiDecStrVal) then
    put_str fmt ["0"%byte]
  else panic "not yet implemented".

Definition wellen_vpi_get_value_from_index (handle time_table_idx v_format : Z) : WM s_vpi_value :=
  let! info := signal_info handle in
  let sg := signal info in
  match get_offset sg (u32 time_table_idx) with
  | Some off =>
      match get_value_at sg off 0 with
      | BitVec bv =>
          if bool_decide (bv_states bv = Two)
          then two_state_value (get_value_at sg off 0) bv v_format
          else x_state_value (get_value_at sg off 0) bv v_format
      | OtherValue _ => panic "unexpected signal value"
      end
  | None =>
      assert_ (time_table_idx =? 0) "assertion failed: time_table_idx == 0" ;;
      assert_ (negb (length (time_indices sg) =? 0)%nat) "assertion failed: !is_empty()" ;;
      default_value v_format
  end.

Definition nearest_index (time : Z) : WM nat :=
  let! t := get_time_table in
  match find_nearest_time_index t time with Some i => ret i | None => out_of_fuel end.

Definition wellen_vpi_get_value (handle time v_format : Z) : WM s_vpi_value :=
  let! idx := nearest_index time in
  wellen_vpi_get_value_from_index handle (Z.of_nat idx) v_format.

Definition wellen_get_value_str (handle time_table_idx : Z) : WM string :=
  let! info := signal_info handle in
  let sg := signal info in
  match get_offset sg (u32 time_table_idx) with
  | Some off =>
      let! s := unwrap (to_bit_string (get_value_at sg off 0)) in
      store_value_str (as_bytes s) ;; ret s
  | None =>
      assert_ (time_table_idx =? 0) "assertion failed: time_table_idx == 0" ;;
      store_value_str ["0"%byte] ;; ret "0"%string
  end.

Definition wellen_vpi_get (property handle : Z) : WM Z :=
  let! info := signal_info handle in
  let sg := signal info in
  let! first_indx := unwrap (get_first_time_idx sg) in
  let! off := expect (get_offset sg first_indx) "failed to get offset" in
  let signal_v := get_value_at sg off 0 in
  if u32 property =? vpiSize then let! width := unwrap (sv_width signal_v) in ret (i32 width)
  else panic "not yet implemented".

(** The string a returned pointer points to; [None] is the null pointer. *)
Definition wellen_vpi_get_str (property handle : Z) : WM (option string) :=
  let! ptrs := get_module_handle_ptr_map in
  match ptrs !! handle with
  | Some _ =>
      let! b := deref handle in
      match b with
      | ModuleBox name =>
          if u32 property =? vpiName then ret (Some name)
          else if u32 property =? vpiDefName then ret None
          else if u32 property =? vpiType then ret (Some "vpiModule"%string)
          else ret None
      | _ => undefined "not a module handle"
      end
  | None =>
      let! r := deref_signal handle in
      if u32 property =? vpiName then
        let! names := get_signal_name_cache in ret (names !! r)
      else if u32 property =? vpiType then
        let! cache := get_signal_cache in
        let! info := unwrap (cache !! r) in
        ret (Some (match var_type info with
                   | Wire => "vpiNet" | Reg | Logic => "vpiReg" | _ => "vpiReg" end)%string)
      else ret None
  end.

(** ** Iteration *)

Fixpoint starts_with (p l : list byte) : bool :=
  match p, l with
  | [], _ => true
  | a :: p, b :: l => bool_decide (a = b) && starts_with p l
  | _, [] => false
  end.
Definition ends_with (p l : list byte) : bool := starts_with (rev p) (rev l).

Definition is_valid_top_module_scope (h : Hierarchy) (scope_ref : ScopeRef) : bool :=
  bool_decide (scope_type h scope_ref = Module_) &&
  (let scope_name := as_bytes (scope_name h scope_ref) in
   negb (starts_with (as_bytes "$") scope_name || ends_with (as_bytes "_pkg") scope_name)).

Definition collect_module_scopes (type_ refHandle : Z) : WM (list ScopeRef) :=
  if negb (u32 type_ =? vpiModule) then ret [] else
  let! hierarchy := get_hierarchy in
  if refHandle =? 0 then
    ret (filter (fun s => is_valid_top_module_scope hierarchy s = true) (h_scopes hierarchy))
  else
    let! ptrs := get_module_handle_ptr_map in
    match ptrs !! refHandle with
    | Some scope_ref =>
        ret (filter (fun c => scope_type hierarchy c = Module_) (scope_scopes hierarchy scope_ref))
    | None => ret []
    end.

Definition map_var_type_to_vpi_iter_type (v : VarType) : Z :=
  match v with Wire => vpiNet | SparseArray => vpiMemory | _ => vpiReg end.

(** The loop over the variables of a scope, with the signals already seen. *)
Fixpoint collect_vars (h : Hierarchy) (type_ : Z) (visited : gset SignalRef) (vars : list VarRef)
  : WM (list Z) :=
  match vars with
  | [] => ret []
  | v :: vars =>
      if negb (map_var_type_to_vpi_iter_type (var_var_type h v) =? type_)
      then collect_vars h type_ visited vars else
      let r := var_signal_ref h v in
      if bool_decide (r ∈ visited) then collect_vars h type_ visited vars else
      let! full_name := CString_new (var_full_name h v) in
      let! handle := wellen_vpi_handle_by_name (Some full_name) in
      let! rest := collect_vars h type_ ({[r]} ∪ visited) vars in
      ret (if handle =? 0 then rest else handle :: rest)
  end.

Definition signal_type (type_ : Z) : bool :=
  (u32 type_ =? vpiNet) || (u32 type_ =? vpiReg) || (u32 type_ =? vpiMemory).

Definition collect_signal_handles (type_ refHandle : Z) : WM (list Z) :=
  if negb (signal_type type_) then ret [] else
  if refHandle =? 0 then ret [] else
  let! ptrs := get_module_handle_ptr_map in
  match ptrs !! refHandle with
  | None => ret []
  | Some scope_ref =>
      let! hierarchy := get_hierarchy in
      collect_vars hierarchy type_ ∅ (scope_vars hierarchy scope_ref)
  end.

Definition iterate_items (type_ refHandle : Z) : WM (list WellenIteratorItem) :=
  if u32 type_ =? vpiModule then
    let! scopes := collect_module_scopes type_ refHandle in ret (map ItModule scopes)
  else if signal_type type_ then
    let! handles := collect_signal_handles type_ refHandle in ret (map ItSignal handles)
  else ret [].

Definition wellen_vpi_iterate (type_ refHandle : Z) : WM Z :=
  let! items := iterate_items type_ refHandle in
  if (length items =? 0)%nat then ret 0 else
  let! iterator_ptr := new_box (IterBox items 0) in
  let! its := get_iterator_handle_ptr_set in
  modify (set_ITERATOR_HANDLE_PTR_SET (Some ({[iterator_ptr]} ∪ its))) ;;
  ret iterator_ptr.

Definition wellen_vpi_scan (iterator : Z) : WM Z :=
  if iterator =? 0 then ret 0 else
  let! its := get_iterator_handle_ptr_set in
  if negb (bool_decide (iterator ∈ its)) then ret 0 else
  let! b := deref iterator in
  match b with
  | IterBox items index =>
      match items !! index with
      | None =>
          modify (set_ITERATOR_HANDLE_PTR_SET (Some (its ∖ {[iterator]}))) ;;
          free_box iterator ;;
          ret 0
      | Some item =>
          modify (fun w => set_boxes (<[iterator := IterBox items (S index)]> (boxes w)) w) ;;
          match item with
          | ItModule scope_ref => get_or_create_module_handle scope_ref
          | ItSignal handle => ret handle
          end
      end
  | _ => undefined "not an iterator"
  end.

(** ** Time *)

Definition wellen_get_time_from_index (index : Z) : WM Z :=
  let! t := get_time_table in
  match t !! Z.to_nat index with Some v => ret v | None => panic "index out of bounds" end.

Definition wellen_get_index_from_time (time : Z) : WM Z :=
  let! i := nearest_index time in ret (Z.of_nat i).

Definition wellen_get_max_index : WM Z :=
  let! t := get_time_table in ret (Z.of_nat (length t - 1)).

Definition wellen_get_time_precision : WM Z :=
  let! hierarchy := get_hierarchy in
  match timescale hierarchy with
  | Some ts =>
      let base_exp := default (-9) (ts_exponent ts) in
      let factor_adj := if ts_factor ts =? 1 then 0 else if ts_factor ts =? 10 then 1
                        else if ts_factor ts =? 100 then 2 else 0 in
      ret (base_exp + factor_adj)
  | None => ret (-9)
  end.

End Ops.
