(* ===== verification/WaveSession.v ===== *)
(** * The waveform back end: a session

    The invariant of a reading session (between [wellen_initialize] and
    [wellen_finalize]) and the theorems on handles and iterators: every call
    with live handles returns and keeps the invariant, handles keep denoting
    what they denoted, the name caches are transparent, an iterator yields its
    items in order and is then freed. *)

From S2P Require Import Prelude Bytes State WaveValue WaveData WaveImpl.
#[local] Open Scope Z_scope.

Section Session.
Context {wellen : Wellen} {serde : Serde} {allocator : Allocator}.

(** What a name denotes in the hierarchy. *)
Definition resolves (h : Hierarchy) (name : string) : option SignalRef :=
  match rsplit_dot (as_bytes name) with
  | Some (path, n) => var_signal_ref h <$> lookup_var h (path_of path) (of_bytes n)
  | None => None
  end.

(** The statics of an initialised session. *)
Record Live := mkLive {
  l_time : list Z;
  l_hier : Hierarchy;
  l_source : SignalSource;
  l_modified : option FileModifiedInfo;
  l_refs : gmap string SignalRef;
  l_nulls : gset string;
  l_sigs : gmap SignalRef SignalInfo;
  l_names : gmap SignalRef string;
  l_new : bool;
  l_modules : gmap ScopeRef Z;
  l_ptrs : gmap Z ScopeRef;
  l_iters : gset Z;
  l_buffer : list byte;
  l_boxes : gmap Z Boxed;
  l_files : gmap string (list byte)
}.

Definition world (l : Live) : WaveWorld :=
  mkWave (Some (l_time l)) (Some (l_hier l)) (Some (l_source l)) (l_modified l)
    (Some (l_refs l)) (Some (l_nulls l)) (Some (l_sigs l)) (Some (l_names l)) (l_new l)
    (Some (l_modules l)) (Some (l_ptrs l)) (Some (l_iters l)) (l_buffer l) (l_boxes l) (l_files l).

Record live_ok (l : Live) : Prop := mkOk {
  ok_refs : forall n r, l_refs l !! n = Some r ->
    is_Some (l_sigs l !! r) /\ resolves (l_hier l) n = Some r;
  ok_nulls : forall n, n ∈ l_nulls l -> resolves (l_hier l) n = None;
  ok_sigs : forall r i, l_sigs l !! r = Some i -> sig_ref (signal i) = r;
  ok_signal : forall a r, l_boxes l !! a = Some (SignalBox r) ->
    is_Some (l_sigs l !! r) /\ is_Some (l_names l !! r);
  ok_ptr : forall a s, l_ptrs l !! a = Some s <-> l_modules l !! s = Some a;
  ok_module : forall a s, l_ptrs l !! a = Some s -> l_boxes l !! a = Some (ModuleBox (scope_name (l_hier l) s));
  ok_owned : forall a name, l_boxes l !! a = Some (ModuleBox name) -> is_Some (l_ptrs l !! a);
  ok_iters : forall a, a ∈ l_iters l <-> exists items i, l_boxes l !! a = Some (IterBox items i);
  ok_items : forall a items i, l_boxes l !! a = Some (IterBox items i) ->
    (i <= length items)%nat /\
    forall x, ItSignal x ∈ items -> exists r, l_boxes l !! x = Some (SignalBox r);
  ok_null : l_boxes l !! 0 = None
}.

(** An address the allocator handed out. *)
Definition given (a : Z) : Prop := exists X, a = fresh_addr X.

(** A signal as the source loads it. *)
Definition loaded (r : SignalRef) (sg : Signal) : Prop :=
  exists src h mt src', load_signals src [r] h mt = ([sg], src').

(** What a call may change: signal and module handles stay what they are; new boxes
    come from the allocator, new signals from the source, and a name is recorded for
    the signal it denotes. *)
Record evolves (l l' : Live) : Prop := mkEvolves {
  ev_hier : l_hier l' = l_hier l;
  ev_time : l_time l' = l_time l;
  ev_signal : forall a r, l_boxes l !! a = Some (SignalBox r) -> l_boxes l' !! a = Some (SignalBox r);
  ev_ptrs : l_ptrs l ⊆ l_ptrs l';
  ev_refs : l_refs l ⊆ l_refs l';
  ev_boxes : forall a b, l_boxes l' !! a = Some b -> is_Some (l_boxes l !! a) \/ given a;
  ev_sigs : forall r i, l_sigs l' !! r = Some i -> l_sigs l !! r = Some i \/ loaded r (signal i);
  ev_names : forall r n, l_names l' !! r = Some n -> l_names l !! r = Some n \/ resolves (l_hier l) n = Some r
}.

(** ... and a call other than a scan leaves the iterators alone. *)
Definition iters_same (l l' : Live) : Prop :=
  forall a items i, l_boxes l !! a = Some (IterBox items i) -> l_boxes l' !! a = Some (IterBox items i).

#[export] Instance evolves_preorder : PreOrder evolves.
Proof.
  split.
  - intros l. split; eauto.
  - intros l1 l2 l3 [? ? ? ? ? B1 S1 N1] [Hh ? ? ? ? B2 S2 N2]. split; eauto; try congruence; try by etransitivity.
    + intros a b [[b' Hb]|]%B2; [|by right]. by eapply B1.
    + intros r i [Hi|]%S2; [|by right]. by apply S1.
    + intros r n Hr. rewrite <- (ev_hier0 : l_hier l2 = l_hier l1). destruct (N2 _ _ Hr) as [Hn|]; [|by right].
      rewrite (ev_hier0 : l_hier l2 = l_hier l1). by apply N1.
Qed.

#[export] Instance iters_same_preorder : PreOrder iters_same.
Proof.
  split.
  - intros l a items i Ha. exact Ha.
  - intros l1 l2 l3 H1 H2 a items i Ha. apply H2, H1, Ha.
Qed.

(** [runs m l Q]: [m] returns from [l], in a well-formed session evolved from
    [l], with [Q]. *)
Definition runs {A} (m : WM A) (l : Live) (Q : A -> Live -> Prop) : Prop :=
  exists a l', m (world l) = Ret a (world l') /\ live_ok l' /\ evolves l l' /\ Q a l'.

Lemma runs_ret {A} (a : A) l (Q : A -> Live -> Prop) : live_ok l -> Q a l -> runs (ret a) l Q.
Proof. intros. exists a, l. split; [done|split; [done|split; [reflexivity|done]]]. Qed.

Lemma runs_bind {A B} (m : WM A) (k : A -> WM B) l (P : A -> Live -> Prop) (Q : B -> Live -> Prop) :
  runs m l P ->
  (forall a l', live_ok l' -> evolves l l' -> P a l' -> runs (k a) l' Q) ->
  runs (bind m k) l Q.
Proof.
  intros (a & l1 & E1 & Hok1 & Hev1 & HP) Hk.
  destruct (Hk a l1 Hok1 Hev1 HP) as (b & l2 & E2 & Hok2 & Hev2 & HQ).
  exists b, l2. split; [by rewrite (bind_Ret _ _ _ _ _ E1)|].
  split; [done|split; [by transitivity l1|done]].
Qed.

Lemma runs_bind_ret {A B} (a : A) (k : A -> WM B) l (Q : B -> Live -> Prop) :
  runs (k a) l Q -> runs (bind (ret a) k) l Q.
Proof. intros H. exact H. Qed.

Lemma runs_mono {A} (m : WM A) l (P Q : A -> Live -> Prop) :
  runs m l P -> (forall a l', live_ok l' -> evolves l l' -> P a l' -> Q a l') -> runs m l Q.
Proof. intros (a & l1 & E & Hok & Hev & HP) HPQ. exists a, l1. eauto 10. Qed.

(** A computation that only reads. *)
Lemma runs_pure {A} (m : WM A) (a : A) l (Q : A -> Live -> Prop) :
  m (world l) = Ret a (world l) -> live_ok l -> Q a l -> runs m l Q.
Proof. intros. exists a, l. split; [done|split; [done|split; [reflexivity|done]]]. Qed.

(** An outcome determines the session it leaves. *)
Lemma world_inj l1 l2 : world l1 = world l2 -> l1 = l2.
Proof. destruct l1, l2. intros [=]. by subst. Qed.

(** Two views of one computation. *)
Lemma runs_and {A} (m : WM A) l (P Q : A -> Live -> Prop) :
  runs m l P -> runs m l Q -> runs m l (fun a l' => P a l' /\ Q a l').
Proof.
  intros (a & l1 & E1 & Hok & Hev & HP) (b & l2 & E2 & _ & _ & HQ). rewrite E1 in E2.
  assert (a = b) as <- by congruence. assert (world l1 = world l2) as ->%world_inj by congruence.
  exists a, l2. eauto 10.
Qed.

Definition with_boxes (b : gmap Z Boxed) (l : Live) : Live :=
  mkLive (l_time l) (l_hier l) (l_source l) (l_modified l) (l_refs l) (l_nulls l) (l_sigs l)
    (l_names l) (l_new l) (l_modules l) (l_ptrs l) (l_iters l) (l_buffer l) b (l_files l).

Definition with_names (n : gmap SignalRef string) (l : Live) : Live :=
  mkLive (l_time l) (l_hier l) (l_source l) (l_modified l) (l_refs l) (l_nulls l) (l_sigs l)
    n (l_new l) (l_modules l) (l_ptrs l) (l_iters l) (l_buffer l) (l_boxes l) (l_files l).
Definition with_buffer (b : list byte) (l : Live) : Live :=
  mkLive (l_time l) (l_hier l) (l_source l) (l_modified l) (l_refs l) (l_nulls l) (l_sigs l)
    (l_names l) (l_new l) (l_modules l) (l_ptrs l) (l_iters l) b (l_boxes l) (l_files l).
Definition with_null (n : string) (l : Live) : Live :=
  mkLive (l_time l) (l_hier l) (l_source l) (l_modified l) (l_refs l) ({[n]} ∪ l_nulls l) (l_sigs l)
    (l_names l) true (l_modules l) (l_ptrs l) (l_iters l) (l_buffer l) (l_boxes l) (l_files l).
(** A newly loaded signal, under the name it was asked for. *)
Definition with_loaded (src : SignalSource) (n : string) (r : SignalRef) (i : SignalInfo) (l : Live) : Live :=
  mkLive (l_time l) (l_hier l) src (l_modified l) (<[n := r]> (l_refs l)) (l_nulls l)
    (<[r := i]> (l_sigs l)) (<[r := n]> (l_names l)) true (l_modules l) (l_ptrs l) (l_iters l)
    (l_buffer l) (l_boxes l) (l_files l).
Definition with_module (s : ScopeRef) (a : Z) (l : Live) : Live :=
  mkLive (l_time l) (l_hier l) (l_source l) (l_modified l) (l_refs l) (l_nulls l) (l_sigs l)
    (l_names l) (l_new l) (<[s := a]> (l_modules l)) (<[a := s]> (l_ptrs l)) (l_iters l) (l_buffer l)
    (<[a := ModuleBox (scope_name (l_hier l) s)]> (l_boxes l)) (l_files l).
Definition with_iters (its : gset Z) (b : gmap Z Boxed) (l : Live) : Live :=
  mkLive (l_time l) (l_hier l) (l_source l) (l_modified l) (l_refs l) (l_nulls l) (l_sigs l)
    (l_names l) (l_new l) (l_modules l) (l_ptrs l) its (l_buffer l) b (l_files l).

Definition fresh_in (l : Live) (a : Z) : Prop := l_boxes l !! a = None /\ a <> 0.

(** Case analysis of a lookup in an updated map. *)
Ltac look :=
  repeat match goal with
  | H : <[_ := _]> _ !! _ = Some _ |- _ => apply lookup_insert_Some in H as [[? ?]|[? ?]]; simplify_eq
  | H : delete _ _ !! _ = Some _ |- _ => apply lookup_delete_Some in H as [? ?]
  | |- context [<[?k := _]> _ !! ?k] => rewrite lookup_insert_eq
  | H : ?k <> ?j |- context [<[?k := _]> _ !! ?j] => rewrite (lookup_insert_ne _ k j _ H)
  | H : ?j <> ?k |- context [<[?k := _]> _ !! ?j] => rewrite (lookup_insert_ne _ k j) by (by apply not_eq_sym)
  end.

Lemma ok_signal_box l a r :
  live_ok l -> fresh_in l a -> is_Some (l_sigs l !! r) -> is_Some (l_names l !! r) ->
  live_ok (with_boxes (<[a := SignalBox r]> (l_boxes l)) l).
Proof.
  intros [] [Hf H0] Hs Hn. split; cbn; auto.
  - intros a' r' H. look; eauto.
  - intros a' s H. destruct (decide (a = a')) as [<-|]; look; auto.
    apply ok_module0 in H. congruence.
  - intros a' n H. look; eauto.
  - intros a'. rewrite ok_iters0. split.
    + intros (items & i & Ha). exists items, i.
      destruct (decide (a = a')) as [<-|]; look; congruence.
    + intros (items & i & Ha). look; eauto.
  - intros a' items i Ha. assert (l_boxes l !! a' = Some (IterBox items i)) as Ha' by by look.
    destruct (ok_items0 _ _ _ Ha') as [Hi Hx]. split; [done|].
    intros x Hin. destruct (Hx x Hin) as [r' Hr'].
    destruct (decide (a = x)) as [<-|]; look; eauto.
  - by look.
Qed.

Lemma ok_with_names l n r : live_ok l -> live_ok (with_names (<[r := n]> (l_names l)) l).
Proof.
  intros []. split; cbn; auto. intros a r' Ha. destruct (ok_signal0 _ _ Ha). split; [done|].
  destruct (decide (r = r')) as [<-|]; look; eauto.
Qed.

Lemma ok_with_buffer l b : live_ok l -> live_ok (with_buffer b l).
Proof. intros []. by split. Qed.

Lemma ok_with_null l n : live_ok l -> resolves (l_hier l) n = None -> live_ok (with_null n l).
Proof. intros [] Hn. split; cbn; auto. intros n' [->%elem_of_singleton|]%elem_of_union; auto. Qed.

Lemma ok_with_loaded l src n r i :
  live_ok l -> resolves (l_hier l) n = Some r -> sig_ref (signal i) = r -> live_ok (with_loaded src n r i l).
Proof.
  intros [] Hn Hi.
  assert (forall r', is_Some (l_sigs l !! r') -> is_Some (<[r := i]> (l_sigs l) !! r')) as Hs.
  { intros r' H. destruct (decide (r = r')) as [<-|]; look; eauto. }
  split; cbn; auto.
  - intros n' r' H. look; [split; [look; eauto|done]|]. apply ok_refs0 in H0 as []. auto.
  - intros r' i' H. look; auto.
  - intros a r' Ha. destruct (ok_signal0 _ _ Ha). split; [auto|].
    destruct (decide (r = r')) as [<-|]; look; eauto.
Qed.

Lemma ok_with_module l s a :
  live_ok l -> fresh_in l a -> l_modules l !! s = None -> live_ok (with_module s a l).
Proof.
  intros [] [Hf H0] Hs.
  assert (l_ptrs l !! a = None) as Hp.
  { destruct (l_ptrs l !! a) eqn:E; [|done]. apply ok_module0 in E. congruence. }
  split; cbn; auto.
  - intros a' r Ha. look; eauto.
  - intros a' s'. rewrite !lookup_insert_Some, ok_ptr0.
    split; (intros [[? ?]|[? Hm]]; [left; by simplify_eq|]); right; (split; [|done]); intros ->.
    + congruence.
    + apply ok_ptr0 in Hm. congruence.
  - intros a' s' H. look; [done|]. by apply ok_module0.
  - intros a' n H. destruct (decide (a = a')) as [<-|]; look; eauto.
  - intros a'. rewrite ok_iters0. split.
    + intros (items & i & Ha). exists items, i.
      destruct (decide (a = a')) as [<-|]; look; congruence.
    + intros (items & i & Ha). look; eauto.
  - intros a' items i Ha. assert (l_boxes l !! a' = Some (IterBox items i)) as Ha' by by look.
    destruct (ok_items0 _ _ _ Ha') as [Hi Hx]. split; [done|].
    intros x Hin. destruct (Hx x Hin) as [r' Hr'].
    destruct (decide (a = x)) as [<-|]; look; eauto; congruence.
  - by look.
Qed.

Lemma evolves_box l a b : fresh_in l a -> given a -> evolves l (with_boxes (<[a := b]> (l_boxes l)) l).
Proof.
  intros [Hf H0] Hg. split; cbn; eauto.
  - intros a' r Ha. destruct (decide (a = a')) as [<-|]; look; congruence.
  - intros a' b' Ha. look; eauto.
Qed.

Lemma iters_same_box l a b : fresh_in l a -> iters_same l (with_boxes (<[a := b]> (l_boxes l)) l).
Proof. intros [Hf H0] a' items i Ha. cbn. destruct (decide (a = a')) as [<-|]; look; congruence. Qed.

Lemma evolves_module l s a :
  live_ok l -> fresh_in l a -> given a -> l_modules l !! s = None -> evolves l (with_module s a l).
Proof.
  intros [] [Hf H0] Hg Hs. split; cbn; eauto.
  - intros a' r Ha. destruct (decide (a = a')) as [<-|]; look; congruence.
  - apply insert_subseteq. destruct (l_ptrs l !! a) eqn:E; [|done].
    apply ok_module0 in E. congruence.
  - intros a' b' Ha. look; eauto.
Qed.

Section Ops.
Hypothesis alloc : alloc_ok.
Hypothesis load : load_ok.

Definition next_addr (l : Live) : Z := fresh_addr (dom (l_boxes l)).

Lemma next_fresh l : fresh_in l (next_addr l).
Proof. destruct (alloc (dom (l_boxes l))) as [H ?]. split; [|done]. by apply not_elem_of_dom. Qed.

Lemma next_given l : given (next_addr l).
Proof. by eexists. Qed.

Lemma new_signal_box l r :
  live_ok l -> is_Some (l_sigs l !! r) -> is_Some (l_names l !! r) ->
  runs (new_box (SignalBox r)) l (fun a l' =>
    fresh_in l a /\ iters_same l l' /\ l' = with_boxes (<[a := SignalBox r]> (l_boxes l)) l).
Proof.
  intros Hok Hs Hn. exists (next_addr l), (with_boxes (<[next_addr l := SignalBox r]> (l_boxes l)) l).
  pose proof (next_fresh l) as Hf. split; [done|].
  split; [by apply ok_signal_box|]. split; [by apply evolves_box; [|apply next_given]|].
  split; [done|]. split; [by apply iters_same_box|done].
Qed.

(** What a call that makes a signal handle for [n] promises. *)
Definition names_signal (n : string) (r : SignalRef) (l : Live) (a : Z) (l' : Live) : Prop :=
  fresh_in l a /\ iters_same l l' /\ l_boxes l' !! a = Some (SignalBox r) /\ l_names l' = <[r := n]> (l_names l).

Lemma cached_name_runs l n r :
  live_ok l -> c_name n -> l_refs l !! n = Some r ->
  runs (wellen_vpi_handle_by_name (Some n)) l (names_signal n r l).
Proof.
  intros Hok [Hstr Hnul] Hr. destruct (ok_refs _ Hok _ _ Hr) as [Hs _].
  set (l1 := with_names (<[r := n]> (l_names l)) l).
  destruct (new_signal_box l1 r) as (a & l2 & E & Hok2 & Hev2 & Hf & Hit & ->);
    [by apply ok_with_names|done|cbn; by look|].
  exists a, (with_boxes (<[a := SignalBox r]> (l_boxes l1)) l1). split.
  { unfold wellen_vpi_handle_by_name. cbn. rewrite Hstr. unfold bind, static_, ret. cbn. rewrite Hr.
    unfold CString_new. rewrite Hnul. exact E. }
  split; [done|]. split.
  { destruct Hev2 as [? ? ? ? ? ? ? Hn]. split; cbn; eauto. intros r' n' Hr'. look; [|by left].
    right. by apply (ok_refs _ Hok). }
  split; [done|]. split; [done|]. cbn. by look.
Qed.

Lemma new_name_runs l n r :
  live_ok l -> c_name n -> l_refs l !! n = None -> resolves (l_hier l) n = Some r ->
  runs (wellen_vpi_handle_by_name (Some n)) l (names_signal n r l).
Proof.
  intros Hok [Hstr Hnul] Hr Hres. unfold resolves in Hres.
  destruct (rsplit_dot (as_bytes n)) as [[path nm]|] eqn:Hd; [|done].
  destruct (lookup_var (l_hier l) (path_of path) (of_bytes nm)) as [v|] eqn:Hv; [|done].
  cbn in Hres. injection Hres as Hres.
  destruct (load (l_source l) (var_signal_ref (l_hier l) v) (l_hier l) true) as (sg & src' & Hld & Hsg).
  set (i := mkInfo sg (var_var_type (l_hier l) v)).
  set (l1 := with_loaded src' n r i l).
  assert (resolves (l_hier l) n = Some r) as Hres2.
  { unfold resolves. rewrite Hd, Hv. cbn. congruence. }
  assert (live_ok l1) as Hok1 by (apply ok_with_loaded; cbn; congruence).
  destruct (new_signal_box l1 r) as (a & l2 & E & Hok2 & Hev2 & Hf & Hit & ->);
    [done|cbn; by look|cbn; by look|].
  exists a, (with_boxes (<[a := SignalBox r]> (l_boxes l1)) l1). split.
  { unfold wellen_vpi_handle_by_name. cbn. rewrite Hstr. unfold bind, static_, ret. cbn. rewrite Hr. cbn.
    rewrite bool_decide_false by (intros Hin; apply (ok_nulls _ Hok) in Hin; congruence).
    unfold load_new_signal. rewrite Hd. unfold bind, static_, ret. cbn. rewrite Hv. cbn.
    rewrite Hld. cbn. rewrite Hsg, bool_decide_true by done. cbn.
    unfold CString_new. rewrite Hnul. cbn. rewrite Hres. exact E. }
  split; [done|]. split.
  { destruct Hev2 as [? ? ? ? Href Hbx _ _]. split; try done.
    - etransitivity; [|exact Href]. by apply insert_subseteq.
    - intros r' i' Hi'. cbn in Hi'. look; [|by left]. right. by do 4 eexists.
    - intros r' n' Hn'. cbn in Hn'. look; [by right|by left]. }
  split; [done|]. split; [done|]. cbn. by look.
Qed.

Lemma missing_name_runs l n :
  live_ok l -> c_name n -> rsplit_dot (as_bytes n) <> None -> resolves (l_hier l) n = None ->
  runs (wellen_vpi_handle_by_name (Some n)) l (fun a l' => a = 0 /\ iters_same l l' /\ l_names l' = l_names l).
Proof.
  intros Hok [Hstr Hnul] Hdot Hres.
  assert (l_refs l !! n = None) as Hr.
  { destruct (l_refs l !! n) eqn:E; [|done]. apply (ok_refs _ Hok) in E as []. congruence. }
  destruct (decide (n ∈ l_nulls l)) as [Hin|Hin].
  - apply runs_pure with 0; [|done|done].
    unfold wellen_vpi_handle_by_name. cbn. rewrite Hstr. unfold bind, static_, ret. cbn. rewrite Hr. cbn.
    by rewrite bool_decide_true.
  - exists 0, (with_null n l). split; [|split; [by apply ok_with_null|split; [split; cbn; eauto|]]].
    2:{ split; [done|]. split; [|done]. intros ? ? ?. done. }
    unfold wellen_vpi_handle_by_name. cbn. rewrite Hstr. unfold bind, static_, ret. cbn. rewrite Hr. cbn.
    rewrite bool_decide_false by done. unfold load_new_signal. unfold resolves in Hres.
    destruct (rsplit_dot (as_bytes n)) as [[path nm]|]; [|done].
    unfold bind, static_, ret. cbn. by destruct (lookup_var _ _ _).
Qed.

(** The caches are transparent: the call answers what the hierarchy says. *)
Definition answers (n : string) (l : Live) (a : Z) (l' : Live) : Prop :=
  match resolves (l_hier l) n with
  | Some r => names_signal n r l a l'
  | None => a = 0 /\ iters_same l l' /\ l_names l' = l_names l
  end.

Lemma handle_by_name_runs l n :
  live_ok l -> c_name n -> rsplit_dot (as_bytes n) <> None ->
  runs (wellen_vpi_handle_by_name (Some n)) l (answers n l).
Proof.
  intros Hok Hc Hdot. destruct (resolves (l_hier l) n) as [r|] eqn:Hres.
  - assert (runs (wellen_vpi_handle_by_name (Some n)) l (names_signal n r l)) as H.
    { destruct (l_refs l !! n) as [r'|] eqn:Hr.
      - assert (r' = r) as -> by (apply (ok_refs _ Hok) in Hr as []; congruence).
        by apply cached_name_runs.
      - by apply new_name_runs. }
    apply (runs_mono _ _ _ _ H). intros a l' _ _ HQ. unfold answers. by rewrite Hres.
  - apply (runs_mono _ _ _ _ (missing_name_runs l n Hok Hc Hdot Hres)).
    intros a l' _ _ HQ. unfold answers. by rewrite Hres.
Qed.

(** ** Module handles and iterators *)

Lemma ptr_nonnull l a s : live_ok l -> l_ptrs l !! a = Some s -> a <> 0.
Proof. intros Hok Ha ->. apply (ok_module _ Hok) in Ha. rewrite (ok_null _ Hok) in Ha. done. Qed.

Lemma box_nonnull l a b : live_ok l -> l_boxes l !! a = Some b -> a <> 0.
Proof. intros Hok Ha ->. rewrite (ok_null _ Hok) in Ha. done. Qed.

Definition module_handle (s : ScopeRef) (l : Live) (a : Z) (l' : Live) : Prop :=
  iters_same l l' /\ l_names l' = l_names l /\ l_ptrs l' !! a = Some s.

Lemma module_handle_runs l s :
  live_ok l -> c_name (scope_name (l_hier l) s) ->
  runs (get_or_create_module_handle s) l (module_handle s l).
Proof.
  intros Hok [_ Hnul]. destruct (l_modules l !! s) as [a|] eqn:Hs.
  - apply runs_pure with a; [|done|].
    + unfold get_or_create_module_handle, bind, static_. cbn. by rewrite Hs.
    + split; [done|]. split; [done|]. by apply (ok_ptr _ Hok).
  - pose proof (next_fresh l) as Hf.
    exists (next_addr l), (with_module s (next_addr l) l). split.
    { unfold get_or_create_module_handle, bind, static_. cbn. rewrite Hs. cbn.
      unfold CString_new. rewrite Hnul. done. }
    split; [by apply ok_with_module|]. split; [by apply evolves_module; [..|apply next_given|]|].
    split; [by apply (iters_same_box l (next_addr l))|]. split; [done|]. cbn. by look.
Qed.

(** What an iterator ranges over, read off the hierarchy. *)
Inductive Obj := OModule (s : ScopeRef) | OSignal (r : SignalRef).

Definition denotes (l : Live) (a : Z) (o : Obj) : Prop :=
  match o with
  | OModule s => l_ptrs l !! a = Some s
  | OSignal r => l_boxes l !! a = Some (SignalBox r)
  end.

Definition item_denotes (l : Live) (i : WellenIteratorItem) (o : Obj) : Prop :=
  match i with
  | ItModule s => o = OModule s
  | ItSignal a => exists r, o = OSignal r /\ l_boxes l !! a = Some (SignalBox r)
  end.

Definition child_modules (h : Hierarchy) (ref : option ScopeRef) : list ScopeRef :=
  match ref with
  | None => filter (fun s => is_valid_top_module_scope h s = true) (h_scopes h)
  | Some s => filter (fun c => scope_type h c = Module_) (scope_scopes h s)
  end.

(** The variables of a kind, each signal once. *)
Fixpoint distinct_vars (h : Hierarchy) (type_ : Z) (seen : gset SignalRef) (vars : list VarRef) : list VarRef :=
  match vars with
  | [] => []
  | v :: vars =>
      if (map_var_type_to_vpi_iter_type (var_var_type h v) =? type_) && bool_decide (var_signal_ref h v ∉ seen)
      then v :: distinct_vars h type_ ({[var_signal_ref h v]} ∪ seen) vars
      else distinct_vars h type_ seen vars
  end.

Definition scope_signals (h : Hierarchy) (type_ : Z) (s : ScopeRef) : list SignalRef :=
  omap (fun v => resolves h (var_full_name h v)) (distinct_vars h type_ ∅ (scope_vars h s)).

Definition objects (h : Hierarchy) (type_ : Z) (ref : option ScopeRef) : list Obj :=
  if u32 type_ =? vpiModule then OModule <$> child_modules h ref
  else if signal_type type_ then
    match ref with Some s => OSignal <$> scope_signals h type_ s | None => [] end
  else [].

(** The scope a reference argument stands for: null is the top level. *)
Inductive ref_denotes (l : Live) : Z -> option ScopeRef -> Prop :=
| ref_top : ref_denotes l 0 None
| ref_scope a s : l_ptrs l !! a = Some s -> ref_denotes l a (Some s).

Lemma denotes_evolves l l' a o : evolves l l' -> denotes l a o -> denotes l' a o.
Proof. intros []. destruct o; cbn; [|auto]. intros Ha. by eapply lookup_weaken. Qed.

Lemma item_denotes_evolves l l' i o : evolves l l' -> item_denotes l i o -> item_denotes l' i o.
Proof. intros []. destruct i; cbn; [done|]. intros (r & -> & ?). eauto. Qed.

Lemma dotted l v : hierarchy_ok (l_hier l) -> rsplit_dot (as_bytes (var_full_name (l_hier l) v)) <> None.
Proof.
  intros [_ Hv]. destruct (Hv v) as [_ Hdot%has_spec]. revert Hdot.
  generalize (as_bytes (var_full_name (l_hier l) v)). intros b.
  induction b as [|c b IH]; intros Hin; [by apply elem_of_nil in Hin|].
  cbn. destruct (rsplit_dot b) as [[? ?]|]; [done|].
  apply elem_of_cons in Hin as [<-|Hin]; [by rewrite bool_decide_true|by destruct (IH Hin)].
Qed.

Lemma collect_vars_runs type_ vars : forall l seen,
  live_ok l -> hierarchy_ok (l_hier l) ->
  runs (collect_vars (l_hier l) type_ seen vars) l (fun hs l' => iters_same l l' /\
    Forall2 (fun a r => l_boxes l' !! a = Some (SignalBox r)) hs
      (omap (fun v => resolves (l_hier l) (var_full_name (l_hier l) v))
         (distinct_vars (l_hier l) type_ seen vars))).
Proof.
  induction vars as [|v vars IH]; intros l seen Hok Hh; cbn [collect_vars distinct_vars].
  { apply runs_ret; [done|]. split; [done|constructor]. }
  destruct (_ =? type_); cbn [negb andb]; [|by apply IH].
  destruct (decide (var_signal_ref (l_hier l) v ∈ seen)) as [Hin|Hin].
  { rewrite bool_decide_true, bool_decide_false by (try done; auto). by apply IH. }
  rewrite bool_decide_false, bool_decide_true by done. cbn [omap list_omap].
  destruct (proj1 (proj2 Hh v)) as [Hstr Hnul]. unfold CString_new. rewrite Hnul. apply runs_bind_ret.
  eapply runs_bind; [apply handle_by_name_runs; [done|by split|by apply dotted]|].
  intros a l1 Hok1 Hev1 Ha. pose proof (ev_hier _ _ Hev1) as Hhe.
  pose proof (IH l1 ({[var_signal_ref (l_hier l) v]} ∪ seen) Hok1) as IH1. rewrite Hhe in IH1.
  eapply runs_bind; [by apply IH1|]. intros hs l2 Hok2 Hev2 [Hit2 Hhs]. apply runs_ret; [done|].
  unfold answers in Ha. destruct (resolves (l_hier l) (var_full_name (l_hier l) v)) as [r|] eqn:Hres.
  - destruct Ha as ([_ Hne] & Hit1 & Hbox & _). split; [by transitivity l1|].
    destruct (Z.eqb_spec a 0); [done|]. constructor; [|done]. by apply (ev_signal _ _ Hev2).
  - destruct Ha as (-> & Hit1 & _). split; [by transitivity l1|done].
Qed.

Lemma iterate_items_runs type_ a ref l :
  live_ok l -> hierarchy_ok (l_hier l) -> ref_denotes l a ref ->
  runs (iterate_items type_ a) l (fun items l' => iters_same l l' /\
    Forall2 (item_denotes l') items (objects (l_hier l) type_ ref)).
Proof.
  intros Hok Hh Href. unfold iterate_items, objects, collect_module_scopes, collect_signal_handles.
  destruct (u32 type_ =? vpiModule); cbn [negb].
  - eapply (runs_bind _ _ _ (fun ss l' => l' = l /\ ss = child_modules (l_hier l) ref)).
    + eapply runs_pure; [|done|done]. unfold bind, static_. cbn.
      destruct Href as [|a s Ha]; cbn; [done|].
      destruct (Z.eqb_spec a 0) as [->|]; [by destruct (ptr_nonnull l 0 s)|].
      cbn. by rewrite Ha.
    + intros ss l' _ _ [-> ->]. apply runs_ret; [done|]. split; [done|].
      induction (child_modules (l_hier l) ref); cbn; by constructor.
  - destruct (signal_type type_); cbn [negb]; [|apply runs_ret; [done|split; [done|constructor]]].
    eapply (runs_bind _ _ _ (fun hs l' => iters_same l l' /\
      Forall2 (fun x o => exists r, o = OSignal r /\ l_boxes l' !! x = Some (SignalBox r)) hs
        (match ref with Some s => OSignal <$> scope_signals (l_hier l) type_ s | None => [] end))).
    + destruct Href as [|a s Ha]; cbn; [by apply runs_ret; [|split; [|constructor]]|].
      destruct (Z.eqb_spec a 0) as [->|]; [by destruct (ptr_nonnull l 0 s)|].
      destruct (collect_vars_runs type_ (scope_vars (l_hier l) s) l ∅ Hok Hh)
        as (hs & l' & E & Hok' & Hev & Hit & Hf).
      exists hs, l'. split; [|split; [done|split; [done|split; [done|]]]].
      * unfold bind, static_. cbn. rewrite Ha. exact E.
      * fold (scope_signals (l_hier l) type_ s) in Hf. clear E. induction Hf; cbn; constructor; eauto.
    + intros hs l' Hok' _ [Hit Hf]. apply runs_ret; [done|]. split; [done|].
      induction Hf; cbn; by constructor.
Qed.

Lemma ok_new_iter l a items :
  live_ok l -> fresh_in l a ->
  (forall x, ItSignal x ∈ items -> exists r, l_boxes l !! x = Some (SignalBox r)) ->
  live_ok (with_iters ({[a]} ∪ l_iters l) (<[a := IterBox items 0]> (l_boxes l)) l).
Proof.
  intros [] [Hf H0] Hx.
  assert (forall x r, l_boxes l !! x = Some (SignalBox r) ->
            <[a := IterBox items 0]> (l_boxes l) !! x = Some (SignalBox r)) as Hkeep.
  { intros x r Hr. destruct (decide (a = x)) as [<-|]; look; congruence. }
  split; cbn; auto.
  - intros a' r H. look; eauto.
  - intros a' s H. destruct (decide (a = a')) as [<-|]; look; auto.
    apply ok_module0 in H. congruence.
  - intros a' n H. look; eauto.
  - intros a'. rewrite elem_of_union, elem_of_singleton, ok_iters0. split.
    + intros [->|(its & i & Ha)]; [look; eauto|]. exists its, i.
      destruct (decide (a = a')) as [<-|]; look; congruence.
    + intros (its & i & Ha). destruct (decide (a = a')) as [<-|]; look; eauto.
  - intros a' its i Ha. look.
    + split; [lia|]. intros x Hin. destruct (Hx x Hin) as [r Hr]. eauto.
    + destruct (ok_items0 a' its i) as [Hi Hx']; [done|]. split; [done|].
      intros x Hin. destruct (Hx' x Hin) as [r Hr]. eauto.
  - by look.
Qed.

Definition iterator_over (objs : list Obj) (l : Live) (it : Z) : Prop :=
  exists items i, l_boxes l !! it = Some (IterBox items i) /\
    Forall2 (item_denotes l) (drop i items) objs.

Lemma Forall2_signal l items objs :
  Forall2 (item_denotes l) items objs ->
  forall x, ItSignal x ∈ items -> exists r, l_boxes l !! x = Some (SignalBox r).
Proof.
  induction 1 as [|i o items objs Hi Hf IH]; intros x Hin; [by apply elem_of_nil in Hin|].
  apply elem_of_cons in Hin as [<-|Hin]; [|auto]. destruct Hi as (r & _ & ?). eauto.
Qed.

Lemma iterate_runs type_ a ref l :
  live_ok l -> hierarchy_ok (l_hier l) -> ref_denotes l a ref ->
  runs (wellen_vpi_iterate type_ a) l (fun it l' => iters_same l l' /\
    match objects (l_hier l) type_ ref with
    | [] => it = 0
    | objs => it <> 0 /\ l_boxes l !! it = None /\ iterator_over objs l' it
    end).
Proof.
  intros Hok Hh Href. eapply runs_bind; [by apply iterate_items_runs|].
  intros items l1 Hok1 Hev1 [Hit Hf]. set (objs := objects _ _ _) in *.
  destruct (Nat.eqb_spec (length items) 0) as [E|E].
  - apply nil_length_inv in E as ->. inversion Hf. by apply runs_ret.
  - pose proof (next_fresh l1) as Hfr.
    exists (next_addr l1), (with_iters ({[next_addr l1]} ∪ l_iters l1)
      (<[next_addr l1 := IterBox items 0]> (l_boxes l1)) l1).
    split; [done|]. split; [apply ok_new_iter; [done|done|by eapply Forall2_signal]|].
    assert (evolves l1 (with_iters ({[next_addr l1]} ∪ l_iters l1)
      (<[next_addr l1 := IterBox items 0]> (l_boxes l1)) l1)) as Hev
      by (destruct (evolves_box l1 (next_addr l1) (IterBox items 0) Hfr (next_given _)); by split).
    split; [done|]. split; [transitivity l1; [done|by apply (iters_same_box l1)]|].
    destruct objs as [|o objs]; [inversion Hf; subst; done|]. destruct Hfr as [Hn H0].
    split; [done|]. split.
    + destruct (l_boxes l !! next_addr l1) as [[r|n|its i]|] eqn:Eb; [..|done]; exfalso.
      * apply (ev_signal _ _ Hev1) in Eb. congruence.
      * apply (ok_owned _ Hok) in Eb as [s Hs]. eapply lookup_weaken in Hs; [|apply (ev_ptrs _ _ Hev1)].
        apply (ok_module _ Hok1) in Hs. congruence.
      * apply Hit in Eb. congruence.
    + exists items, 0%nat. cbn. look. split; [done|].
      eapply Forall2_impl; [exact Hf|]. intros. by eapply item_denotes_evolves.
Qed.

Lemma ok_iter_step l it items i item :
  live_ok l -> l_boxes l !! it = Some (IterBox items i) -> items !! i = Some item ->
  live_ok (with_boxes (<[it := IterBox items (S i)]> (l_boxes l)) l) /\
  evolves l (with_boxes (<[it := IterBox items (S i)]> (l_boxes l)) l).
Proof.
  intros [] Hb Hi.
  assert (forall x r, l_boxes l !! x = Some (SignalBox r) ->
            <[it := IterBox items (S i)]> (l_boxes l) !! x = Some (SignalBox r)) as Hkeep.
  { intros x r Hr. destruct (decide (it = x)) as [<-|]; look; congruence. }
  split; [split; cbn; auto|split; cbn; eauto; intros ? ? Ha; look; eauto].
  - intros a r H. look; eauto.
  - intros a s H. destruct (decide (it = a)) as [<-|]; look; auto.
    apply ok_module0 in H. congruence.
  - intros a n H. look; eauto.
  - intros a. rewrite ok_iters0. split; intros (its & j & Ha); (destruct (decide (it = a)) as [<-|]; look; eauto).
  - intros a its j Ha. destruct (ok_items0 _ _ _ Hb) as [Hle Hx]. look.
    + apply lookup_lt_Some in Hi. split; [lia|]. intros x Hin. destruct (Hx x Hin). eauto.
    + destruct (ok_items0 a its j) as [Hi' Hx']; [done|]. split; [done|].
      intros x Hin. destruct (Hx' x Hin) as [r Hr]. eauto.
  - rewrite lookup_insert_ne; [done|]. intros ->. congruence.
Qed.

Lemma ok_iter_free l it items i :
  live_ok l -> l_boxes l !! it = Some (IterBox items i) ->
  live_ok (with_iters (l_iters l ∖ {[it]}) (delete it (l_boxes l)) l) /\
  evolves l (with_iters (l_iters l ∖ {[it]}) (delete it (l_boxes l)) l).
Proof.
  intros [] Hb.
  assert (forall x b, l_boxes l !! x = Some b -> (forall its j, b <> IterBox its j) ->
            delete it (l_boxes l) !! x = Some b) as Hkeep.
  { intros x b Hr Hn. apply lookup_delete_Some. split; [|done]. intros ->. by eapply Hn; simplify_eq. }
  split; [split; cbn; auto|split; cbn; try done; [by intros; apply Hkeep|intros ? ? Ha; look; eauto|auto|auto]].
  - intros a r H. look; eauto.
  - intros a n H. look; eauto.
  - intros a. rewrite elem_of_difference, elem_of_singleton, ok_iters0. split.
    + intros [(its & j & Ha) Hne]. exists its, j. by apply lookup_delete_Some.
    + intros (its & j & Ha). look. eauto.
  - intros a its j Ha. look. destruct (ok_items0 a its j) as [Hi' Hx']; [done|]. split; [done|].
    intros x Hin. destruct (Hx' x Hin) as [r Hr]. exists r. by apply Hkeep.
  - apply lookup_delete_None. by right.
Qed.

(** The iterators other than [it]. *)
Definition other_iters_same (it : Z) (l l' : Live) : Prop :=
  forall a items i, a <> it -> l_boxes l !! a = Some (IterBox items i) -> l_boxes l' !! a = Some (IterBox items i).

Definition scan_yields (objs : list Obj) (it : Z) (l : Live) (a : Z) (l' : Live) : Prop :=
  other_iters_same it l l' /\ l_names l' = l_names l /\
  match objs with
  | [] => a = 0 /\ l_boxes l' !! it = None
  | o :: objs => a <> 0 /\ denotes l' a o /\ iterator_over objs l' it
  end.

Lemma scan_end_runs l it items i :
  live_ok l -> l_boxes l !! it = Some (IterBox items i) -> items !! i = None ->
  runs (wellen_vpi_scan it) l (scan_yields [] it l).
Proof.
  intros Hok Hb Hi. destruct (ok_iter_free l it items i Hok Hb) as [Hok' Hev].
  exists 0, (with_iters (l_iters l ∖ {[it]}) (delete it (l_boxes l)) l). split.
  { unfold wellen_vpi_scan. pose proof (box_nonnull l it _ Hok Hb).
    destruct (Z.eqb_spec it 0); [done|]. unfold bind, static_. cbn.
    rewrite bool_decide_true by (apply (ok_iters _ Hok); eauto). cbn. unfold deref. cbn. rewrite Hb.
    rewrite Hi. cbn. unfold free_box. cbn. by rewrite Hb. }
  split; [done|]. split; [done|]. split; [|split; [done|split; [done|]]]; cbn.
  - intros a its j Hne Ha. cbn. by apply lookup_delete_Some.
  - apply lookup_delete_eq.
Qed.

Lemma scan_item_runs l it items i item o objs :
  live_ok l -> hierarchy_ok (l_hier l) -> l_boxes l !! it = Some (IterBox items i) ->
  items !! i = Some item -> Forall2 (item_denotes l) (drop i items) (o :: objs) ->
  runs (wellen_vpi_scan it) l (scan_yields (o :: objs) it l).
Proof.
  intros Hok Hh Hb Hi Hf. destruct (ok_iter_step l it items i item Hok Hb Hi) as [Hok1 Hev1].
  set (l1 := with_boxes (<[it := IterBox items (S i)]> (l_boxes l)) l) in *.
  rewrite (drop_S _ _ _ Hi) in Hf. apply Forall2_cons in Hf as [Hitem Hrest].
  assert (iterator_over objs l1 it) as Hover.
  { exists items, (S i). split; [cbn; by look|]. eapply Forall2_impl; [exact Hrest|].
    intros. by eapply item_denotes_evolves. }
  assert (wellen_vpi_scan it (world l) =
    (match item with ItModule s => get_or_create_module_handle s | ItSignal h => ret h end) (world l1)) as E.
  { unfold wellen_vpi_scan. pose proof (box_nonnull l it _ Hok Hb).
    destruct (Z.eqb_spec it 0); [done|]. unfold bind, static_. cbn.
    rewrite bool_decide_true by (apply (ok_iters _ Hok); eauto). cbn. unfold deref. cbn. rewrite Hb.
    by rewrite Hi. }
  assert (other_iters_same it l l1) as Hoth.
  { intros a its j Hne Ha. cbn. by rewrite lookup_insert_ne. }
  destruct item as [s|h]; cbn in Hitem.
  - subst o. destruct (module_handle_runs l1 s Hok1) as (a & l2 & E2 & Hok2 & Hev2 & Hit2 & Hnm & Hp); [apply Hh|].
    exists a, l2. split; [by rewrite E|]. split; [done|]. split; [by transitivity l1|].
    split; [intros a' its j Hne Ha; by apply Hit2, Hoth|]. split; [done|].
    split; [by apply (ptr_nonnull l2 a s Hok2)|]. split; [done|].
    destruct Hover as (its & j & Hb1 & Hf1). exists its, j. split; [by apply Hit2|].
    eapply Forall2_impl; [exact Hf1|]. intros. by eapply item_denotes_evolves.
  - destruct Hitem as (r & -> & Hr). exists h, l1. split; [by rewrite E|]. split; [done|]. split; [done|].
    split; [done|]. split; [done|]. split; [by apply (box_nonnull l h _ Hok Hr)|]. split; [|done]. by apply (ev_signal _ _ Hev1).
Qed.

Lemma scan_runs l it objs :
  live_ok l -> hierarchy_ok (l_hier l) -> iterator_over objs l it ->
  runs (wellen_vpi_scan it) l (scan_yields objs it l).
Proof.
  intros Hok Hh (items & i & Hb & Hf). destruct (items !! i) as [item|] eqn:Hi.
  - destruct objs as [|o objs].
    + rewrite (drop_S _ _ _ Hi) in Hf. by inversion Hf.
    + by eapply scan_item_runs.
  - rewrite drop_ge in Hf by by apply lookup_ge_None_1. inversion Hf. by eapply scan_end_runs.
Qed.

(** A pointer that is no live iterator is refused. *)
Lemma scan_invalid_runs l it :
  live_ok l -> it ∉ l_iters l ->
  runs (wellen_vpi_scan it) l (fun a l' => a = 0 /\ l' = l).
Proof.
  intros Hok Hit. eapply runs_pure; [|done|done]. unfold wellen_vpi_scan.
  destruct (Z.eqb_spec it 0); [done|]. unfold bind, static_. cbn. by rewrite bool_decide_false.
Qed.

(** What the clients do: [while ((h = vpi_scan(it)) != NULL)]. *)
Fixpoint drain (fuel : nat) (it : Z) : WM (list Z) :=
  match fuel with
  | O => out_of_fuel
  | S fuel =>
      let! a := wellen_vpi_scan it in
      if a =? 0 then ret [] else let! rest := drain fuel it in ret (a :: rest)
  end.

Lemma drain_runs objs : forall l it fuel,
  live_ok l -> hierarchy_ok (l_hier l) -> iterator_over objs l it -> (length objs < fuel)%nat ->
  runs (drain fuel it) l (fun hs l' => other_iters_same it l l' /\
    Forall2 (denotes l') hs objs /\ l_boxes l' !! it = None).
Proof.
  induction objs as [|o objs IH]; intros l it fuel Hok Hh Hit Hf; (destruct fuel as [|fuel]; [cbn in Hf; lia|]);
    cbn [drain]; (eapply runs_bind; [by apply scan_runs|]); intros a l1 Hok1 Hev1 (Hoth & _ & Hy).
  - destruct Hy as [-> Hn]. apply runs_ret; [done|]. done.
  - destruct Hy as (Hne & Hden & Hover). destruct (Z.eqb_spec a 0); [done|].
    eapply runs_bind; [apply IH; [done|by rewrite (ev_hier _ _ Hev1)|done|cbn in Hf; lia]|].
    intros hs l2 Hok2 Hev2 (Hoth2 & Hden2 & Hn). apply runs_ret; [done|].
    split; [intros x its j Hx Hb; by apply Hoth2, Hoth|]. split; [|done].
    constructor; [|done]. by eapply denotes_evolves.
Qed.

End Ops.
End Session.
