(* ===== verification/WaveRead.v ===== *)
(** * The waveform back end: reading values

    What a value read returns, in every format, in terms of the number or the
    bit string the waveform holds; the equivalence of the fast paths with the
    general ones; the time cursor. *)

From S2P Require Import Prelude Bytes State WaveValue WaveData WaveImpl WaveSession.
From Stdlib Require Import Sorting.Sorted.
#[local] Open Scope Z_scope.

(** ** Bits *)

Lemma bits_of_length w v : length (bits_of w v) = w.
Proof. induction w; cbn; auto. Qed.

Lemma bits_of_01 w v : Forall bit01 (bits_of w v).
Proof. induction w; cbn; constructor; auto. destruct (Z.testbit _ _); [by right|by left]. Qed.

Lemma bits_of_value w v : bit_value (bits_of w v) = v mod 2 ^ Z.of_nat w.
Proof.
  induction w as [|w IH]; cbn [bits_of]; [by rewrite Z.mod_1_r|].
  change (?b :: bits_of w v) with ([b] ++ bits_of w v).
  rewrite bit_value_app, IH, bits_of_length.
  assert (forall b : bool, bit_value [if b then "1"%byte else "0"%byte] = Z.b2z b) as -> by (by intros []).
  rewrite Nat2Z.inj_succ, Z.pow_succ_r, (Z.mul_comm 2), Z.rem_mul_r by lia.
  rewrite Z.testbit_spec' by lia. lia.
Qed.

Lemma div_ceil_8_32 w : (0 < w)%nat -> div_ceil (div_ceil w 8) 4 = cover_with_32 w.
Proof.
  intros Hw. unfold cover_with_32, div_ceil.
  replace (w + 32 - 1)%nat with (w + 7 + 3 * 8)%nat by lia. replace (w + 8 - 1)%nat with (w + 7)%nat by lia.
  change 32%nat with (8 * 4)%nat. rewrite <- Nat.Div0.div_div, Nat.div_add by lia. f_equal. lia.
Qed.

(** The number a VPI vector holds, least significant word first. *)
Definition vec_value (l : list t_vpi_vecval) : Z := foldr (fun x a => u32 (aval x) + 2 ^ 32 * a) 0 l.

Lemma vec_value_snoc l x : vec_value (l ++ [x]) = vec_value l + 2 ^ (32 * Z.of_nat (length l)) * u32 (aval x).
Proof.
  unfold vec_value. induction l as [|y l IH]; cbn [app foldr length]; [lia|].
  rewrite IH, Nat2Z.inj_succ, Z.mul_succ_r, Z.pow_add_r by lia. ring.
Qed.

Lemma vecvals_of_rev ws acc :
  fold_left (fun acc w => mkVec (i32 w) 0 :: acc) ws acc = rev (map (fun w => mkVec (i32 w) 0) ws) ++ acc.
Proof. revert acc. induction ws as [|w ws IH]; intros acc; cbn; [done|]. by rewrite IH, <- app_assoc. Qed.

Lemma vecvals_of_facts ws : Forall (in_width 32) ws ->
  length (vecvals_of ws) = length ws /\ Forall (fun x => bval x = 0) (vecvals_of ws) /\
  vec_value (vecvals_of ws) = words_value ws.
Proof.
  intros Hw. unfold vecvals_of. rewrite vecvals_of_rev, app_nil_r. split; [by rewrite length_rev, length_map|].
  split.
  - apply Forall_rev, Forall_map. by apply Forall_true.
  - induction Hw as [|w ws Hw Hws IH]; [done|]. cbn [map rev].
    rewrite vec_value_snoc, length_rev, length_map, IH, words_value_cons. cbn [aval].
    rewrite u32_i32. unfold u32. rewrite wrap_small by done. ring.
Qed.

(** ** Hexadecimal text with unknown bits, digit by digit *)

(** The four bits that the digit of weight [16 ^ j] stands for (the first digit may
    stand for fewer). *)
Definition nibble_at (bits : list byte) (j : nat) : list byte := reverse (take 4 (drop (4 * j) (reverse bits))).

(** The digit of some bits: [x] if one of them is [x], else [z] if one is [z], else
    the digit of their number. *)
Definition digit_shows (c : byte) (nib : list byte) : Prop :=
  if decide ("x"%byte ∈ nib) then c = "x"%byte
  else if decide ("z"%byte ∈ nib) then c = "z"%byte
  else hex_digit c = Some (bit_value nib).

Definition hex_shows (text bits : list byte) : Prop :=
  length text = div_ceil (length bits) 4 /\
  forall j c, reverse text !! j = Some c -> digit_shows c (nibble_at bits j).

Definition xz_char (nib : list byte) : byte :=
  if has "x" nib then "x"%byte else if has "z" nib then "z"%byte else nib_digit (nibble_of nib).

Lemma xz_digit_char nib : Forall bit01xz nib -> (length nib <= 4)%nat -> xz_digit nib = [xz_char nib].
Proof.
  intros Hb Hl. unfold xz_char, xz_digit. destruct (has "x" nib) eqn:Ex; [done|]. destruct (has "z" nib) eqn:Ez; [done|].
  assert (Forall bit01 nib) as H01.
  { apply not_xz_01; [done|]. intros (b & Hin & [->| ->])%Exists_exists; apply has_spec in Hin; congruence. }
  destruct (nibble_ok nib H01 Hl) as [_ Hr]. by apply nib_digit_ok.
Qed.

Lemma xz_char_shows p nib : Forall bit01xz nib -> (p + length nib <= 4)%nat ->
  digit_shows (xz_char (replicate p "0"%byte ++ nib)) nib.
Proof.
  intros Hb Hl. unfold xz_char, digit_shows.
  assert (forall c, c <> "0"%byte -> has c (replicate p "0"%byte ++ nib) = bool_decide (c ∈ nib)) as Hhas.
  { intros c Hc. unfold has. apply bool_decide_ext. rewrite elem_of_app. split; [|by right].
    intros [[-> _]%elem_of_replicate|]; done. }
  rewrite !Hhas by done. destruct (decide ("x"%byte ∈ nib)) as [Hx|Hx]; [by rewrite bool_decide_true by done|].
  rewrite bool_decide_false by done. destruct (decide ("z"%byte ∈ nib)) as [Hz|Hz]; [by rewrite bool_decide_true by done|].
  rewrite bool_decide_false by done. rewrite nibble_pad.
  assert (Forall bit01 nib) as H01.
  { apply not_xz_01; [done|]. by intros (b & Hin & [->| ->])%Exists_exists. }
  destruct (nibble_ok nib H01) as [<- Hr]; [lia|]. by apply nib_digit_ok.
Qed.

Lemma map_concat_char (cs : list (list byte)) :
  Forall (fun c => Forall bit01xz c /\ (length c <= 4)%nat) cs -> concat (map xz_digit cs) = map xz_char cs.
Proof. induction 1 as [|c cs [Hc Hl] _ IH]; [done|]. cbn [map concat]. by rewrite xz_digit_char, IH. Qed.

Lemma chunks_lookup fuel (l : list byte) k : (length l <= fuel)%nat ->
  chunks fuel 4 l !! k = if decide (4 * k < length l)%nat then Some (take 4 (drop (4 * k) l)) else None.
Proof.
  revert l k. induction fuel as [|fuel IH]; intros l k Hl.
  - destruct l; [|cbn in Hl; lia]. cbn. by rewrite decide_False by lia.
  - destruct l as [|b l]; [cbn; by rewrite decide_False by lia|]. cbn [chunks].
    destruct k as [|k]; [cbn; by rewrite decide_True by lia|].
    change ((?x :: ?xs) !! S k) with (xs !! k). rewrite IH by (rewrite length_drop; cbn [length] in *; lia).
    rewrite length_drop, drop_drop. replace (4 * S k)%nat with (4 + 4 * k)%nat by lia.
    destruct (decide (4 * k < length (b :: l) - 4)%nat), (decide (4 + 4 * k < length (b :: l))%nat); try done; lia.
Qed.

(** The digit of weight [16 ^ j] of [n] digits is that of the chunk [n - 1 - j]. *)
Lemma chunk_nibble bits p n j : (p < 4)%nat -> (p + length bits = 4 * n)%nat -> (j < n)%nat ->
  exists q, take 4 (drop (4 * (n - 1 - j)) (replicate p "0"%byte ++ bits)) = replicate q "0"%byte ++ nibble_at bits j /\
    (q + length (nibble_at bits j) = 4)%nat.
Proof.
  intros Hp Hlen Hj. set (padded := replicate p "0"%byte ++ bits).
  assert (length padded = 4 * n)%nat as Hpl by (unfold padded; rewrite length_app, length_replicate; lia).
  assert (take 4 (drop (4 * (n - 1 - j)) padded) = reverse (take 4 (drop (4 * j) (reverse padded)))) as ->.
  { rewrite <- (take_drop (4 * (n - 1 - j)) padded) at 2. rewrite <- (take_drop 4 (drop (4 * (n - 1 - j)) padded)) at 2.
    rewrite !reverse_app, <- app_assoc. rewrite drop_app_length'; [rewrite take_app_length'|].
    - by rewrite reverse_involutive.
    - rewrite length_reverse, length_take, length_drop. lia.
    - rewrite length_reverse, !length_drop. lia. }
  unfold padded. rewrite reverse_app, reverse_replicate. unfold nibble_at. set (r := reverse bits).
  assert (length r = length bits) as Hr by apply length_reverse.
  rewrite drop_app, take_app. rewrite reverse_app.
  set (tail := take _ (drop _ (replicate p "0"%byte))).
  assert (tail = replicate (length tail) "0"%byte) as ->.
  { symmetry. apply replicate_as_Forall. split; [done|]. unfold tail. by apply Forall_take, Forall_drop, Forall_replicate. }
  rewrite reverse_replicate. exists (length tail). split; [done|].
  unfold tail. rewrite !length_take, !length_drop, length_replicate, length_reverse, length_take, length_drop. lia.
Qed.

Lemma hex_shows_facts bits : Forall bit01xz bits -> bits <> [] -> hex_shows (bit_string_to_hex_with_xz bits) bits.
Proof.
  intros Hb Hne. unfold bit_string_to_hex_with_xz. destruct (Nat.eqb_spec (length bits) 0) as [E|Hl0]; [by apply nil_length_inv in E|].
  set (p := padding_of (length bits)). set (padded := replicate p "0"%byte ++ bits).
  assert (p < 4)%nat as Hp by (unfold p, padding_of; apply Nat.mod_upper_bound; lia).
  set (n := div_ceil (length bits) 4).
  assert (p + length bits = 4 * n)%nat as Hn by (destruct (mod4_padding (length bits)) as (q & p' & E1 & _ & E2 & E3); unfold n, p; lia).
  assert (length padded = 4 * n)%nat as Hpl by (unfold padded; rewrite length_app, length_replicate; lia).
  assert (Forall bit01xz padded) as Hpb.
  { unfold padded. apply Forall_app. split; [|done]. apply Forall_replicate. by left; left. }
  assert (Forall (fun c => Forall bit01xz c /\ (length c <= 4)%nat) (chunks (length padded) 4 padded)) as Hcs.
  { apply Forall_lookup. intros k c. rewrite chunks_lookup by done. destruct (decide _); [|done]. intros [= <-].
    split; [by apply Forall_take, Forall_drop|]. rewrite length_take. lia. }
  rewrite map_concat_char by done.
  assert (length (chunks (length padded) 4 padded) = n) as Hcl.
  { apply Nat.le_antisymm.
    - destruct (Nat.le_gt_cases (length (chunks (length padded) 4 padded)) n) as [|Hg]; [done|]. exfalso.
      destruct (lookup_lt_is_Some_2 _ _ Hg) as [c Hc]. rewrite chunks_lookup, decide_False in Hc by lia. done.
    - destruct (Nat.le_gt_cases n (length (chunks (length padded) 4 padded))) as [|Hg]; [done|]. exfalso.
      pose proof (chunks_lookup (length padded) padded (length (chunks (length padded) 4 padded)) ltac:(lia)) as Hc.
      rewrite lookup_ge_None_2, decide_True in Hc by lia. done. }
  split; [by rewrite length_map|].
  intros j c Hj. assert (j < n)%nat as Hjn.
  { apply lookup_lt_Some in Hj. rewrite length_reverse, length_map in Hj. lia. }
  rewrite reverse_lookup in Hj by (rewrite length_map; lia). rewrite length_map, Hcl in Hj.
  change (map xz_char) with (fmap (M := list) xz_char) in Hj. rewrite list_lookup_fmap in Hj.
  replace (n - S j)%nat with (n - 1 - j)%nat in Hj by lia.
  rewrite chunks_lookup, decide_True in Hj by lia. change (Some (xz_char (take 4 (drop (4 * (n - 1 - j)) padded))) = Some c) in Hj. apply (inj Some) in Hj as <-.
  destruct (chunk_nibble bits p n j Hp Hn Hjn) as (q & E & Hq). fold padded in E. rewrite E.
  apply xz_char_shows; [|lia]. unfold nibble_at. apply Forall_reverse, Forall_take, Forall_drop, Forall_reverse. done.
Qed.

Section Read.
Context {wellen : Wellen} {serde : Serde} {allocator : Allocator}.

(** What a two-state value [v] of [width] bits reads as. *)
Definition reads_as (fmt : Z) (width : nat) (v : Z) (val : s_vpi_value) : Prop :=
  match val with
  | VVec ws => fmt = vpiVectorVal /\ length ws = cover_with_32 width /\
               Forall (fun x => bval x = 0) ws /\ vec_value ws = v
  | VInt i => fmt = vpiIntVal /\ i = i32 v
  | VStr f s =>
      f = fmt /\
      (fmt = vpiHexStrVal /\ str_len s = div_ceil width 4 /\ hex_value (as_bytes s) = v \/
       fmt = vpiBinStrVal /\ as_bytes s = bits_of width v \/
       fmt = vpiDecStrVal /\ s = to_decimal (v mod 2 ^ 32))
  | _ => False
  end.

(** What a value with unknown bits, of bit string [bits], reads as: zeros in the two
    numeric formats; its bits; its hexadecimal digits, unknown where a bit is;
    and [x] in decimal if a bit is unknown or the number takes more than 128 bits.
    The text of other bits than [0], [1], [x] and [z] (VHDL) is not specified. *)
Definition reads_as_x (fmt : Z) (bits : list byte) (val : s_vpi_value) : Prop :=
  match val with
  | VVec ws => fmt = vpiVectorVal /\ ws = replicate (cover_with_32 (length bits)) vec0
  | VInt i => fmt = vpiIntVal /\ i = 0
  | VStr f s =>
      f = fmt /\
      (fmt = vpiHexStrVal /\ (Forall bit01xz bits -> hex_shows (as_bytes s) bits) \/
       fmt = vpiBinStrVal /\ as_bytes s = bits \/
       fmt = vpiDecStrVal /\ (Forall bit01xz bits ->
         s = if decide (Exists xz bits) then "x"%string
             else if bit_value bits <? 2 ^ 128 then to_decimal (bit_value bits) else "x"%string))
  | _ => False
  end.

(** What a signal without a value reads as. *)
Definition reads_default (fmt : Z) (val : s_vpi_value) : Prop :=
  val = VVec [vec0] /\ fmt = vpiVectorVal \/ val = VInt 0 /\ fmt = vpiIntVal \/
  val = VStr fmt "0" /\ fmt ∈ [vpiHexStrVal; vpiBinStrVal; vpiDecStrVal].

Definition supported (fmt : Z) : Prop :=
  fmt ∈ [vpiVectorVal; vpiIntVal; vpiHexStrVal; vpiBinStrVal; vpiDecStrVal].

(** What the buffer holds after a read that returned [val]. *)
Definition buffered (val : s_vpi_value) (l l' : Live) : Prop :=
  match val with
  | VStr _ s => l' = with_buffer (as_bytes s ++ [x00]) l
  | _ => l' = l
  end.

Lemma supported_u32 fmt : supported fmt -> u32 fmt = fmt.
Proof. intros H. unfold supported in H. repeat (apply elem_of_cons in H as [->|H]; [done|]). by apply elem_of_nil in H. Qed.

Lemma put_str_run fmt text l :
  put_str fmt text (world l) = Ret (VStr fmt (of_bytes text)) (world (with_buffer (text ++ [x00]) l)).
Proof. done. Qed.

Lemma dec_bytes z : of_bytes (as_bytes (to_decimal z)) = to_decimal z.
Proof. apply of_bytes_as_bytes. Qed.

Hypothesis values : bit_vec_ok.

Lemma last_word_mod data : data <> [] -> bytes_last_u32_be data = be_value data mod 2 ^ 32.
Proof.
  intros Hne. unfold bytes_last_u32_be. destruct (Nat.leb_spec 4 (length data)).
  - unfold read_u32_be. rewrite <- (take_drop (length data - 4) data) at 3.
    rewrite be_value_app, length_drop. replace (length data - (length data - 4))%nat with 4%nat by lia.
    change (256 ^ Z.of_nat 4) with (2 ^ 32). rewrite Z.add_comm, Z_mod_plus_full, Z.mod_small; [done|].
    pose proof (be_value_bound (drop (length data - 4) data)) as Hb. rewrite length_drop in Hb.
    replace (length data - (length data - 4))%nat with 4%nat in Hb by lia. exact Hb.
  - rewrite be_value_app, be_value_zeros.
    rewrite Z.mul_0_l, Z.add_0_l, Z.mod_small; [done|]. pose proof (be_value_bound data). split; [lia|].
    eapply Z.lt_le_trans; [apply H0|]. change (2 ^ 32) with (256 ^ 4). apply Z.pow_le_mono_r; lia.
Qed.
Lemma last_words data : data <> [] ->
  last (bytes_to_u32s_be data) = Some (be_value data mod 2 ^ 32).
Proof.
  intros Hne. destruct (words_facts data) as (_ & _ & _ & Hl). rewrite (Hl Hne). by rewrite last_word_mod.
Qed.

Lemma i32_mod v : i32 (v mod 2 ^ 32) = i32 v.
Proof. unfold i32. by rewrite Zmod_mod. Qed.

(** A two-state read. *)
Lemma two_state_runs bv fmt l data :
  bv_states bv = Two -> bv_be_bytes bv = Some data -> supported fmt ->
  exists val l', two_state_value (BitVec bv) bv fmt (world l) = Ret val (world l') /\
    buffered val l l' /\ reads_as fmt (Z.to_nat (bv_width bv)) (be_value data) val.
Proof.
  intros Htwo Hd Hfmt. destruct (values bv) as (Hw & _ & Hv & _).
  destruct (Hv Htwo) as (data' & E & Hlen & Hlt & Hstr). rewrite Hd in E. injection E as <-.
  set (width := Z.to_nat (bv_width bv)) in *. set (v := be_value data) in *.
  assert (0 < width)%nat by lia.
  assert (0 <= v < 2 ^ Z.of_nat width) as Hb.
  { pose proof (be_value_bound data). unfold width. rewrite Z2Nat.id by lia. split; [apply H0|done]. }
  assert (data <> []) as Hne.
  { intros ->. symmetry in Hlen. unfold div_ceil in Hlen. apply Nat.div_small_iff in Hlen; lia. }
  destruct (words_facts data) as (W1 & W2 & W3 & _).
  destruct (vecvals_of_facts _ W3) as (V1 & V2 & V3).
  assert (bits_of width v <> []) as Hbne by (intros E%(f_equal length); rewrite bits_of_length in E; cbn in E; lia).
  destruct (hex_facts _ (bits_of_01 width v) Hbne) as (X1 & X2 & X3 & _).
  rewrite bits_of_length in X2. rewrite bits_of_value, Z.mod_small in X3 by done.
  assert (u32 fmt = fmt) as Hu by by apply supported_u32.
  unfold two_state_value. rewrite Hd, Hu, Hstr. unfold unwrap, hex_text, bind. cbn [ret].
  rewrite as_bytes_of_bytes, X1. unfold last_word. rewrite last_words by done. fold v.
  unfold supported in Hfmt. repeat (apply elem_of_cons in Hfmt as [->|Hfmt]; [|]);
    [..|by apply elem_of_nil in Hfmt]; cbn -[of_bytes as_bytes].
  - eexists _, l. split; [done|]. split; [done|]. split; [done|].
    rewrite V1, W1, Hlen, V3, W2. split; [by apply div_ceil_8_32|done].
  - eexists _, l. split; [done|]. split; [done|]. split; [done|]. apply i32_mod.
  - eexists _, _. split; [apply put_str_run|]. split; [cbn; by rewrite as_bytes_of_bytes|].
    split; [done|]. left. unfold str_len. by rewrite as_bytes_of_bytes.
  - eexists _, _. split; [apply put_str_run|]. split; [cbn; by rewrite as_bytes_of_bytes|].
    split; [done|]. right; left. by rewrite as_bytes_of_bytes.
  - eexists _, _. split; [apply put_str_run|]. split; [cbn; by rewrite as_bytes_of_bytes|].
    split; [done|]. right; right. by rewrite dec_bytes.
Qed.

(** A read of a value with unknown bits. *)
Lemma x_state_runs bv fmt l :
  bv_states bv <> Two -> supported fmt ->
  exists s val l', to_bit_string (BitVec bv) = Some s /\
    x_state_value (BitVec bv) bv fmt (world l) = Ret val (world l') /\
    buffered val l l' /\ reads_as_x fmt (as_bytes s) val.
Proof.
  intros Hx Hfmt. destruct (values bv) as (Hw & _ & _ & Hv). destruct (Hv Hx) as (s & Hs & Hlen & _).
  exists s. assert (u32 fmt = fmt) as Hu by by apply supported_u32.
  assert (Z.to_nat (bv_width bv) = length (as_bytes s)) as Hl by (unfold str_len in Hlen; lia).
  assert (as_bytes s <> []) as Hne by (intros E; rewrite E in Hl; cbn in Hl; lia).
  unfold x_state_value. rewrite Hu, Hs, Hl. unfold unwrap, bind. cbn [ret].
  unfold supported in Hfmt. repeat (apply elem_of_cons in Hfmt as [->|Hfmt]; [|]);
    [..|by apply elem_of_nil in Hfmt]; cbn -[of_bytes as_bytes].
  - eexists _, l. do 3 (split; [done|]). done.
  - eexists _, l. do 3 (split; [done|]). done.
  - eexists _, _. split; [done|]. split; [apply put_str_run|]. split; [cbn; by rewrite as_bytes_of_bytes|].
    split; [done|]. left. split; [done|]. intros Hb. rewrite as_bytes_of_bytes. by apply hex_shows_facts.
  - eexists _, _. split; [done|]. split; [apply put_str_run|]. split; [cbn; by rewrite as_bytes_of_bytes|].
    split; [done|]. right; left. by rewrite as_bytes_of_bytes.
  - eexists _, _. split; [done|]. split; [apply put_str_run|]. split; [cbn; by rewrite as_bytes_of_bytes|].
    split; [done|]. right; right. split; [done|]. intros Hb. rewrite of_bytes_as_bytes. by apply x_state_dec_facts.
Qed.

Lemma default_runs fmt l : supported fmt ->
  exists val l', default_value fmt (world l) = Ret val (world l') /\ buffered val l l' /\ reads_default fmt val.
Proof.
  intros Hfmt. unfold default_value. rewrite supported_u32 by done.
  unfold supported in Hfmt. repeat (apply elem_of_cons in Hfmt as [->|Hfmt]; [|]);
    [..|by apply elem_of_nil in Hfmt]; cbn -[of_bytes as_bytes].
  - eexists _, l. do 2 (split; [done|]). by left.
  - eexists _, l. do 2 (split; [done|]). right; by left.
  - eexists _, _. split; [apply put_str_run|]. split; [done|]. right; right. split; [done|set_solver].
  - eexists _, _. split; [apply put_str_run|]. split; [done|]. right; right. split; [done|set_solver].
  - eexists _, _. split; [apply put_str_run|]. split; [done|]. right; right. split; [done|set_solver].
Qed.

(** What a read at [idx] promises. *)
Definition value_spec (sg : Signal) (idx fmt : Z) (l : Live) (res : Res WaveWorld s_vpi_value) : Prop :=
  match get_offset sg (u32 idx) with
  | Some off =>
      match get_value_at sg off 0 with
      | BitVec bv => exists val l', res = Ret val (world l') /\ buffered val l l' /\
          if decide (bv_states bv = Two)
          then exists data, bv_be_bytes bv = Some data /\
                 reads_as fmt (Z.to_nat (bv_width bv)) (be_value data) val
          else exists s, to_bit_string (BitVec bv) = Some s /\ reads_as_x fmt (as_bytes s) val
      | OtherValue _ => exists msg, res = Panic msg (world l)
      end
  | None =>
      if (idx =? 0) && negb (length (time_indices sg) =? 0)%nat
      then exists val l', res = Ret val (world l') /\ buffered val l l' /\ reads_default fmt val
      else exists msg, res = Panic msg (world l)
  end.

Lemma signal_info_run l a r info :
  l_boxes l !! a = Some (SignalBox r) -> l_sigs l !! r = Some info ->
  signal_info a (world l) = Ret info (world l).
Proof.
  intros Ha Hr. unfold signal_info, deref_signal, deref, bind, static_. cbn. rewrite Ha. cbn. by rewrite Hr.
Qed.

Lemma value_facts l a r info idx fmt :
  l_boxes l !! a = Some (SignalBox r) -> l_sigs l !! r = Some info -> supported fmt ->
  value_spec (signal info) idx fmt l (wellen_vpi_get_value_from_index a idx fmt (world l)).
Proof.
  intros Ha Hr Hfmt. unfold wellen_vpi_get_value_from_index, value_spec. set (sg := signal info).
  rewrite (bind_Ret _ _ _ _ _ (signal_info_run _ _ _ _ Ha Hr)). fold sg.
  destruct (get_offset sg (u32 idx)) as [off|].
  - destruct (get_value_at sg off 0) as [bv|o]; [|eexists; done].
    destruct (decide (bv_states bv = Two)) as [Htwo|Hx].
    + rewrite bool_decide_true by done. destruct (values bv) as (_ & _ & Hv & _).
      destruct (Hv Htwo) as (data & Hd & _).
      destruct (two_state_runs bv fmt l data Htwo Hd Hfmt) as (val & l' & E & Hb & Hreads).
      exists val, l'. eauto.
    + rewrite bool_decide_false by done.
      destruct (x_state_runs bv fmt l Hx Hfmt) as (s & val & l' & Hs & E & Hb & Hreads).
      exists val, l'. eauto.
  - destruct (idx =? 0); cbn; [|eexists; done].
    destruct (length (time_indices sg) =? 0)%nat; cbn; [eexists; done|]. by apply default_runs.
Qed.

(** C26: what a value read of a live signal handle returns, format by format.  A
    two-state value [v] of [width] bits reads as its 32-bit words, as its low 32
    bits in the integer format, as [width / 4] rounded up hexadecimal digits of value
    [v], as its bits, and in decimal as [v mod 2 ^ 32], the low word only.  A
    value that may have X or Z bits reads as zeros in the two numeric formats, as its
    bits, as hexadecimal digits each of which is [x] if one of its four bits is, else
    [z] if one is, else their number, and in decimal as [x] if a bit is unknown,
    else its number below [2 ^ 128].  At index 0, before its first value, a
    signal reads as zero.  The read panics exactly on other kinds of value and
    before the first value away from index 0. *)
Theorem wave_value_spec l a r info idx fmt :
  live_ok l -> l_boxes l !! a = Some (SignalBox r) -> l_sigs l !! r = Some info -> supported fmt ->
  sig_ref (signal info) = r /\
  value_spec (signal info) idx fmt l (wellen_vpi_get_value_from_index a idx fmt (world l)).
Proof. intros Hok Ha Hr Hfmt. split; [by apply (ok_sigs _ Hok)|by eapply value_facts]. Qed.

(** The fast integer read agrees with the general read in the integer
    format whenever that one returns. *)
Theorem int_read_agrees l a r info idx i w' :
  l_boxes l !! a = Some (SignalBox r) -> l_sigs l !! r = Some info ->
  wellen_vpi_get_value_from_index a idx vpiIntVal (world l) = Ret (VInt i) w' ->
  wellen_get_int_value a idx (world l) = Ret (u32 i) (world l).
Proof.
  intros Ha Hr E. assert (supported vpiIntVal) as Hs by (unfold supported; set_solver).
  pose proof (value_facts l a r info idx vpiIntVal Ha Hr Hs) as H. rewrite E in H.
  unfold value_spec in H. unfold wellen_get_int_value.
  rewrite (bind_Ret _ _ _ _ _ (signal_info_run _ _ _ _ Ha Hr)).
  set (sg := signal info) in *. destruct (get_offset sg (u32 idx)) as [off|].
  - destruct (get_value_at sg off 0) as [bv|o]; [|by destruct H].
    destruct H as (val & l' & Heq & _ & H). injection Heq as <- ->.
    destruct (decide (bv_states bv = Two)) as [Htwo|Hx].
    + rewrite bool_decide_true by done. destruct H as (data & Hd & _ & ->). rewrite Hd. cbn.
      rewrite last_word_mod, i32_mod; [done|]. destruct (values bv) as (Hw & _ & Hv & _).
      destruct (Hv Htwo) as (data' & Hd' & Hlen & _). rewrite Hd in Hd'. injection Hd' as <-. intros ->.
      symmetry in Hlen. unfold div_ceil in Hlen. apply Nat.div_small_iff in Hlen; lia.
    + rewrite bool_decide_false by done. destruct H as (s & _ & _ & ->). done.
  - destruct (_ && _); [|by destruct H]. destruct H as (val & l' & Heq & _ & H). injection Heq as <- ->.
    destruct H as [[[=] _]|[[[= ->] _]|[[=] _]]]. done.
Qed.

(** ** The time cursor *)

Lemma nearest_index_run l t i :
  find_nearest_time_index (l_time l) t = Some i -> nearest_index t (world l) = Ret i (world l).
Proof. intros E. unfold nearest_index, bind, static_. cbn. by rewrite E. Qed.

(** C28: on the increasing time table of a waveform, the index found for a time
    is that of the last entry not after it (the first entry when there is
    none), index and time convert back and forth, and every index found is at
    most the maximal index. *)
Theorem wave_time_cursor l t :
  StronglySorted Z.lt (l_time l) -> l_time l <> [] ->
  exists i, wellen_get_index_from_time t (world l) = Ret (Z.of_nat i) (world l) /\
    nearest (l_time l) t i /\
    wellen_get_time_from_index (Z.of_nat i) (world l) = Ret (nth i (l_time l) 0) (world l) /\
    wellen_get_index_from_time (nth i (l_time l) 0) (world l) = Ret (Z.of_nat i) (world l) /\
    exists m, wellen_get_max_index (world l) = Ret m (world l) /\ Z.of_nat i <= m.
Proof.
  intros Hs Hne. destruct (find_nearest_facts (l_time l) t (sorted_nondecreasing _ Hs) Hne) as (i & E & Hn).
  pose proof (proj1 Hn) as Hi. exists i. unfold wellen_get_index_from_time.
  rewrite (bind_Ret _ _ _ _ _ (nearest_index_run _ _ _ E)),
    (bind_Ret _ _ _ _ _ (nearest_index_run _ _ _ (nearest_exact _ _ Hs Hi))).
  split; [done|]. split; [done|]. split; [|split; [done|]].
  - unfold wellen_get_time_from_index, bind, static_. cbn. rewrite Nat2Z.id.
    destruct (lookup_lt_is_Some_2 _ _ Hi) as [v Hv]. by rewrite Hv, (nth_lookup_Some _ _ 0 _ Hv).
  - eexists. split; [done|]. lia.
Qed.

End Read.
