(* ===== verification/WaveFiles.v ===== *)
(** * The waveform back end: initialisation, cache files, finalisation

    [wellen_initialize] and [wellen_finalize]: what a session starts from, what
    is kept in the two cache files, and what the next session reads back. *)

From S2P Require Import Prelude Bytes State WaveValue WaveData WaveImpl WaveSession.
#[local] Open Scope Z_scope.

Section Files.
Context {wellen : Wellen} {serde : Serde} {allocator : Allocator}.

(** A process that has not called the library yet. *)
Definition blank (fs : gmap string (list byte)) : WaveWorld :=
  mkWave None None None None None None None None false None None None [] ∅ fs.

(** The session [wellen_initialize] opens. *)
Definition opened (host : Host) (h : Hierarchy) (src : SignalSource) (t : list Z) (m : FileModifiedInfo)
    (fs : gmap string (list byte)) : Live :=
  let meta := (fs !! META_FILE) ≫= meta_from_yaml in
  let use := use_cached meta (fm_size m) (fm_time m) in
  let kept := if use then meta else None in
  mkLive t h src (Some m) (from_option sigref ∅ kept) (from_option sigref_null ∅ kept)
    (if use then load_signal_cache host fs else ∅) ∅ false ∅ ∅ ∅ [] ∅ fs.

(** What [wellen_initialize] reads of the waveform file. *)
Record opens (host : Host) (fn : string) (h : Hierarchy) (src : SignalSource) (t : list Z)
    (m : FileModifiedInfo) : Prop := mkOpens {
  op_name : is_str fn = true;
  op_full : hierarchy_only host = false;
  op_body : exists body, read_header_from_file fn LOAD_OPTS = Some (h, body) /\ read_body body h = Some (src, t);
  op_meta : metadata host fn = Some (fm_size m, fm_time m) /\ 0 <= fm_time m
}.

(** The session over the meta data kept, [None] when it is not to be used. *)
Definition opened_with (host : Host) (h : Hierarchy) (src : SignalSource) (t : list Z) (m : FileModifiedInfo)
    (fs : gmap string (list byte)) (meta : option WaveVpiMeta) (use : bool) : Live :=
  mkLive t h src (Some m) (from_option sigref ∅ (if use then meta else None))
    (from_option sigref_null ∅ (if use then meta else None))
    (if use then load_signal_cache host fs else ∅) ∅ false ∅ ∅ ∅ [] ∅ fs.

Lemma init_caches_run host h src t m fs meta use :
  init_caches host meta use
    (mkWave (Some t) (Some h) (Some src) (Some m) None None None None false None None None [] ∅ fs) =
  Ret tt (world (opened_with host h src t m fs meta use)).
Proof. destruct use; reflexivity. Qed.

Lemma initialize_run host fn h src t m fs :
  opens host fn h src t m ->
  wellen_initialize host (Some fn) (blank fs) = Ret tt (world (opened host h src t m fs)).
Proof.
  intros [Hn Hfull (body & Hh & Hb) [Hm Ht]]. unfold wellen_initialize, to_str.
  rewrite Hn, bind_ret, Hh. unfold expect. rewrite bind_ret. cbn beta iota. rewrite Hfull, Hb, bind_ret.
  cbn beta iota. rewrite !bind_modify, Hm, bind_ret. cbn beta iota.
  destruct (Z.leb_spec 0 (fm_time m)); [|lia]. unfold assert_. rewrite bind_ret, bind_modify, bind_get.
  destruct m as [sz tm]. cbn [fm_size fm_time]. exact (init_caches_run _ _ _ _ _ _ _ _).
Qed.

(** The meta file of a previous session describes this waveform, and its signal
    file holds the signals it names. *)
Record caches_match (h : Hierarchy) (refs : gmap string SignalRef) (nulls : gset string)
    (sigs : gmap SignalRef SignalInfo) : Prop := mkMatch {
  cm_refs : forall n r, refs !! n = Some r -> is_Some (sigs !! r) /\ resolves h n = Some r;
  cm_nulls : forall n, n ∈ nulls -> resolves h n = None;
  cm_sigs : forall r i, sigs !! r = Some i -> sig_ref (signal i) = r
}.

Lemma opened_ok host h src t m fs :
  (let l := opened host h src t m fs in caches_match h (l_refs l) (l_nulls l) (l_sigs l)) ->
  live_ok (opened host h src t m fs).
Proof.
  cbn zeta. intros []. split; try done; cbn -[opened].
  intros a. unfold opened. cbn. split; [by intros ?%elem_of_empty|].
  intros (its & i & H). by rewrite lookup_empty in H.
Qed.

(** Without usable cache files the session starts empty and well formed. *)
Lemma opened_cold host h src t m fs :
  use_cached ((fs !! META_FILE) ≫= meta_from_yaml) (fm_size m) (fm_time m) = false ->
  live_ok (opened host h src t m fs).
Proof.
  intros Hu. apply opened_ok. unfold opened. rewrite Hu. cbn. split.
  - intros n r H. by rewrite lookup_empty in H.
  - intros n H. by apply elem_of_empty in H.
  - intros r i H. by rewrite lookup_empty in H.
Qed.

(** ** Finalisation *)

Definition without (xs : list Z) (b : gmap Z Boxed) : gmap Z Boxed := foldl (fun b a => delete a b) b xs.

Lemma lookup_without xs b a : without xs b !! a = if decide (a ∈ xs) then None else b !! a.
Proof.
  unfold without. revert b. induction xs as [|x xs IH]; intros b; cbn [foldl]; [done|]. rewrite IH.
  destruct (decide (a ∈ xs)); [by rewrite decide_True by set_solver|].
  destruct (decide (x = a)) as [<-|].
  - rewrite lookup_delete_eq, decide_True by set_solver. done.
  - rewrite lookup_delete_ne by done. by rewrite decide_False by set_solver.
Qed.

Lemma free_all xs : forall w, NoDup xs -> (forall a, a ∈ xs -> is_Some (boxes w !! a)) ->
  for_each xs free_box w = Ret tt (set_boxes (without xs (boxes w)) w).
Proof.
  induction xs as [|x xs IH]; intros w Hnd Hin; [by destruct w|].
  apply NoDup_cons in Hnd as [Hx Hnd]. cbn [for_each].
  destruct (Hin x) as [b Hb]; [set_solver|].
  rewrite (bind_Ret _ _ _ tt (set_boxes (delete x (boxes w)) w)) by (unfold free_box; by rewrite Hb).
  rewrite IH; [done|done|]. intros a Ha. cbn. rewrite lookup_delete_ne by set_solver.
  apply Hin. set_solver.
Qed.

Definition module_ptrs (l : Live) : list Z := map snd (map_to_list (l_modules l)).

Lemma module_ptrs_spec l : live_ok l ->
  NoDup (module_ptrs l) /\ forall a, a ∈ module_ptrs l <-> is_Some (l_ptrs l !! a).
Proof.
  intros Hok. unfold module_ptrs. split.
  - apply NoDup_fmap_2_strong; [|apply NoDup_map_to_list].
    intros [s1 a1] [s2 a2] H1%elem_of_map_to_list H2%elem_of_map_to_list E. cbn in E. subst a2.
    apply (ok_ptr _ Hok) in H1, H2. congruence.
  - intros a. rewrite list_elem_of_fmap. split.
    + intros ([s a'] & -> & H%elem_of_map_to_list). exists s. by apply (ok_ptr _ Hok).
    + intros [s Hs]. exists (s, a). split; [done|]. apply elem_of_map_to_list. by apply (ok_ptr _ Hok).
Qed.

(** The files after [save_caches]. *)
Definition saved_files (l : Live) : gmap string (list byte) :=
  if (SIGNAL_REF_COUNT_THRESHOLD <=? size (l_refs l))%nat && l_new l then
    <[SIGNAL_CACHE_FILE := cache_to_rmp (l_sigs l)]>
      (match l_modified l with
       | Some m => <[META_FILE := meta_to_yaml (mkMeta m (size (l_refs l)) (l_refs l) (l_nulls l))]> (l_files l)
       | None => l_files l
       end)
  else l_files l.

Definition with_files (fs : gmap string (list byte)) (l : Live) : Live :=
  mkLive (l_time l) (l_hier l) (l_source l) (l_modified l) (l_refs l) (l_nulls l) (l_sigs l)
    (l_names l) (l_new l) (l_modules l) (l_ptrs l) (l_iters l) (l_buffer l) (l_boxes l) fs.

Definition creatable (host : Host) : Prop :=
  can_create host META_FILE = true /\ can_create host SIGNAL_CACHE_FILE = true.

Lemma save_caches_run host l :
  creatable host -> save_caches host (world l) = Ret tt (world (with_files (saved_files l) l)).
Proof.
  intros [H1 H2]. unfold save_caches, saved_files, get_signal_ref_cache, static_, bind at 1.
  cbn [world SIGNAL_REF_CACHE].
  destruct (SIGNAL_REF_COUNT_THRESHOLD <=? size (l_refs l))%nat; cbn [andb]; [|by destruct l].
  unfold bind at 1. cbn.
  destruct (l_new l) eqn:En; cbn; [|by destruct l; cbn in *; subst].
  unfold save_meta, create_file, bind, static_. cbn. rewrite H1, H2.
  destruct (l_modified l) eqn:Em; destruct l; cbn in *; by subst.
Qed.

(** The session after finalisation. *)
Definition closed (l : Live) : Live :=
  mkLive (l_time l) (l_hier l) (l_source l) (l_modified l) (l_refs l) (l_nulls l) (l_sigs l)
    ∅ (l_new l) ∅ ∅ ∅ (l_buffer l)
    (without (module_ptrs l) (without (elements (l_iters l)) (l_boxes l))) (saved_files l).

Lemma finalize_run host l :
  live_ok l -> creatable host -> wellen_finalize host (world l) = Ret tt (world (closed l)).
Proof.
  intros Hok Hc. unfold wellen_finalize. rewrite (bind_Ret _ _ _ _ _ (save_caches_run host l Hc)).
  unfold if_some at 1. unfold bind at 1. cbn.
  unfold if_some at 1. unfold bind at 1. cbn. unfold bind at 1.
  rewrite free_all by (try apply NoDup_elements; cbn; intros a Ha%elem_of_elements;
    apply (ok_iters _ Hok) in Ha as (? & ? & ->); done). cbn.
  unfold if_some at 1. unfold bind at 1. cbn. unfold bind at 1.
  destruct (module_ptrs_spec l Hok) as [Hnd Hin].
  rewrite free_all; [done|done|]. cbn. intros a Ha%Hin. destruct Ha as [s Hs].
  apply (ok_module _ Hok) in Hs. rewrite lookup_without.
  rewrite decide_False; [by rewrite Hs|]. intros Ha%elem_of_elements.
  apply (ok_iters _ Hok) in Ha as (? & ? & ?). congruence.
Qed.

Lemma closed_boxes l a b : live_ok l ->
  l_boxes (closed l) !! a = Some b <-> l_boxes l !! a = Some b /\ exists r, b = SignalBox r.
Proof.
  intros Hok. cbn. rewrite !lookup_without. destruct (module_ptrs_spec l Hok) as [_ Hm].
  destruct (decide (a ∈ module_ptrs l)) as [Hin|Hin].
  { split; [done|]. intros [Hb [r ->]]. apply Hm in Hin as [s Hs]. apply (ok_module _ Hok) in Hs. congruence. }
  destruct (decide (a ∈ elements (l_iters l))) as [Hit|Hit].
  { split; [done|]. intros [Hb [r ->]]. apply elem_of_elements, (ok_iters _ Hok) in Hit as (? & ? & ?). congruence. }
  split; [|by intros []]. intros Hb. split; [done|]. destruct b as [r|n|its i]; [by exists r|..].
  - destruct Hin. apply Hm. by eapply (ok_owned _ Hok).
  - destruct Hit. apply elem_of_elements, (ok_iters _ Hok). eauto.
Qed.
Lemma saved_lookup l m :
  (SIGNAL_REF_COUNT_THRESHOLD <= size (l_refs l))%nat -> l_new l = true -> l_modified l = Some m ->
  saved_files l !! META_FILE = Some (meta_to_yaml (mkMeta m (size (l_refs l)) (l_refs l) (l_nulls l))) /\
  saved_files l !! SIGNAL_CACHE_FILE = Some (cache_to_rmp (l_sigs l)).
Proof.
  intros Hsz Hn Hm. unfold saved_files. rewrite (proj2 (Nat.leb_le _ _) Hsz), Hn, Hm. cbn [andb].
  split; [|apply lookup_insert_eq]. rewrite lookup_insert_ne by done. apply lookup_insert_eq.
Qed.

Lemma opened_kept host h src t m fs meta :
  (fs !! META_FILE) ≫= meta_from_yaml = Some meta -> use_cached (Some meta) (fm_size m) (fm_time m) = true ->
  opened host h src t m fs = opened_with host h src t m fs (Some meta) true.
Proof. intros E Hu. unfold opened. by rewrite E, Hu. Qed.

Lemma opened_dropped host h src t m fs meta :
  (fs !! META_FILE) ≫= meta_from_yaml = Some meta -> modified meta <> m ->
  opened host h src t m fs = opened_with host h src t m fs (Some meta) false.
Proof.
  intros E Hm. unfold opened. rewrite E. unfold use_cached.
  destruct (Z.eqb_spec (fm_time (modified meta)) (fm_time m)); cbn [andb]; [|done].
  destruct (Z.eqb_spec (fm_size (modified meta)) (fm_size m)); cbn [andb]; [|done].
  destruct Hm. destruct (modified meta), m. cbn in *. congruence.
Qed.

(** What a process finds after a session whose caches were saved, on a waveform file
    of the same size and modification second. *)
Lemma saved_reopened host l m h src t :
  serde_ok -> can_map host = true ->
  (SIGNAL_REF_COUNT_THRESHOLD <= size (l_refs l))%nat -> l_new l = true -> l_modified l = Some m ->
  opened host h src t m (saved_files l) =
    mkLive t h src (Some m) (l_refs l) (l_nulls l) (l_sigs l) ∅ false ∅ ∅ ∅ [] ∅ (saved_files l).
Proof.
  intros [Sm Sc] Hmap Hsz Hn Hm. destruct (saved_lookup l m Hsz Hn Hm) as [Fm Fs]. set (meta := mkMeta _ _ _ _) in Fm.
  assert ((saved_files l !! META_FILE) ≫= meta_from_yaml = Some meta) as Em by (rewrite Fm; apply Sm).
  assert (use_cached (Some meta) (fm_size m) (fm_time m) = true) as Hu.
  { unfold use_cached. cbn [meta modified sigref_count]. rewrite !Z.eqb_refl. cbn [andb]. by apply Nat.leb_le. }
  rewrite (opened_kept host h src t m _ meta Em Hu). unfold opened_with, load_signal_cache. rewrite Fs, Hmap, Sc. done.
Qed.

Lemma saved_reopened_ok host l m src t :
  serde_ok -> can_map host = true -> live_ok l ->
  (SIGNAL_REF_COUNT_THRESHOLD <= size (l_refs l))%nat -> l_new l = true -> l_modified l = Some m ->
  live_ok (opened host (l_hier l) src t m (saved_files l)).
Proof.
  intros Hs Hmap Hok Hsz Hn Hm. apply opened_ok. rewrite (saved_reopened host l m) by done.
  split; [apply (ok_refs _ Hok)|apply (ok_nulls _ Hok)|apply (ok_sigs _ Hok)].
Qed.

(** C27: finalisation frees every module handle and iterator exactly once and, if the
    session knows at least fifteen names ([SIGNAL_REF_COUNT_THRESHOLD]) and looked
    up a new one, saves the caches; a later process that opens a waveform file of
    the same size and the same modification second starts from the same names,
    missing names and signals, and is well formed if it is the same waveform; one that
    opens a file of another size or modification second starts with empty caches.
    The comment on the threshold says the opposite, that caches of more than that
    many names are not used; and another waveform of the same size and second is
    taken for the old one. *)
Theorem wave_caches_persist host host' l m fn src t :
  serde_ok -> live_ok l -> creatable host -> can_map host' = true ->
  (SIGNAL_REF_COUNT_THRESHOLD <= size (l_refs l))%nat -> l_new l = true -> l_modified l = Some m ->
  wellen_finalize host (world l) = Ret tt (world (closed l)) /\
  (forall a b, l_boxes (closed l) !! a = Some b -> exists r, b = SignalBox r) /\
  (forall h', opens host' fn h' src t m ->
     exists l2, wellen_initialize host' (Some fn) (blank (l_files (closed l))) = Ret tt (world l2) /\
       l_refs l2 = l_refs l /\ l_nulls l2 = l_nulls l /\ l_sigs l2 = l_sigs l /\ (h' = l_hier l -> live_ok l2)) /\
  (forall h' m', opens host' fn h' src t m' -> m' <> m ->
     exists l2, wellen_initialize host' (Some fn) (blank (l_files (closed l))) = Ret tt (world l2) /\
       live_ok l2 /\ l_refs l2 = ∅ /\ l_nulls l2 = ∅ /\ l_sigs l2 = ∅).
Proof.
  intros Hserde Hok Hc Hmap Hsz Hn Hm. split; [by apply finalize_run|].
  split; [intros a b Hb; by apply closed_boxes in Hb as [_ ?]|]. split.
  - intros h' Hop. eexists. split; [by apply initialize_run|]. cbn [closed l_files].
    rewrite (saved_reopened host' l m h' src t) by done. split_and!; [done..|]. intros ->.
    rewrite <- (saved_reopened host' l m (l_hier l) src t) by done. by apply saved_reopened_ok.
  - intros h' m' Hop Hne. eexists. split; [by apply initialize_run|].
    destruct (saved_lookup l m Hsz Hn Hm) as [Fm _]. set (meta := mkMeta _ _ _ _) in Fm.
    assert ((l_files (closed l) !! META_FILE) ≫= meta_from_yaml = Some meta) as Em.
    { cbn [closed l_files]. rewrite Fm. apply Hserde. }
    assert (modified meta <> m') as Hd by (cbn; congruence).
    pose proof (opened_dropped host' h' src t m' _ meta Em Hd) as Eo.
    split; [|by rewrite Eo].
    apply opened_ok. rewrite Eo. split; cbn.
    + intros n r H. by rewrite lookup_empty in H.
    + intros n H. by apply elem_of_empty in H.
    + intros r i H. by rewrite lookup_empty in H.
Qed.

(** The signal file is optional on reading but not in use: when the meta file is
    accepted and the signal file is missing, a cached name still yields a
    handle, and every read of that handle panics ([unwrap] of a signal that was
    never loaded). *)
Theorem stale_signal_cache_panics host h src t m fs meta n r :
  alloc_ok -> (fs !! META_FILE) ≫= meta_from_yaml = Some meta ->
  use_cached (Some meta) (fm_size m) (fm_time m) = true ->
  fs !! SIGNAL_CACHE_FILE = None -> sigref meta !! n = Some r -> c_name n ->
  exists a l', wellen_vpi_handle_by_name (Some n) (world (opened host h src t m fs)) = Ret a (world l') /\
    a <> 0 /\
    forall idx fmt, wellen_vpi_get_value_from_index a idx fmt (world l') = Panic "unwrap on None" (world l').
Proof.
  intros Ha Em Hu Hf Hr [Hs Hnul]. rewrite (opened_kept host h src t m fs meta Em Hu).
  set (l := opened_with host h src t m fs (Some meta) true).
  assert (l_sigs l = ∅) as Hsig by (cbn; unfold load_signal_cache; by rewrite Hf).
  set (l1 := with_names {[r := n]} l).
  exists (next_addr l1), (with_boxes (<[next_addr l1 := SignalBox r]> (l_boxes l1)) l1). split; [|split].
  - unfold wellen_vpi_handle_by_name, to_str, bind, static_. rewrite Hs. cbn -[load_signal_cache].
    unfold CString_new. rewrite Hr, Hnul. done.
  - apply (next_fresh Ha l1).
  - intros idx fmt. unfold wellen_vpi_get_value_from_index, signal_info, deref_signal, deref, bind, static_.
    cbn -[load_signal_cache next_addr]. rewrite lookup_insert_eq. cbn -[load_signal_cache next_addr].
    unfold l in Hsig. cbn -[load_signal_cache] in Hsig. rewrite Hsig, lookup_empty. done.
Qed.
End Files.
