(* ===== verification/Wave.v ===== *)
(** * The waveform back end: theorems on a session

    Safety of every sequence of calls, transparency of the name caches,
    iteration, persistence across sessions, and the behaviours the code does not
    mean to have.  The last part instantiates the crates with a small waveform. *)

From S2P Require Import Prelude Bytes State WaveValue WaveData WaveImpl WaveSession WaveRead WaveFiles.
From Stdlib Require Import Sorting.Sorted.
#[local] Open Scope Z_scope.

(** ** Calls *)

Inductive WaveCall :=
| CByName (name : string)
| CIterate (type_ a : Z)
| CScan (a : Z)
| CGetStr (property a : Z)
| CGet (a : Z)
| CValueAt (a idx fmt : Z)
| CValue (a time fmt : Z)
| CValueStr (a idx : Z)
| CInt (a idx : Z)
| CTime (idx : Z)
| CIndex (time : Z).

Section Calls.
Context {wellen : Wellen} {serde : Serde} {allocator : Allocator}.

Definition discard {A} (m : WM A) : WM unit := m ;; ret tt.

Definition exec (c : WaveCall) : WM unit :=
  match c with
  | CByName n => discard (wellen_vpi_handle_by_name (Some n))
  | CIterate ty a => discard (wellen_vpi_iterate ty a)
  | CScan a => discard (wellen_vpi_scan a)
  | CGetStr p a => discard (wellen_vpi_get_str p a)
  | CGet a => discard (wellen_vpi_get vpiSize a)
  | CValueAt a idx fmt => discard (wellen_vpi_get_value_from_index a idx fmt)
  | CValue a t fmt => discard (wellen_vpi_get_value a t fmt)
  | CValueStr a idx => discard (wellen_get_value_str a idx)
  | CInt a idx => discard (wellen_get_int_value a idx)
  | CTime idx => discard (wellen_get_time_from_index idx)
  | CIndex t => discard (wellen_get_index_from_time t)
  end.

(** A live signal handle, and the signal it reads. *)
Definition reads (l : Live) (a : Z) (sg : Signal) : Prop :=
  exists r info, l_boxes l !! a = Some (SignalBox r) /\ l_sigs l !! r = Some info /\ signal info = sg.

(** A bit vector is recorded at the index, or nothing yet at index 0. *)
Definition readable (sg : Signal) (idx : Z) : Prop :=
  match get_offset sg (u32 idx) with
  | Some off => exists bv, get_value_at sg off 0 = BitVec bv
  | None => idx = 0 /\ time_indices sg <> []
  end.

(** The size is read at the first recorded value. *)
Definition sized (sg : Signal) : Prop :=
  exists i off bv, get_first_time_idx sg = Some i /\ get_offset sg i = Some off /\
                   get_value_at sg off 0 = BitVec bv.

(** The calls the interface allows: any name with a path, any pointer for a
    scan or as a scope, live handles elsewhere. *)
Definition admissible (l : Live) (c : WaveCall) : Prop :=
  match c with
  | CByName n => c_name n /\ has "." (as_bytes n) = true
  | CIterate _ _ | CScan _ => True
  | CGetStr p a => (exists s, l_ptrs l !! a = Some s) \/ (exists r, l_boxes l !! a = Some (SignalBox r))
  | CGet a => exists sg, reads l a sg /\ sized sg
  | CValueAt a idx fmt => (exists sg, reads l a sg /\ readable sg idx) /\ supported fmt
  | CValue a t fmt => (exists sg, reads l a sg /\ forall i, nearest (l_time l) t i -> readable sg (Z.of_nat i)) /\ supported fmt
  | CValueStr a idx | CInt a idx => exists sg, reads l a sg /\ readable sg idx
  | CTime idx => 0 <= idx < Z.of_nat (length (l_time l))
  | CIndex _ => True
  end.

(** Sequences of admissible calls. *)
Inductive session (l0 : Live) : Live -> Prop :=
| session_start : session l0 l0
| session_call l c l' : session l0 l -> admissible l c -> exec c (world l) = Ret tt (world l') -> session l0 l'.

Lemma has_dot n : has "." n = true -> rsplit_dot n <> None.
Proof.
  intros H%has_spec. induction n as [|c n IH]; [by apply elem_of_nil in H|]. cbn.
  destruct (rsplit_dot n) as [[? ?]|]; [done|].
  apply elem_of_cons in H as [<-|H]; [by rewrite bool_decide_true|by destruct (IH H)].
Qed.

Definition returns (c : WaveCall) (l : Live) : Prop :=
  exists l', exec c (world l) = Ret tt (world l') /\ live_ok l' /\ evolves l l'.

Lemma returns_runs {A} c (m : WM A) l Q : exec c = discard m -> runs m l Q -> returns c l.
Proof.
  intros Hc (a & l' & E & Hok & Hev & _). exists l'. rewrite Hc. unfold discard.
  by rewrite (bind_Ret _ _ _ _ _ E).
Qed.

Lemma returns_buffer {A} c (m : WM A) l l' a b :
  exec c = discard m -> live_ok l -> m (world l) = Ret a (world l') ->
  l' = l \/ l' = with_buffer b l -> returns c l.
Proof.
  intros Hc Hok E Hl. apply (returns_runs c m l (fun _ _ => True) Hc). exists a, l'. split; [done|].
  destruct Hl as [-> | ->]; [split; [done|split; [reflexivity|done]]|]. split; [by apply ok_with_buffer|]. split; [split; cbn; eauto|done].
Qed.

(** What the crates are assumed to do, and the time table of a waveform. *)
Record crates_ok : Prop := mkCrates { cr_alloc : alloc_ok; cr_load : load_ok; cr_values : bit_vec_ok }.
Record table_ok (l : Live) : Prop := mkTable {
  tb_sorted : StronglySorted Z.lt (l_time l);
  tb_some : l_time l <> [];
  tb_hier : hierarchy_ok (l_hier l)
}.

Hypothesis crates : crates_ok.

Lemma iterate_unknown_run type_ a l :
  a <> 0 -> l_ptrs l !! a = None -> wellen_vpi_iterate type_ a (world l) = Ret 0 (world l).
Proof.
  intros H0 Ha. unfold wellen_vpi_iterate, iterate_items, collect_module_scopes, collect_signal_handles.
  destruct (u32 type_ =? vpiModule); cbn [negb].
  - unfold bind, static_. cbn. destruct (Z.eqb_spec a 0); [done|]. cbn. by rewrite Ha.
  - destruct (signal_type type_); [|done]. cbn [negb]. destruct (Z.eqb_spec a 0); [done|].
    unfold bind, static_. cbn. by rewrite Ha.
Qed.

Lemma iterate_returns l type_ a : live_ok l -> hierarchy_ok (l_hier l) -> returns (CIterate type_ a) l.
Proof.
  intros Hok Hh. destruct (decide (a = 0)) as [->|].
  { eapply returns_runs; [done|]. by apply iterate_runs; [apply crates|apply crates| | |constructor]. }
  destruct (l_ptrs l !! a) as [s|] eqn:Ha.
  - eapply returns_runs; [done|]. by apply iterate_runs; [apply crates|apply crates| | |constructor].
  - eapply (returns_buffer _ _ l l 0 []); [done|done|by apply iterate_unknown_run|by left].
Qed.

Lemma iter_has_objects l it items i : live_ok l -> l_boxes l !! it = Some (IterBox items i) ->
  exists objs, iterator_over objs l it.
Proof.
  intros Hok Hb. destruct (ok_items _ Hok _ _ _ Hb) as [_ Hx].
  assert (exists objs, Forall2 (item_denotes l) (drop i items) objs) as [objs Ho].
  { assert (forall x, ItSignal x ∈ drop i items -> exists r, l_boxes l !! x = Some (SignalBox r)) as Hd.
    { intros x Hin. apply Hx. rewrite <- (take_drop i items). by apply elem_of_app; right. }
    clear Hx. induction (drop i items) as [|[s|x] its IH]; [by exists []|..];
      (destruct IH as [os Hos]; [intros y Hy; apply Hd; by right|]).
    - exists (OModule s :: os). by constructor.
    - destruct (Hd x) as [r Hr]; [by left|]. exists (OSignal r :: os). constructor; [|done]. by exists r. }
  exists objs, items, i. done.
Qed.

Lemma scan_returns l a : live_ok l -> hierarchy_ok (l_hier l) -> returns (CScan a) l.
Proof.
  intros Hok Hh. destruct (decide (a ∈ l_iters l)) as [Hin|Hin].
  - apply (ok_iters _ Hok) in Hin as (items & i & Hb).
    destruct (iter_has_objects l a items i Hok Hb) as [objs Ho].
    eapply returns_runs; [done|]. by apply scan_runs; [apply crates| | |].
  - eapply returns_runs; [done|]. by apply scan_invalid_runs.
Qed.

(** The strings of a handle. *)
Lemma get_str_module l p a s : live_ok l -> l_ptrs l !! a = Some s ->
  wellen_vpi_get_str p a (world l) =
  Ret (if u32 p =? vpiName then Some (scope_name (l_hier l) s)
       else if u32 p =? vpiDefName then None
       else if u32 p =? vpiType then Some "vpiModule"%string else None) (world l).
Proof.
  intros Hok Ha. unfold wellen_vpi_get_str, deref, bind, static_. cbn. rewrite Ha.
  cbn. rewrite (ok_module _ Hok _ _ Ha). by repeat destruct (_ =? _).
Qed.

Lemma get_str_signal l p a r : live_ok l -> l_boxes l !! a = Some (SignalBox r) ->
  exists o, wellen_vpi_get_str p a (world l) = Ret o (world l) /\
    (u32 p = vpiName -> exists n, o = Some n /\ l_names l !! r = Some n).
Proof.
  intros Hok Ha. destruct (ok_signal _ Hok _ _ Ha) as [[i Hi] [n Hn]].
  assert (l_ptrs l !! a = None) as Hp.
  { destruct (l_ptrs l !! a) eqn:E; [|done]. apply (ok_module _ Hok) in E. congruence. }
  unfold wellen_vpi_get_str, deref_signal, deref, bind, static_. cbn. rewrite Hp. cbn. rewrite Ha. cbn.
  destruct (Z.eqb_spec (u32 p) vpiName); cbn; [rewrite Hn; eauto|].
  destruct (u32 p =? vpiType); cbn; [rewrite Hi; cbn|]; (eexists; split; [done|]; done).
Qed.

Lemma value_returns l a idx fmt sg :
  live_ok l -> reads l a sg -> readable sg idx -> supported fmt ->
  exists val l', wellen_vpi_get_value_from_index a idx fmt (world l) = Ret val (world l') /\ buffered val l l'.
Proof.
  intros Hok (r & info & Ha & Hr & <-) Hrd Hf.
  pose proof (value_facts (cr_values crates) l a r info idx fmt Ha Hr Hf) as H.
  unfold value_spec, readable in *. destruct (get_offset (signal info) (u32 idx)) as [off|].
  - destruct Hrd as [bv Hbv]. rewrite Hbv in H. destruct H as (val & l' & E & Hb & _). eauto.
  - destruct Hrd as [-> Ht]. cbn [Z.eqb andb] in H.
    destruct (Nat.eqb_spec (length (time_indices (signal info))) 0) as [E|_]; [by apply nil_length_inv in E|].
    destruct H as (val & l' & E & Hb & _). eauto.
Qed.

Lemma buffered_returns l c a idx fmt (m : WM s_vpi_value) :
  exec c = discard m -> live_ok l -> m (world l) = wellen_vpi_get_value_from_index a idx fmt (world l) ->
  (exists val l', wellen_vpi_get_value_from_index a idx fmt (world l) = Ret val (world l') /\ buffered val l l') ->
  returns c l.
Proof.
  intros Hc Hok E (val & l' & E' & Hb). rewrite E' in E.
  destruct val; cbn in Hb; (eapply (returns_buffer c m l l'); [done|done|exact E|]); eauto.
Unshelve. all: exact [].
Qed.

Lemma bit_string_some bv : exists s, to_bit_string (BitVec bv) = Some s.
Proof.
  destruct (cr_values crates bv) as (_ & _ & H2 & Hx).
  destruct (decide (bv_states bv = Two)) as [H|H]; [destruct (H2 H) as (? & _ & _ & _ & ?)|destruct (Hx H) as (? & ? & _)]; eauto.
Qed.

Lemma int_run l a idx sg : reads l a sg -> readable sg idx ->
  exists v, wellen_get_int_value a idx (world l) = Ret v (world l).
Proof.
  intros (r & info & Ha & Hr & <-) Hrd. unfold wellen_get_int_value.
  rewrite (bind_Ret _ _ _ _ _ (signal_info_run _ _ _ _ Ha Hr)). unfold readable in Hrd.
  destruct (get_offset _ _) as [off|]; [|by eexists]. destruct Hrd as [bv ->].
  destruct (decide (bv_states bv = Two)) as [Htwo|]; [|rewrite bool_decide_false by done; by eexists].
  rewrite bool_decide_true by done. destruct (cr_values crates bv) as (_ & _ & H2 & _).
  destruct (H2 Htwo) as (data & -> & _). by eexists.
Qed.

Lemma value_str_run l a idx sg : reads l a sg -> readable sg idx ->
  exists s, wellen_get_value_str a idx (world l) = Ret s (world (with_buffer (as_bytes s ++ [x00]) l)).
Proof.
  intros (r & info & Ha & Hr & <-) Hrd. unfold wellen_get_value_str.
  rewrite (bind_Ret _ _ _ _ _ (signal_info_run _ _ _ _ Ha Hr)). unfold readable in Hrd.
  destruct (get_offset _ _) as [off|]; [|destruct Hrd as [-> _]; by exists "0"%string]. destruct Hrd as [bv ->].
  destruct (bit_string_some bv) as [s ->]. by eexists.
Qed.

Lemma size_run l a sg : reads l a sg -> sized sg ->
  exists bv, wellen_vpi_get vpiSize a (world l) = Ret (bv_width bv) (world l).
Proof.
  intros (r & info & Ha & Hr & <-) (i & off & bv & Hi & Ho & Hv). exists bv. unfold wellen_vpi_get.
  rewrite (bind_Ret _ _ _ _ _ (signal_info_run _ _ _ _ Ha Hr)), Hi. unfold unwrap at 1. rewrite bind_ret, Ho.
  unfold expect. rewrite bind_ret, Hv. destruct (cr_values crates bv) as (Hw & Hs & _). change (u32 vpiSize =? vpiSize) with true.
  rewrite Hs. cbv beta iota. unfold unwrap. rewrite bind_ret. unfold ret.
  rewrite i32_small; [done|]. unfold in_width. lia.
Qed.

Lemma call_returns l c : live_ok l -> table_ok l -> admissible l c -> returns c l.
Proof.
  intros Hok [Hs Hne Hh] Hadm. destruct c as [n|ty a|a|p a|a|a i f|a t f|a i|a i|i|t]; cbn in Hadm.
  - destruct Hadm as [Hc Hd%has_dot]. eapply returns_runs; [done|].
    by apply handle_by_name_runs; [apply crates|apply crates| | |].
  - by apply iterate_returns.
  - by apply scan_returns.
  - destruct Hadm as [[s Ha]|[r Ha]].
    + by eapply (returns_buffer _ _ l l _ []); [done|done|eapply get_str_module|left].
    + destruct (get_str_signal l p a r Hok Ha) as (o & E & _).
      by eapply (returns_buffer _ _ l l _ []); [done|done|exact E|left].
  - destruct Hadm as (sg & Hr & Hz). destruct (size_run l a sg Hr Hz) as [bv E].
    by eapply (returns_buffer _ _ l l _ []); [done|done|exact E|left].
  - destruct Hadm as [(sg & Hr & Hrd) Hf]. eapply buffered_returns; [done|done|done|].
    by eapply value_returns.
  - destruct Hadm as [(sg & Hr & Hrd) Hf].
    destruct (find_nearest_facts (l_time l) t (sorted_nondecreasing _ Hs) Hne) as (i & E & Hn).
    eapply (buffered_returns l _ a (Z.of_nat i) f); [done|done| |eapply value_returns; eauto].
    unfold wellen_vpi_get_value. by rewrite (bind_Ret _ _ _ _ _ (nearest_index_run _ _ _ E)).
  - destruct Hadm as (sg & Hr & Hrd). destruct (value_str_run l a i sg Hr Hrd) as [s E].
    by eapply returns_buffer; [done|done|exact E|right].
  - destruct Hadm as (sg & Hr & Hrd). destruct (int_run l a i sg Hr Hrd) as [v E].
    by eapply (returns_buffer _ _ l l _ []); [done|done|exact E|left].
  - destruct (lookup_lt_is_Some_2 (l_time l) (Z.to_nat i)) as [v Hv]; [lia|].
    eapply (returns_buffer _ _ l l v []); [done|done| |by left].
    unfold wellen_get_time_from_index, bind, static_. cbn. by rewrite Hv.
  - destruct (find_nearest_facts (l_time l) t (sorted_nondecreasing _ Hs) Hne) as (i & E & _).
    eapply (returns_buffer _ _ l l _ []); [done|done| |by left].
    unfold wellen_get_index_from_time. by rewrite (bind_Ret _ _ _ _ _ (nearest_index_run _ _ _ E)).
Qed.

Lemma table_evolves l l' : evolves l l' -> table_ok l -> table_ok l'.
Proof. intros [Hh Ht] [H1 H2 H3]. split; by rewrite ?Hh, ?Ht. Qed.

Lemma session_facts l0 l : live_ok l0 -> table_ok l0 -> session l0 l ->
  live_ok l /\ evolves l0 l.
Proof.
  intros Hok Ht. induction 1 as [|l c l' Hs IH Hadm E]; [done|]. destruct IH as [Hok1 Hev1].
  destruct (call_returns l c Hok1 (table_evolves _ _ Hev1 Ht) Hadm) as (l2 & E2 & Hok2 & Hev2).
  rewrite E in E2. assert (world l' = world l2) as E3 by congruence. apply world_inj in E3 as ->. split; [done|by transitivity l].
Qed.

(** C24: in a session opened on a waveform, whatever the client calls: the
    statics and the boxes stay consistent, every handle handed out keeps
    denoting the same signal or module, and every admissible call returns, so
    that no call panics or follows a dangling pointer. *)
Theorem wave_session_safe l0 l :
  live_ok l0 -> table_ok l0 -> session l0 l ->
  live_ok l /\
  (forall a o, denotes l0 a o -> denotes l a o) /\
  forall c, admissible l c -> exists l', exec c (world l) = Ret tt (world l') /\ session l0 l'.
Proof.
  intros Hok Ht Hs. destruct (session_facts l0 l Hok Ht Hs) as [Hok1 Hev1].
  split; [done|]. split; [intros a o; by apply denotes_evolves|]. intros c Hadm.
  destruct (call_returns l c Hok1 (table_evolves _ _ Hev1 Ht) Hadm) as (l' & E & _).
  exists l'. split; [done|]. by eapply session_call.
Qed.

(** An iteration enumerates, in order and each once, the modules of the
    scope (top modules for null) or its distinct signals of the asked kind; a
    null iterator means there are none; scanning past the end frees the
    iterator and leaves the others alone. *)
Theorem wave_iteration_complete l type_ a ref :
  live_ok l -> hierarchy_ok (l_hier l) -> ref_denotes l a ref ->
  let objs := objects (l_hier l) type_ ref in
  exists it l1, wellen_vpi_iterate type_ a (world l) = Ret it (world l1) /\
    live_ok l1 /\ iters_same l l1 /\
    (objs = [] -> it = 0) /\
    (objs <> [] -> it <> 0 /\
       exists hs l2, drain (S (length objs)) it (world l1) = Ret hs (world l2) /\
         live_ok l2 /\ evolves l l2 /\ other_iters_same it l l2 /\
         Forall2 (denotes l2) hs objs /\ l_boxes l2 !! it = None).
Proof.
  intros Hok Hh Href objs.
  destruct (iterate_runs (cr_alloc crates) (cr_load crates) type_ a ref l Hok Hh Href)
    as (it & l1 & E & Hok1 & Hev1 & Hit & Hobjs). fold objs in Hobjs.
  exists it, l1. do 3 (split; [done|]). split; [intros Ho; by rewrite Ho in Hobjs|].
  intros Hne. assert (it <> 0 /\ l_boxes l !! it = None /\ iterator_over objs l1 it) as (H0 & _ & Hover)
    by by destruct objs.
  split; [done|].
  destruct (drain_runs (cr_alloc crates) objs l1 it (S (length objs))) as (hs & l2 & E2 & Hok2 & Hev2 & Hoth & Hden & Hn);
    [done|by rewrite (ev_hier _ _ Hev1)|done|lia|].
  exists hs, l2. do 2 (split; [done|]). split; [by transitivity l1|].
  split; [|done]. intros x its j Hx Hb. by apply Hoth, Hit.
Qed.

End Calls.

(** Before its first value a signal of any width reads as a vector of one word;
    the client reads as many words as the width needs. *)
Theorem default_vector_too_short `{wellen : Wellen} {serde : Serde} l a r info w w' :
  l_boxes l !! a = Some (SignalBox r) -> l_sigs l !! r = Some info ->
  get_offset (signal info) 0 = None -> time_indices (signal info) <> [] ->
  wellen_vpi_get vpiSize a (world l) = Ret w w' -> 32 < w ->
  exists ws w'', wellen_vpi_get_value_from_index a 0 vpiVectorVal (world l) = Ret (VVec ws) w'' /\
    (length ws < cover_with_32 (Z.to_nat w))%nat.
Proof.
  intros Ha Hr Ho Ht _ Hw. exists [vec0], (world l). split.
  - unfold wellen_vpi_get_value_from_index. rewrite (bind_Ret _ _ _ _ _ (signal_info_run _ _ _ _ Ha Hr)).
    change (u32 0) with 0. rewrite Ho. destruct (Nat.eqb_spec (length (time_indices (signal info))) 0) as [E|_]; [|done].
    by apply nil_length_inv in E.
  - cbn [length]. unfold cover_with_32, div_ceil. apply Nat.div_le_lower_bound; lia.
Qed.

(** ** A small waveform

    One top module with a clock (also under an alias), a four-state nibble that
    has no value at index 0 and a 64-bit bus, one child module and a package. *)

Module Demo.

Inductive Bv := BClk | BBus | BNib.
Definition demo_bits (b : Bv) : string :=
  match b with
  | BClk => "1"
  | BBus => "0000000000000000000000000000000100000000000000000000000000000101"
  | BNib => "01xz"
  end.
Definition demo_bytes (b : Bv) : option (list byte) :=
  match b with BClk => Some [x01] | BBus => Some [x00; x00; x00; x01; x00; x00; x00; x05] | BNib => None end.
Definition demo_width (b : Bv) : Z := match b with BClk => 1 | BBus => 64 | BNib => 4 end.

Definition demo_lookup (path : list string) (name : string) : option VarRef :=
  if bool_decide (path = ["top"%string]) then
    if bool_decide (name = "data"%string) then Some 2%positive
    else if bool_decide (name = "alias"%string) then Some 3%positive
    else if bool_decide (name = "bus"%string) then Some 4%positive
    else if bool_decide (name = "gone"%string) then None
    else Some 1%positive
  else None.

#[export] Instance demo : Wellen := {|
  BitVecRef := Bv;
  OtherRef := unit;
  bv_states b := match b with BNib => Four | _ => Two end;
  bv_be_bytes := demo_bytes;
  bv_width := demo_width;
  to_bit_string v := match v with BitVec b => Some (demo_bits b) | _ => None end;
  sv_width v := match v with BitVec b => Some (demo_width b) | _ => None end;
  Signal := SignalRef;
  DataOffset := unit;
  sig_ref s := s;
  get_offset s i := if bool_decide (s = 2%positive) && (i =? 0) then None else Some tt;
  get_value_at s _ _ := BitVec (match s with 1%positive => BClk | 2%positive => BNib | _ => BBus end);
  get_first_time_idx s := Some (if bool_decide (s = 2%positive) then 1 else 0);
  time_indices s := [1];
  SignalSource := unit;
  Hierarchy := unit;
  load_signals _ ids _ _ := (ids, tt);
  h_scopes _ := [1%positive; 3%positive];
  scope_type _ _ := Module_;
  scope_name _ s := match s with 1%positive => "top" | 2%positive => "sub" | _ => "x_pkg" end%string;
  scope_scopes _ s := match s with 1%positive => [2%positive] | _ => [] end;
  scope_vars _ s := match s with 1%positive => [1%positive; 2%positive; 3%positive; 4%positive] | _ => [] end;
  all_vars _ := [1%positive; 2%positive; 3%positive; 4%positive];
  var_signal_ref _ v := match v with 2%positive => 2%positive | 4%positive => 3%positive | _ => 1%positive end;
  var_var_type _ v := match v with 2%positive => Reg | _ => Wire end;
  var_full_name _ v := match v with 1%positive => "top.clk" | 2%positive => "top.data"
                       | 3%positive => "top.alias" | _ => "top.bus" end%string;
  lookup_var _ path name := demo_lookup path name;
  timescale _ := None;
  Body := unit;
  read_header_from_file _ _ := Some (tt, tt);
  read_body _ _ := Some (tt, [0; 10; 20])
|}.

#[export] Instance demo_alloc : Allocator := fun X => 1 + set_fold Z.max 0 X.

Lemma demo_alloc_ok : alloc_ok.
Proof.
  intros X. unfold fresh_addr, demo_alloc.
  assert (0 <= set_fold Z.max 0 X /\ forall x, x ∈ X -> x <= set_fold Z.max 0 X) as [H0 Hx].
  { apply (set_fold_ind_L (fun r X => 0 <= r /\ forall x, x ∈ X -> x <= r)).
    - split; [lia|]. set_solver.
    - intros x Y r Hn [Hr Hy]. split; [lia|]. intros y [->%elem_of_singleton|Hin%Hy]%elem_of_union; lia. }
  split; [|lia]. intros Hin%Hx. lia.
Qed.

Lemma demo_crates : crates_ok.
Proof.
  split; [exact demo_alloc_ok|by intros [] r [] mt; exists r, tt|].
  intros []; (split; [by vm_compute|split; [done|split]]); intros Hs; try done.
  - eexists. split; [done|]. by vm_compute.
  - eexists. split; [done|]. by vm_compute.
  - eexists. split; [done|]. split; [done|]. intros _. unfold bit01xz, bit01, xz. repeat (constructor; [tauto|]). constructor.
Qed.

Lemma demo_hierarchy : hierarchy_ok tt.
Proof.
  split.
  - intros s. cbn. by repeat case_match.
  - intros v. cbn. by repeat case_match.
Qed.

(** A serialisation through the encodings of countable types. *)
Fixpoint bits_of_pos (p : positive) : list byte :=
  match p with xH => [] | xO p => x00 :: bits_of_pos p | xI p => x01 :: bits_of_pos p end.
Fixpoint pos_of_bits (l : list byte) : positive :=
  match l with [] => xH | b :: l => if bool_decide (b = x00) then xO (pos_of_bits l) else xI (pos_of_bits l) end.

Lemma pos_of_bits_of_pos p : pos_of_bits (bits_of_pos p) = p.
Proof. induction p; cbn; by f_equal. Qed.

Definition meta_tuple (m : WaveVpiMeta) : Z * Z * nat * gmap string SignalRef * gset string :=
  (fm_size (modified m), fm_time (modified m), sigref_count m, sigref m, sigref_null m).
Definition tuple_meta (t : Z * Z * nat * gmap string SignalRef * gset string) : WaveVpiMeta :=
  let '(s, tm, n, r, e) := t in mkMeta (mkModified s tm) n r e.

Definition type_code (v : VarType) : Z + nat :=
  match v with Wire => inr 0 | Reg => inr 1 | Logic => inr 2 | SparseArray => inr 3 | OtherVarType n => inl n end%nat.
Definition code_type (c : Z + nat) : VarType :=
  match c with inr O => Wire | inr 1%nat => Reg | inr 2%nat => Logic | inr _ => SparseArray | inl n => OtherVarType n end.

#[export] Instance demo_serde : Serde := {|
  meta_to_yaml m := bits_of_pos (encode (meta_tuple m));
  meta_from_yaml l := tuple_meta <$> decode (pos_of_bits l);
  cache_to_rmp c := bits_of_pos (encode ((fun i => (signal i : positive, type_code (var_type i))) <$> c));
  cache_from_rmp l :=
    (fun (c : gmap SignalRef (positive * (Z + nat))) => (fun p => mkInfo p.1 (code_type p.2)) <$> c)
      <$> decode (pos_of_bits l)
|}.

Lemma demo_serde_ok : serde_ok.
Proof.
  split.
  - intros [[s t] n r e]. unfold meta_from_yaml, meta_to_yaml, demo_serde.
    by rewrite pos_of_bits_of_pos, decode_encode.
  - intros c. unfold cache_from_rmp, cache_to_rmp, demo_serde. rewrite pos_of_bits_of_pos, decode_encode.
    cbn. f_equal. rewrite <- map_fmap_compose. rewrite <- (map_fmap_id c) at 2. apply map_fmap_ext.
    intros r [sg v] _. cbn. by destruct v.
Qed.

Definition demo_host : Host := mkHost false (fun _ => Some (100, 7)) (fun _ => true) true.
Definition demo_live : Live := opened demo_host tt tt [0; 10; 20] (mkModified 100 7) ∅.

Lemma demo_live_ok : live_ok demo_live.
Proof. by apply opened_cold. Qed.

Lemma demo_table : table_ok demo_live.
Proof.
  split; [|done|exact demo_hierarchy]. cbn. repeat constructor.
Qed.

Definition bus_sig : @Signal demo := 3%positive.
Definition bus_info : SignalInfo := mkInfo bus_sig Wire.

(** Sessions by running calls. *)
Definition live_of (w : WaveWorld) : Live :=
  mkLive (default [] (TIME_TABLE w)) tt tt (WAVE_FILE_MODIFIED w) (default ∅ (SIGNAL_REF_CACHE w))
    (default ∅ (SIGNAL_REF_CACHE_NULL w)) (default ∅ (SIGNAL_CACHE w)) (default ∅ (SIGNAL_NAME_CACHE w))
    (HAS_NEWLY_ADD_SIGNAL_REF w) (default ∅ (MODULE_HANDLE_CACHE w)) (default ∅ (MODULE_HANDLE_PTR_MAP w))
    (default ∅ (ITERATOR_HANDLE_PTR_SET w)) (VALUE_STR_BUFFER w) (boxes w) (files w).
Definition after (c : WaveCall) (l : Live) : Live :=
  match exec c (world l) with Ret _ w => live_of w | _ => l end.

Definition demo1 : Live := after (CByName "top.bus") demo_live.
Definition demo2 : Live := after (CByName "top.data") demo1.
Definition demo3 : Live := after (CIterate vpiModule 0) demo2.
Definition demo4 : Live := after (CScan 3) demo3.

Lemma demo_session : session demo_live demo4.
Proof.
  eapply (session_call _ demo3 (CScan 3)); [|done|by vm_compute].
  eapply (session_call _ demo2 (CIterate vpiModule 0)); [|done|by vm_compute].
  eapply (session_call _ demo1 (CByName "top.data")); [|by vm_compute|by vm_compute].
  eapply (session_call _ demo_live (CByName "top.bus")); [|by vm_compute|by vm_compute].
  constructor.
Qed.

Lemma demo4_ok : live_ok demo4.
Proof. apply (session_facts demo_crates _ _ demo_live_ok demo_table demo_session). Qed.

Lemma demo_bus : l_boxes demo4 !! 1 = Some (SignalBox 3%positive).
Proof. by vm_compute. Qed.
Lemma demo_bus_info : l_sigs demo4 !! 3%positive = Some bus_info.
Proof. by vm_compute. Qed.
Lemma demo_top : l_ptrs demo4 !! 4 = Some 1%positive.
Proof. by vm_compute. Qed.

(** ** Witnesses *)

Lemma wave_session_safe_witness :
  live_ok demo_live /\ table_ok demo_live /\ session demo_live demo4 /\
  exists l', exec (CValueAt 1 0 vpiDecStrVal) (world demo4) = Ret tt (world l') /\ session demo_live l'.
Proof.
  split; [exact demo_live_ok|]. split; [exact demo_table|]. split; [exact demo_session|].
  apply (wave_session_safe demo_crates demo_live demo4 demo_live_ok demo_table demo_session).
  split; [|unfold supported; set_solver]. exists bus_sig.
  split; [|eexists; reflexivity]. exists 3%positive, bus_info.
  split; [exact demo_bus|]. split; [exact demo_bus_info|reflexivity].
Defined.

Lemma wave_iteration_complete_witness :
  exists it l1, wellen_vpi_iterate vpiNet 4 (world demo4) = Ret it (world l1) /\
    exists hs l2, drain 3 it (world l1) = Ret hs (world l2) /\
      Forall2 (denotes l2) hs [OSignal 1%positive; OSignal 3%positive].
Proof.
  destruct (wave_iteration_complete demo_crates demo4 vpiNet 4 (Some 1%positive) demo4_ok)
    as (it & l1 & E & _ & _ & _ & H); [exact demo_hierarchy|apply ref_scope, demo_top|].
  exists it, l1. split; [exact E|]. destruct H as (_ & hs & l2 & E2 & _ & _ & _ & H2 & _); [by vm_compute|].
  exists hs, l2. split; [exact E2|exact H2].
Defined.

Lemma wave_value_spec_witness :
  value_spec bus_sig 1 vpiHexStrVal demo4
    (wellen_vpi_get_value_from_index 1 1 vpiHexStrVal (world demo4)).
Proof.
  apply (wave_value_spec (cr_values demo_crates) demo4 1 3%positive bus_info 1 vpiHexStrVal
           demo4_ok demo_bus demo_bus_info).
  unfold supported. set_solver.
Defined.

Lemma int_read_agrees_witness :
  wellen_get_int_value 1 0 (world demo4) = Ret 5 (world demo4).
Proof.
  apply (int_read_agrees (cr_values demo_crates) demo4 1 3%positive bus_info 0 5 (world demo4)
           demo_bus demo_bus_info). by vm_compute.
Defined.

Lemma wave_time_cursor_witness :
  exists i, wellen_get_index_from_time 15 (world demo_live) = Ret (Z.of_nat i) (world demo_live) /\
    nearest (l_time demo_live) 15 i.
Proof.
  destruct (wave_time_cursor demo_live 15) as (i & E & Hn & _); [apply demo_table|done|].
  exists i. split; [exact E|exact Hn].
Defined.

(** Sixteen names of one signal. *)
Definition many_refs : gmap string SignalRef :=
  list_to_map (map (fun n => (String.append "top.n" (pretty.pretty (n : nat)), 1%positive)) (seq 0 16)).
Definition demo_many : Live :=
  mkLive [0; 10; 20] tt tt (Some (mkModified 100 7)) many_refs {["top.gone"%string]}
    {[1%positive := @mkInfo demo 1%positive Wire]} ∅ true ∅ ∅ ∅ [] ∅ ∅.

Lemma demo_many_ok : live_ok demo_many.
Proof.
  split; cbn -[many_refs]; try done.
  - assert (map_Forall (fun n r => r = 1%positive /\ resolves tt n = Some r) many_refs) as H
      by (apply (bool_decide_unpack _); by vm_compute).
    intros n r Hn. destruct (H n r Hn) as [Hr Hs]. split; [|done]. rewrite Hr. eexists. apply lookup_singleton_eq.
  - intros n ->%elem_of_singleton. by vm_compute.
  - intros r i H. apply lookup_singleton_Some in H as [<- <-]. done.
  - intros a. split; [by intros ?%elem_of_empty|]. intros (its & i & H). by rewrite lookup_empty in H.
Qed.

Lemma wave_caches_persist_witness :
  exists l2, wellen_initialize demo_host (Some "top.fst"%string) (blank (l_files (closed demo_many))) = Ret tt (world l2) /\
    live_ok l2 /\ l_refs l2 = many_refs.
Proof.
  destruct (wave_caches_persist demo_host demo_host demo_many (mkModified 100 7) "top.fst" tt [0; 10; 20])
    as (_ & _ & H & _); [exact demo_serde_ok|exact demo_many_ok|by split|done|vm_compute; lia|done|done|].
  destruct (H tt) as (l2 & E & Hr & _ & _ & Hok).
  - split; [by vm_compute|done|by exists tt|by split].
  - exists l2. split; [exact E|]. split; [exact (Hok eq_refl)|exact Hr].
Defined.

(** ** Behaviours the code does not mean to have *)

(** The bus holds 4294967301; its decimal text is that of the low 32 bits. *)
Example decimal_keeps_low_word :
  exists w', wellen_vpi_get_value_from_index 1 0 vpiDecStrVal (world demo4) = Ret (VStr vpiDecStrVal "5") w' /\
  be_value [x00; x00; x00; x01; x00; x00; x00; x05] = 4294967301.
Proof. eexists. split; [by vm_compute|done]. Qed.

End Demo.
