(* ===== verification/WaveLookup.v ===== *)
(** * The waveform back end: looking names up, over any number of runs

    [wellen_vpi_handle_by_name] ([src/wave_vpi/wellen_impl/src/lib.rs]) answers
    from two caches that [wellen_finalize] saves and a later process loads again.
    [history] is what can happen to the caches of one waveform: a first process
    without usable cache files, calls, finalisation, and further processes that start
    from the files left behind.  The theorem states the answer of a lookup in terms
    of the segments of the dotted name and [lookup_var] alone. *)

From S2P Require Import Prelude Bytes State WaveValue WaveData WaveImpl WaveSession WaveRead WaveFiles Wave.
From Stdlib Require Import Sorting.Sorted.
#[local] Open Scope Z_scope.

(** ** Dotted names *)

(** A name without a dot, and the name whose segments are given. *)
Definition segment (s : string) : Prop := "."%byte ∉ as_bytes s.
Definition dotted_name (path : list string) (n : string) : string := String.concat "." (path ++ [n]).

Lemma as_bytes_append s1 s2 : as_bytes (String.append s1 s2) = as_bytes s1 ++ as_bytes s2.
Proof. induction s1 as [|c s1 IH]; [done|]. change (as_bytes (String.append (String.String c s1) s2)) with (Ascii.byte_of_ascii c :: as_bytes (String.append s1 s2)). by rewrite IH. Qed.

Lemma dotted_bytes path n : path <> [] ->
  as_bytes (dotted_name path n) = as_bytes (String.concat "." path) ++ "."%byte :: as_bytes n.
Proof.
  unfold dotted_name. induction path as [|s path IH]; [done|]. intros _.
  destruct path as [|s' path].
  { change (String.concat "." ([s] ++ [n])) with (String.append s (String.append "." n)). by rewrite !as_bytes_append. }
  change (String.concat "." ((s :: s' :: path) ++ [n])) with
    (String.append s (String.append "." (String.concat "." ((s' :: path) ++ [n])))).
  change (String.concat "." (s :: s' :: path)) with (String.append s (String.append "." (String.concat "." (s' :: path)))).
  rewrite !as_bytes_append, IH by done. by rewrite <- !app_assoc.
Qed.

Lemma rsplit_dot_none l : "."%byte ∉ l -> rsplit_dot l = None.
Proof.
  induction l as [|b l IH]; intros Hn; [done|]. apply not_elem_of_cons in Hn as [Hb Hl]. cbn [rsplit_dot].
  rewrite IH by done. by rewrite bool_decide_false by done.
Qed.

Lemma rsplit_dot_last p l : "."%byte ∉ l -> rsplit_dot (p ++ "."%byte :: l) = Some (p, l).
Proof.
  intros Hl. induction p as [|b p IH]; cbn [app rsplit_dot]; [|by rewrite IH].
  by rewrite rsplit_dot_none, bool_decide_true by done.
Qed.

Lemma split_dot_none l : "."%byte ∉ l -> split_dot l = [l].
Proof.
  induction l as [|b l IH]; intros Hn; [done|]. apply not_elem_of_cons in Hn as [Hb Hl]. cbn [split_dot].
  rewrite bool_decide_false by done. by rewrite IH.
Qed.

Lemma split_dot_app l r : "."%byte ∉ l -> split_dot (l ++ "."%byte :: r) = l :: split_dot r.
Proof.
  induction l as [|b l IH]; intros Hn; [done|]. apply not_elem_of_cons in Hn as [Hb Hl]. cbn [app split_dot].
  rewrite bool_decide_false by done. by rewrite IH.
Qed.

Lemma path_of_segments path : path <> [] -> Forall segment path -> path_of (as_bytes (String.concat "." path)) = path.
Proof.
  unfold path_of. induction path as [|s path IH]; [done|]. intros _ Hs. inversion_clear Hs as [|? ? H1 H2].
  destruct path as [|s' path].
  - cbn [String.concat]. rewrite split_dot_none by done. cbn. by rewrite of_bytes_as_bytes.
  - change (String.concat "." (s :: s' :: path)) with (String.append s (String.append "." (String.concat "." (s' :: path)))).
    rewrite !as_bytes_append. change (as_bytes "." ++ ?l) with ("."%byte :: l). rewrite split_dot_app by done.
    cbn [map]. by rewrite of_bytes_as_bytes, IH.
Qed.

Section Lookup.
Context {wellen : Wellen} {serde : Serde} {allocator : Allocator}.

(** What a name resolves to, read off its segments. *)
Lemma resolves_dotted h path n : path <> [] -> Forall segment path -> segment n ->
  resolves h (dotted_name path n) = var_signal_ref h <$> lookup_var h path n.
Proof.
  intros Hne Hp Hn. unfold resolves. rewrite dotted_bytes, rsplit_dot_last by done.
  by rewrite path_of_segments, of_bytes_as_bytes.
Qed.

Lemma dotted_has_dot path n : path <> [] -> has "." (as_bytes (dotted_name path n)) = true.
Proof. intros Hp. rewrite dotted_bytes by done. apply bool_decide_eq_true. set_solver. Qed.

(** ** What no call changes *)

Definition same_files (w w' : WaveWorld) : Prop := files w' = files w /\ WAVE_FILE_MODIFIED w' = WAVE_FILE_MODIFIED w.

#[local] Instance same_files_preorder : PreOrder same_files.
Proof. split; [by intros w|]. intros w1 w2 w3 [H1 H2] [H3 H4]. split; congruence. Qed.

Lemma files_static {A} (f : WaveWorld -> option A) : keeps same_files (static_ f).
Proof. intros w. unfold static_. by destruct (f w). Qed.
Lemma files_new_box b : keeps same_files (new_box b).
Proof. by intros w. Qed.
Lemma files_deref a : keeps same_files (deref a).
Proof. intros w. unfold deref. by destruct (boxes w !! a). Qed.
Lemma files_free_box a : keeps same_files (free_box a).
Proof. intros w. unfold free_box. by destruct (boxes w !! a). Qed.
Lemma files_modify (f : WaveWorld -> WaveWorld) :
  (forall w, files (f w) = files w /\ WAVE_FILE_MODIFIED (f w) = WAVE_FILE_MODIFIED w) -> keeps same_files (modify f).
Proof. intros Hf w. apply Hf. Qed.
#[local] Hint Resolve files_static files_new_box files_deref files_free_box : keeps.
#[local] Hint Extern 3 (keeps same_files (modify _)) => (apply files_modify; done) : keeps.

Lemma files_deref_signal a : keeps same_files (deref_signal a).
Proof. unfold deref_signal. keeps_tac. Qed.
Lemma files_by_name n : keeps same_files (wellen_vpi_handle_by_name n).
Proof.
  unfold wellen_vpi_handle_by_name, to_str, load_new_signal, CString_new, unwrap, assert_,
    get_signal_ref_cache, get_signal_ref_cache_null, get_signal_name_cache, get_hierarchy, get_wave_source, get_signal_cache. keeps_tac.
Qed.
#[local] Hint Resolve files_deref_signal files_by_name : keeps.

Lemma files_signal_info a : keeps same_files (signal_info a).
Proof. unfold signal_info, get_signal_cache, unwrap. keeps_tac. Qed.
Lemma files_put_str f t : keeps same_files (put_str f t).
Proof. unfold put_str, store_value_str. keeps_tac. Qed.
#[local] Hint Resolve files_signal_info files_put_str : keeps.

Lemma files_value a i f : keeps same_files (wellen_vpi_get_value_from_index a i f).
Proof.
  unfold wellen_vpi_get_value_from_index, two_state_value, x_state_value, default_value, hex_text, unwrap, last_word. keeps_tac.
Qed.
Lemma files_nearest t : keeps same_files (nearest_index t).
Proof. unfold nearest_index, get_time_table. keeps_tac. Qed.
Lemma files_collect_vars h ty vs : forall seen, keeps same_files (collect_vars h ty seen vs).
Proof.
  induction vs as [|v vs IH]; intros seen; cbn [collect_vars]; unfold CString_new; keeps_tac; apply IH.
Qed.
Lemma files_module s : keeps same_files (get_or_create_module_handle s).
Proof.
  unfold get_or_create_module_handle, get_module_handle_cache, get_hierarchy, CString_new, get_module_handle_ptr_map. keeps_tac.
Qed.
#[local] Hint Resolve files_value files_nearest files_collect_vars files_module : keeps.

Lemma files_exec c : keeps same_files (exec c).
Proof.
  destruct c; unfold exec, discard;
    unfold wellen_vpi_iterate, iterate_items, collect_module_scopes, collect_signal_handles, wellen_vpi_scan,
      wellen_vpi_get_str, wellen_vpi_get, wellen_vpi_get_value, wellen_get_value_str, wellen_get_int_value,
      wellen_get_time_from_index, wellen_get_index_from_time, store_value_str, unwrap, expect,
      get_hierarchy, get_module_handle_ptr_map, get_iterator_handle_ptr_set, get_signal_name_cache, get_signal_cache, get_time_table;
    keeps_tac.
Qed.

(** ** The processes that read one waveform

    [h], [t] and [m]: the hierarchy and time table of the waveform file, its size and
    modification second.  The first process finds no cache files it would use. *)
Inductive history (h : Hierarchy) (t : list Z) (m : FileModifiedInfo) : Live -> Prop :=
| history_first host fn src fs l :
    opens host fn h src t m ->
    use_cached ((fs !! META_FILE) ≫= meta_from_yaml) (fm_size m) (fm_time m) = false ->
    wellen_initialize host (Some fn) (blank fs) = Ret tt (world l) -> history h t m l
| history_call l c l' :
    history h t m l -> admissible l c -> exec c (world l) = Ret tt (world l') -> history h t m l'
| history_again host host' fn src l l1 l2 :
    history h t m l -> creatable host -> wellen_finalize host (world l) = Ret tt (world l1) ->
    can_map host' = true -> opens host' fn h src t m ->
    wellen_initialize host' (Some fn) (blank (l_files l1)) = Ret tt (world l2) -> history h t m l2.

(** The cache files at hand start a well-formed session. *)
Definition files_ok (h : Hierarchy) (t : list Z) (m : FileModifiedInfo) (fs : gmap string (list byte)) : Prop :=
  forall host src, can_map host = true -> live_ok (opened host h src t m fs).

Record reached (h : Hierarchy) (t : list Z) (m : FileModifiedInfo) (l : Live) : Prop := {
  r_live : live_ok l;
  r_hier : l_hier l = h;
  r_time : l_time l = t;
  r_modified : l_modified l = Some m;
  r_files : files_ok h t m (l_files l)
}.

Context (crates : crates_ok) (serde_fine : serde_ok).
Context (h : Hierarchy) (t : list Z) (m : FileModifiedInfo).
Hypothesis sorted : StronglySorted Z.lt t.
Hypothesis some : t <> [].
Hypothesis named : hierarchy_ok h.

Lemma reached_table l : reached h t m l -> table_ok l.
Proof. intros []. split; by subst. Qed.

Lemma reached_call l c l' :
  reached h t m l -> admissible l c -> exec c (world l) = Ret tt (world l') -> reached h t m l'.
Proof.
  intros R Hadm E. pose proof R as [Hok Hh Ht Hm Hf].
  destruct (call_returns crates l c Hok (reached_table l R) Hadm) as (l2 & E2 & Hok2 & Hev2).
  rewrite E in E2. assert (world l' = world l2) as E3 by congruence. apply world_inj in E3 as ->.
  pose proof (files_exec c (world l)) as Hfiles. rewrite E in Hfiles. destruct Hfiles as [F1 F2]. cbn in F1, F2.
  split; [done|by rewrite (ev_hier _ _ Hev2)|by rewrite (ev_time _ _ Hev2)|congruence|by rewrite F1].
Qed.

Lemma reached_files l : reached h t m l -> files_ok h t m (saved_files l).
Proof.
  intros [Hok Hh Ht Hm Hf] host src Hmap.
  destruct ((SIGNAL_REF_COUNT_THRESHOLD <=? size (l_refs l))%nat && l_new l) eqn:E.
  - apply andb_true_iff in E as [E1 E2]. apply Nat.leb_le in E1. rewrite <- Hh. by apply saved_reopened_ok.
  - unfold saved_files. rewrite E. by apply Hf.
Qed.

(** Two sessions with the same statics are the same. *)
Lemma ret_world_inj (l1 l2 : Live) : Ret (S := WaveWorld) tt (world l1) = Ret tt (world l2) -> l1 = l2.
Proof. intros E. apply world_inj. exact (f_equal (fun r => match r with Ret _ w => w | _ => world l1 end) E). Qed.
Ltac ret_world E := apply ret_world_inj in E as <-.

Lemma history_reached l : history h t m l -> reached h t m l.
Proof.
  induction 1 as [host fn src fs l Hop Hu E|l c l' _ IH Hadm E|host host' fn src l l1 l2 _ IH Hc E Hmap Hop E2].
  - rewrite (initialize_run host fn h src t m fs Hop) in E. ret_world E.
    split; [by apply opened_cold|done|done|done|]. intros host' src' _. by apply opened_cold.
  - by eapply reached_call.
  - rewrite (finalize_run host l (r_live _ _ _ _ IH) Hc) in E. ret_world E.
    rewrite (initialize_run host' fn h src t m _ Hop) in E2. ret_world E2.
    pose proof (reached_files l IH) as Hf. split; [by apply Hf|done|done|done|done].
Qed.

(** C25: looking a name up answers what the hierarchy says.  In any process that reads
    a waveform, however many processes read it and saved their caches before, the
    name with segments [path] and [n], joined by dots, gets a fresh handle of the
    signal that the hierarchy's lookup finds for these segments, under the name
    asked for, or null when it finds none; whether the answer comes from a cache
    cannot be seen, and no other handle and no iterator changes.  The first of these
    processes must have found no cache files of the waveform's size and modification
    second: files left by another waveform of the same size and second are trusted. *)
Theorem wave_handle_by_name_spec l path n :
  history h t m l -> path <> [] -> Forall segment path -> segment n -> c_name (dotted_name path n) ->
  exists a l', wellen_vpi_handle_by_name (Some (dotted_name path n)) (world l) = Ret a (world l') /\
    history h t m l' /\ evolves l l' /\ iters_same l l' /\
    match lookup_var h path n with
    | Some v => fresh_in l a /\ denotes l' a (OSignal (var_signal_ref h v)) /\
                wellen_vpi_get_str vpiName a (world l') = Ret (Some (dotted_name path n)) (world l')
    | None => a = 0
    end.
Proof.
  intros Hl Hne Hp Hn Hc. pose proof (history_reached l Hl) as [Hok Hh _ _ _]. set (name := dotted_name path n) in *.
  pose proof (dotted_has_dot path n Hne) as Hd. fold name in Hd.
  destruct (handle_by_name_runs (cr_alloc crates) (cr_load crates) l name Hok Hc (has_dot (as_bytes name) Hd)) as (a & l' & E & Hok' & Hev & Ha).
  exists a, l'. split; [done|]. split.
  { apply (history_call h t m l (CByName name)); [done|by split|]. cbn [exec]. unfold discard. by rewrite (bind_Ret _ _ _ _ _ E). }
  split; [done|]. unfold answers in Ha. rewrite Hh in Ha. unfold name in Ha at 1. rewrite resolves_dotted in Ha by done.
  destruct (lookup_var h path n) as [v|]; cbn [fmap option_fmap option_map] in Ha; [|destruct Ha as (H1 & H2 & H3); by auto].
  destruct Ha as (Hf & Hit & Hbox & Hname). split; [done|]. split; [done|]. split; [done|].
  destruct (get_str_signal l' vpiName a _ Hok' Hbox) as (o & -> & Hn'').
  destruct (Hn'' eq_refl) as (n' & -> & Hn'). rewrite Hname in Hn'. cbn in Hn'.
  rewrite lookup_insert_eq in Hn'. congruence.
Qed.

End Lookup.

(** ** A second process on the small waveform *)
Module LookupDemo.
Import Demo.

Definition demo_history : Live -> Prop := history tt [0; 10; 20] (mkModified 100 7).

Lemma demo_opens : opens demo_host "top.fst" tt tt [0; 10; 20] (mkModified 100 7).
Proof. split; [by vm_compute|done|by exists tt|by split]. Qed.

Lemma demo_first : demo_history demo_live.
Proof. eapply (history_first _ _ _ demo_host "top.fst" _ ∅); [exact demo_opens|by vm_compute|apply initialize_run, demo_opens]. Qed.

Lemma demo_calls l : session demo_live l -> demo_history l.
Proof. induction 1 as [|l c l' _ IH Hadm E]; [exact demo_first|]. by apply (history_call _ _ _ l c). Qed.

(** The process of [demo4] is over, and another one has started. *)
Definition second : Live := opened demo_host tt tt [0; 10; 20] (mkModified 100 7) (l_files (closed demo4)).

Lemma second_history : demo_history second.
Proof.
  eapply (history_again _ _ _ demo_host demo_host "top.fst" _ demo4 (closed demo4)).
  - apply demo_calls, demo_session.
  - by split.
  - apply finalize_run; [exact demo4_ok|by split].
  - done.
  - exact demo_opens.
  - apply initialize_run, demo_opens.
Qed.

Lemma wave_handle_by_name_spec_witness :
  (exists a l', wellen_vpi_handle_by_name (Some "top.alias"%string) (world second) = Ret a (world l') /\
     demo_history l' /\ denotes l' a (OSignal 1%positive)) /\
  (exists l', wellen_vpi_handle_by_name (Some "top.gone"%string) (world second) = Ret 0 (world l') /\ demo_history l').
Proof.
  split.
  - destruct (wave_handle_by_name_spec demo_crates demo_serde_ok tt [0; 10; 20] (mkModified 100 7) (tb_sorted _ demo_table)
      (tb_some _ demo_table) demo_hierarchy second ["top"%string] "alias" second_history)
      as (a & l' & E & Hl & _ & _ & H);
      [done|by apply (bool_decide_unpack _); vm_compute|by apply (bool_decide_unpack _); vm_compute|by split|].
    exists a, l'. split; [exact E|]. split; [exact Hl|]. apply H.
  - destruct (wave_handle_by_name_spec demo_crates demo_serde_ok tt [0; 10; 20] (mkModified 100 7) (tb_sorted _ demo_table)
      (tb_some _ demo_table) demo_hierarchy second ["top"%string] "gone" second_history)
      as (a & l' & E & Hl & _ & _ & H);
      [done|by apply (bool_decide_unpack _); vm_compute|by apply (bool_decide_unpack _); vm_compute|by split|].
    assert (a = 0) as Ea by exact H. exists l'. split; [rewrite <- Ea; exact E|exact Hl].
Defined.

End LookupDemo.
