(* ===== verification/WaveJit.v ===== *)
(** * The waveform kernel: hot prefetch

    [src/wave_vpi/src/vpi_compat_wellen.cpp], [vpi_get_value] and
    [wellenOptThreadTask]: a signal that is read often gets a thread which reads
    its values ahead into a window, and reads are served from the window.  The
    thread is a state machine over the fields it shares with the reader
    ([opt_step]), one shared access per step; a read is a first half that decides
    and a second half that indexes the window, so that thread steps can come
    between them.  Values of the window come from [wellen_get_int_value]. *)

From S2P Require Import Prelude Bytes State WaveValue WaveData WaveImpl WaveSession WaveRead WaveFiles Wave.
#[local] Open Scope Z_scope.

(** ** State *)

(** [jit_options]. *)
Record JitOptions := mkJitOptions {
  enableJIT : bool;
  maxOptThreads : Z;
  hotAccessThreshold : Z;
  compileWindowSize : Z;
  recompileWindowSize : Z
}.

(** [SignalHandle_t]; the thread, condition variable and mutex are [OptThread]. *)
Record SignalHandle := mkSignalHandle {
  bitSize : nat;
  canOpt : bool;
  readCnt : Z;
  doOpt : bool;
  continueOpt : bool;
  optValueVec : list Z;
  optFinishIdx : Z;
  optBaseIdx : Z
}.

(** Where the thread is; [OptWait] is before the predicate of [cv.wait], [OptBlock]
    after it was false, [OptAsleep] in the wait itself; [last] is [optFinish] of the current continuation, and
    [None] while the first window is filled. *)
Inductive OptThread :=
| OptNone
| OptStart
| OptBase (cur fin : Z)
| OptResize (cur fin : Z)
| OptFill (base start idx fin : Z) (last : option bool)
| OptBatch (base start idx fin : Z) (last : option bool)
| OptEnd (last : bool)
| OptWait
| OptBlock
| OptAsleep
| OptNeed (start fin : Z) (last : bool)
| OptSlideBase (start fin : Z) (last : bool)
| OptSlideResize (start fin : Z) (last : bool)
| OptDone.

Record Jit := mkJit {
  hdl : SignalHandle;
  thread : OptThread;
  cursor_index : Z;
  cursor_maxIndex : Z;
  optThreadCnt : Z;
  vpiControlTerminate : bool
}.

Definition set_thread (t : OptThread) (s : Jit) : Jit :=
  mkJit (hdl s) t (cursor_index s) (cursor_maxIndex s) (optThreadCnt s) (vpiControlTerminate s).
Definition set_hdl (h : SignalHandle) (s : Jit) : Jit :=
  mkJit h (thread s) (cursor_index s) (cursor_maxIndex s) (optThreadCnt s) (vpiControlTerminate s).
Definition set_cursor (i : Z) (s : Jit) : Jit :=
  mkJit (hdl s) (thread s) i (cursor_maxIndex s) (optThreadCnt s) (vpiControlTerminate s).
Definition set_count (n : Z) (s : Jit) : Jit :=
  mkJit (hdl s) (thread s) (cursor_index s) (cursor_maxIndex s) n (vpiControlTerminate s).
Definition set_terminate (b : bool) (s : Jit) : Jit :=
  mkJit (hdl s) (thread s) (cursor_index s) (cursor_maxIndex s) (optThreadCnt s) b.

Definition set_window (v : list Z) (h : SignalHandle) : SignalHandle :=
  mkSignalHandle (bitSize h) (canOpt h) (readCnt h) (doOpt h) (continueOpt h) v (optFinishIdx h) (optBaseIdx h).
Definition set_finish (i : Z) (h : SignalHandle) : SignalHandle :=
  mkSignalHandle (bitSize h) (canOpt h) (readCnt h) (doOpt h) (continueOpt h) (optValueVec h) i (optBaseIdx h).
Definition set_base (i : Z) (h : SignalHandle) : SignalHandle :=
  mkSignalHandle (bitSize h) (canOpt h) (readCnt h) (doOpt h) (continueOpt h) (optValueVec h) (optFinishIdx h) i.
Definition set_continue (b : bool) (h : SignalHandle) : SignalHandle :=
  mkSignalHandle (bitSize h) (canOpt h) (readCnt h) (doOpt h) b (optValueVec h) (optFinishIdx h) (optBaseIdx h).
Definition set_reads (n : Z) (h : SignalHandle) : SignalHandle :=
  mkSignalHandle (bitSize h) (canOpt h) n (doOpt h) (continueOpt h) (optValueVec h) (optFinishIdx h) (optBaseIdx h).
Definition set_hot (h : SignalHandle) : SignalHandle :=
  mkSignalHandle (bitSize h) (canOpt h) (readCnt h) true false (optValueVec h) (optFinishIdx h) (optBaseIdx h).

(** A new handle: [vpi_handle_by_name] and [vpi_scan]. *)
Definition new_handle (size : nat) : SignalHandle :=
  mkSignalHandle size (bool_decide (size <= 32)%nat) 0 false false [] 0 0.

(** [std::vector::resize]. *)
Definition vec_resize (n : Z) (v : list Z) : list Z := resize (Z.to_nat n) 0 v.

(** ** The thread *)

(** A step: taken, blocked on the condition variable or ended, the process
    aborted by [wellen_get_int_value], or an index outside the vector. *)
Inductive OptResult :=
| OMoved (s : Jit)
| OBlocked
| OAborted
| OUndefined.

Section Jit.
Context (opts : JitOptions) (int_at : Z -> option Z).

Definition PROGRESS_BATCH : Z := 1024.

Definition opt_step (s : Jit) : OptResult :=
  let h := hdl s in
  let W := compileWindowSize opts in
  match thread s with
  | OptStart =>
      if vpiControlTerminate s then OMoved (set_thread OptDone s) else
      let cur := cursor_index s in
      OMoved (set_thread (OptBase cur (Z.min (u64 (cur + W)) (cursor_maxIndex s))) s)
  | OptBase cur fin => OMoved (set_thread (OptResize cur fin) (set_hdl (set_base cur h) s))
  | OptResize cur fin =>
      let v := vec_resize (Z.min (u64 (W * 2)) (cursor_maxIndex s)) (optValueVec h) in
      OMoved (set_thread (OptFill (optBaseIdx h) cur cur fin None) (set_hdl (set_window v h) s))
  | OptFill base start idx fin last =>
      if idx <? fin then
        match int_at idx with
        | None => OAborted
        | Some v =>
            let i := u64 (idx - base) in
            if i <? Z.of_nat (length (optValueVec h)) then
              OMoved (set_thread (OptBatch base start idx fin last)
                (set_hdl (set_window (<[Z.to_nat i := v]> (optValueVec h)) h) s))
            else OUndefined
        end
      else
        OMoved (set_thread (match last with None => OptWait | Some l => OptEnd l end) (set_hdl (set_finish fin h) s))
  | OptBatch base start idx fin last =>
      let s' := if (idx - start + 1) mod PROGRESS_BATCH =? 0 then set_hdl (set_finish (idx + 1) h) s else s in
      OMoved (set_thread (OptFill base start (idx + 1) fin last) s')
  | OptEnd last =>
      let s' := set_hdl (set_continue false h) s in
      OMoved (if last then set_thread OptDone (set_count (optThreadCnt s - 1) s') else set_thread OptWait s')
  | OptWait =>
      if continueOpt h then
        let start := Z.max (cursor_index s) (optFinishIdx h) in
        let fin := u64 (start + W) in
        let last := cursor_maxIndex s <=? fin in
        OMoved (set_thread (OptNeed start (if last then cursor_maxIndex s else fin) last) s)
      else OMoved (set_thread OptBlock s)
  | OptBlock => OMoved (set_thread OptAsleep s)
  | OptNeed start fin last =>
      if Z.of_nat (length (optValueVec h)) <? u64 (fin - optBaseIdx h)
      then OMoved (set_thread (OptSlideBase start fin last) (set_hdl (set_finish 0 h) s))
      else OMoved (set_thread (OptFill (optBaseIdx h) start start fin (Some last)) s)
  | OptSlideBase start fin last =>
      OMoved (set_thread (OptSlideResize start fin last) (set_hdl (set_base start h) s))
  | OptSlideResize start fin last =>
      let v := vec_resize (Z.min (u64 (W * 2)) (u64 (cursor_maxIndex s - start))) (optValueVec h) in
      OMoved (set_thread (OptFill (optBaseIdx h) start start fin (Some last)) (set_hdl (set_window v h) s))
  | OptNone | OptAsleep | OptDone => OBlocked
  end.

(** ** The reader *)

(** [cv.notify_one]: the sleeping thread checks its predicate again. *)
Definition notify_one (s : Jit) : Jit :=
  match thread s with OptAsleep => set_thread OptWait s | _ => s end.

(** A read on the slow path counts, and may start the thread. *)
Definition count_read (s : Jit) : Jit :=
  let n := readCnt (hdl s) + 1 in
  let s := set_hdl (set_reads n (hdl s)) s in
  if (hotAccessThreshold opts <=? n) && (optThreadCnt s <=? maxOptThreads opts)
  then set_thread OptStart (set_count (optThreadCnt s + 1) (set_hdl (set_hot (hdl s)) s))
  else s.

(** How a read goes on: through [wellen], or from the window at an offset. *)
Inductive Plan := PSlow | PFast (local : Z).

(** [vpi_get_value] up to the access to [optValueVec]. *)
Definition read_begin (s : Jit) : Jit * Plan :=
  let h := hdl s in
  if negb (canOpt h) || negb (enableJIT opts) then (s, PSlow) else
  let fin := optFinishIdx h in
  if doOpt h && (0 <? fin) then
    let base := optBaseIdx h in
    if (cursor_index s <? base) || (fin <=? cursor_index s) then (s, PSlow) else
    let s' := if negb (continueOpt h) && (u64 (fin - recompileWindowSize opts) <=? cursor_index s)
              then notify_one (set_hdl (set_continue true h) s) else s in
    (s', PFast (u64 (cursor_index s - base)))
  else if negb (doOpt h) then (count_read s, PSlow)
  else (s, PSlow).

(** The access; [None] is an index past the end. *)
Definition read_end (local : Z) (s : Jit) : option Z := optValueVec (hdl s) !! Z.to_nat local.

End Jit.

(** ** The value in the format asked for *)

(** [std::to_chars] in base 16: no leading zeros. *)
Fixpoint to_chars_hex (fuel : nat) (v : Z) : list byte :=
  match fuel with
  | O => [nib_digit v]
  | S fuel => if v <? 16 then [nib_digit v] else to_chars_hex fuel (v / 16) ++ [nib_digit (v mod 16)]
  end.
Definition uint32_to_hex_str (v : Z) : string := of_bytes (to_chars_hex 8 v).
Definition uint32_to_dec_str (v : Z) : string := to_decimal v.

(** [None]: an unsupported format aborts. *)
Definition jit_value (fmt : Z) (size : nat) (v : Z) : option s_vpi_value :=
  if fmt =? vpiIntVal then Some (VInt (i32 v))
  else if fmt =? vpiVectorVal then Some (VVec [mkVec (i32 v) 0])
  else if fmt =? vpiHexStrVal then Some (VStr fmt (uint32_to_hex_str v))
  else if fmt =? vpiBinStrVal then Some (VStr fmt (of_bytes (bits_of size v)))
  else if fmt =? vpiDecStrVal then Some (VStr fmt (uint32_to_dec_str v))
  else None.

(** ** Reads between thread steps *)

Section Sound.
Context (opts : JitOptions) (int_at : Z -> option Z) (forward : bool).
Abbreviation W := (compileWindowSize opts).

(** Anything that happens: a thread step, a spurious wake-up, the first half of a
    read, the cursor, threads of other signals, the end of the simulation.  The
    cursor moves anywhere in the waveform, as [wave_vpi_ctrl_set_cursor_index] lets
    it, or only ahead when [forward], as the evaluation loop does; all options but
    the size of the compile window may change between two reads. *)
Inductive jstep : Jit -> Jit -> Prop :=
| js_opt s s' : opt_step opts int_at s = OMoved s' -> jstep s s'
| js_wake s : thread s = OptAsleep -> jstep s (set_thread OptWait s)
| js_read o s : jstep s (read_begin o s).1
| js_cursor s i : 0 <= i <= cursor_maxIndex s -> (forward = true -> cursor_index s <= i) -> jstep s (set_cursor i s)
| js_count s n : jstep s (set_count n s)
| js_terminate s : jstep s (set_terminate true s).

(** *** The window is as wide as it is said to be, wherever the cursor goes *)

Definition span (s : Jit) (start fin : Z) : Prop :=
  0 <= start <= fin /\ fin <= cursor_maxIndex s /\ fin - start <= W.

Definition filling (s : Jit) (base start idx fin : Z) : Prop :=
  base = optBaseIdx (hdl s) /\ base <= start <= idx /\ span s start fin /\
  fin - base <= Z.of_nat (length (optValueVec (hdl s))).

Definition thread_range (s : Jit) : Prop :=
  let h := hdl s in
  match thread s with
  | OptNone | OptStart => optFinishIdx h = 0
  | OptBase cur fin => optFinishIdx h = 0 /\ span s cur fin
  | OptResize cur fin => optFinishIdx h = 0 /\ span s cur fin /\ optBaseIdx h = cur
  | OptFill base start idx fin _ => filling s base start idx fin
  | OptBatch base start idx fin _ => filling s base start idx fin /\ idx < fin
  | OptEnd _ | OptWait | OptBlock | OptAsleep => optBaseIdx h <= optFinishIdx h
  | OptNeed start fin _ => optBaseIdx h <= start /\ span s start fin
  | OptSlideBase start fin _ => optFinishIdx h = 0 /\ span s start fin
  | OptSlideResize start fin _ => optFinishIdx h = 0 /\ span s start fin /\ optBaseIdx h = start
  | OptDone => True
  end.

Record range_inv (s : Jit) : Prop := {
  j_cursor : 0 <= cursor_index s <= cursor_maxIndex s;
  j_base : 0 <= optBaseIdx (hdl s);
  j_finish : 0 <= optFinishIdx (hdl s) <= cursor_maxIndex s;
  j_hot : doOpt (hdl s) = false -> thread s = OptNone;
  j_wide : optBaseIdx (hdl s) < optFinishIdx (hdl s) ->
    optFinishIdx (hdl s) - optBaseIdx (hdl s) <= Z.of_nat (length (optValueVec (hdl s)));
  j_range : thread_range s
}.

(** *** What it holds is right, when the cursor only moves ahead *)

(** The window holds the value of index [i]. *)
Definition cell (h : SignalHandle) (i : Z) : Prop :=
  exists v, int_at i = Some v /\ optValueVec h !! Z.to_nat (i - optBaseIdx h) = Some v.

(** No index from the base on is skipped between [optFinishIdx] and [start],
    except behind the cursor. *)
Definition no_gap (s : Jit) (start : Z) : Prop :=
  forall i, optBaseIdx (hdl s) <= i -> optFinishIdx (hdl s) <= i < start -> i < cursor_index s.

Definition thread_values (s : Jit) : Prop :=
  match thread s with
  | OptBase cur _ | OptResize cur _ => cur <= cursor_index s
  | OptFill _ start idx _ _ => no_gap s start /\ forall i, start <= i < idx -> cell (hdl s) i
  | OptBatch _ start idx _ _ => no_gap s start /\ forall i, start <= i <= idx -> cell (hdl s) i
  | OptNeed start _ _ => no_gap s start
  | _ => True
  end.

Record value_inv (s : Jit) : Prop := {
  j_window : forall i, optBaseIdx (hdl s) <= i < optFinishIdx (hdl s) -> cursor_index s <= i -> cell (hdl s) i;
  j_values : thread_values s
}.

Definition jit_inv (s : Jit) : Prop := range_inv s /\ (forward = true -> value_inv s).

(** The windows fit in 64 bits. *)
Hypothesis HW : 0 <= W.
Definition fits (s : Jit) : Prop := cursor_maxIndex s + 2 * W < 2 ^ 64.

Lemma u64_small z : 0 <= z < 2 ^ 64 -> u64 z = z.
Proof. intros. by apply wrap_small. Qed.

Lemma opt_step_fits s s' : opt_step opts int_at s = OMoved s' -> fits s -> fits s'.
Proof. unfold opt_step, fits. intros E Hf. destruct (thread s); repeat case_match; try done; by injection E as <-. Qed.

(** Closes the side goals of the invariants that a step leaves alone. *)
Ltac jhot := match goal with
  | Hot : _ = false -> _ |- _ = false -> _ => intros Hh; by specialize (Hot Hh)
  end.
Ltac jrange := split; cbn; try done; try jhot; try (intros; exfalso; lia); try lia;
  unfold thread_range, filling, span; cbn; try (split_and!; lia).
Ltac jvals := split; cbn; try done; try (intros; exfalso; lia);
  unfold thread_values, no_gap; cbn; try done; try lia; try (split; [intros; lia|intros; exfalso; lia]); try (intros; lia).

Lemma opt_step_range s s' : fits s -> range_inv s -> opt_step opts int_at s = OMoved s' -> range_inv s'.
Proof.
  unfold fits. intros Hfit [C B Fi Hot Wi Th]. unfold opt_step, thread_range in *.
  destruct (thread s) as [| |cur fin|cur fin|base start idx fin last|base start idx fin last|last| | | |start fin last|start fin last|start fin last|] eqn:Et;
    try done.
  - (* OptStart *)
    destruct (vpiControlTerminate s); intros [= <-]; jrange.
    rewrite u64_small by lia. lia.
  - (* OptBase *)
    intros [= <-]. destruct Th as (T1 & T2). unfold span in T2. jrange.
  - (* OptResize *)
    intros [= <-]. destruct Th as (T1 & T2 & T3). unfold span in T2. jrange.
    unfold vec_resize. rewrite length_resize, u64_small by lia. split_and!; lia.
  - (* OptFill *)
    destruct Th as (-> & T1 & T2 & T3). unfold span in T2. destruct (Z.ltb_spec idx fin) as [Hi|Hi].
    + destruct (int_at idx) as [v|] eqn:Ev; [|done]. destruct (_ <? _); [|done]. intros [= <-].
      jrange; rewrite length_insert; [exact Wi|split_and!; lia].
    + intros [= <-]. destruct last; jrange.
  - (* OptBatch *)
    destruct Th as [(-> & T1 & T2 & T3) Ti]. unfold span in T2. intros [= <-]. destruct (_ =? 0); jrange.
  - (* OptEnd *)
    intros [= <-]. destruct last; jrange.
  - (* OptWait *)
    destruct (continueOpt (hdl s)); intros [= <-]; jrange. rewrite u64_small by lia.
    destruct (Z.leb_spec (cursor_maxIndex s) (Z.max (cursor_index s) (optFinishIdx (hdl s)) + W)); (split_and!; lia).
  - (* OptBlock *)
    intros [= <-]. jrange.
  - (* OptNeed *)
    destruct Th as (T1 & T2). unfold span in T2. rewrite u64_small by lia.
    destruct (Z.ltb_spec (Z.of_nat (length (optValueVec (hdl s)))) (fin - optBaseIdx (hdl s))); intros [= <-]; jrange.
  - (* OptSlideBase *)
    destruct Th as (T1 & T2). unfold span in T2. intros [= <-]. jrange.
  - (* OptSlideResize *)
    destruct Th as (T1 & T2 & T3). unfold span in T2. intros [= <-]. jrange.
    unfold vec_resize. rewrite length_resize, !u64_small by lia. split_and!; lia.
Qed.

Lemma opt_step_values s s' : fits s -> range_inv s -> value_inv s -> opt_step opts int_at s = OMoved s' -> value_inv s'.
Proof.
  unfold fits. intros Hfit [C B Fi Hot Wi Th] [Win Va]. unfold opt_step, thread_range, thread_values in *.
  destruct (thread s) as [| |cur fin|cur fin|base start idx fin last|base start idx fin last|last| | | |start fin last|start fin last|start fin last|] eqn:Et;
    try done.
  - destruct (vpiControlTerminate s); intros [= <-]; jvals.
  - intros [= <-]. jvals.
  - intros [= <-]. destruct Th as (T1 & T2 & T3). jvals.
  - (* OptFill *)
    destruct Th as (-> & T1 & T2 & T3). destruct Va as [V1 V2]. unfold span in T2. destruct (Z.ltb_spec idx fin) as [Hi|Hi].
    + destruct (int_at idx) as [v|] eqn:Ev; [|done]. rewrite u64_small by lia.
      set (b := optBaseIdx (hdl s)) in *. destruct (Z.ltb_spec (idx - b) (Z.of_nat (length (optValueVec (hdl s))))) as [Hl|]; [|done].
      intros [= <-].
      assert (forall i, b <= i -> cell (hdl s) i \/ i = idx ->
        cell (set_window (<[Z.to_nat (idx - b):=v]> (optValueVec (hdl s))) (hdl s)) i) as Hcell.
      { intros i Hib Hc. unfold cell. cbn. fold b. destruct (decide (i = idx)) as [->|Hne].
        - exists v. split; [done|]. apply list_lookup_insert_eq. lia.
        - destruct Hc as [(x & Hx & Hv)|]; [|done]. exists x. split; [done|]. rewrite list_lookup_insert_ne by lia. exact Hv. }
      split; cbn.
      * intros i Hib Hci. apply Hcell; [apply Hib|]. left. by apply Win.
      * split; [exact V1|]. intros i Hr. apply Hcell; [lia|]. destruct (decide (i = idx)); [by right|left; apply V2; lia].
    + intros [= <-].
      assert (forall i, optBaseIdx (hdl s) <= i < fin -> cursor_index s <= i -> cell (hdl s) i) as Hw.
      { intros i Hib Hci. destruct (decide (i < optFinishIdx (hdl s))); [apply Win; lia|].
        destruct (decide (i < start)) as [Hs|]; [|apply V2; lia]. specialize (V1 i ltac:(lia) ltac:(lia)). lia. }
      destruct last; (split; cbn; [exact Hw|done]).
  - (* OptBatch *)
    destruct Th as [(-> & T1 & T2 & T3) Ti]. destruct Va as [V1 V2]. unfold span in T2. intros [= <-].
    destruct ((idx - start + 1) mod PROGRESS_BATCH =? 0); split; cbn.
    + intros i Hib Hci. destruct (decide (i < optFinishIdx (hdl s))); [apply Win; lia|].
      destruct (decide (i < start)) as [Hs|]; [specialize (V1 i ltac:(lia) ltac:(lia)); lia|apply V2; lia].
    + split; [intros i Hb Hr; cbn in *; lia|]. intros i Hr. apply V2. lia.
    + exact Win.
    + split; [exact V1|]. intros i Hr. apply V2. lia.
  - intros [= <-]. destruct last; jvals.
  - destruct (continueOpt (hdl s)); intros [= <-]; jvals.
  - intros [= <-]. jvals.
  - (* OptNeed *)
    destruct Th as (T1 & T2). unfold span in T2. rewrite u64_small by lia.
    destruct (Z.ltb_spec (Z.of_nat (length (optValueVec (hdl s)))) (fin - optBaseIdx (hdl s))); intros [= <-]; (split; cbn; try done; try (intros; exfalso; lia)).
    split; [exact Va|]. intros i Hr. lia.
  - destruct Th as (T1 & T2). unfold span in T2. intros [= <-]. jvals.
  - destruct Th as (T1 & T2 & T3). unfold span in T2. intros [= <-]. jvals.
Qed.

Lemma opt_step_inv s s' : fits s -> jit_inv s -> opt_step opts int_at s = OMoved s' -> jit_inv s' /\ fits s'.
Proof.
  intros Hf [Hr Hv] E. split; [split|by apply (opt_step_fits s)].
  - by apply (opt_step_range s).
  - intros Hfw. by apply (opt_step_values s); [..|apply Hv|].
Qed.

(** The half of a read that may change something leaves the window alone. *)
Lemma read_begin_inv o s : jit_inv s -> jit_inv (read_begin o s).1.
Proof.
  intros H. pose proof H as [[C B Fi Hot Wi Th] HV]. unfold read_begin.
  destruct (negb (canOpt (hdl s)) || negb (enableJIT o)); [done|].
  destruct (doOpt (hdl s)) eqn:Ed; cbn [andb negb].
  - destruct (0 <? optFinishIdx (hdl s)); [|done].
    destruct (_ || _); [done|]. destruct (_ && _); [|done]. cbn [fst]. unfold notify_one. cbn.
    destruct (thread s) eqn:Et; unfold thread_range in Th; rewrite Et in Th;
      (split; [split; cbn; try done; try congruence; unfold thread_range; cbn; by rewrite ?Et|]);
      intros Hfw; destruct (HV Hfw) as [Win Va]; unfold thread_values in Va; rewrite Et in Va;
      (split; cbn; [exact Win|unfold thread_values; cbn; by rewrite ?Et]).
  - cbn [fst]. specialize (Hot eq_refl). unfold thread_range in Th. rewrite Hot in Th. unfold count_read. cbn.
    destruct (_ && _); (split; [split; cbn; try done; unfold thread_range; cbn; by rewrite ?Hot|]);
      intros Hfw; destruct (HV Hfw) as [Win Va]; (split; cbn; [exact Win|unfold thread_values; cbn; by rewrite ?Hot]).
Qed.

Lemma cursor_inv s i : 0 <= i <= cursor_maxIndex s -> (forward = true -> cursor_index s <= i) -> jit_inv s -> jit_inv (set_cursor i s).
Proof.
  intros Hi Hfw [[C B Fi Hot Wi Th] HV]. split; [by split|]. intros Hf. specialize (Hfw Hf). destruct (HV Hf) as [Win Va].
  split; cbn; [intros j Hj Hc; apply Win; lia|]. unfold thread_values, no_gap in *. cbn.
  destruct (thread s); try done; try lia.
  - destruct Va as [V1 V2]. split; [|done]. intros j Hj1 Hj2. specialize (V1 j Hj1 Hj2). lia.
  - destruct Va as [V1 V2]. split; [|done]. intros j Hj1 Hj2. specialize (V1 j Hj1 Hj2). lia.
  - intros j Hj1 Hj2. specialize (Va j Hj1 Hj2). lia.
Qed.

Lemma jstep_inv s s' : fits s -> jit_inv s -> jstep s s' -> jit_inv s' /\ fits s'.
Proof.
  intros Hf H Hs. destruct Hs as [s s' E|s Ht|o s|s i Hi Hfw|s n|s].
  - by apply (opt_step_inv s).
  - split; [|done]. destruct H as [[C B Fi Hot Wi Th] HV]. unfold thread_range in Th. rewrite Ht in Th.
    split; [split; cbn; try done; intros Hd; specialize (Hot Hd); congruence|]. intros Hfw. destruct (HV Hfw) as [Win _]. by split.
  - split; [by apply read_begin_inv|]. unfold fits in *. unfold read_begin, count_read, notify_one.
    repeat case_match; done.
  - split; [|done]. by apply cursor_inv.
  - split; [|done]. destruct H as [[] HV]. split; [by split|]. intros Hfw. by destruct (HV Hfw).
  - split; [|done]. destruct H as [[] HV]. split; [by split|]. intros Hfw. by destruct (HV Hfw).
Qed.

(** A simulation starts with a new handle and no thread. *)
Definition jit_start (s : Jit) : Prop :=
  exists n, hdl s = new_handle n /\ thread s = OptNone /\ 0 <= cursor_index s <= cursor_maxIndex s.

Lemma start_inv s : jit_start s -> jit_inv s.
Proof.
  intros (n & Hh & Ht & Hc). split; [|intros _]; (split; rewrite ?Hh, ?Ht; cbn; try done; try lia).
  - unfold thread_range. by rewrite Ht, Hh.
  - unfold thread_values. by rewrite Ht.
Qed.

Lemma jsteps_inv s s' : fits s -> jit_inv s -> rtc jstep s s' -> jit_inv s' /\ fits s'.
Proof.
  intros Hf H Hr. induction Hr as [|s1 s2 s3 Hs _ IH]; [done|].
  destruct (jstep_inv s1 s2 Hf H Hs) as [H2 Hf2]. by apply IH.
Qed.

(** A read that no thread step comes between indexes the window in range, and finds
    the value at the cursor as long as the cursor only moved ahead. *)
Lemma read_fast o s s' local :
  fits s -> jit_inv s -> read_begin o s = (s', PFast local) ->
  exists v, read_end local s' = Some v /\ (forward = true -> int_at (cursor_index s) = Some v).
Proof.
  unfold fits. intros Hfs [[C B Fi Hot Wi Th] HV]. unfold read_begin.
  destruct (_ || _); [done|]. destruct (_ && _); [|by destruct (negb _)].
  destruct (Z.ltb_spec (cursor_index s) (optBaseIdx (hdl s))) as [|Hb]; cbn [orb]; [done|].
  destruct (Z.leb_spec (optFinishIdx (hdl s)) (cursor_index s)) as [|Hfi]; [done|]. specialize (Wi ltac:(lia)).
  intros [= <- <-]. rewrite (u64_small (_ - _)) by lia.
  destruct (lookup_lt_is_Some_2 (optValueVec (hdl s)) (Z.to_nat (cursor_index s - optBaseIdx (hdl s)))) as [v Hv]; [lia|].
  exists v. split.
  - unfold read_end. revert Hv. unfold notify_one. by destruct (_ && _); cbn; [destruct (thread s)|].
  - intros Hfw. destruct (HV Hfw) as [Win _]. destruct (Win (cursor_index s)) as (x & Hx & Hcell); [lia|lia|]. congruence.
Qed.

(** The thread writes inside the window only. *)
Lemma opt_step_in_range s : fits s -> jit_inv s -> opt_step opts int_at s <> OUndefined.
Proof.
  intros Hfs [[C B Fi Hot Wi Th] _]. unfold fits in Hfs.
  unfold opt_step, thread_range, filling, span in *. destruct (thread s); repeat case_match; try done.
  destruct Th as (-> & T1 & T2 & T3). intros _.
  match goal with H : (u64 _ <? _) = false |- _ => rename H into Hlt end. apply Z.ltb_ge in Hlt. rewrite u64_small in Hlt by lia. lia.
Qed.

(** A read from the prefetched window.  However the prefetching threads, the
    cursor and reads interleave: a read that is not itself interrupted by a thread
    step either takes the slow path or finds a value in the window, in range - the
    integer value of the signal at the cursor, when the cursor only moves ahead -
    and the thread never writes outside the window. *)
Theorem prefetched_read_sound o s0 s :
  jit_start s0 -> fits s0 -> rtc jstep s0 s ->
  match read_begin o s with
  | (s', PFast local) => exists v, read_end local s' = Some v /\ (forward = true -> int_at (cursor_index s) = Some v)
  | (_, PSlow) => True
  end /\ opt_step opts int_at s <> OUndefined.
Proof.
  intros Hs Hf Hr. destruct (jsteps_inv s0 s Hf (start_inv s0 Hs) Hr) as [H Hfs]. split.
  - destruct (read_begin o s) as [s' [|local]] eqn:E; [done|]. by apply (read_fast o).
  - by apply opt_step_in_range.
Qed.

End Sound.

(** ** Formats *)

Lemma to_chars_hex_value n v : 0 <= v < 16 ^ Z.of_nat (S n) -> hex_value (to_chars_hex n v) = v.
Proof.
  assert (forall d, 0 <= d < 16 -> hex_value [nib_digit d] = d) as Hd.
  { intros d Hd. unfold hex_value. cbn. by rewrite (proj1 (nib_digit_ok d Hd)). }
  revert v. induction n as [|n IH]; intros v Hv; cbn [to_chars_hex]; [by apply Hd|].
  destruct (Z.ltb_spec v 16) as [|Hge]; [by apply Hd; lia|].
  unfold hex_value in *. rewrite fold_left_app. cbn [fold_left].
  pose proof (Z.mod_pos_bound v 16 eq_refl) as Hm. pose proof (Z.div_mod v 16 ltac:(done)) as Hdm.
  rewrite (proj1 (nib_digit_ok (v mod 16) Hm)). cbn [default]. rewrite IH; [unfold id; lia|].
  split; [apply Z.div_pos; lia|]. apply Z.div_lt_upper_bound; [lia|].
  replace (16 * 16 ^ Z.of_nat (S n)) with (16 ^ Z.of_nat (S (S n))) by (rewrite (Nat2Z.inj_succ (S n)), Z.pow_succ_r; lia). lia.
Qed.

(** What a prefetched value [v] of [size] bits reads as: as without prefetching,
    but hexadecimal text has no leading zeros. *)
Definition jit_reads_as (fmt : Z) (size : nat) (v : Z) (val : s_vpi_value) : Prop :=
  if fmt =? vpiHexStrVal then exists s, val = VStr fmt s /\ hex_value (as_bytes s) = v
  else reads_as fmt size v val.

Lemma jit_value_reads fmt size v :
  supported fmt -> (0 < size <= 32)%nat -> 0 <= v < 2 ^ Z.of_nat size ->
  exists val, jit_value fmt size v = Some val /\ jit_reads_as fmt size v val.
Proof.
  intros Hf Hs Hv. assert (v < 2 ^ 32) as Hv32.
  { eapply Z.lt_le_trans; [apply Hv|]. apply Z.pow_le_mono_r; lia. }
  unfold supported in Hf. unfold jit_value, jit_reads_as.
  repeat (apply elem_of_cons in Hf as [->|Hf]; [|]); [..|by apply elem_of_nil in Hf]; cbn -[of_bytes as_bytes i32 reads_as].
  - eexists. split; [done|]. split; [done|]. unfold cover_with_32, div_ceil. split_and!.
    + cbn [length]. apply Nat.div_unique with (r := (size - 1)%nat); lia.
    + by constructor.
    + unfold vec_value. cbn [foldr aval]. rewrite u32_i32. unfold u32. rewrite wrap_small by (unfold in_width; lia). lia.
  - eexists. split; [done|]. done.
  - eexists. split; [done|]. eexists. split; [done|]. unfold uint32_to_hex_str. rewrite as_bytes_of_bytes.
    apply to_chars_hex_value. change (16 ^ Z.of_nat 9) with (2 ^ 36). lia.
  - eexists. split; [done|]. split; [done|]. right; left. by rewrite as_bytes_of_bytes.
  - eexists. split; [done|]. split; [done|]. right; right. split; [done|]. unfold uint32_to_dec_str. by rewrite Z.mod_small by lia.
Qed.

Section HotReads.
Context {wellen : Wellen} {serde : Serde} {allocator : Allocator}.

(** What the thread prefetches for signal handle [a]. *)
Definition int_of (l : Live) (a idx : Z) : option Z :=
  match wellen_get_int_value a idx (world l) with Ret v _ => Some v | _ => None end.

Hypothesis values : bit_vec_ok.

Lemma int_of_two_state l a r info idx off bv :
  l_boxes l !! a = Some (SignalBox r) -> l_sigs l !! r = Some info ->
  get_offset (signal info) (u32 idx) = Some off -> get_value_at (signal info) off 0 = BitVec bv ->
  bv_states bv = Two -> bv_width bv <= 32 ->
  exists data, bv_be_bytes bv = Some data /\ int_of l a idx = Some (be_value data) /\ 0 <= be_value data < 2 ^ bv_width bv.
Proof.
  intros Ha Hr Ho Hv Htwo Hw. destruct (values bv) as (Hpos & _ & H2 & _). destruct (H2 Htwo) as (data & Hd & Hlen & Hlt & _).
  exists data. split; [done|]. pose proof (be_value_bound data) as Hb. split; [|lia].
  assert (data <> []) as Hne.
  { intros ->. symmetry in Hlen. unfold div_ceil in Hlen. apply Nat.div_small_iff in Hlen; lia. }
  unfold int_of, wellen_get_int_value. rewrite (bind_Ret _ _ _ _ _ (signal_info_run _ _ _ _ Ha Hr)), Ho, Hv.
  rewrite bool_decide_true by done. rewrite Hd. cbn. rewrite last_word_mod by done.
  assert (be_value data < 2 ^ 32) by (eapply Z.lt_le_trans; [apply Hlt|]; apply Z.pow_le_mono_r; lia).
  rewrite Z.mod_small, u32_i32 by lia. unfold u32. by rewrite wrap_small by (unfold in_width; lia).
Qed.

(** Hot prefetch does not change what a read of a recorded two-state value
    says.  Whenever a read of a signal of at most 32 bits is served from the
    window - after any interleaving of threads, reads and forward moves of the
    cursor - it is the number the waveform records at the cursor, in every
    format, as the slow path reads it; only hexadecimal text loses its leading
    zeros. *)
Theorem hot_read_agrees opts l a r info s0 s s' local fmt off bv :
  l_boxes l !! a = Some (SignalBox r) -> l_sigs l !! r = Some info -> supported fmt ->
  jit_start s0 -> 0 <= compileWindowSize opts -> fits opts s0 -> rtc (jstep opts (int_of l a) true) s0 s ->
  read_begin opts s = (s', PFast local) ->
  get_offset (signal info) (u32 (cursor_index s)) = Some off -> get_value_at (signal info) off 0 = BitVec bv ->
  bv_states bv = Two -> bv_width bv <= 32 ->
  exists data fast slow l', bv_be_bytes bv = Some data /\
    (read_end local s' ≫= jit_value fmt (Z.to_nat (bv_width bv))) = Some fast /\
    jit_reads_as fmt (Z.to_nat (bv_width bv)) (be_value data) fast /\
    wellen_vpi_get_value_from_index a (cursor_index s) fmt (world l) = Ret slow (world l') /\
    reads_as fmt (Z.to_nat (bv_width bv)) (be_value data) slow.
Proof.
  intros Ha Hr Hf Hs HW Hfit Hsteps Eb Ho Hv Htwo Hw.
  destruct (jsteps_inv opts (int_of l a) true HW s0 s Hfit (start_inv opts (int_of l a) true s0 Hs) Hsteps) as [H Hfs].
  destruct (int_of_two_state l a r info (cursor_index s) off bv) as (data & Hd & Hi & Hb); try done.
  destruct (values bv) as (Hpos & _).
  destruct (jit_value_reads fmt (Z.to_nat (bv_width bv)) (be_value data)) as (fast & Ej & Hj); [done|lia|by rewrite Z2Nat.id by lia|].
  pose proof (value_facts values l a r info (cursor_index s) fmt Ha Hr Hf) as Hs'. unfold value_spec in Hs'. rewrite Ho, Hv in Hs'.
  destruct Hs' as (slow & l' & El & _ & Hsl). rewrite decide_True in Hsl by done. destruct Hsl as (data' & Hd' & Hsl).
  rewrite Hd in Hd'. injection Hd' as <-.
  exists data, fast, slow, l'. split_and!; try done.
  assert (read_end local s' = Some (be_value data)) as ->; [|done].
  pose proof (read_fast opts (int_of l a) true HW opts s s' local) as Hfast. destruct Hfast as (v & -> & Hx); [done|done|done|]. specialize (Hx eq_refl). congruence.
Qed.

End HotReads.

(** ** Schedules

    What the test bench and the thread do, one after the other. *)

Inductive action := ARead | AOpt (n : nat) | ACursor (i : Z).

Section Schedule.
Context (o : JitOptions) (int_at : Z -> option Z).

(** Up to [n] steps of the thread. *)
Fixpoint opt_steps (n : nat) (s : Jit) : option Jit :=
  match n with
  | O => Some s
  | S n => match opt_step o int_at s with OMoved s' => opt_steps n s' | OBlocked => Some s | _ => None end
  end.

Definition act (a : action) (s : Jit) : option Jit :=
  match a with
  | ARead => Some (read_begin o s).1
  | AOpt n => opt_steps n s
  | ACursor i => if (0 <=? i) && (cursor_index s <=? i) && (i <=? cursor_maxIndex s) then Some (set_cursor i s) else None
  end.

Fixpoint run (l : list action) (s : Jit) : option Jit :=
  match l with [] => Some s | a :: l => match act a s with Some s' => run l s' | None => None end end.

Definition reach (l : list action) (s : Jit) : Jit := default s (run l s).

Lemma opt_steps_rtc n s s' : opt_steps n s = Some s' -> rtc (jstep o int_at true) s s'.
Proof.
  revert s. induction n as [|n IH]; intros s; cbn; [by intros [= <-]|].
  destruct (opt_step o int_at s) as [s1| | |] eqn:E; try done; [|by intros [= <-]].
  intros H. eapply rtc_l; [by apply js_opt|by apply IH].
Qed.

Lemma run_rtc l s s' : run l s = Some s' -> rtc (jstep o int_at true) s s'.
Proof.
  revert s. induction l as [|a l IH]; intros s; cbn; [by intros [= <-]|].
  destruct (act a s) as [s1|] eqn:E; [|done]. intros H. transitivity s1; [|by apply IH].
  destruct a as [|n|i]; cbn in E.
  - injection E as <-. apply rtc_once, js_read.
  - by apply (opt_steps_rtc n).
  - destruct (Z.leb_spec 0 i), (Z.leb_spec (cursor_index s) i), (Z.leb_spec i (cursor_maxIndex s)); try done. injection E as <-.
    apply rtc_once, js_cursor; [lia|done].
Qed.

Lemma reach_rtc l s : is_Some (run l s) -> rtc (jstep o int_at true) s (reach l s).
Proof. intros [s' E]. unfold reach. rewrite E. by apply (run_rtc l). Qed.

End Schedule.

(* ------------------------------------------------------------------ *)
(** ** Races

    What the forward-moving, uninterrupted reads above leave out, on small
    windows.  The value at index [i] is [100 + i]. *)

Module Races.

Definition at_index (i : Z) : option Z := Some (100 + i).
Definition options (W r : Z) : JitOptions := mkJitOptions true 900 1 W r.
Definition fresh (maxIndex : Z) : Jit := mkJit (new_handle 8) OptNone 0 maxIndex 0 false.

(** A read that is interrupted between the bounds check and the access can index
    past the end of the window: the read itself asked for the continuation that
    slides the window and shrinks it near the end of the waveform. *)
Theorem interrupted_read_out_of_range :
  exists s s1 local s2, rtc (jstep (options 2 2) at_index true) (fresh 7) s /\
    read_begin (options 2 2) s = (s1, PFast local) /\ opt_steps (options 2 2) at_index 6 s1 = Some s2 /\ read_end local s2 = None.
Proof.
  exists (reach (options 2 2) at_index [ARead; AOpt 30; ARead; AOpt 30; ACursor 3] (fresh 7)). do 3 eexists.
  split; [apply reach_rtc; vm_compute; by eexists|]. repeat (split; [vm_compute; reflexivity|]). vm_compute. reflexivity.
Qed.

(** ... or find the value of another index, when the recompile window is larger
    than the compile window. *)
Theorem interrupted_read_wrong_value :
  exists s s1 local s2, rtc (jstep (options 2 4) at_index true) (fresh 14) s /\ cursor_index s = 5 /\
    read_begin (options 2 4) s = (s1, PFast local) /\ opt_steps (options 2 4) at_index 9 s1 = Some s2 /\ read_end local s2 = at_index 9.
Proof.
  exists (reach (options 2 4) at_index [ACursor 4; ARead; AOpt 30; ARead; AOpt 30; ACursor 5] (fresh 14)). do 3 eexists.
  split; [apply reach_rtc; vm_compute; by eexists|]. repeat (split; [vm_compute; reflexivity|]). vm_compute. reflexivity.
Qed.

(** When the cursor jumps ahead before the continuation reads it, the continuation
    leaves out the indices in between but reports them as prefetched: after a jump
    back ([wave_vpi_ctrl_set_cursor_index]) a read finds a zero there. *)
Theorem skipped_index_reads_zero :
  exists s, rtc (jstep (options 4 4) at_index true) (fresh 6) s /\
    exists s1 local, read_begin (options 4 4) (set_cursor 4 s) = (s1, PFast local) /\
      read_end local s1 = Some 0 /\ at_index 4 = Some 104.
Proof.
  exists (reach (options 4 4) at_index [ARead; AOpt 30; ARead; ACursor 5; AOpt 30] (fresh 6)).
  split; [apply reach_rtc; vm_compute; by eexists|]. do 2 eexists.
  repeat (split; [vm_compute; reflexivity|]). vm_compute. reflexivity.
Qed.

(** The reader sets [continueOpt] and notifies without the mutex: between the
    thread's check and its sleep the notification is lost, and since the flag stays
    set no later read notifies again. *)
Theorem lost_wakeup :
  exists s, rtc (jstep (options 2 2) at_index true) (fresh 7) s /\ thread s = OptAsleep /\ continueOpt (hdl s) = true /\
    forall l s', run (options 2 2) at_index l s = Some s' -> thread s' = OptAsleep.
Proof.
  exists (reach (options 2 2) at_index [ARead; AOpt 9; ARead; AOpt 1] (fresh 7)). set (s := reach _ _ _ _).
  split; [apply reach_rtc; vm_compute; by eexists|].
  assert (thread s = OptAsleep) as Ht by (vm_compute; reflexivity).
  assert (continueOpt (hdl s) = true) as Hc by (vm_compute; reflexivity).
  assert (doOpt (hdl s) = true) as Hd by (vm_compute; reflexivity).
  split; [done|]. split; [done|]. clearbody s. intros l. revert s Ht Hc Hd.
  induction l as [|a l IH]; intros s Ht Hc Hd s'; cbn; [by intros [= <-]|].
  destruct (act (options 2 2) at_index a s) as [s1|] eqn:E; [|done]. intros Hrun. apply (IH s1); [..|done]; destruct a as [|n|i]; cbn in E.
  all: try (destruct n; cbn in E; unfold opt_step in E; rewrite ?Ht in E; by injection E as <-).
  all: try (destruct (_ && _) in E; [by injection E as <-|done]).
  all: injection E as <-; unfold read_begin; rewrite Hc, Hd; cbn [negb andb]; repeat case_match; done.
Qed.

Lemma prefetched_read_sound_witness :
  let s := reach (options 2 2) at_index [ARead; AOpt 30; ARead; AOpt 3; ACursor 1] (fresh 7) in
  exists v, read_end 1 (read_begin (options 2 2) s).1 = Some v /\ at_index 1 = Some v.
Proof.
  set (s := reach _ _ _ _).
  destruct (prefetched_read_sound (options 2 2) at_index true ltac:(done) (options 2 2) (fresh 7) s) as [H _].
  - by exists 8%nat.
  - done.
  - apply reach_rtc. vm_compute. by eexists.
  - replace (read_begin (options 2 2) s) with ((read_begin (options 2 2) s).1, PFast 1) in H by (vm_compute; reflexivity).
    destruct H as (v & E & Hv). exists v. split; [exact E|exact (Hv eq_refl)].
Defined.

End Races.

(** The clock of the small waveform, prefetched. *)
Module HotDemo.
Import Demo.

Definition demo_clk : Live := after (CByName "top.clk") demo_live.
Definition clk_info : SignalInfo := mkInfo (1%positive : @Signal demo) Wire.
Definition hot : Jit :=
  reach (Races.options 2 2) (int_of demo_clk 1) [ARead; AOpt 30; ACursor 1] (mkJit (new_handle 1) OptNone 0 2 0 false).

Lemma hot_read_agrees_witness :
  exists fast slow l', (read_end 1 (read_begin (Races.options 2 2) hot).1 ≫= jit_value vpiHexStrVal 1) = Some fast /\
    jit_reads_as vpiHexStrVal 1 1 fast /\
    wellen_vpi_get_value_from_index 1 1 vpiHexStrVal (world demo_clk) = Ret slow (world l') /\ reads_as vpiHexStrVal 1 1 slow.
Proof.
  destruct (hot_read_agrees (cr_values demo_crates) (Races.options 2 2) demo_clk 1 1%positive clk_info
    (mkJit (new_handle 1) OptNone 0 2 0 false) hot (read_begin (Races.options 2 2) hot).1 1 vpiHexStrVal tt BClk)
    as (data & fast & slow & l' & Hd & H1 & H2 & H3 & H4).
  - by vm_compute.
  - by vm_compute.
  - unfold supported. set_solver.
  - by exists 1%nat.
  - done.
  - done.
  - apply reach_rtc. vm_compute. by eexists.
  - vm_compute. reflexivity.
  - vm_compute. reflexivity.
  - reflexivity.
  - reflexivity.
  - done.
  - exists fast, slow, l'. injection Hd as <-. split; [exact H1|]. split; [exact H2|]. split; [exact H3|exact H4].
Defined.

End HotDemo.
