(* ===== verification/WaveKernel.v ===== *)
(** * The waveform kernel: the evaluation loop

    [src/wave_vpi/src/wave_vpi.cpp], [vpi_compat_wellen.cpp] and [vpi_compat.h]:
    the queues of callbacks, [vpi_register_cb] and [vpi_remove_cb], and the loop
    that walks the time indices of the waveform and calls what is due.  The code a
    callback runs is the class [Client]: it sees the cursor and answers with the
    VPI calls it makes, in order, and its new state; these calls only touch the
    [willAppend] and [willRemove] queues, which the loops around a callback do not
    read.  Values and times come through the class [WaveSource], which [wellen_impl]
    implements ([WaveBinding.v]). *)

From S2P Require Import Prelude Bytes State Backend.
#[local] Open Scope Z_scope.

(** ** State *)

(** A stored [s_cb_data]; [e_id] identifies the registration: the address that
    [vpi_register_cb] returns for a value change, the copy it keeps otherwise. *)
Record Entry := mkEntry { e_id : Z; e_cb : s_cb_data }.

Record ValueCbInfo := mkValueCb { cbData : Entry; cb_handle : Z; valueStr : string }.

Record Kernel := mkKernel {
  k_index : Z;
  k_maxIndex : Z;
  k_maxTime : Z;
  k_terminate : bool;
  startOfSimulationCb : option Entry;
  endOfSimulationCb : option Entry;
  end_called : bool;
  timeCbMap : gmap Z (list Entry);
  willAppendTimeCbQueue : list (Z * Entry);
  nextSimTimeQueue : list Entry;
  willAppendNextSimTimeQueue : list Entry;
  valueCbMap : gmap Z ValueCbInfo;
  willAppendValueCb : list (Z * ValueCbInfo);
  willRemoveValueCb : list Z;
  vpiHandleAllcator : Z;
  handle_cells : gmap Z Z
}.

(** Field updates. *)
Definition set_k_index (v : Z) (k : Kernel) : Kernel :=
  mkKernel v (k_maxIndex k) (k_maxTime k) (k_terminate k) (startOfSimulationCb k) (endOfSimulationCb k) (end_called k) (timeCbMap k) (willAppendTimeCbQueue k) (nextSimTimeQueue k) (willAppendNextSimTimeQueue k) (valueCbMap k) (willAppendValueCb k) (willRemoveValueCb k) (vpiHandleAllcator k) (handle_cells k).
Definition set_startOfSimulationCb (v : option Entry) (k : Kernel) : Kernel :=
  mkKernel (k_index k) (k_maxIndex k) (k_maxTime k) (k_terminate k) v (endOfSimulationCb k) (end_called k) (timeCbMap k) (willAppendTimeCbQueue k) (nextSimTimeQueue k) (willAppendNextSimTimeQueue k) (valueCbMap k) (willAppendValueCb k) (willRemoveValueCb k) (vpiHandleAllcator k) (handle_cells k).
Definition set_endOfSimulationCb (v : option Entry) (k : Kernel) : Kernel :=
  mkKernel (k_index k) (k_maxIndex k) (k_maxTime k) (k_terminate k) (startOfSimulationCb k) v (end_called k) (timeCbMap k) (willAppendTimeCbQueue k) (nextSimTimeQueue k) (willAppendNextSimTimeQueue k) (valueCbMap k) (willAppendValueCb k) (willRemoveValueCb k) (vpiHandleAllcator k) (handle_cells k).
Definition set_end_called (v : bool) (k : Kernel) : Kernel :=
  mkKernel (k_index k) (k_maxIndex k) (k_maxTime k) (k_terminate k) (startOfSimulationCb k) (endOfSimulationCb k) v (timeCbMap k) (willAppendTimeCbQueue k) (nextSimTimeQueue k) (willAppendNextSimTimeQueue k) (valueCbMap k) (willAppendValueCb k) (willRemoveValueCb k) (vpiHandleAllcator k) (handle_cells k).
Definition set_timeCbMap (v : gmap Z (list Entry)) (k : Kernel) : Kernel :=
  mkKernel (k_index k) (k_maxIndex k) (k_maxTime k) (k_terminate k) (startOfSimulationCb k) (endOfSimulationCb k) (end_called k) v (willAppendTimeCbQueue k) (nextSimTimeQueue k) (willAppendNextSimTimeQueue k) (valueCbMap k) (willAppendValueCb k) (willRemoveValueCb k) (vpiHandleAllcator k) (handle_cells k).
Definition set_willAppendTimeCbQueue (v : list (Z * Entry)) (k : Kernel) : Kernel :=
  mkKernel (k_index k) (k_maxIndex k) (k_maxTime k) (k_terminate k) (startOfSimulationCb k) (endOfSimulationCb k) (end_called k) (timeCbMap k) v (nextSimTimeQueue k) (willAppendNextSimTimeQueue k) (valueCbMap k) (willAppendValueCb k) (willRemoveValueCb k) (vpiHandleAllcator k) (handle_cells k).
Definition set_nextSimTimeQueue (v : list Entry) (k : Kernel) : Kernel :=
  mkKernel (k_index k) (k_maxIndex k) (k_maxTime k) (k_terminate k) (startOfSimulationCb k) (endOfSimulationCb k) (end_called k) (timeCbMap k) (willAppendTimeCbQueue k) v (willAppendNextSimTimeQueue k) (valueCbMap k) (willAppendValueCb k) (willRemoveValueCb k) (vpiHandleAllcator k) (handle_cells k).
Definition set_willAppendNextSimTimeQueue (v : list Entry) (k : Kernel) : Kernel :=
  mkKernel (k_index k) (k_maxIndex k) (k_maxTime k) (k_terminate k) (startOfSimulationCb k) (endOfSimulationCb k) (end_called k) (timeCbMap k) (willAppendTimeCbQueue k) (nextSimTimeQueue k) v (valueCbMap k) (willAppendValueCb k) (willRemoveValueCb k) (vpiHandleAllcator k) (handle_cells k).
Definition set_valueCbMap (v : gmap Z ValueCbInfo) (k : Kernel) : Kernel :=
  mkKernel (k_index k) (k_maxIndex k) (k_maxTime k) (k_terminate k) (startOfSimulationCb k) (endOfSimulationCb k) (end_called k) (timeCbMap k) (willAppendTimeCbQueue k) (nextSimTimeQueue k) (willAppendNextSimTimeQueue k) v (willAppendValueCb k) (willRemoveValueCb k) (vpiHandleAllcator k) (handle_cells k).
Definition set_willAppendValueCb (v : list (Z * ValueCbInfo)) (k : Kernel) : Kernel :=
  mkKernel (k_index k) (k_maxIndex k) (k_maxTime k) (k_terminate k) (startOfSimulationCb k) (endOfSimulationCb k) (end_called k) (timeCbMap k) (willAppendTimeCbQueue k) (nextSimTimeQueue k) (willAppendNextSimTimeQueue k) (valueCbMap k) v (willRemoveValueCb k) (vpiHandleAllcator k) (handle_cells k).
Definition set_willRemoveValueCb (v : list Z) (k : Kernel) : Kernel :=
  mkKernel (k_index k) (k_maxIndex k) (k_maxTime k) (k_terminate k) (startOfSimulationCb k) (endOfSimulationCb k) (end_called k) (timeCbMap k) (willAppendTimeCbQueue k) (nextSimTimeQueue k) (willAppendNextSimTimeQueue k) (valueCbMap k) (willAppendValueCb k) v (vpiHandleAllcator k) (handle_cells k).
Definition set_vpiHandleAllcator (v : Z) (k : Kernel) : Kernel :=
  mkKernel (k_index k) (k_maxIndex k) (k_maxTime k) (k_terminate k) (startOfSimulationCb k) (endOfSimulationCb k) (end_called k) (timeCbMap k) (willAppendTimeCbQueue k) (nextSimTimeQueue k) (willAppendNextSimTimeQueue k) (valueCbMap k) (willAppendValueCb k) (willRemoveValueCb k) v (handle_cells k).
Definition set_handle_cells (v : gmap Z Z) (k : Kernel) : Kernel :=
  mkKernel (k_index k) (k_maxIndex k) (k_maxTime k) (k_terminate k) (startOfSimulationCb k) (endOfSimulationCb k) (end_called k) (timeCbMap k) (willAppendTimeCbQueue k) (nextSimTimeQueue k) (willAppendNextSimTimeQueue k) (valueCbMap k) (willAppendValueCb k) (willRemoveValueCb k) (vpiHandleAllcator k) v.

(** The state of the process: the kernel and the code behind the callbacks. *)
Record KState (S : Type) := mkKState { kern : Kernel; client : S }.
Arguments mkKState {S} kern client.
Arguments kern {S} k.
Arguments client {S} k.

(** The VPI calls of a callback that reach the kernel: a registration with the
    address its handle gets, a removal, the freeing of a handle, a write, and
    [wave_vpi_ctrl_set_cursor_index]. *)
Inductive KCall :=
| KRegister (id : Z) (cb : s_cb_data)
| KRemove (id : Z)
| KFree (h : Z)
| KPut
| KSetCursor (i : Z).

(** [cb_call index cb integer]: [None] when the callback aborts the process. *)
Class Client (S : Type) := {
  cb_call : Z -> Entry -> Z -> S -> option (list KCall * S)
}.

(** [wellen_get_value_str], [wellen_get_time_from_index] and
    [wellen_get_index_from_time]. *)
Class WaveSource := {
  value_str : Z -> Z -> string;
  time_at : Z -> Z;
  index_at : Z -> Z
}.

(** ** std::stoi

    The longest prefix of decimal digits; none, or a number above [INT_MAX], throws
    (a bit string has no blanks and no sign). *)
Fixpoint digits_prefix (l : list byte) : list byte :=
  match l with
  | [] => []
  | b :: l => if (0x30 <=? byteZ b) && (byteZ b <=? 0x39) then b :: digits_prefix l else []
  end.

Definition decimal_value (l : list byte) : Z := fold_left (fun a b => 10 * a + (byteZ b - 0x30)) l 0.

Definition stoi (s : string) : option Z :=
  let ds := digits_prefix (as_bytes s) in
  if bool_decide (ds = []) then None
  else if 2 ^ 31 <=? decimal_value ds then None
  else Some (decimal_value ds).

Section Kernel.
Context {S : Type} `{!Client S} `{!WaveSource} `{!Containers}.

Definition KM (A : Type) : Type := M (KState S) A.

Definition k_get {A} (f : Kernel -> A) : KM A := gets (fun st => f (kern st)).
Definition k_mod (f : Kernel -> Kernel) : KM unit := modify (fun st => mkKState (f (kern st)) (client st)).

(** [VL_FATAL]. *)
Definition vl_fatal (cond : bool) (msg : string) : KM unit := assert_ cond msg.

(** ** Registration and removal *)

Definition target_time (cb : s_cb_data) (index : Z) : Z :=
  let time := match cb_time cb with Some (_, high, low) => Z.lor (Z.shiftl high 32) low | None => 0 end in
  u64 (time_at index + time).

(** The [switch].  The library sets [cb_rtn] in every request, asks for [vpiIntVal]
    in a value change and passes no value otherwise, so these checks pass. *)
Definition store_cb (id : Z) (cb : s_cb_data) : KM unit :=
  let e := mkEntry id cb in
  if reason cb =? cbStartOfSimulation then
    let! c := k_get startOfSimulationCb in
    vl_fatal (bool_decide (c = None)) "startOfSimulationCb is not nullptr" ;;
    k_mod (set_startOfSimulationCb (Some e))
  else if reason cb =? cbEndOfSimulation then
    let! c := k_get endOfSimulationCb in
    vl_fatal (bool_decide (c = None)) "endOfSimulationCb is not nullptr" ;;
    k_mod (set_endOfSimulationCb (Some e))
  else if reason cb =? cbValueChange then
    vl_fatal (negb (obj cb =? 0)) "cb_data_p->obj is nullptr" ;;
    vl_fatal (match cb_time cb with Some (t, _, _) => t =? vpiSuppressTime | None => false end)
      "cb_data_p->time is nullptr or cb_data_p->time->type is not vpiSuppressTime" ;;
    k_mod (fun k =>
      let raw := vpiHandleAllcator k in
      let info := mkValueCb e (obj cb) (value_str (obj cb) (k_index k)) in
      set_handle_cells (<[id := raw]> (handle_cells k))
        (set_vpiHandleAllcator (u32 (raw + 1))
          (set_willAppendValueCb (willAppendValueCb k ++ [(raw, info)]) k)))
  else if reason cb =? cbAfterDelay then
    vl_fatal (match cb_time cb with Some (t, _, _) => t =? vpiSimTime | None => false end)
      "cb_data_p->time is nullptr or cb_data_p->time->type is not vpiSimTime" ;;
    k_mod (fun k =>
      let targetTime := target_time cb (k_index k) in
      if k_maxTime k <? targetTime then k
      else set_willAppendTimeCbQueue (willAppendTimeCbQueue k ++ [(index_at targetTime, e)]) k)
  else if reason cb =? cbNextSimTime then
    vl_fatal (obj cb =? 0) "cb_data_p->obj is not nullptr" ;;
    k_mod (fun k => set_willAppendNextSimTimeQueue (willAppendNextSimTimeQueue k ++ [e]) k)
  else vl_fatal false "TODO: cb reason".

(** Only a value change has a handle; the other reasons return a null one. *)
Definition vpi_register_cb (id : Z) (cb : s_cb_data) : KM Z :=
  store_cb id cb ;; ret (if reason cb =? cbValueChange then id else 0).

Definition vpi_remove_cb (id : Z) : KM unit :=
  vl_fatal (negb (id =? 0)) "cb_obj is nullptr" ;;
  let! c := k_get (fun k => handle_cells k !! id) in
  match c with
  | None => undefined "cb_obj is dangling"
  | Some raw =>
      k_mod (fun k =>
        let k := if bool_decide (is_Some (valueCbMap k !! raw))
                 then set_willRemoveValueCb (willRemoveValueCb k ++ [raw]) k else k in
        set_handle_cells (delete id (handle_cells k)) k)
  end.

(** Also [vpi_release_handle]; what follows the check is dead code. *)
Definition vpi_free_object (h : Z) : KM unit := vl_fatal (h =? 0) "TODO: vpi_free_object is not supported for now".

Definition vpi_put_value : KM unit := vl_fatal false "Unsupported in wave_vpi, all signals are read-only!".

(** ** Calling a callback *)

Definition apply_call (c : KCall) : KM unit :=
  match c with
  | KRegister id cb => vpi_register_cb id cb ;; ret tt
  | KRemove id => vpi_remove_cb id
  | KFree h => vpi_free_object h
  | KPut => vpi_put_value
  | KSetCursor i => k_mod (set_k_index (u64 i))
  end.

(** [cb->cb_rtn(cb.get())]. *)
Definition call (e : Entry) (integer : Z) : KM unit := fun st =>
  match cb_call (k_index (kern st)) e integer (client st) with
  | None => Panic "the callback aborted" st
  | Some (calls, s) => for_each calls apply_call (mkKState (kern st) s)
  end.

Definition call_opt (e : option Entry) : KM unit := match e with Some e => call e 0 | None => ret tt end.

Definition startOfSimulation : KM unit := let! c := k_get startOfSimulationCb in call_opt c.

(** [finalize] is [wellen_finalize]. *)
Definition endOfSimulation : KM unit :=
  let! c := k_get endOfSimulationCb in
  let! called := k_get end_called in
  match c with
  | Some e => if negb called then k_mod (set_end_called true) ;; call e 0 else ret tt
  | None => ret tt
  end.

(** ** Between the phases *)

Definition appendTimeCb : KM unit := k_mod (fun k =>
  set_willAppendTimeCbQueue []
    (set_timeCbMap (fold_left (fun m '(i, e) => <[i := default [] (m !! i) ++ [e]]> m) (willAppendTimeCbQueue k) (timeCbMap k)) k)).

Definition appendValueCb : KM unit := k_mod (fun k =>
  set_willAppendValueCb []
    (set_valueCbMap (fold_left (fun m '(h, i) => <[h := i]> m) (willAppendValueCb k) (valueCbMap k)) k)).

Definition removeValueCb : KM unit := k_mod (fun k =>
  set_willRemoveValueCb []
    (set_valueCbMap (fold_left (fun m h => delete h m) (willRemoveValueCb k) (valueCbMap k)) k)).

Definition appendNextSimTimeCb : KM unit := k_mod (fun k =>
  set_willAppendNextSimTimeQueue [] (set_nextSimTimeQueue (nextSimTimeQueue k ++ willAppendNextSimTimeQueue k) k)).

(** ** The phases of an iteration *)

Definition time_phase : KM unit :=
  let! m := k_get timeCbMap in
  for_each (hash_iter m) (fun '(i, cbs) =>
    let! index := k_get k_index in
    when (i <=? index)
      (for_each cbs (fun e => call e 0) ;;
       k_mod (fun k => set_timeCbMap (delete i (timeCbMap k)) k))).

(** The entry is updated in the map; [std::stoi] may throw. *)
Definition check_value (h : Z) (info : ValueCbInfo) : KM unit :=
  let! new := k_get (fun k => value_str (cb_handle info) (k_index k)) in
  when (negb (bool_decide (new = valueStr info)))
    (k_mod (fun k => set_valueCbMap (<[h := mkValueCb (cbData info) (cb_handle info) new]> (valueCbMap k)) k) ;;
     match stoi new with
     | None => panic "terminate called after throwing an instance of 'std::invalid_argument'"
     | Some v => call (cbData info) v
     end).

Definition value_phase : KM unit :=
  let! m := k_get valueCbMap in
  for_each (hash_iter m) (fun '(h, info) => check_value h info).

Definition next_phase : KM unit :=
  let! q := k_get nextSimTimeQueue in
  for_each q (fun e => call e 0) ;;
  k_mod (set_nextSimTimeQueue []) ;;
  appendNextSimTimeCb.

Definition iteration : KM unit :=
  time_phase ;;
  appendTimeCb ;;
  value_phase ;;
  next_phase ;;
  removeValueCb ;;
  appendValueCb ;;
  k_mod (fun k => set_k_index (u64 (k_index k + 1)) k).

(** [while (cursor.index < cursor.maxIndex && !vpiControlTerminate)]. *)
Fixpoint evaluation_loop (fuel : nat) : KM unit :=
  let! go := k_get (fun k => (k_index k <? k_maxIndex k) && negb (k_terminate k)) in
  if go then
    match fuel with
    | O => out_of_fuel
    | Datatypes.S fuel => iteration ;; evaluation_loop fuel
    end
  else ret tt.

(** [boot]: the registrations of [vlog_startup_routines_bootstrap]. *)
Definition wave_vpi_loop (fuel : nat) (hierarchy_only : bool) (boot : list KCall) : KM unit :=
  for_each boot apply_call ;;
  startOfSimulation ;;
  appendTimeCb ;;
  appendNextSimTimeCb ;;
  appendValueCb ;;
  let! maxIndex := k_get k_maxIndex in
  if hierarchy_only || (maxIndex =? 0) then endOfSimulation
  else evaluation_loop fuel ;; endOfSimulation.

End Kernel.
