(* ===== verification/WaveKernelFacts.v ===== *)
(** * The waveform kernel: theorems on the evaluation loop

    What one iteration calls, and in which order; that a value-change callback is
    called exactly when the signal changed since the last index; that the loop
    ends.  [Logged] adds to any client a log of the calls it got and the VPI calls
    it answered with. *)

From S2P Require Import Prelude Bytes State Backend WaveKernel.
#[local] Open Scope Z_scope.

(** ** The log *)

Record LogItem := mkLog { l_index : Z; l_entry : Entry; l_integer : Z; l_calls : list KCall }.

Record Logged (S : Type) := mkLogged { inner : S; log : list LogItem }.
Arguments mkLogged {S} inner log.
Arguments inner {S} l.
Arguments log {S} l.

#[export] Instance logged_client {S} `{!Client S} : Client (Logged S) := {|
  cb_call i e z s :=
    match cb_call i e z (inner s) with
    | None => None
    | Some (calls, s') => Some (calls, mkLogged s' (log s ++ [mkLog i e z calls]))
    end
|}.

Definition call_of (x : LogItem) : Z * Entry * Z := (l_index x, l_entry x, l_integer x).
Definition calls_of (l : list LogItem) : list KCall := concat (map l_calls l).

Section Facts.
Context {S0 : Type} {client0 : Client S0} {source : WaveSource} {C0 : Containers}.
Abbreviation S := (Logged S0).

(** The client does not move the cursor. *)
Definition is_cursor (c : KCall) : Prop := match c with KSetCursor _ => True | _ => False end.
Definition still : Prop :=
  forall i e z (s : S0) calls s', cb_call i e z s = Some (calls, s') -> Forall (fun c => ~ is_cursor c) calls.

(** ** The registrations among some calls *)

Definition nexts (cs : list KCall) : list Entry :=
  omap (fun c => match c with
    | KRegister id cb => if reason cb =? cbNextSimTime then Some (mkEntry id cb) else None
    | _ => None
    end) cs.

Definition times (index maxTime : Z) (cs : list KCall) : list (Z * Entry) :=
  omap (fun c => match c with
    | KRegister id cb =>
        if reason cb =? cbAfterDelay then
          if maxTime <? target_time cb index then None else Some (index_at (target_time cb index), mkEntry id cb)
        else None
    | _ => None
    end) cs.

(** The strings of the value callbacks to be appended are those at the cursor. *)
Definition strings_at (i : Z) (l : list (Z * ValueCbInfo)) : Prop :=
  Forall (fun p => valueStr (snd p) = value_str (cb_handle (snd p)) i) l.

(** The books of the value-change callbacks: the number the next registration gets,
    the number behind each live handle, and the entries to be added to and the
    numbers to be taken from the map [held] after the callbacks ran. *)
Record Books := mkBooks {
  next_number : Z; number_of : gmap Z Z; added : list (Z * ValueCbInfo); removed : list Z
}.

Definition books_of (k : Kernel) : Books :=
  mkBooks (vpiHandleAllcator k) (handle_cells k) (willAppendValueCb k) (willRemoveValueCb k).

(** A registration opens an account under the next number, with the string of the
    signal at [index]; a removal closes the account behind the handle, and counts
    only for an entry that is in the map. *)
Definition book (index : Z) (held : gset Z) (b : Books) (c : KCall) : Books :=
  match c with
  | KRegister id cb =>
      if reason cb =? cbValueChange then
        let n := next_number b in
        mkBooks (u32 (n + 1)) (<[id := n]> (number_of b))
          (added b ++ [(n, mkValueCb (mkEntry id cb) (obj cb) (value_str (obj cb) index))]) (removed b)
      else b
  | KRemove id =>
      match number_of b !! id with
      | Some n => mkBooks (next_number b) (delete id (number_of b)) (added b)
                    (if decide (n ∈ held) then removed b ++ [n] else removed b)
      | None => b
      end
  | _ => b
  end.

Definition books (index : Z) (held : gset Z) (cs : list KCall) (b : Books) : Books := fold_left (book index held) cs b.

(** What calls do to the kernel; [timeCbMap] and the keys of [valueCbMap] are left alone. *)
Record phased (cs : list KCall) (k k' : Kernel) : Prop := {
  p_index : k_index k' = k_index k;
  p_maxIndex : k_maxIndex k' = k_maxIndex k;
  p_maxTime : k_maxTime k' = k_maxTime k;
  p_terminate : k_terminate k' = k_terminate k;
  p_queue : nextSimTimeQueue k' = nextSimTimeQueue k;
  p_next : willAppendNextSimTimeQueue k' = willAppendNextSimTimeQueue k ++ nexts cs;
  p_time : willAppendTimeCbQueue k' = willAppendTimeCbQueue k ++ times (k_index k) (k_maxTime k) cs;
  p_value : strings_at (k_index k) (willAppendValueCb k) -> strings_at (k_index k) (willAppendValueCb k');
  p_held : dom (valueCbMap k') = dom (valueCbMap k);
  p_books : books_of k' = books (k_index k) (dom (valueCbMap k)) cs (books_of k)
}.

Lemma phased_refl k : phased [] k k.
Proof. split; try done; by rewrite app_nil_r. Qed.

Lemma phased_trans cs1 cs2 k1 k2 k3 : phased cs1 k1 k2 -> phased cs2 k2 k3 -> phased (cs1 ++ cs2) k1 k3.
Proof.
  intros [A1 A2 A3 A4 A5 A6 A7 A8 A9 A10] [B1 B2 B3 B4 B5 B6 B7 B8 B9 B10]. split; try congruence.
  - rewrite B6, A6, <- app_assoc. unfold nexts. by rewrite omap_app.
  - rewrite B7, A7, <- app_assoc. unfold times. rewrite omap_app. by rewrite A1, A3.
  - rewrite A1 in B8. auto.
  - unfold books in *. by rewrite fold_left_app, B10, A10, A1, A9.
Qed.

(** A change of fields the calls do not read. *)
Definition core_kernel (k : Kernel) :=
  (k_index k, k_maxIndex k, k_maxTime k, k_terminate k, nextSimTimeQueue k,
   (willAppendNextSimTimeQueue k, willAppendTimeCbQueue k, willAppendValueCb k),
   (dom (valueCbMap k), books_of k)).

Lemma phased_core k k' : core_kernel k' = core_kernel k -> phased [] k k'.
Proof.
  unfold core_kernel. intros E. injection E. intros. split; try congruence; rewrite ?app_nil_r; try congruence.
  unfold books, books_of. cbn. congruence.
Qed.

(** A [VL_FATAL] that did not abort. *)
Ltac vl_passed := match goal with |- context [assert_ ?b _] => destruct b; cbn [assert_]; mrun; [|done] end.

Lemma phased_nothing c k :
  nexts [c] = [] -> (forall i m, times i m [c] = []) -> (forall i d b, book i d b c = b) -> phased [c] k k.
Proof. intros Hn Ht Hb. split; try done; [by rewrite Hn, app_nil_r|by rewrite Ht, app_nil_r|]. unfold books. cbn. by rewrite Hb. Qed.

Lemma store_cb_phased id cb (st st' : KState S) :
  store_cb id cb st = Ret tt st' ->
  phased [KRegister id cb] (kern st) (kern st') /\ client st' = client st /\
  timeCbMap (kern st') = timeCbMap (kern st) /\ valueCbMap (kern st') = valueCbMap (kern st).
Proof.
  unfold store_cb, vl_fatal, k_get, k_mod.
  destruct (Z.eqb_spec (reason cb) cbStartOfSimulation) as [E|_].
  { mrun. vl_passed. intros [= <-]. split; [|done]. split; try done; unfold nexts, times, books, book; cbn;
      rewrite E; cbn; by rewrite ?app_nil_r. }
  destruct (Z.eqb_spec (reason cb) cbEndOfSimulation) as [E|_].
  { mrun. vl_passed. intros [= <-]. split; [|done]. split; try done; unfold nexts, times, books, book; cbn;
      rewrite E; cbn; by rewrite ?app_nil_r. }
  destruct (Z.eqb_spec (reason cb) cbValueChange) as [E|Hv].
  { vl_passed. vl_passed. intros [= <-].
    split; [|done]. split; try done; try (unfold nexts, times, books, book; cbn; rewrite E; cbn; by rewrite ?app_nil_r).
    intros H. apply Forall_app. split; [exact H|]. by repeat constructor. }
  destruct (Z.eqb_spec (reason cb) cbAfterDelay) as [E|Hd].
  { vl_passed. intros [= <-].
    split; [|by case_match]. split; cbn; try (by case_match).
    - unfold nexts. cbn. rewrite E. cbn. case_match; cbn; by rewrite app_nil_r.
    - unfold times. cbn. rewrite E. cbn. case_match; cbn; by rewrite ?app_nil_r.
    - unfold books, book. cbn. rewrite E. cbn. by case_match. }
  destruct (Z.eqb_spec (reason cb) cbNextSimTime) as [E|Hn]; [|done].
  vl_passed. intros [= <-]. split; [|done]. split; try done; unfold nexts, times, books, book; cbn; rewrite E; cbn; by rewrite ?app_nil_r.
Qed.

Lemma apply_call_phased c (st st' : KState S) :
  ~ is_cursor c -> apply_call c st = Ret tt st' ->
  phased [c] (kern st) (kern st') /\ client st' = client st /\
  timeCbMap (kern st') = timeCbMap (kern st) /\ valueCbMap (kern st') = valueCbMap (kern st).
Proof.
  intros Hc. destruct c as [id cb|id|h| |i]; [..|by destruct Hc]; cbn [apply_call].
  - unfold vpi_register_cb. mrun. intros ([] & st1 & E & [= <-])%bind_Ret_inv. by apply store_cb_phased.
  - unfold vpi_remove_cb, vl_fatal, k_get, k_mod. vl_passed.
    destruct (handle_cells (kern st) !! id) as [raw|] eqn:Er; [|done]. intros [= <-]. unfold books, book.
    destruct (bool_decide_reflect (is_Some (valueCbMap (kern st) !! raw))) as [Hi|Hi]; cbn.
    + split; [|done]. split; cbn; rewrite ?app_nil_r; try done.
      unfold books, book, books_of. cbn. rewrite Er. rewrite decide_True by (by apply elem_of_dom). done.
    + split; [|done]. split; cbn; rewrite ?app_nil_r; try done.
      unfold books, book, books_of. cbn. rewrite Er. rewrite decide_False by (by rewrite elem_of_dom). done.
  - unfold vpi_free_object, vl_fatal. destruct (h =? 0); [|done]. intros [= <-]. split_and!; [|done..]. by apply (phased_nothing (KFree h)).
  - done.
Qed.

Lemma apply_calls_phased cs (st st' : KState S) :
  Forall (fun c => ~ is_cursor c) cs -> for_each cs apply_call st = Ret tt st' ->
  phased cs (kern st) (kern st') /\ client st' = client st /\
  timeCbMap (kern st') = timeCbMap (kern st) /\ valueCbMap (kern st') = valueCbMap (kern st).
Proof.
  intros H. revert st. induction H as [|c cs Hc Hcs IH]; intros st; cbn [for_each].
  - intros [= <-]. split_and!; [apply phased_refl|done..].
  - intros ([] & st1 & E1 & E2)%bind_Ret_inv. destruct (apply_call_phased c st st1 Hc E1) as (P1 & C1 & T1 & V1).
    destruct (IH st1 E2) as (P2 & C2 & T2 & V2). split_and!; [by apply (phased_trans [c] cs _ (kern st1))|congruence..].
Qed.

(** One call: the log grows by it. *)
Lemma call_phased e z (st st' : KState S) :
  still -> call e z st = Ret tt st' ->
  exists cs, log (client st') = log (client st) ++ [mkLog (k_index (kern st)) e z cs] /\ phased cs (kern st) (kern st') /\
    timeCbMap (kern st') = timeCbMap (kern st) /\ valueCbMap (kern st') = valueCbMap (kern st).
Proof.
  intros Hs. unfold call. cbn. destruct (cb_call (k_index (kern st)) e z (inner (client st))) as [[cs s']|] eqn:E; [|done].
  intros E2. destruct (apply_calls_phased cs _ st' (Hs _ _ _ _ _ _ E) E2) as (P & C & T & V). exists cs.
  split_and!; [by rewrite C|exact P|exact T|exact V].
Qed.

(** A sequence of calls with integer 0. *)
Lemma calls_phased es (st st' : KState S) :
  still -> for_each es (fun e => call e 0) st = Ret tt st' ->
  exists L, log (client st') = log (client st) ++ L /\ map call_of L = map (fun e => (k_index (kern st), e, 0)) es /\
    phased (calls_of L) (kern st) (kern st') /\
    timeCbMap (kern st') = timeCbMap (kern st) /\ valueCbMap (kern st') = valueCbMap (kern st).
Proof.
  intros Hs. revert st. induction es as [|e es IH]; intros st; cbn [for_each].
  - intros [= <-]. exists []. split_and!; [by rewrite app_nil_r|done|apply phased_refl|done|done].
  - intros ([] & st1 & E1 & E2)%bind_Ret_inv. destruct (call_phased e 0 st st1 Hs E1) as (cs & L1 & P1 & T1 & V1).
    destruct (IH st1 E2) as (L & L2 & M2 & P2 & T2 & V2).
    exists (mkLog (k_index (kern st)) e 0 cs :: L). split_and!.
    + by rewrite L2, L1, <- app_assoc.
    + cbn [map]. rewrite M2, (p_index _ _ _ P1). done.
    + by apply (phased_trans cs (calls_of L) _ (kern st1)).
    + congruence.
    + congruence.
Qed.

(** ** The phases *)

(** The delayed callbacks the map [l] lists with an index reached at [i]. *)
Definition due (i : Z) (l : list (Z * list Entry)) : list (Z * Entry * Z) :=
  l ≫= (fun '(j, es) => if j <=? i then map (fun e => (i, e, 0)) es else []).

(** The value-change callbacks of [l] whose signal differs from the string they hold. *)
Definition changed (i : Z) (l : list (Z * ValueCbInfo)) : list (Z * Entry * Z) :=
  omap (fun '(_, info) =>
    let new := value_str (cb_handle info) i in
    if decide (new = valueStr info) then None else Some (i, cbData info, default 0 (stoi new))) l.

Definition refresh (i : Z) (info : ValueCbInfo) : ValueCbInfo :=
  mkValueCb (cbData info) (cb_handle info) (value_str (cb_handle info) i).

Lemma due_cons i j es l : due i ((j, es) :: l) = (if j <=? i then map (fun e => (i, e, 0)) es else []) ++ due i l.
Proof. done. Qed.

Lemma calls_of_app L1 L2 : calls_of (L1 ++ L2) = calls_of L1 ++ calls_of L2.
Proof. unfold calls_of. by rewrite map_app, concat_app. Qed.

Lemma time_calls l (st st' : KState S) :
  still ->
  for_each l (fun '(i, cbs) =>
    let! index := k_get k_index in
    when (i <=? index)
      (for_each cbs (fun e => call e 0) ;; k_mod (fun k => set_timeCbMap (delete i (timeCbMap k)) k))) st = Ret tt st' ->
  let i := k_index (kern st) in
  exists L, log (client st') = log (client st) ++ L /\ map call_of L = due i l /\
    phased (calls_of L) (kern st) (kern st') /\ valueCbMap (kern st') = valueCbMap (kern st) /\
    timeCbMap (kern st') = fold_left (fun m '(j, _) => if j <=? i then delete j m else m) l (timeCbMap (kern st)).
Proof.
  intros Hs. revert st. induction l as [|[j es] l IH]; intros st; cbn [for_each fold_left].
  - intros [= <-]. exists []. split_and!; [by rewrite app_nil_r|done|apply phased_refl|done|done].
  - unfold k_get, k_mod. mrun. rewrite due_cons. destruct (j <=? k_index (kern st)) eqn:E; cbn [when]; mrun.
    + intros ([] & st1 & E1 & E2)%bind_Ret_inv. revert E2. mrun. intros E2.
      destruct (calls_phased es st st1 Hs E1) as (L1 & G1 & M1 & P1 & T1 & V1).
      destruct (IH _ E2) as (L2 & G2 & M2 & P2 & V2 & T2). cbn [kern client] in *.
      exists (L1 ++ L2). split_and!.
      * by rewrite G2, G1, app_assoc.
      * rewrite map_app, M1, M2. by rewrite <- (p_index _ _ _ P1).
      * rewrite calls_of_app. apply (phased_trans _ _ _ (kern st1)); [done|].
        exact (phased_trans [] _ _ _ _ (phased_core (kern st1) (set_timeCbMap (delete j (timeCbMap (kern st1))) (kern st1)) eq_refl) P2).
      * by rewrite V2, <- V1.
      * rewrite T2. cbn. by rewrite T1, (p_index _ _ _ P1).
    + intros E2. destruct (IH _ E2) as (L2 & G2 & M2 & P2 & V2 & T2). by exists L2.
Qed.

Lemma delete_due_lookup (i : Z) (l : list (Z * list Entry)) (m : gmap Z (list Entry)) j :
  fold_left (fun m '(j, _) => if j <=? i then delete j m else m) l m !! j =
  if decide (j ∈ l.*1 /\ j <= i) then None else m !! j.
Proof.
  revert m. induction l as [|[x es] l IH]; intros m; cbn [fold_left]; [by rewrite decide_False by set_solver|].
  rewrite IH. cbn [fmap list_fmap fst]. destruct (decide (j ∈ l.*1 /\ j <= i)) as [[H ?]|H].
  - by rewrite decide_True by set_solver.
  - destruct (x <=? i) eqn:E; [|rewrite decide_False; [done|set_solver by lia]].
    destruct (decide (x = j)) as [->|].
    + rewrite decide_True by (split; [set_solver|lia]). apply lookup_delete_eq.
    + rewrite decide_False by set_solver. by apply lookup_delete_ne.
Qed.

Definition refresh_in (i : Z) (l : list (Z * ValueCbInfo)) (m : gmap Z ValueCbInfo) : gmap Z ValueCbInfo :=
  fold_left (fun m '(h, info) => if decide (value_str (cb_handle info) i = valueStr info) then m else <[h := refresh i info]> m) l m.

Lemma changed_cons i h info l :
  changed i ((h, info) :: l) =
  (if decide (value_str (cb_handle info) i = valueStr info) then []
   else [(i, cbData info, default 0 (stoi (value_str (cb_handle info) i)))]) ++ changed i l.
Proof. unfold changed. rewrite omap_cons. by destruct (decide _). Qed.

Lemma value_calls l (st st' : KState S) :
  still -> (forall h, h ∈ l.*1 -> h ∈ dom (valueCbMap (kern st))) -> for_each l (fun '(h, info) => check_value h info) st = Ret tt st' ->
  let i := k_index (kern st) in
  exists L, log (client st') = log (client st) ++ L /\ map call_of L = changed i l /\
    phased (calls_of L) (kern st) (kern st') /\ timeCbMap (kern st') = timeCbMap (kern st) /\
    valueCbMap (kern st') = refresh_in i l (valueCbMap (kern st)).
Proof.
  intros Hs. revert st. induction l as [|[h info] l IH]; intros st Hdom; cbn [for_each].
  - intros [= <-]. exists []. split_and!; [by rewrite app_nil_r|done|apply phased_refl|done|done].
  - assert (forall x, x ∈ l.*1 -> x ∈ dom (valueCbMap (kern st))) as Hdom' by (intros x Hx; apply Hdom; rewrite fmap_cons; set_solver).
    assert (h ∈ dom (valueCbMap (kern st))) as Hh by (apply Hdom; rewrite fmap_cons; set_solver).
    unfold check_value at 1. unfold k_get, k_mod. mrun. rewrite changed_cons. unfold refresh_in. cbn [fold_left].
    destruct (decide (value_str (cb_handle info) (k_index (kern st)) = valueStr info)) as [E|E].
    + rewrite bool_decide_true by done. cbn [negb when]. mrun. intros E2.
      destruct (IH _ Hdom' E2) as (L2 & G2 & M2 & P2 & T2 & V2). by exists L2.
    + rewrite bool_decide_false by done. cbn [negb when]. mrun. destruct (stoi _) as [v|]; [|done]. intros ([] & st1 & E1 & E2)%bind_Ret_inv.
      destruct (call_phased _ v _ st1 Hs E1) as (cs & G1 & P1 & T1 & V1). cbn [kern client] in *.
      assert (P0 : phased cs (kern st) (kern st1)).
      { refine (phased_trans [] _ _ _ _ (phased_core (kern st) (set_valueCbMap _ (kern st)) _) P1).
        unfold core_kernel. cbn. rewrite dom_insert_L. repeat f_equal. set_solver. }
      destruct (IH st1) as (L2 & G2 & M2 & P2 & T2 & V2); [by rewrite (p_held _ _ _ P0)|done|].
      exists (mkLog (k_index (kern st)) (cbData info) v cs :: L2). split_and!.
      * by rewrite G2, G1, <- app_assoc.
      * cbn [map app]. by rewrite M2, (p_index _ _ _ P0).
      * by apply (phased_trans cs (calls_of L2) _ (kern st1)).
      * by rewrite T2, T1.
      * by rewrite V2, V1, (p_index _ _ _ P0).
Qed.

Lemma refresh_in_lookup i l m h :
  NoDup l.*1 -> (forall h info, (h, info) ∈ l -> m !! h = Some info) ->
  refresh_in i l m !! h = if decide (h ∈ l.*1) then refresh i <$> m !! h else m !! h.
Proof.
  unfold refresh_in. revert m. induction l as [|[x info] l IH]; intros m Hd Hm; rewrite ?fmap_cons in *; cbn [fold_left fst] in *.
  { by rewrite decide_False by set_solver. }
  inversion_clear Hd as [|? ? Hx Hd'].
  assert (Hi : m !! x = Some info) by (apply Hm; set_solver).
  rewrite IH; [|done|].
  - destruct (decide (x = h)) as [->|Hne].
    + rewrite decide_False by done. destruct (decide (h ∈ h :: _)); [|set_solver].
      destruct (decide (value_str _ _ = _)) as [E|E].
      * rewrite Hi. cbn. unfold refresh. rewrite E. by destruct info.
      * by rewrite lookup_insert_eq, Hi.
    + destruct (decide (value_str _ _ = _)); rewrite ?lookup_insert_ne by done;
        (destruct (decide (h ∈ l.*1)), (decide (h ∈ x :: l.*1)); set_solver).
  - intros y info' Hy. destruct (decide (value_str _ _ = _)); [apply Hm; set_solver|].
    rewrite lookup_insert_ne; [apply Hm; set_solver|]. intros ->. apply Hx. change y with (fst (y, info')). by apply list_elem_of_fmap_2.
Qed.

(** ** One iteration *)

(** Between two iterations the queues of the next-time and value callbacks are
    empty, and each value callback holds the string of the last index. *)
Definition last_index (i : Z) : Z := if i =? 0 then 0 else i - 1.

Record settled (k : Kernel) : Prop := {
  s_next : willAppendNextSimTimeQueue k = [];
  s_append : willAppendValueCb k = [];
  s_remove : willRemoveValueCb k = [];
  s_strings : forall h info, valueCbMap k !! h = Some info ->
    valueStr info = value_str (cb_handle info) (last_index (k_index k))
}.

(** The value-change callbacks of [l] whose signal differs between index [i] and the
    one before. *)
Definition changes (i : Z) (l : list (Z * ValueCbInfo)) : list (Z * Entry * Z) :=
  omap (fun '(_, info) =>
    if decide (value_str (cb_handle info) i = value_str (cb_handle info) (last_index i)) then None
    else Some (i, cbData info, default 0 (stoi (value_str (cb_handle info) i)))) l.

(** The entries queued for index [j]. *)
Definition queued (j : Z) (q : list (Z * Entry)) : list Entry := map snd (filter (fun p => p.1 = j) q).

Definition with_queued (es : list Entry) (o : option (list Entry)) : option (list Entry) :=
  match es with [] => o | _ => Some (default [] o ++ es) end.

Lemma append_times_lookup q (m : gmap Z (list Entry)) j :
  fold_left (fun m '(i, e) => <[i := default [] (m !! i) ++ [e]]> m) q m !! j = with_queued (queued j q) (m !! j).
Proof.
  revert m. induction q as [|[i e] q IH]; intros m; [done|]. cbn [fold_left]. rewrite IH. unfold queued.
  rewrite filter_cons. cbn [fst]. destruct (decide (i = j)) as [->|Hne].
  - rewrite lookup_insert_eq. unfold with_queued. cbn [map snd]. destruct (map snd _); cbn; [done|].
    by rewrite <- app_assoc.
  - by rewrite lookup_insert_ne.
Qed.

Lemma hash_iter_keys {A} (m : gmap Z A) : hash_iter_ok -> NoDup (hash_iter m).*1.
Proof. intros H. rewrite (H A m). apply NoDup_fst_map_to_list. Qed.

Lemma hash_iter_elem {A} (m : gmap Z A) h a : hash_iter_ok -> (h, a) ∈ hash_iter m <-> m !! h = Some a.
Proof. intros H. rewrite (H A m). apply elem_of_map_to_list. Qed.

Lemma hash_iter_key {A} (m : gmap Z A) h : hash_iter_ok -> h ∈ (hash_iter m).*1 <-> is_Some (m !! h).
Proof.
  intros H. rewrite list_elem_of_fmap. split.
  - intros ([h' a] & -> & E). exists a. by apply (hash_iter_elem m).
  - intros [a E]. exists (h, a). split; [done|]. by apply hash_iter_elem.
Qed.

Lemma time_phase_spec (st st' : KState S) :
  still -> hash_iter_ok -> time_phase st = Ret tt st' ->
  let i := k_index (kern st) in
  exists L, log (client st') = log (client st) ++ L /\ map call_of L = due i (hash_iter (timeCbMap (kern st))) /\
    phased (calls_of L) (kern st) (kern st') /\ valueCbMap (kern st') = valueCbMap (kern st) /\
    forall j, timeCbMap (kern st') !! j = if j <=? i then None else timeCbMap (kern st) !! j.
Proof.
  intros Hs Hh. unfold time_phase, k_get at 1. mrun. intros E.
  destruct (time_calls _ st st' Hs E) as (L & G & M & P & V & T). exists L. split_and!; try done.
  intros j. rewrite T, delete_due_lookup. destruct (Z.leb_spec j (k_index (kern st))) as [Hj|Hj].
  - destruct (decide _) as [|n]; [done|]. destruct (timeCbMap (kern st) !! j) eqn:El; [|done]. exfalso. apply n.
    split; [|done]. by apply hash_iter_key.
  - by rewrite decide_False by lia.
Qed.

Lemma changed_changes k :
  settled k -> hash_iter_ok -> changed (k_index k) (hash_iter (valueCbMap k)) = changes (k_index k) (hash_iter (valueCbMap k)).
Proof.
  intros Hk Hh. unfold changed, changes.
  assert (H : forall p, p ∈ hash_iter (valueCbMap k) -> valueStr p.2 = value_str (cb_handle p.2) (last_index (k_index k))).
  { intros [h info] Hp. apply (s_strings k Hk h). by apply hash_iter_elem. }
  induction (hash_iter (valueCbMap k)) as [|[h info] l IH]; [done|]. rewrite !omap_cons.
  rewrite IH by (intros; apply H; set_solver). pose proof (H (h, info) ltac:(set_solver)) as Hv. cbn in Hv. by rewrite Hv.
Qed.

Lemma value_phase_spec (st st' : KState S) :
  still -> hash_iter_ok -> value_phase st = Ret tt st' ->
  let i := k_index (kern st) in
  exists L, log (client st') = log (client st) ++ L /\ map call_of L = changed i (hash_iter (valueCbMap (kern st))) /\
    phased (calls_of L) (kern st) (kern st') /\ timeCbMap (kern st') = timeCbMap (kern st) /\
    forall h, valueCbMap (kern st') !! h = refresh i <$> valueCbMap (kern st) !! h.
Proof.
  intros Hs Hh. unfold value_phase, k_get at 1. mrun. intros E.
  destruct (value_calls (hash_iter (valueCbMap (kern st))) st st' Hs) as (L & G & M & P & T & V); [|exact E|].
  { intros h Hi. apply elem_of_dom. by apply hash_iter_key in Hi. } exists L. split_and!; try done.
  intros h. rewrite V, refresh_in_lookup by (try apply hash_iter_keys; try (intros; apply hash_iter_elem); done).
  destruct (decide _) as [|n]; [done|]. destruct (valueCbMap (kern st) !! h) eqn:El; [|done].
  destruct n. apply hash_iter_key; eauto.
Qed.

Lemma next_phase_spec (st st' : KState S) :
  still -> next_phase st = Ret tt st' ->
  let i := k_index (kern st) in
  exists L, log (client st') = log (client st) ++ L /\ map call_of L = map (fun e => (i, e, 0)) (nextSimTimeQueue (kern st)) /\
    timeCbMap (kern st') = timeCbMap (kern st) /\ valueCbMap (kern st') = valueCbMap (kern st) /\
    exists k, phased (calls_of L) (kern st) k /\
      kern st' = set_willAppendNextSimTimeQueue [] (set_nextSimTimeQueue (willAppendNextSimTimeQueue k) k).
Proof.
  intros Hs. unfold next_phase, appendNextSimTimeCb, k_get, k_mod. mrun. intros ([] & st1 & E1 & E2)%bind_Ret_inv.
  revert E2. mrun. intros [= <-]. cbn [kern client].
  destruct (calls_phased _ st st1 Hs E1) as (L & G & M & P & T & V). exists L. split_and!; try done. by exists (kern st1).
Qed.

Lemma foldl_append_strings i (l : list (Z * ValueCbInfo)) (m : gmap Z ValueCbInfo) :
  strings_at i l -> (forall h info, m !! h = Some info -> valueStr info = value_str (cb_handle info) i) ->
  forall h info, fold_left (fun m '(h, i) => <[h := i]> m) l m !! h = Some info -> valueStr info = value_str (cb_handle info) i.
Proof.
  intros H. revert m. induction H as [|[x inf] l Hx Hl IH]; intros m Hm; cbn [fold_left]; [exact Hm|].
  apply IH. intros h info. destruct (decide (x = h)) as [->|Hne].
  - rewrite lookup_insert_eq. intros [= <-]. exact Hx.
  - rewrite lookup_insert_ne by done. apply Hm.
Qed.

(** The last entry that [l] adds under the number [h]. *)
Definition latest (h : Z) (l : list (Z * ValueCbInfo)) : option ValueCbInfo := snd <$> last (filter (fun p => p.1 = h) l).

Lemma foldl_append_lookup (l : list (Z * ValueCbInfo)) (m : gmap Z ValueCbInfo) h :
  fold_left (fun m '(h, i) => <[h := i]> m) l m !! h = match latest h l with Some info => Some info | None => m !! h end.
Proof.
  revert m. induction l as [|[x info] l IH]; intros m; [done|]. cbn [fold_left]. rewrite IH. unfold latest.
  rewrite filter_cons. cbn [fst]. destruct (decide (x = h)) as [->|Hne]; [|by rewrite lookup_insert_ne].
  rewrite last_cons, lookup_insert_eq. by destruct (last _).
Qed.

Lemma foldl_delete_lookup (l : list Z) (m : gmap Z ValueCbInfo) h :
  fold_left (fun m h => delete h m) l m !! h = if decide (h ∈ l) then None else m !! h.
Proof.
  revert m. induction l as [|x l IH]; intros m; cbn [fold_left]; [by rewrite decide_False by set_solver|].
  rewrite IH. destruct (decide (h ∈ l)) as [Hh|Hh]; [by rewrite decide_True by set_solver|].
  destruct (decide (x = h)) as [->|Hne].
  - rewrite decide_True by set_solver. apply lookup_delete_eq.
  - rewrite decide_False by set_solver. by apply lookup_delete_ne.
Qed.

Lemma foldl_delete_strings (P : ValueCbInfo -> Prop) (l : list Z) (m : gmap Z ValueCbInfo) :
  (forall h info, m !! h = Some info -> P info) -> forall h info, fold_left (fun m h => delete h m) l m !! h = Some info -> P info.
Proof.
  revert m. induction l as [|x l IH]; intros m Hm; cbn [fold_left]; [exact Hm|]. apply IH. intros h info.
  rewrite lookup_delete_Some. intros [? ?]. by apply (Hm h).
Qed.

(** What one iteration does, with a client that does not move the cursor: it calls
    the delayed callbacks that are due, then the value-change callbacks whose signal
    changed since the last index, then the next-time callbacks in the order of their
    registration; the next-time callbacks registered meanwhile, in any phase, wait
    for the next index; the delayed callbacks registered before the value-change
    phase are queued for the index of their time, the later ones wait for the next
    iteration.  The value-change callbacks held at the next index are those held at
    this one, with their string brought up to date, less those whose handle was
    removed meanwhile, and with those registered meanwhile. *)
Definition iteration_result (k k' : Kernel) (Lt Lv Ln : list LogItem) : Prop :=
  let i := k_index k in
  map call_of Lt = due i (hash_iter (timeCbMap k)) /\
  map call_of Lv = changes i (hash_iter (valueCbMap k)) /\
  map call_of Ln = map (fun e => (i, e, 0)) (nextSimTimeQueue k) /\
  nextSimTimeQueue k' = nexts (calls_of (Lt ++ Lv ++ Ln)) /\
  (forall j, timeCbMap k' !! j =
     with_queued (queued j (willAppendTimeCbQueue k ++ times i (k_maxTime k) (calls_of Lt)))
       (if j <=? i then None else timeCbMap k !! j)) /\
  willAppendTimeCbQueue k' = times i (k_maxTime k) (calls_of (Lv ++ Ln)) /\
  (let b := books i (dom (valueCbMap k)) (calls_of (Lt ++ Lv ++ Ln)) (mkBooks (vpiHandleAllcator k) (handle_cells k) [] []) in
   vpiHandleAllcator k' = next_number b /\ handle_cells k' = number_of b /\
   forall h, valueCbMap k' !! h =
     match latest h (added b) with
     | Some info => Some info
     | None => if decide (h ∈ removed b) then None else refresh i <$> valueCbMap k !! h
     end) /\
  k_index k' = i + 1 /\ k_maxIndex k' = k_maxIndex k /\ k_terminate k' = k_terminate k /\ settled k'.

Lemma settled_next k4 :
  let i := k_index k4 in
  0 <= i < 2 ^ 64 - 1 ->
  strings_at i (willAppendValueCb k4) -> (forall h info, valueCbMap k4 !! h = Some info -> valueStr info = value_str (cb_handle info) i) ->
  willAppendNextSimTimeQueue k4 = [] ->
  let m := fold_left (fun m h => delete h m) (willRemoveValueCb k4) (valueCbMap k4) in
  let k5 := set_willRemoveValueCb [] (set_valueCbMap m k4) in
  settled (set_k_index (u64 (i + 1))
    (set_willAppendValueCb [] (set_valueCbMap (fold_left (fun m '(h, i) => <[h := i]> m) (willAppendValueCb k4) m) k5))).
Proof.
  intros i Hb Hs Hm Hn m k5. split; try done. cbn. intros h info.
  replace (last_index (u64 (i + 1))) with i; [|unfold u64; rewrite wrap_small by (unfold in_width; lia); unfold last_index; case_match; lia].
  apply foldl_append_strings; [done|]. by apply foldl_delete_strings.
Qed.

Lemma iteration_step (st st' : KState S) :
  still -> hash_iter_ok -> settled (kern st) -> 0 <= k_index (kern st) < 2 ^ 64 - 1 ->
  iteration st = Ret tt st' ->
  exists Lt Lv Ln, log (client st') = log (client st) ++ Lt ++ Lv ++ Ln /\ iteration_result (kern st) (kern st') Lt Lv Ln.
Proof.
  intros Hs Hh Hk Hb. unfold iteration. intros ([] & st1 & E1 & E)%bind_Ret_inv.
  destruct (time_phase_spec st st1 Hs Hh E1) as (Lt & G1 & M1 & P1 & V1 & T1). destruct P1 as [I1 X1 Y1 Z1 Q1 N1 W1 F1 D1 B1].
  revert E. unfold appendTimeCb, k_mod at 1. mrun. intros ([] & st3 & E3 & E)%bind_Ret_inv.
  destruct (value_phase_spec _ st3 Hs Hh E3) as (Lv & G3 & M3 & P3 & T3 & V3). cbn [kern client] in *.
  destruct P3 as [I3 X3 Y3 Z3 Q3 N3 W3 F3 D3 B3]. cbn in I3, X3, Y3, Z3, Q3, N3, W3, F3, M3, T3, V3, D3.
  revert E. intros ([] & st4 & E4 & E)%bind_Ret_inv.
  destruct (next_phase_spec _ st4 Hs E4) as (Ln & G4 & M4 & T4 & V4 & k & P4 & K4). destruct P4 as [I4 X4 Y4 Z4 Q4 N4 W4 F4 D4 B4].
  revert E. unfold removeValueCb, appendValueCb, k_mod. mrun. intros [= <-]. cbn [kern client].
  exists Lt, Lv, Ln. split; [by rewrite G4, G3, G1, <- !app_assoc|].
  assert (I : k_index (kern st4) = k_index (kern st)) by (rewrite K4; cbn; congruence).
  assert (B : books_of (kern st4) = books (k_index (kern st)) (dom (valueCbMap (kern st))) (calls_of (Lt ++ Lv ++ Ln))
                (mkBooks (vpiHandleAllcator (kern st)) (handle_cells (kern st)) [] [])).
  { transitivity (books_of k); [by rewrite K4|].
    assert (B3' : books_of (kern st3) = books (k_index (kern st1)) (dom (valueCbMap (kern st1))) (calls_of Lv) (books_of (kern st1))) by exact B3.
    rewrite B4, B3', I3, D3, I1, D1, B1, !calls_of_app. unfold books. rewrite !fold_left_app. unfold books_of. by rewrite (s_append _ Hk), (s_remove _ Hk). }
  split_and!; cbn.
  - done.
  - rewrite M3, I1, V1. by apply changed_changes.
  - rewrite M4. rewrite Q3, Q1, I3, I1. done.
  - rewrite K4. cbn. rewrite N4, N3, N1, (s_next _ Hk). rewrite !calls_of_app. unfold nexts. by rewrite !omap_app, app_nil_l, <- app_assoc.
  - intros j. rewrite T4, T3, append_times_lookup, T1, W1. done.
  - rewrite K4. cbn. rewrite W4, W3. cbn. unfold times. rewrite calls_of_app, omap_app. by rewrite I3, Y3, I1, Y1.
  - rewrite <- B. split_and!; [done|done|]. intros h. rewrite foldl_append_lookup, foldl_delete_lookup. cbn.
    by rewrite V4, V3, I1, V1.
  - rewrite I. unfold u64. apply wrap_small. unfold in_width. lia.
  - rewrite K4. cbn. congruence.
  - rewrite K4. cbn. congruence.
  - apply (settled_next (kern st4)); rewrite ?I; [done|..].
    + rewrite K4. cbn. rewrite I3, I1 in F4. apply F4. rewrite I1 in F3. apply F3. apply F1. rewrite (s_append _ Hk). constructor.
    + intros h info. rewrite V4, V3. cbn. intros (? & _ & ->)%fmap_Some. cbn. by rewrite I1.
    + by rewrite K4.
Qed.

(** ** The loop *)

Definition fuelled {A} (m : KM A) : Prop := forall st : KState S, m st <> NoFuel.

Lemma fuelled_bind {A B} (m : KM A) (f : A -> KM B) : fuelled m -> (forall a, fuelled (f a)) -> fuelled (let! a := m in f a).
Proof. intros Hm Hf st. unfold bind. destruct (m st) eqn:E; [apply Hf|done|done|]. by destruct (Hm st). Qed.

Lemma fuelled_for_each {A} (l : list A) (f : A -> KM unit) : (forall a, fuelled (f a)) -> fuelled (for_each l f).
Proof. intros H. induction l; [done|]. by apply fuelled_bind. Qed.

Lemma fuelled_when b (m : KM unit) : fuelled m -> fuelled (when b m).
Proof. by destruct b. Qed.

Ltac fuel_step := first
  [ apply fuelled_bind; [|intros]
  | apply fuelled_for_each; intros
  | apply fuelled_when
  | match goal with |- fuelled (match ?x with _ => _ end) => destruct x end
  | (let st := fresh in intros st; done) ].

Lemma apply_call_fuelled c : fuelled (apply_call c).
Proof.
  destruct c; cbn [apply_call]; [unfold vpi_register_cb, store_cb|unfold vpi_remove_cb|unfold vpi_free_object|unfold vpi_put_value|];
    unfold vl_fatal, assert_; repeat fuel_step.
Qed.

Lemma call_fuelled e z : fuelled (call e z).
Proof.
  intros st. unfold call. destruct (cb_call _ _ _ _) as [[cs s]|]; [|done].
  apply fuelled_for_each. apply apply_call_fuelled.
Qed.

Lemma iteration_fuelled : fuelled iteration.
Proof.
  pose proof call_fuelled. unfold iteration, time_phase, value_phase, next_phase, check_value, panic. repeat (fuel_step || auto).
Qed.

(** C20: the waveform kernel calls exactly what an index is for, and hands over to the
    next one.  In one iteration at index [i] that returns, with a client that leaves
    the cursor alone, the loop calls the delayed callbacks whose index is reached, the
    held value-change callbacks whose signal has another string at [i] than at the
    index before, each with that string's number, and the next-time callbacks in the
    order they were registered.  What it hands over: next-time callbacks registered
    during the iteration, from whichever phase, are those of the next one; of the
    delayed callbacks, those that the delayed callbacks registered are filed under
    the index of their time, but those registered by value-change and next-time
    callbacks are filed only in the next iteration, after its delayed callbacks ran;
    the value-change callbacks are those held before, less exactly those whose handle
    was removed during the iteration, plus exactly those registered during it, each
    with the string of its signal at [i]; every queue of the value changes is empty
    again, and so is that of the next-time callbacks. *)
Theorem iteration_spec (st st' : KState S) :
  still -> hash_iter_ok -> settled (kern st) -> 0 <= k_index (kern st) < 2 ^ 64 - 1 ->
  iteration st = Ret tt st' ->
  exists Lt Lv Ln, log (client st') = log (client st) ++ Lt ++ Lv ++ Ln /\ iteration_result (kern st) (kern st') Lt Lv Ln.
Proof. apply iteration_step. Qed.

(** C21: the evaluation loop ends.  From index [i] of a waveform of [maxIndex]
    indices, [maxIndex - i] iterations are enough, whatever the callbacks register
    or remove, provided none of them moves the cursor back; a loop that was not
    told to terminate and in which no callback aborted stops at the last index. *)
Theorem evaluation_loop_ends fuel (st : KState S) :
  still -> hash_iter_ok -> settled (kern st) -> 0 <= k_index (kern st) <= k_maxIndex (kern st) -> k_maxIndex (kern st) < 2 ^ 64 ->
  k_maxIndex (kern st) - k_index (kern st) <= Z.of_nat fuel ->
  evaluation_loop fuel st <> NoFuel /\
  forall st', evaluation_loop fuel st = Ret tt st' -> k_terminate (kern st) = false ->
    k_index (kern st') = k_maxIndex (kern st) /\ settled (kern st').
Proof.
  intros Hs Hh. revert st. induction fuel as [|fuel IH]; intros st Hk Hb Hm Hf; cbn [evaluation_loop]; unfold k_get; mrun.
  - replace (k_index (kern st) <? k_maxIndex (kern st)) with false by lia. cbn. split; [done|].
    intros st' [= <-] _. split; [lia|done].
  - destruct (k_index (kern st) <? k_maxIndex (kern st)) eqn:Hlt; cbn [andb].
    2: { split; [done|]. intros st' [= <-] _. split; [lia|done]. }
    destruct (k_terminate (kern st)) eqn:Ht; cbn [negb]; [split; [done|]; by intros ? [= <-]|].
    unfold bind. destruct (iteration st) as [[] st1|? ?|?|] eqn:E; [|done..|by destruct (iteration_fuelled st)].
    destruct (iteration_step st st1 Hs Hh Hk ltac:(lia) E) as (?&?&?&_&_&_&_&_&_&_&_& I & X & T & K).
    destruct (IH st1 K ltac:(lia) ltac:(lia) ltac:(lia)) as [H1 H2]. split; [done|]. intros st' E' _.
    destruct (H2 st' E' ltac:(congruence)) as [-> ?]. by rewrite X.
Qed.

End Facts.

(** ** The number of a value change *)

Definition binary (l : list byte) : Prop := Forall (fun b => b = x30 \/ b = x31) l.

(** The bits of a string, from the right, as the digits of a decimal number: the
    digit at position [i] counts [10 ^ i]. *)
Definition positional (l : list byte) : Z :=
  foldr Z.add 0 (imap (fun i b => if bool_decide (b = x31) then 10 ^ Z.of_nat i else 0) (reverse l)).

Fixpoint significant (l : list byte) : list byte :=
  match l with
  | [] => []
  | b :: l' => if bool_decide (b = x30) then significant l' else l
  end.

Lemma binary_digits l : binary l -> digits_prefix l = l.
Proof. induction 1 as [|b l [->| ->] _ IH]; cbn; [done|by rewrite IH..]. Qed.

Lemma decimal_from l a :
  fold_left (fun a b => 10 * a + (byteZ b - 0x30)) l a = a * 10 ^ Z.of_nat (length l) + decimal_value l.
Proof.
  unfold decimal_value. revert a. induction l as [|b l IH]; intros a; cbn [fold_left length]; [lia|].
  rewrite IH, (IH (10 * 0 + _)), Nat2Z.inj_succ, Z.pow_succ_r by lia. lia.
Qed.

Lemma decimal_cons b l : decimal_value (b :: l) = (byteZ b - 0x30) * 10 ^ Z.of_nat (length l) + decimal_value l.
Proof. unfold decimal_value at 1. cbn [fold_left]. by rewrite decimal_from. Qed.

Lemma foldr_add_app (l1 l2 : list Z) : foldr Z.add 0 (l1 ++ l2) = foldr Z.add 0 l1 + foldr Z.add 0 l2.
Proof. induction l1 as [|x l1 IH]; cbn; [done|]. rewrite IH. lia. Qed.

Lemma decimal_positional l : binary l -> decimal_value l = positional l.
Proof.
  unfold positional. induction 1 as [|b l Hb _ IH]; [done|].
  rewrite decimal_cons, reverse_cons, imap_app, foldr_add_app, IH, length_reverse. cbn [imap foldr].
  cbn [imap foldr]. unfold compose. rewrite Nat.add_0_r. destruct Hb as [->| ->]; [change (bool_decide (x30 = x31)) with false|change (bool_decide (x31 = x31)) with true]; change (byteZ x30) with 48; change (byteZ x31) with 49; lia.
Qed.

Lemma decimal_bound l : binary l -> 0 <= decimal_value l /\ 9 * decimal_value l < 10 ^ Z.of_nat (length l).
Proof.
  induction 1 as [|b l Hb _ IH]; [by vm_compute|]. rewrite decimal_cons. cbn [length].
  rewrite Nat2Z.inj_succ, Z.pow_succ_r by lia. assert (byteZ b = 48 \/ byteZ b = 49) by (destruct Hb as [->| ->]; auto). nia.
Qed.

Lemma decimal_significant l : binary l -> decimal_value (significant l) = decimal_value l.
Proof.
  induction 1 as [|b l Hb _ IH]; [done|]. cbn [significant]. case_bool_decide as E; [|done].
  rewrite decimal_cons, IH, E. change (byteZ x30) with 48. lia.
Qed.

Lemma significant_shape l : binary l -> binary (significant l) /\ (significant l = [] \/ exists r, significant l = x31 :: r).
Proof.
  induction 1 as [|b l Hb Hl IH]; [split; [constructor|by left]|]. cbn [significant]. case_bool_decide; [done|].
  destruct Hb as [->| ->]; [done|]. split; [constructor; [by right|done]|]. right. by exists l.
Qed.

(** A string of bits reads as a decimal number: up to ten digits after the leading
    zeros fit an [int]. *)
Lemma decimal_fits l : binary l -> (decimal_value l < 2 ^ 31 <-> (length (significant l) <= 10)%nat) /\ (decimal_value l = 0 <-> significant l = []).
Proof.
  intros Hl. rewrite <- (decimal_significant l Hl). destruct (significant_shape l Hl) as [Hs [E|[r E]]].
  - rewrite E. split; [|done]. split; [cbn; lia|done].
  - rewrite E in *. inversion_clear Hs as [|? ? _ Hr]. rewrite decimal_cons. change (byteZ x31) with 49. cbn [length].
    pose proof (decimal_bound r Hr) as [Hd Hd']. pose proof (Z.pow_pos_nonneg 10 (Z.of_nat (length r)) ltac:(lia) ltac:(lia)) as Hp.
    split; [|split; [lia|done]]. split; intros H.
    + destruct (Nat.le_gt_cases (Datatypes.S (length r)) 10) as [|Hg]; [done|]. exfalso.
      pose proof (Z.pow_le_mono_r 10 10 (Z.of_nat (length r)) ltac:(lia) ltac:(lia)). lia.
    + pose proof (Z.pow_le_mono_r 10 (Z.of_nat (length r)) 9 ltac:(lia) ltac:(lia)). lia.
Qed.

Lemma stoi_binary l s : as_bytes s = l -> binary l -> l <> [] ->
  stoi s = if decide (length (significant l) <= 10)%nat then Some (decimal_value l) else None.
Proof.
  intros E Hl Hne. unfold stoi. rewrite E, binary_digits, bool_decide_false by done. destruct (decimal_fits l Hl) as [Hf _].
  destruct (decide _); [replace (_ <=? _) with false by lia|replace (_ <=? _) with true by lia]; done.
Qed.

Lemma stoi_not_digit b l s : as_bytes s = b :: l -> ~ (48 <= byteZ b <= 57) -> stoi s = None.
Proof. intros E Hb. unfold stoi. rewrite E. cbn [digits_prefix]. by replace ((48 <=? byteZ b) && (byteZ b <=? 57)) with false by lia. Qed.

Section Number.
Context {S : Type} {client0 : Client S} {source : WaveSource} {C0 : Containers}.

Definition noticed (h : Z) (info : ValueCbInfo) (st : KState S) : KState S :=
  mkKState (set_valueCbMap (<[h := refresh (k_index (kern st)) info]> (valueCbMap (kern st))) (kern st)) (client st).

Lemma check_value_eq h info (st : KState S) :
  value_str (cb_handle info) (k_index (kern st)) <> valueStr info ->
  check_value h info st =
  match stoi (value_str (cb_handle info) (k_index (kern st))) with
  | None => Panic "terminate called after throwing an instance of 'std::invalid_argument'" (noticed h info st)
  | Some v => call (cbData info) v (noticed h info st)
  end.
Proof.
  intros Hne. unfold check_value, k_get, k_mod. mrun. rewrite bool_decide_false by done. cbn [negb when]. mrun.
  by destruct (stoi _).
Qed.

(** C22: what a value-change callback is told, and when the process dies instead.
    The kernel reads the bits of a changed signal as a decimal number: for a string
    of bits with at most ten digits after its leading zeros the callback is called
    with the sum of [10 ^ i] over the positions [i] of the ones, which is below
    [2 ^ 31], zero exactly when all bits are zero, and the bit itself for a signal
    of one bit; with more digits, or when the string starts
    with an [x] or a [z], [std::stoi] throws and the process is terminated. *)
Theorem value_change_number h info (st : KState S) b l :
  let new := value_str (cb_handle info) (k_index (kern st)) in
  new <> valueStr info -> as_bytes new = b :: l ->
  (binary (b :: l) -> (length (significant (b :: l)) <= 10)%nat ->
     exists v, v = positional (b :: l) /\ check_value h info st = call (cbData info) v (noticed h info st) /\ 0 <= v < 2 ^ 31 /\
       (v = 0 <-> Forall (fun b => b = x30) (b :: l)) /\ (l = [] -> v = byteZ b - 48)) /\
  ((binary (b :: l) /\ (10 < length (significant (b :: l)))%nat) \/ ~ (48 <= byteZ b <= 57) ->
     exists msg, check_value h info st = Panic msg (noticed h info st)).
Proof.
  intros new Hne E. rewrite check_value_eq by done. fold new. split.
  - intros Hb Hl. rewrite (stoi_binary _ _ E Hb), decide_True by done. exists (decimal_value (b :: l)).
    destruct (decimal_bound _ Hb) as [H0 _]. destruct (decimal_fits _ Hb) as [H31 Hz]. split_and!; [by apply decimal_positional|done|done|by apply H31| |].
    + rewrite Hz. clear -Hb. induction Hb as [|x r Hx Hr IH]; [split; [constructor|done]|]. cbn [significant].
      case_bool_decide as Ex.
      * rewrite IH. split; [by constructor|by inversion 1].
      * split; [done|]. by inversion 1.
    + intros ->. rewrite decimal_cons. change (decimal_value []) with 0. change (10 ^ Z.of_nat (length [])) with 1. lia.
  - intros [[Hb Hl]|Hd]; [|rewrite (stoi_not_digit _ _ _ E Hd); eauto].
    rewrite (stoi_binary _ _ E Hb), decide_False by (done || lia). eauto.
Qed.

End Number.

(** ** A run

    A waveform of five indices, 10 time units apart; signal 7 changes at indices 1 and
    3.  The client registers the next-time callback again at each index, and at
    index 0 from there also a callback after 10 time units. *)
Module KernelDemo.

Definition next_request : s_cb_data := mkCb cbNextSimTime libverilua_next_sim_time_cb_rtn None 0 UdNull.
Definition change_request : s_cb_data := mkCb cbValueChange edge_callback_rtn (Some (vpiSuppressTime, 0, 0)) 7 UdNull.
Definition delay_request : s_cb_data := mkCb cbAfterDelay time_callback_handler_rtn (Some (vpiSimTime, 0, 10)) 0 (TaskIDWithEnv 1).

#[local] Instance demo_client : Client Z := {|
  cb_call i e z s :=
    if reason (e_cb e) =? cbNextSimTime
    then Some (KRegister s next_request :: (if i =? 0 then [KRegister (s + 1) delay_request] else []), s + 2)
    else Some ([], s)
|}.

#[local] Instance demo_wave : WaveSource := {|
  value_str h i := if (i =? 0) || (3 <=? i) then "0"%string else "1"%string;
  time_at i := 10 * i;
  index_at t := t / 10
|}.

Definition kernel0 : Kernel := mkKernel 0 5 50 false None None false ∅ [] [] [] ∅ [] [] 0 ∅.
Definition boot : list KCall := [KRegister 1 next_request; KRegister 2 change_request].

Definition run {A} (m : KM (S := Logged Z) A) (st : KState (Logged Z)) : KState (Logged Z) :=
  match m st with Ret _ st' => st' | _ => st end.

(** The loop starts here. *)
Definition booted : KState (Logged Z) :=
  run (for_each boot apply_call ;; appendTimeCb ;; appendNextSimTimeCb ;; appendValueCb) (mkKState kernel0 (mkLogged 10 [])).

Definition entries (st : KState (Logged Z)) : list (Z * Z * Z) :=
  map (fun x => (l_index x, e_id (l_entry x), l_integer x)) (log (client st)).

Lemma demo_still : still (S0 := Z).
Proof.
  intros i e z s calls s'. cbn. destruct (reason (e_cb e) =? cbNextSimTime); intros [= <- <-]; repeat constructor; [easy|].
  destruct (i =? 0); repeat constructor; easy.
Qed.

Lemma booted_settled : settled (kern booted).
Proof.
  split; [vm_compute; reflexivity..|]. intros h info.
  change (valueCbMap (kern booted)) with ({[0 := mkValueCb (mkEntry 2 change_request) 7 "0"]} : gmap Z ValueCbInfo).
  rewrite lookup_singleton_Some. by intros [<- <-].
Qed.

(** The callback after 10 time units, registered at index 0 (time 0) from a next-time
    callback, is due at index 1 (time 10) and is called at index 2. *)
Lemma delayed_callback_late :
  entries (run (evaluation_loop 5) booted) =
    [(0, 1, 0); (1, 2, 1); (1, 10, 0); (2, 11, 0); (2, 12, 0); (3, 2, 0); (3, 14, 0); (4, 16, 0)] /\
  index_at (time_at 0 + 10) = 1.
Proof. vm_compute. done. Qed.

Lemma iteration_spec_witness :
  exists Lt Lv Ln, log (client (run iteration booted)) = log (client booted) ++ Lt ++ Lv ++ Ln /\
    iteration_result (kern booted) (kern (run iteration booted)) Lt Lv Ln.
Proof.
  apply iteration_spec; [exact demo_still|exact (proj1 list_containers_ok)|exact booted_settled|vm_compute; split; congruence|].
  vm_compute. reflexivity.
Defined.

Lemma evaluation_loop_ends_witness :
  evaluation_loop 5 booted <> NoFuel /\
  forall st', evaluation_loop 5 booted = Ret tt st' -> k_terminate (kern booted) = false ->
    k_index (kern st') = k_maxIndex (kern booted) /\ settled (kern st').
Proof.
  apply evaluation_loop_ends; [exact demo_still|exact (proj1 list_containers_ok)|exact booted_settled|..];
    vm_compute; first [reflexivity|congruence|split; congruence].
Defined.

(** Index 1: the signal went from [0] to [1]. *)
Definition at_one : KState (Logged Z) := run iteration booted.

Lemma value_change_number_witness :
  exists v, check_value 0 (mkValueCb (mkEntry 2 change_request) 7 "0") at_one =
    call (mkEntry 2 change_request) v (noticed 0 (mkValueCb (mkEntry 2 change_request) 7 "0") at_one) /\ v = 1.
Proof.
  destruct (value_change_number 0 (mkValueCb (mkEntry 2 change_request) 7 "0") at_one x31 []) as [H _];
    [vm_compute; congruence|reflexivity|].
  destruct H as (v & _ & E & _ & _ & H1); [constructor; [by right|constructor]|vm_compute; lia|]. exists v. split; [exact E|exact (H1 eq_refl)].
Defined.

End KernelDemo.
