(* ===== verification/WaveContract.v ===== *)
(** * The waveform kernel calls registered callbacks only

    What the kernel promises its client, the one the callbacks of the library rely
    on: a callback is called while it is registered, a one-shot callback once, a
    removed one never again.  The client has to play by the rules ([disciplined]):
    handles in use are not given out again, and the only callback a handler
    removes is the value-change callback it is called for.  [guard_client] aborts
    at a call of a callback that is not registered; the theorem is that it never
    has to. *)

From S2P Require Import Prelude Bytes State Backend WaveKernel WaveKernelFacts.
#[local] Open Scope Z_scope.

(** ** The rules *)

(** [hold]: the registered callbacks; [made]: the number of registrations. *)
Class Holder (S : Type) := { hold : S -> gmap Z s_cb_data; made : S -> Z }.

Definition is_change (cb : s_cb_data) : bool := reason cb =? cbValueChange.

(** A one-shot callback is no longer registered when it is called. *)
Definition passed (e : Entry) (H : gmap Z s_cb_data) : gmap Z s_cb_data :=
  if is_change (e_cb e) then H else delete (e_id e) H.

Definition call_hold (c : KCall) (H : gmap Z s_cb_data) : gmap Z s_cb_data :=
  match c with KRegister id cb => <[id := cb]> H | KRemove id => delete id H | _ => H end.

(** The kernel refuses the call and aborts the process. *)
Definition refused (c : KCall) : Prop :=
  match c with KRemove id => id = 0 | KFree h => h <> 0 | KPut => True | _ => False end.

(** The calls of a handler, from the registered callbacks [H]; [own] is the
    value-change callback it may remove, once. *)
Fixpoint lawful (own : option Z) (H : gmap Z s_cb_data) (cs : list KCall) : Prop :=
  match cs with
  | [] => True
  | KRegister id cb :: cs => H !! id = None /\ lawful own (<[id := cb]> H) cs
  | KRemove id :: cs => id = 0 \/ (own = Some id /\ lawful None (delete id H) cs)
  | KFree h :: cs => h <> 0 \/ lawful own H cs
  | KPut :: cs => True
  | KSetCursor _ :: cs => False
  end.

Definition own_of (e : Entry) : option Z := if is_change (e_cb e) then Some (e_id e) else None.

Definition holds_after (H : gmap Z s_cb_data) (cs : list KCall) : gmap Z s_cb_data := fold_left (fun H c => call_hold c H) cs H.

Record disciplined {S} `{!Client S} `{!Holder S} : Prop := {
  d_made : forall i e z (s : S) cs s', cb_call i e z s = Some (cs, s') -> made s' = made s + Z.of_nat (length cs);
  d_calls : forall i e z (s : S) cs s', hold s !! e_id e = Some (e_cb e) -> cb_call i e z s = Some (cs, s') ->
    lawful (own_of e) (passed e (hold s)) cs /\ (Exists refused cs \/ hold s' = holds_after (passed e (hold s)) cs)
}.

#[export] Instance edge_cb_data_eq : EqDecision EdgeCbData.
Proof. solve_decision. Defined.
#[export] Instance user_data_eq : EqDecision UserData.
Proof. solve_decision. Defined.
#[export] Instance cb_data_eq : EqDecision s_cb_data.
Proof. solve_decision. Defined.

Definition guard_client {S} {C : Client S} `{!Holder S} : Client S := {|
  cb_call i e z s := if decide (hold s !! e_id e = Some (e_cb e)) then cb_call (Client := C) i e z s else None
|}.

(** ** The invariant *)

(** The end-of-simulation callback, until it is called. *)
Definition ending (k : Kernel) : list Entry := if end_called k then [] else option_list (endOfSimulationCb k).

(** [L]: the one-shot callbacks the kernel still has to call, those of the
    [willAppend] queues and of the end apart. *)
Definition one_shots (L : list Entry) (k : Kernel) : list Entry :=
  L ++ map snd (willAppendTimeCbQueue k) ++ willAppendNextSimTimeQueue k ++ ending k.

Definition live_value (k : Kernel) (raw : Z) (info : ValueCbInfo) : Prop :=
  (valueCbMap k !! raw = Some info /\ raw ∉ willRemoveValueCb k) \/ (raw, info) ∈ willAppendValueCb k.

Record held_inv (L : list Entry) (k : Kernel) (H : gmap Z s_cb_data) (n : Z) : Prop := {
  h_nodup : NoDup (map e_id (one_shots L k));
  h_once : forall e, e ∈ one_shots L k -> H !! e_id e = Some (e_cb e) /\ is_change (e_cb e) = false;
  h_value : forall raw info, live_value k raw info ->
    let e := cbData info in
    H !! e_id e = Some (e_cb e) /\ is_change (e_cb e) = true /\ handle_cells k !! e_id e = Some raw;
  h_append : NoDup (map fst (willAppendValueCb k));
  h_apart : forall raw info, (raw, info) ∈ willAppendValueCb k -> valueCbMap k !! raw = None;
  h_raw : forall raw info, valueCbMap k !! raw = Some info \/ (raw, info) ∈ willAppendValueCb k -> raw < vpiHandleAllcator k;
  h_alloc : 0 <= vpiHandleAllcator k <= n
}.

(** The kernel's part that a call leaves alone. *)
Definition untouched (k : Kernel) := (k_index k, k_maxIndex k, k_terminate k, timeCbMap k, nextSimTimeQueue k, valueCbMap k).

Section Contract.
Context {S : Type} {C : Client S} {H0 : Holder S} {source : WaveSource} {C0 : Containers}.

Lemma one_shots_perm L L' k H n : L ≡ₚ L' -> held_inv L k H n -> held_inv L' k H n.
Proof.
  intros HL [A B Cv D E F G]. assert (P : one_shots L k ≡ₚ one_shots L' k) by (unfold one_shots; by rewrite HL).
  split; try done.
  - by rewrite <- P.
  - intros e. rewrite <- P. apply B.
Qed.

(** Registering a one-shot callback. *)
Lemma held_queue L k H n id cb k' :
  held_inv L k H n -> H !! id = None -> is_change cb = false ->
  (one_shots L k' = one_shots L k \/ one_shots L k' ≡ₚ mkEntry id cb :: one_shots L k) ->
  (valueCbMap k', willAppendValueCb k', willRemoveValueCb k', handle_cells k', vpiHandleAllcator k') =
  (valueCbMap k, willAppendValueCb k, willRemoveValueCb k, handle_cells k, vpiHandleAllcator k) ->
  held_inv L k' (<[id := cb]> H) (n + 1).
Proof.
  intros [A B Cv D E F G] Hid Hcb HO Ek. injection Ek as E1 E2 E3 E4 E5.
  assert (Hother : forall e, H !! e_id e = Some (e_cb e) -> <[id := cb]> H !! e_id e = Some (e_cb e)).
  { intros e He. rewrite lookup_insert_ne; [done|]. congruence. }
  split; rewrite ?E1, ?E2, ?E3, ?E4, ?E5; try done; [..|lia].
  - destruct HO as [->|P]; [done|]. rewrite P. cbn. constructor; [|done].
    intros (e & Ee & He)%list_elem_of_fmap. cbn in Ee. destruct (B e He). congruence.
  - intros e He. assert (Hc : e = mkEntry id cb \/ e ∈ one_shots L k).
    { destruct HO as [HO|P]; [rewrite HO in He; by right|]. rewrite P in He. set_solver. }
    destruct Hc as [->|Hc]; [cbn; by rewrite lookup_insert_eq|]. destruct (B e Hc). auto.
  - intros raw info Hl e. unfold live_value in Hl. rewrite E1, E2, E3 in Hl. destruct (Cv raw info Hl) as (?&?&?). auto.
Qed.

(** Registering a value-change callback. *)
Lemma held_value L k H n id cb str :
  held_inv L k H n -> H !! id = None -> is_change cb = true -> n + 1 < 2 ^ 32 ->
  let raw := vpiHandleAllcator k in
  let info := mkValueCb (mkEntry id cb) (obj cb) str in
  held_inv L
    (set_handle_cells (<[id := raw]> (handle_cells k))
      (set_vpiHandleAllcator (u32 (raw + 1)) (set_willAppendValueCb (willAppendValueCb k ++ [(raw, info)]) k)))
    (<[id := cb]> H) (n + 1).
Proof.
  intros [A B Cv D E F G] Hid Hcb Hn raw info.
  assert (Hne : forall e, H !! e_id e = Some (e_cb e) -> id <> e_id e) by (intros e He Ee; rewrite <- Ee in He; congruence).
  assert (Hraw : raw ∉ map fst (willAppendValueCb k)).
  { intros ([r i] & Er & Hi)%list_elem_of_fmap. cbn in Er. pose proof (F r i (or_intror Hi)). subst. unfold raw in *. lia. }
  assert (Hnew : u32 (raw + 1) = raw + 1) by (unfold u32; apply wrap_small; unfold in_width, raw; lia).
  assert (Hin : forall r i, (r, i) ∈ willAppendValueCb k ++ [(raw, info)] -> (r, i) ∈ willAppendValueCb k \/ (r = raw /\ i = info)).
  { intros r i [Hi|Hi]%elem_of_app; [by left|]. apply list_elem_of_singleton in Hi as [= -> ->]. by right. }
  split; cbn; rewrite ?Hnew; try done.
  - intros e He. destruct (B e He) as [He1 He2]. split; [|done]. rewrite lookup_insert_ne by auto. done.
  - intros r i Hl. assert (Hc : live_value k r i \/ (r = raw /\ i = info)).
    { destruct Hl as [Hl|Hl]; cbn in Hl; [left; by left|]. destruct (Hin r i Hl); [left; by right|by right]. }
    destruct Hc as [Hc|[-> ->]]; [|cbn; by rewrite !lookup_insert_eq].
    destruct (Cv r i Hc) as (H1 & H2 & H3). rewrite !lookup_insert_ne by auto. done.
  - rewrite map_app. cbn. apply NoDup_app. split_and!; [done| |apply NoDup_singleton].
    intros x Hx ->%list_elem_of_singleton. done.
  - intros r i Hi. destruct (Hin r i Hi) as [Hi'|[-> ->]]; [by apply (E r i)|].
    destruct (valueCbMap k !! raw) as [i'|] eqn:El; [|done]. pose proof (F raw i' (or_introl El)). unfold raw in *. lia.
  - intros r i [Hi|Hi]; [pose proof (F r i (or_introl Hi)); unfold raw in *; lia|].
    destruct (Hin r i Hi) as [Hi'|[-> ->]]; [pose proof (F r i (or_intror Hi')); unfold raw in *; lia|lia].
  - unfold raw in *. lia.
Qed.

(** Removing a value-change callback of the map. *)
Lemma held_remove L k H n raw info :
  held_inv L k H n -> valueCbMap k !! raw = Some info -> raw ∉ willRemoveValueCb k ->
  let id := e_id (cbData info) in
  held_inv L (set_handle_cells (delete id (handle_cells k)) (set_willRemoveValueCb (willRemoveValueCb k ++ [raw]) k))
    (delete id H) (n + 1).
Proof.
  intros [A B Cv D E F G] Hi Hr id. destruct (Cv raw info (or_introl (conj Hi Hr))) as (Hh & Hc & Hcell).
  split; cbn; try done; [| |lia].
  - intros e He. destruct (B e He) as [He1 He2]. split; [|done]. rewrite lookup_delete_ne; [done|].
    unfold id. intros Ee. rewrite <- Ee, Hh in He1. congruence.
  - intros r i Hl. assert (Hl' : live_value k r i /\ r <> raw).
    { destruct Hl as [[Hl Hn]|Hl]; cbn in *; [split; [left; split; [done|]|]; set_solver|].
      split; [by right|]. intros ->. rewrite (E raw i Hl) in Hi. done. }
    destruct Hl' as [Hl' Hne]. destruct (Cv r i Hl') as (H1 & H2 & H3).
    assert (id <> e_id (cbData i)). { unfold id. intros Ee. rewrite <- Ee, Hcell in H3. congruence. }
    rewrite !lookup_delete_ne by done. done.
Qed.

Definition own_inv (own : option Z) (k : Kernel) : Prop :=
  match own with
  | None => True
  | Some id => exists raw info, valueCbMap k !! raw = Some info /\ e_id (cbData info) = id /\ raw ∉ willRemoveValueCb k
  end.

Ltac vl_passed := match goal with |- context [assert_ ?b _] => destruct b; cbn [assert_]; mrun; [|done] end.

Lemma store_cb_held L id cb H n (st st' : KState S) :
  held_inv L (kern st) H n -> H !! id = None -> n + 1 < 2 ^ 32 -> store_cb id cb st = Ret tt st' ->
  held_inv L (kern st') (<[id := cb]> H) (n + 1) /\ client st' = client st /\ untouched (kern st') = untouched (kern st) /\
  willRemoveValueCb (kern st') = willRemoveValueCb (kern st).
Proof.
  intros Hk Hid Hn. unfold store_cb, vl_fatal, k_get, k_mod.
  assert (Hq : is_change cb = false -> forall k', untouched k' = untouched (kern st) ->
    (one_shots L k' = one_shots L (kern st) \/ one_shots L k' ≡ₚ mkEntry id cb :: one_shots L (kern st)) ->
    (valueCbMap k', willAppendValueCb k', willRemoveValueCb k', handle_cells k', vpiHandleAllcator k') =
    (valueCbMap (kern st), willAppendValueCb (kern st), willRemoveValueCb (kern st), handle_cells (kern st), vpiHandleAllcator (kern st)) ->
    held_inv L k' (<[id := cb]> H) (n + 1) /\ client st = client st /\ untouched k' = untouched (kern st) /\
    willRemoveValueCb k' = willRemoveValueCb (kern st)).
  { intros Hc k' Hu HO HE. split_and!; [by apply (held_queue L (kern st) H n)|done..|by injection HE]. }
  destruct (Z.eqb_spec (reason cb) cbStartOfSimulation) as [E|_].
  { mrun. vl_passed. intros [= <-]. apply Hq; [unfold is_change; by rewrite E|done|by left|done]. }
  destruct (Z.eqb_spec (reason cb) cbEndOfSimulation) as [E|_].
  { mrun. destruct (endOfSimulationCb (kern st)) as [|] eqn:Ec; [done|]. cbn [bool_decide assert_]. mrun. intros [= <-].
    apply Hq; [unfold is_change; by rewrite E|done| |done]. unfold one_shots, ending. cbn. rewrite Ec.
    destruct (end_called (kern st)); [by left|right]. cbn. solve_Permutation. }
  destruct (Z.eqb_spec (reason cb) cbValueChange) as [E|_].
  { do 2 vl_passed. intros [= <-]. split; [|done]. apply held_value; [done|done|unfold is_change; by rewrite E|done]. }
  destruct (Z.eqb_spec (reason cb) cbAfterDelay) as [E|Hd].
  { vl_passed. intros [= <-]. cbn [kern client]. case_match; (apply Hq; [unfold is_change; by rewrite E|done|..|done]); [by left|right].
    unfold one_shots. cbn. rewrite map_app. cbn. solve_Permutation. }
  destruct (Z.eqb_spec (reason cb) cbNextSimTime) as [E|Hn']; [|done].
  vl_passed. intros [= <-]. apply Hq; [unfold is_change; by rewrite E|done|right|done].
  unfold one_shots. cbn. solve_Permutation.
Qed.

(** What becomes of the removals: only the callback's own entry is added. *)
Definition only_own (own : option Z) (k k' : Kernel) : Prop :=
  forall raw, raw ∈ willRemoveValueCb k' -> raw ∈ willRemoveValueCb k \/
    exists info, own = Some (e_id (cbData info)) /\ valueCbMap k !! raw = Some info.

Lemma untouched_map k k' : untouched k' = untouched k -> valueCbMap k' = valueCbMap k.
Proof. intros E. by injection E. Qed.

Lemma apply_calls_held cs own L H n (st st' : KState S) :
  held_inv L (kern st) H n -> lawful own H cs -> own_inv own (kern st) -> n + Z.of_nat (length cs) < 2 ^ 32 ->
  for_each cs apply_call st = Ret tt st' ->
  held_inv L (kern st') (holds_after H cs) (n + Z.of_nat (length cs)) /\ client st' = client st /\
  untouched (kern st') = untouched (kern st) /\ only_own own (kern st) (kern st').
Proof.
  unfold only_own. revert own H n st. induction cs as [|c cs IH]; intros own H n st Hk Hl Ho Hn; cbn [for_each length].
  { intros [= <-]. rewrite Z.add_0_r. split_and!; [done..|by left]. }
  rewrite Nat2Z.inj_succ. replace (n + Z.succ _) with (n + 1 + Z.of_nat (length cs)) by lia. cbn [length] in Hn.
  intros ([] & st1 & E1 & E2)%bind_Ret_inv. destruct c as [id cb|id|h| |i]; cbn [apply_call lawful] in *; [..|done|done].
  - destruct Hl as [Hid Hl]. unfold vpi_register_cb in E1. revert E1. mrun. intros ([] & st2 & E1 & [= <-])%bind_Ret_inv.
    destruct (store_cb_held L id cb H n st st2 Hk Hid ltac:(lia) E1) as (Hk1 & Hc1 & Hu1 & Hr1).
    assert (Ho1 : own_inv own (kern st2)).
    { destruct own; [|done]. destruct Ho as (raw & info & H1 & H2 & H3). exists raw, info.
      by rewrite (untouched_map _ _ Hu1), Hr1. }
    destruct (IH own _ _ st2 Hk1 Hl Ho1 ltac:(lia) E2) as (Hk2 & Hc2 & Hu2 & Hr2). split_and!; [done|congruence..|].
    intros raw Hraw. destruct (Hr2 raw Hraw) as [?|(info & ? & Hi)]; [left; congruence|right]. exists info.
    by rewrite <- (untouched_map _ _ Hu1).
  - revert E1. unfold vpi_remove_cb, vl_fatal. destruct (Z.eqb_spec id 0) as [|Hid0]; cbn [negb assert_]; mrun; [done|].
    destruct Hl as [?|[-> Hl]]; [done|]. destruct Ho as (raw & info & Hi & <- & Hr).
    destruct (h_value _ _ _ _ Hk raw info (or_introl (conj Hi Hr))) as (_ & _ & Hcell).
    unfold k_get, k_mod. mrun.
    rewrite Hcell. unfold modify. cbv beta iota zeta. rewrite bool_decide_true by eauto. intros [= <-].
    destruct (IH None _ _ (mkKState _ (client st)) (held_remove L _ H n raw info Hk Hi Hr) Hl I ltac:(lia) E2) as (Hk2 & Hc2 & Hu2 & Hr2).
    split_and!; [done..|]. intros r Hin. destruct (Hr2 r Hin) as [Hin'|(? & Ho & _)]; [|by discriminate Ho]. cbn in Hin'.
    apply elem_of_app in Hin' as [?|Er]; [by left|right]. apply list_elem_of_singleton in Er as ->. by exists info.
  - revert E1. unfold vpi_free_object, vl_fatal. destruct (Z.eqb_spec h 0); [|done]. intros [= <-]. destruct Hl as [?|Hl]; [done|].
    assert (Hk1 : held_inv L (kern st) H (n + 1)) by (destruct Hk; split; try done; lia).
    by apply (IH own H (n + 1) st Hk1 Hl Ho ltac:(lia) E2).
Qed.

Lemma applied_not_refused cs (st st' : KState S) : for_each cs apply_call st = Ret tt st' -> ~ Exists refused cs.
Proof.
  revert st. induction cs as [|c cs IH]; intros st; cbn [for_each]; [intros _ H; inversion H|].
  intros ([] & st1 & E1 & E2)%bind_Ret_inv [Hc|Hcs]%Exists_cons; [|by apply (IH st1 E2)].
  destruct c; cbn [refused] in Hc; try done; revert E1; cbn [apply_call]; unfold vpi_remove_cb, vpi_free_object, vl_fatal.
  - by subst.
  - destruct (Z.eqb_spec h 0); done.
Qed.

(** ** Calls *)

Definition grown (st st' : KState S) : Prop := made (client st) <= made (client st').

#[local] Instance grown_preorder : PreOrder grown.
Proof. split; [intros ?; unfold grown; lia|intros ???; unfold grown; lia]. Qed.

Definition same_client (st st' : KState S) : Prop := client st' = client st.

#[export] Instance same_client_preorder : PreOrder same_client.
Proof. split; [done|intros ??? H1 H2; unfold same_client in *; congruence]. Qed.

Lemma apply_call_client c : keeps same_client (apply_call c).
Proof.
  destruct c; cbn [apply_call]; unfold vpi_register_cb, store_cb, vpi_remove_cb, vpi_free_object, vpi_put_value, vl_fatal, k_get, k_mod; keeps_tac;
    apply keeps_modify; done.
Qed.

Definition kept_inv (L : list Entry) (st : KState S) : Prop := held_inv L (kern st) (hold (client st)) (made (client st)).

Lemma held_pass e L k H n : held_inv (e :: L) k H n -> held_inv L k (delete (e_id e) H) n.
Proof.
  intros [A B Cv D E F G]. assert (P : one_shots (e :: L) k = e :: one_shots L k) by done. rewrite P in *.
  cbn in A. inversion_clear A as [|? ? A1 A2]. destruct (B e) as [Hh Hc]; [set_solver|]. split; try done.
  - intros e' He. destruct (B e') as [H1 H2]; [set_solver|]. split; [|done]. rewrite lookup_delete_ne; [done|].
    intros Ee. apply A1. rewrite Ee. apply list_elem_of_fmap. by exists e'.
  - intros raw info Hl. destruct (Cv raw info Hl) as (H1 & H2 & H3). split_and!; [|done..].
    rewrite lookup_delete_ne; [done|]. intros Ee. rewrite <- Ee, Hh in H1. injection H1 as Ec. rewrite Ec in Hc. congruence.
Qed.

Abbreviation gcall := (call (Client0 := guard_client)).

Lemma call_held L own e z (st st' : KState S) :
  disciplined -> hold (client st) !! e_id e = Some (e_cb e) -> own_of e = own -> own_inv own (kern st) ->
  held_inv L (kern st) (passed e (hold (client st))) (made (client st)) ->
  call e z st = Ret tt st' -> made (client st') < 2 ^ 32 ->
  gcall e z st = Ret tt st' /\ kept_inv L st' /\ untouched (kern st') = untouched (kern st) /\ only_own own (kern st) (kern st').
Proof.
  intros [Dm Dc] Hh <- Ho Hk. unfold call, kept_inv. cbn. rewrite decide_True by done.
  destruct (cb_call (k_index (kern st)) e z (client st)) as [[cs s']|] eqn:E; [|done]. intros Er Hm.
  destruct (Dc _ _ _ _ _ _ Hh E) as [Hl [Hs|Hs]]; [by destruct (applied_not_refused _ _ _ Er)|]. pose proof (Dm _ _ _ _ _ _ E) as Hmade. split; [done|].
  pose proof (keeps_for_each same_client cs apply_call apply_call_client (mkKState (kern st) s')) as Hcl.
  rewrite Er in Hcl. unfold same_client in Hcl. cbn in Hcl.
  subst s'. destruct (apply_calls_held cs _ L _ _ (mkKState _ _) st' Hk Hl Ho ltac:(lia) Er) as (Hk2 & _ & Hu & Hr).
  rewrite Hs, Hmade. done.
Qed.

Lemma only_own_none k1 k2 k3 : only_own None k1 k2 -> only_own None k2 k3 -> only_own None k1 k3.
Proof. intros H1 H2 raw Hr. destruct (H2 raw Hr) as [Hr'|(? & Ho & _)]; [by apply H1|discriminate Ho]. Qed.

Lemma only_own_empty k1 k2 : only_own None k1 k2 -> willRemoveValueCb k1 = [] -> willRemoveValueCb k2 = [].
Proof.
  intros H E. apply elem_of_nil_inv. intros r Hr. destruct (H r Hr) as [Hr'|(? & Ho & _)]; [|discriminate Ho].
  rewrite E in Hr'. by apply elem_of_nil in Hr'.
Qed.

Lemma grown_call e z : disciplined -> keeps grown (call e z).
Proof.
  intros [Dm _] st. unfold call. destruct (cb_call _ _ _ _) as [[cs s']|] eqn:E; [|unfold grown; lia].
  pose proof (keeps_for_each same_client cs apply_call apply_call_client (mkKState (kern st) s')) as Hc.
  pose proof (Dm _ _ _ _ _ _ E). unfold same_client, grown in *. destruct (for_each _ _ _); cbn in *; [rewrite Hc; lia|rewrite Hc; lia|done..].
Qed.

Lemma grown_mod f : keeps grown (k_mod f).
Proof. intros st. unfold grown. cbn. lia. Qed.

#[local] Hint Resolve grown_call grown_mod : keeps.

Lemma grown_ret {A} (m : KM A) st a st' : keeps grown m -> m st = Ret a st' -> grown st st'.
Proof. intros H E. specialize (H st). by rewrite E in H. Qed.

(** One-shot callbacks called one after the other. *)
Lemma calls_once es L (st st' : KState S) :
  disciplined -> kept_inv (es ++ L) st -> for_each es (fun e => call e 0) st = Ret tt st' -> made (client st') < 2 ^ 32 ->
  for_each es (fun e => gcall e 0) st = Ret tt st' /\ kept_inv L st' /\ untouched (kern st') = untouched (kern st) /\
  only_own None (kern st) (kern st').
Proof.
  intros Hd. revert st. induction es as [|e es IH]; intros st Hk; cbn [for_each].
  { intros [= <-] _. split_and!; [done..|by left]. }
  intros ([] & st1 & E1 & E2)%bind_Ret_inv Hm.
  pose proof (grown_ret (for_each es (fun e => call e 0)) st1 tt st' ltac:(keeps_tac) E2) as Hg. unfold grown in Hg.
  destruct (h_once _ _ _ _ Hk e) as [Hh Hc]; [by left|].
  destruct (call_held (es ++ L) None e 0 st st1 Hd Hh) as (G1 & K1 & U1 & R1); [unfold own_of; by rewrite Hc|done| |done|lia|].
  { unfold passed. rewrite Hc. by apply held_pass. }
  destruct (IH st1 K1 E2 Hm) as (G2 & K2 & U2 & R2). rewrite (bind_Ret _ _ _ _ _ G1). split_and!; [done..|congruence|].
  by apply (only_own_none _ (kern st1)).
Qed.

(** ** The one-shot callbacks of [timeCbMap] *)

Definition entries (m : gmap Z (list Entry)) : list Entry := concat (map snd (map_to_list m)).

Lemma entries_delete m j es : m !! j = Some es -> entries m ≡ₚ es ++ entries (delete j m).
Proof. intros E. unfold entries. by rewrite <- (map_to_list_delete m j es E). Qed.

Lemma entries_insert m j es : m !! j = None -> entries (<[j := es]> m) ≡ₚ es ++ entries m.
Proof. intros E. unfold entries. by rewrite (map_to_list_insert m j es E). Qed.

Lemma entries_add m j e : entries (<[j := default [] (m !! j) ++ [e]]> m) ≡ₚ e :: entries m.
Proof.
  destruct (m !! j) as [es|] eqn:E; cbn.
  - rewrite <- (insert_delete_eq m j (es ++ [e])), entries_insert by apply lookup_delete_eq. rewrite (entries_delete m j es E). solve_Permutation.
  - rewrite entries_insert by done. solve_Permutation.
Qed.

Lemma entries_append q m :
  entries (fold_left (fun m '(i, e) => <[i := default [] (m !! i) ++ [e]]> m) q m) ≡ₚ entries m ++ map snd q.
Proof.
  revert m. induction q as [|[i e] q IH]; intros m; cbn; [by rewrite app_nil_r|]. rewrite IH, entries_add. solve_Permutation.
Qed.

Definition value_part (k : Kernel) := (valueCbMap k, willAppendValueCb k, willRemoveValueCb k, handle_cells k, vpiHandleAllcator k).

Lemma held_same L L' k k' H n :
  held_inv L k H n -> one_shots L' k' ≡ₚ one_shots L k -> value_part k' = value_part k -> held_inv L' k' H n.
Proof.
  intros [A B Cv D E F G] HO Ek. injection Ek as E1 E2 E3 E4 E5. split; rewrite ?E1, ?E2, ?E3, ?E4, ?E5; try done.
  - by rewrite HO.
  - intros e. rewrite HO. apply B.
  - intros raw info Hl. unfold live_value in Hl. rewrite E1, E2, E3 in Hl. by apply Cv.
Qed.

(** ** The phases *)

(** What the kernel has to call at an index or later. *)
Definition all_once (k : Kernel) : list Entry := entries (timeCbMap k) ++ nextSimTimeQueue k.

Record clean (st : KState S) : Prop := {
  c_held : kept_inv (all_once (kern st)) st;
  c_removed : willRemoveValueCb (kern st) = []
}.

Lemma fold_for_each_made {A} (l : list A) (f : A -> KM unit) (st st' : KState S) :
  (forall a, keeps grown (f a)) -> for_each l f st = Ret tt st' -> made (client st) <= made (client st').
Proof. intros Hf E. apply (grown_ret (for_each l f) st tt st'); [apply keeps_for_each; [apply _|exact Hf]|exact E]. Qed.

Definition visit (C1 : Client S) '(i, cbs) : KM unit :=
  let! index := k_get k_index in
  when (i <=? index)
    (for_each cbs (fun e => call (Client0 := C1) e 0) ;; k_mod (fun k => set_timeCbMap (delete i (timeCbMap k)) k)).

Lemma visit_eq C1 j es (st : KState S) :
  visit C1 (j, es) st =
  if j <=? k_index (kern st)
  then (for_each es (fun e => call (Client0 := C1) e 0) ;; k_mod (fun k => set_timeCbMap (delete j (timeCbMap k)) k)) st
  else Ret tt st.
Proof. unfold visit, k_get. mrun. by destruct (j <=? _). Qed.

Lemma visit_grown p : disciplined -> keeps grown (visit C p).
Proof. intros Hd. destruct p. unfold visit, k_get. keeps_tac. Qed.

Lemma time_held l (st st' : KState S) :
  disciplined -> clean st -> NoDup l.*1 -> (forall j es, (j, es) ∈ l -> timeCbMap (kern st) !! j = Some es) ->
  for_each l (visit C) st = Ret tt st' -> made (client st') < 2 ^ 32 ->
  for_each l (visit guard_client) st = Ret tt st' /\ clean st'.
Proof.
  intros Hd. revert st. induction l as [|[j es] l IH]; intros st Hc Hn Hl; cbn [for_each].
  { by intros [= <-]. }
  rewrite fmap_cons in Hn. inversion_clear Hn as [|? ? Hj Hn']. cbn in Hj.
  intros ([] & st1 & E1 & E2)%bind_Ret_inv Hm.
  pose proof (fold_for_each_made l (visit C) st1 st' (fun p => visit_grown p Hd) E2) as Hg.
  revert E1. unfold bind at 1. rewrite !visit_eq. destruct (j <=? k_index (kern st)).
  - intros ([] & st2 & E1 & [= <-])%bind_Ret_inv. pose proof (Hl j es ltac:(by left)) as Hlk.
    assert (Hk : kept_inv (es ++ entries (delete j (timeCbMap (kern st))) ++ nextSimTimeQueue (kern st)) st).
    { apply (one_shots_perm (all_once (kern st))); [|apply Hc]. unfold all_once. by rewrite (entries_delete _ j es Hlk), app_assoc. }
    destruct (calls_once es _ st st2 Hd Hk E1) as (G1 & K1 & U1 & R1); [cbn in Hg; lia|].
    injection U1 as _ _ _ UT UN _.
    set (st3 := mkKState (set_timeCbMap (delete j (timeCbMap (kern st2))) (kern st2)) (client st2)) in *.
    assert (Hc3 : clean st3).
    { split; [|by apply (only_own_empty _ _ R1), Hc].
      apply (held_same _ _ _ _ _ _ K1); [|done]. unfold one_shots, all_once. cbn. by rewrite UT, UN. }
    destruct (IH st3 Hc3 Hn') as [G2 K2]; [|exact E2|exact Hm|].
    + cbn. intros j' es' Hin. rewrite UT, lookup_delete_ne; [apply Hl; by right|].
      intros ->. apply Hj. change j' with (fst (j', es')). by apply list_elem_of_fmap_2.
    + rewrite (bind_Ret _ _ _ _ _ G1). by split.
  - intros [= <-]. apply IH; try done. intros j' es' Hin. apply Hl. by right.
Qed.

Lemma held_refresh L k H n h info info' :
  held_inv L k H n -> valueCbMap k !! h = Some info -> cbData info' = cbData info ->
  held_inv L (set_valueCbMap (<[h := info']> (valueCbMap k)) k) H n.
Proof.
  intros [A B Cv D E F G] Hi Hd. split; cbn; try done.
  - intros raw i Hl. unfold live_value in Hl. cbn in Hl. destruct (decide (h = raw)) as [<-|Hne].
    + rewrite lookup_insert_eq in Hl. destruct Hl as [[[= <-] Hr]|Hl].
      * rewrite Hd. apply (Cv h info). by left.
      * apply Cv. by right.
    + rewrite lookup_insert_ne in Hl by done. by apply Cv.
  - intros raw i Hl. rewrite lookup_insert_ne; [by apply (E raw i)|]. intros <-. rewrite (E h i Hl) in Hi. done.
  - intros raw i [Hl|Hl]; [|by apply (F raw i); right]. destruct (decide (h = raw)) as [<-|Hne].
    + apply (F h info). by left.
    + rewrite lookup_insert_ne in Hl by done. apply (F raw i). by left.
Qed.

(** A value-change callback is called, and may have removed itself: the other
    entries are still live. *)
Lemma call_own L h info z (st st' : KState S) :
  disciplined -> kept_inv L st -> valueCbMap (kern st) !! h = Some info -> h ∉ willRemoveValueCb (kern st) ->
  call (cbData info) z st = Ret tt st' -> made (client st') < 2 ^ 32 ->
  gcall (cbData info) z st = Ret tt st' /\ kept_inv L st' /\ untouched (kern st') = untouched (kern st) /\
  forall r i, r <> h -> valueCbMap (kern st) !! r = Some i -> r ∉ willRemoveValueCb (kern st) -> r ∉ willRemoveValueCb (kern st').
Proof.
  intros Hd Hk Hi Hr E Hm. destruct (h_value _ _ _ _ Hk h info (or_introl (conj Hi Hr))) as (Hh & Hc & Hcell).
  destruct (call_held L (Some (e_id (cbData info))) (cbData info) z st st' Hd Hh) as (G & K & U & R).
  - unfold own_of. by rewrite Hc.
  - by exists h, info.
  - unfold passed. by rewrite Hc.
  - exact E.
  - exact Hm.
  - split_and!; try done. intros r i Hne Hri Hrr Hin. destruct (R r Hin) as [?|(i' & Ei & Hi')]; [done|].
    destruct (h_value _ _ _ _ Hk r i' (or_introl (conj Hi' Hrr))) as (_ & _ & Hcell'). injection Ei as Ei. rewrite <- Ei, Hcell in Hcell'. congruence.
Qed.

Definition check (C1 : Client S) '(h, info) : KM unit := check_value (Client0 := C1) h info.

Lemma check_eq C1 h info (st : KState S) :
  let new := value_str (cb_handle info) (k_index (kern st)) in
  check C1 (h, info) st =
  if decide (new = valueStr info) then Ret tt st
  else match stoi new with
    | None => Panic "terminate called after throwing an instance of 'std::invalid_argument'"
        (mkKState (set_valueCbMap (<[h := mkValueCb (cbData info) (cb_handle info) new]> (valueCbMap (kern st))) (kern st)) (client st))
    | Some v => call (Client0 := C1) (cbData info) v
        (mkKState (set_valueCbMap (<[h := mkValueCb (cbData info) (cb_handle info) new]> (valueCbMap (kern st))) (kern st)) (client st))
    end.
Proof.
  unfold check, check_value, k_get, k_mod. mrun. destruct (decide _); [by rewrite bool_decide_true|].
  rewrite bool_decide_false by done. cbn [negb when]. mrun. by destruct (stoi _).
Qed.

Lemma check_grown p : disciplined -> keeps grown (check C p).
Proof. intros Hd. destruct p. unfold check, check_value, k_get. keeps_tac. Qed.

Lemma value_held L l (st st' : KState S) :
  disciplined -> kept_inv L st -> NoDup l.*1 ->
  (forall h info, (h, info) ∈ l -> valueCbMap (kern st) !! h = Some info /\ h ∉ willRemoveValueCb (kern st)) ->
  for_each l (check C) st = Ret tt st' -> made (client st') < 2 ^ 32 ->
  for_each l (check guard_client) st = Ret tt st' /\ kept_inv L st' /\
  timeCbMap (kern st') = timeCbMap (kern st) /\ nextSimTimeQueue (kern st') = nextSimTimeQueue (kern st).
Proof.
  intros Hd. revert st. induction l as [|[h info] l IH]; intros st Hk Hn Hl; cbn [for_each].
  { by intros [= <-]. }
  rewrite fmap_cons in Hn. inversion_clear Hn as [|? ? Hj Hn']. cbn in Hj.
  intros ([] & st1 & E1 & E2)%bind_Ret_inv Hm.
  pose proof (fold_for_each_made l (check C) st1 st' (fun p => check_grown p Hd) E2) as Hg.
  destruct (Hl h info ltac:(by left)) as [Hi Hr].
  revert E1. unfold bind at 1. rewrite !check_eq. destruct (decide _) as [Es|Es].
  - intros [= <-]. apply IH; try done. intros h' i' Hin. apply Hl. by right.
  - destruct (stoi _) as [v|]; [|done]. intros E1.
    set (new := mkValueCb (cbData info) (cb_handle info) _) in *. set (st0 := mkKState _ (client st)) in E1 |- *.
    assert (Hk0 : kept_inv L st0) by by apply (held_refresh L _ _ _ h info).
    assert (Hi0 : valueCbMap (kern st0) !! h = Some new) by apply lookup_insert_eq.
    destruct (call_own L h new v st0 st1 Hd Hk0 Hi0 Hr E1 ltac:(lia)) as (G1 & K1 & U1 & R1). injection U1 as _ _ _ UT UN UV.
    destruct (IH st1 K1 Hn') as (G2 & K2 & T2 & N2); [|done|done|].
    + intros h' i' Hin. assert (Hne : h' <> h).
      { intros ->. apply Hj. change h with (fst (h, i')). by apply list_elem_of_fmap_2. }
      destruct (Hl h' i') as [Hi' Hr']; [by right|].
      assert (Hs : valueCbMap (kern st0) !! h' = Some i') by (cbn; by rewrite lookup_insert_ne).
      split; [rewrite UV; exact Hs|]. by apply (R1 h' i').
    + cbn in G1. rewrite G1. split_and!; [done..|by rewrite T2, UT|by rewrite N2, UN].
Qed.

(** ** Appending and removing *)

Lemma fold_delete_lookup {A} (l : list Z) (m : gmap Z A) h a :
  fold_left (fun m h => delete h m) l m !! h = Some a <-> m !! h = Some a /\ h ∉ l.
Proof.
  revert m. induction l as [|x l IH]; intros m; cbn [fold_left]; [set_solver|]. rewrite IH, lookup_delete_Some. set_solver.
Qed.

Lemma fold_insert_lookup {A} (l : list (Z * A)) (m : gmap Z A) h a :
  fold_left (fun m '(h, i) => <[h := i]> m) l m !! h = Some a -> m !! h = Some a \/ (h, a) ∈ l.
Proof.
  revert m. induction l as [|[x b] l IH]; intros m; cbn [fold_left]; [by left|]. intros E.
  destruct (IH _ E) as [E'|?]; [|right; by right]. destruct (decide (x = h)) as [->|Hne].
  - rewrite lookup_insert_eq in E'. injection E' as ->. right. by left.
  - rewrite lookup_insert_ne in E' by done. by left.
Qed.

Lemma held_removed L k H n :
  held_inv L k H n ->
  held_inv L (set_willRemoveValueCb [] (set_valueCbMap (fold_left (fun m h => delete h m) (willRemoveValueCb k) (valueCbMap k)) k)) H n.
Proof.
  intros [A B Cv D E F G]. split; cbn; try done.
  - intros raw i [[Hl _]|Hl]; [|apply Cv; by right]. cbn in Hl. apply fold_delete_lookup in Hl as [? ?]. apply Cv. by left.
  - intros raw i Hi. destruct (fold_left _ _ _ !! raw) as [i'|] eqn:Ef; [|done]. apply fold_delete_lookup in Ef as [Hm _].
    rewrite (E raw i Hi) in Hm. done.
  - intros raw i [Hl|Hl]; [|apply (F raw i); by right]. apply fold_delete_lookup in Hl as [? _]. apply (F raw i). by left.
Qed.

Lemma held_appended L k H n :
  held_inv L k H n -> willRemoveValueCb k = [] ->
  held_inv L (set_willAppendValueCb [] (set_valueCbMap (fold_left (fun m '(h, i) => <[h := i]> m) (willAppendValueCb k) (valueCbMap k)) k)) H n.
Proof.
  intros [A B Cv D E F G] Hr. split; cbn; try done; [|constructor| |].
  - intros raw i [[Hl Hn]|Hl]; cbn in Hl; [|by apply elem_of_nil in Hl]. apply fold_insert_lookup in Hl as [Hl|Hl]; apply Cv; [by left|by right].
  - intros raw i Hl. by apply elem_of_nil in Hl.
  - intros raw i [Hl|Hl]; [|by apply elem_of_nil in Hl]. apply fold_insert_lookup in Hl as [Hl|Hl]; apply (F raw i); [by left|by right].
Qed.

Lemma append_times_held L k H n :
  held_inv L k H n -> L ≡ₚ all_once k ->
  let k' := set_willAppendTimeCbQueue [] (set_timeCbMap
    (fold_left (fun m '(i, e) => <[i := default [] (m !! i) ++ [e]]> m) (willAppendTimeCbQueue k) (timeCbMap k)) k) in
  held_inv (all_once k') k' H n.
Proof.
  intros Hk HL k'. apply (held_same L _ k); [done| |done]. unfold one_shots, all_once, k'. cbn. rewrite HL. unfold all_once.
  rewrite entries_append. solve_Permutation.
Qed.

Lemma next_held (st st' : KState S) :
  disciplined -> kept_inv (all_once (kern st)) st ->
  next_phase st = Ret tt st' -> made (client st') < 2 ^ 32 ->
  next_phase (Client0 := guard_client) st = Ret tt st' /\ kept_inv (all_once (kern st')) st'.
Proof.
  intros Hd Hk. unfold next_phase, appendNextSimTimeCb, k_get, k_mod. mrun. intros ([] & st1 & E1 & E2)%bind_Ret_inv Hm.
  revert E2. mrun. intros [= <-]. cbn in Hm.
  assert (Hk' : kept_inv (nextSimTimeQueue (kern st) ++ entries (timeCbMap (kern st))) st).
  { apply (one_shots_perm (all_once (kern st))); [|done]. unfold all_once. solve_Permutation. }
  destruct (calls_once _ _ st st1 Hd Hk' E1 Hm) as (G1 & K1 & U1 & _). injection U1 as _ _ _ UT _ _. mrun G1. split; [done|].
  apply (held_same _ _ _ _ _ _ K1); [|done]. unfold one_shots, all_once. cbn. rewrite UT. solve_Permutation.
Qed.

Lemma value_phase_held (st st' : KState S) :
  disciplined -> hash_iter_ok -> kept_inv (all_once (kern st)) st -> willRemoveValueCb (kern st) = [] ->
  value_phase st = Ret tt st' -> made (client st') < 2 ^ 32 ->
  value_phase (Client0 := guard_client) st = Ret tt st' /\ kept_inv (all_once (kern st')) st'.
Proof.
  intros Hd Hh Hk Hr. unfold value_phase, k_get at 1. mrun. intros E Hm.
  destruct (value_held (all_once (kern st)) (hash_iter (valueCbMap (kern st))) st st' Hd Hk) as (G & K & T & N);
    [by apply hash_iter_keys| |exact E|exact Hm|].
  - intros h info Hi%(hash_iter_elem _ _ _ Hh). rewrite Hr. split; [done|apply not_elem_of_nil].
  - unfold k_get at 1. mrun. split; [exact G|]. unfold all_once. by rewrite T, N.
Qed.

(** Between two iterations. *)
Lemma iteration_held (st st' : KState S) :
  disciplined -> hash_iter_ok -> clean st -> iteration st = Ret tt st' -> made (client st') < 2 ^ 32 ->
  iteration (Client0 := guard_client) st = Ret tt st' /\ clean st'.
Proof.
  intros Hd Hh Hc. unfold iteration. intros ([] & st1 & E1 & E)%bind_Ret_inv Hm.
  revert E. unfold appendTimeCb, k_mod at 1. mrun. intros ([] & st3 & E3 & E)%bind_Ret_inv.
  revert E. intros ([] & st4 & E4 & E)%bind_Ret_inv.
  revert E. unfold removeValueCb, appendValueCb, k_mod. mrun. intros [= <-]. cbn in Hm.
  assert (G4 : grown st3 st4).
  { apply (grown_ret next_phase _ tt); [|done]. unfold next_phase, appendNextSimTimeCb, k_get. keeps_tac. }
  assert (G3 : grown st1 st3).
  { refine (grown_ret value_phase (mkKState _ (client st1)) tt st3 _ E3). unfold value_phase, check_value, k_get. keeps_tac. }
  unfold grown in *.
  revert E1. unfold time_phase at 1, k_get at 1. mrun. intros E1.
  destruct (time_held (hash_iter (timeCbMap (kern st))) st st1 Hd Hc) as [T1 C1];
    [by apply hash_iter_keys|by intros j es ?%(hash_iter_elem _ _ _ Hh)|exact E1|cbn in *; lia|].
  pose proof (append_times_held _ _ _ _ (c_held _ C1) (reflexivity _)) as K2.
  set (st2 := mkKState _ (client st1)) in *.
  destruct (value_phase_held st2 st3 Hd Hh K2 (c_removed _ C1) E3 ltac:(lia)) as (T3 & K3).
  destruct (next_held st3 st4 Hd K3 E4 Hm) as [T4 K4].
  split.
  - unfold time_phase at 1, k_get at 1. mrun T1. mrun T3. mrun T4. done.
  - split; [|done]. pose proof (held_appended _ _ _ _ (held_removed _ _ _ _ K4) eq_refl) as K5.
    by apply (held_same _ _ _ _ _ _ K5).
Qed.

Lemma loop_grown fuel : disciplined -> keeps grown (evaluation_loop fuel).
Proof.
  intros Hd. induction fuel as [|fuel IH]; cbn [evaluation_loop];
    unfold iteration, time_phase, appendTimeCb, value_phase, check_value, next_phase, appendNextSimTimeCb, removeValueCb, appendValueCb, k_get;
    keeps_tac; exact IH.
Qed.

Lemma loop_held fuel (st st' : KState S) :
  disciplined -> hash_iter_ok -> clean st -> evaluation_loop fuel st = Ret tt st' -> made (client st') < 2 ^ 32 ->
  evaluation_loop (Client0 := guard_client) fuel st = Ret tt st' /\ clean st'.
Proof.
  intros Hd Hh. revert st. induction fuel as [|fuel IH]; intros st Hc; cbn [evaluation_loop]; unfold k_get; mrun;
    destruct (_ && _); try done; try (by intros [= <-]).
  intros ([] & st1 & E1 & E2)%bind_Ret_inv Hm.
  pose proof (grown_ret _ _ _ _ (loop_grown fuel Hd) E2) as Hg. unfold grown in Hg.
  destruct (iteration_held st st1 Hd Hh Hc E1 ltac:(lia)) as [G1 C1]. rewrite (bind_Ret _ _ _ _ _ G1). by apply IH.
Qed.

(** ** The whole process *)

Lemma opt_held c L (st st' : KState S) :
  disciplined -> kept_inv (option_list c ++ L) st -> call_opt c st = Ret tt st' -> made (client st') < 2 ^ 32 ->
  call_opt (Client0 := guard_client) c st = Ret tt st' /\ kept_inv L st' /\ untouched (kern st') = untouched (kern st) /\
  only_own None (kern st) (kern st').
Proof.
  intros Hd Hk E Hm. destruct c as [e|]; cbn [call_opt option_list option_rect] in *.
  - destruct (calls_once [e] L st st' Hd Hk) as (G & K); [cbn [for_each]; by rewrite (bind_Ret _ _ _ _ _ E)|done|]. split; [|done].
    cbn [for_each] in G. revert G. by intros ([] & st1 & G & [= <-])%bind_Ret_inv.
  - injection E as <-. split_and!; [done..|by left].
Qed.

Lemma append_next_held k H n :
  held_inv (all_once k) k H n ->
  let k' := set_willAppendNextSimTimeQueue [] (set_nextSimTimeQueue (nextSimTimeQueue k ++ willAppendNextSimTimeQueue k) k) in
  held_inv (all_once k') k' H n.
Proof. intros Hk k'. apply (held_same _ _ _ _ _ _ Hk); [|done]. unfold one_shots, all_once, k', ending. cbn. solve_Permutation. Qed.

(** The kernel with the start-of-simulation callback still to be called. *)
Record boot_ready (st : KState S) : Prop := {
  bt_held : kept_inv (option_list (startOfSimulationCb (kern st)) ++ all_once (kern st)) st;
  bt_removed : willRemoveValueCb (kern st) = []
}.

Lemma start_held (st st' : KState S) :
  disciplined -> boot_ready st -> startOfSimulation st = Ret tt st' -> made (client st') < 2 ^ 32 ->
  startOfSimulation (Client0 := guard_client) st = Ret tt st' /\ clean st'.
Proof.
  intros Hd [Hk Hr]. unfold startOfSimulation, k_get. mrun. intros E Hm.
  destruct (opt_held _ _ _ _ Hd Hk E Hm) as (G & K & U & R). split; [done|].
  split; [|by apply (only_own_empty _ _ R)]. unfold all_once in *. injection U as _ _ _ -> -> _. done.
Qed.

Lemma end_held (st st' : KState S) :
  disciplined -> clean st -> endOfSimulation st = Ret tt st' -> made (client st') < 2 ^ 32 ->
  endOfSimulation (Client0 := guard_client) st = Ret tt st' /\ clean st'.
Proof.
  intros Hd [Hk Hr]. unfold endOfSimulation, k_get, k_mod. mrun. destruct (endOfSimulationCb (kern st)) as [e|] eqn:Ee.
  2:{ by intros [= <-]. }
  destruct (end_called (kern st)) eqn:Ec; cbn [negb]; [by intros [= <-]|]. mrun. intros E Hm.
  set (st1 := mkKState _ (client st)) in *.
  assert (kept_inv (option_list (Some e) ++ all_once (kern st)) st1) as K1.
  { apply (held_same _ _ _ _ _ _ Hk); [|done]. unfold one_shots, ending, st1. cbn. rewrite Ec, Ee. cbn. solve_Permutation. }
  destruct (opt_held (Some e) _ st1 st' Hd K1 E Hm) as (G & K & U & R). split; [done|].
  split; [|by apply (only_own_empty _ _ R)]. unfold all_once in *. injection U as _ _ _ -> -> _. done.
Qed.

Lemma appended_clean (st : KState S) : clean st -> exists st',
  (appendTimeCb ;; appendNextSimTimeCb ;; appendValueCb) st = Ret tt st' /\ client st' = client st /\ clean st'.
Proof.
  intros [Hk Hr]. unfold appendTimeCb, appendNextSimTimeCb, appendValueCb, k_mod. mrun. eexists. split; [done|]. split; [done|].
  split; [|done]. pose proof (held_appended _ _ _ _ (append_next_held _ _ _ (append_times_held _ _ _ _ Hk (reflexivity _))) Hr) as K.
  by apply (held_same _ _ _ _ _ _ K).
Qed.

(** The process after its registrations, in three parts. *)
Definition rest (C1 : Client S) (fuel : nat) (quick : bool) : KM unit :=
  if quick then endOfSimulation (Client0 := C1)
  else evaluation_loop (Client0 := C1) fuel ;; endOfSimulation (Client0 := C1).

Definition after_start (C1 : Client S) (fuel : nat) (hierarchy_only : bool) : KM unit :=
  appendTimeCb ;; appendNextSimTimeCb ;; appendValueCb ;;
  let! maxIndex := k_get k_maxIndex in
  rest C1 fuel (hierarchy_only || (maxIndex =? 0)).

Definition after_boot (C1 : Client S) (fuel : nat) (hierarchy_only : bool) : KM unit :=
  startOfSimulation (Client0 := C1) ;; after_start C1 fuel hierarchy_only.

Lemma loop_after_boot C1 fuel ho boot (st : KState S) :
  wave_vpi_loop (Client0 := C1) fuel ho boot st = (for_each boot apply_call ;; after_boot C1 fuel ho) st.
Proof. done. Qed.

Lemma end_grown : disciplined -> keeps grown endOfSimulation.
Proof. intros Hd. unfold endOfSimulation, call_opt, k_get. keeps_tac. Qed.

Lemma after_start_grown fuel ho : disciplined -> keeps grown (after_start C fuel ho).
Proof.
  intros Hd. pose proof (loop_grown fuel Hd). pose proof (end_grown Hd).
  unfold after_start, rest, appendTimeCb, appendNextSimTimeCb, appendValueCb, k_get. keeps_tac.
Qed.

Lemma rest_held fuel quick (st st' : KState S) :
  disciplined -> hash_iter_ok -> clean st -> rest C fuel quick st = Ret tt st' -> made (client st') < 2 ^ 32 ->
  rest guard_client fuel quick st = Ret tt st' /\ clean st'.
Proof.
  intros Hd Hh Hc. unfold rest. destruct quick; [by apply end_held|]. intros ([] & st1 & E1 & E2)%bind_Ret_inv Hm.
  pose proof (grown_ret _ _ _ _ (end_grown Hd) E2) as Hg. unfold grown in Hg.
  destruct (loop_held fuel st st1 Hd Hh Hc E1 ltac:(lia)) as [G1 C1]. rewrite (bind_Ret _ _ _ _ _ G1). by apply end_held.
Qed.

Lemma after_start_split fuel ho (st1 : KState S) : clean st1 -> exists st2 quick,
  client st2 = client st1 /\ clean st2 /\ forall C1, after_start C1 fuel ho st1 = rest C1 fuel quick st2.
Proof.
  intros Hc. destruct (appended_clean st1 Hc) as (st2 & E2 & Hcl & Hc2). exists st2, (ho || (k_maxIndex (kern st2) =? 0)).
  split; [done|]. split; [done|]. intros C1. unfold after_start.
  revert E2. unfold appendTimeCb, appendNextSimTimeCb, appendValueCb, k_mod, k_get. mrun. intros [= <-]. done.
Qed.

(** A run of the process: the start callback is called, then the rest runs, guarded or not. *)
Lemma process_runs fuel ho (st st' : KState S) :
  disciplined -> hash_iter_ok -> boot_ready st -> after_boot C fuel ho st = Ret tt st' -> made (client st') < 2 ^ 32 ->
  after_boot guard_client fuel ho st = Ret tt st' /\ clean st' /\
  exists st1 st2 quick, startOfSimulation st = Ret tt st1 /\ client st2 = client st1 /\ rest guard_client fuel quick st2 = Ret tt st'.
Proof.
  intros Hd Hh Hbt E Hm. unfold after_boot in *. apply bind_Ret_inv in E as ([] & st1 & E1 & E).
  pose proof (grown_ret _ _ _ _ (after_start_grown fuel ho Hd) E) as Hg. unfold grown in Hg.
  destruct (start_held st st1 Hd Hbt E1 ltac:(lia)) as [G1 C1].
  destruct (after_start_split fuel ho st1 C1) as (st2 & quick & Hcl & C2 & Ha). rewrite Ha in E.
  destruct (rest_held fuel quick st2 st' Hd Hh C2 E Hm) as [G C']. split; [|split; [done|by exists st1, st2, quick]].
  by rewrite (bind_Ret _ _ _ _ _ G1), Ha.
Qed.

(** C15: for a client that plays by the rules the waveform kernel calls registered
    callbacks only.  The rules ([disciplined]): a registration gets a handle that is
    not in use, a handler removes no callback but the value-change callback it is
    called for, and that at most once, and no handler moves the cursor.  Then, from the
    start callback through the evaluation loop to the end callback, every callback
    is registered when it is called - a one-shot callback is called at most once
    per registration, a value-change callback never after it was removed: the
    process with a guard that aborts at the call of an unregistered callback runs in
    the same way.  Without the rules this is false: a callback that another handler
    removes is still called in the same index ([removed_still_called]), and a
    removal by the handler that registered the callback is lost
    ([early_removal_lost]). *)
Theorem calls_only_registered fuel ho boot (st st1 st' : KState S) :
  disciplined -> hash_iter_ok -> for_each boot apply_call st = Ret tt st1 -> boot_ready st1 ->
  wave_vpi_loop fuel ho boot st = Ret tt st' -> made (client st') < 2 ^ 32 ->
  wave_vpi_loop (Client0 := guard_client) fuel ho boot st = Ret tt st' /\ clean st'.
Proof.
  intros Hd Hh Eb Hbt. rewrite !loop_after_boot, !(bind_Ret _ _ _ _ _ Eb). intros E Hm.
  by destruct (process_runs fuel ho st1 st' Hd Hh Hbt E Hm) as (G & K & _).
Qed.

End Contract.

(** ** Clients *)

Module ContractDemo.
Import KernelDemo.
#[local] Existing Instance demo_wave.

(** Registered callbacks and the number of registrations; the next-time callback
    registers itself again, the value-change callback removes itself and registers
    another. *)
Definition Reg : Type := gmap Z s_cb_data * Z.

#[local] Instance reg_holder : Holder Reg := {| hold := fst; made := snd |}.

Definition fresh_id (m : gmap Z s_cb_data) : Z := 1 + fold_right Z.max 0 (map fst (map_to_list m)).

#[local] Instance reg_client : Client Reg := {|
  cb_call i e z s :=
    let H := passed e (fst s) in
    let cs := if is_change (e_cb e) then [KRemove (e_id e); KRegister (fresh_id (delete (e_id e) H)) change_request]
              else [KRegister (fresh_id H) next_request] in
    Some (cs, (holds_after H cs, snd s + Z.of_nat (length cs)))
|}.

Lemma reg_disciplined : disciplined (S := Reg).
Proof.
  split.
  - intros i e z s cs s' [= <- <-]. done.
  - intros i e z s cs s' _ [= <- <-]. split; [|by right]. unfold own_of. destruct (is_change (e_cb e)); cbn; [right|]; split_and!; try done; apply max_key_fresh.
Qed.

(** The kernel with its two one-time callbacks still to be registered. *)
Definition start_request : s_cb_data := mkCb cbStartOfSimulation start_callback_rtn None 0 UdNull.
Definition end_request : s_cb_data := mkCb cbEndOfSimulation final_callback_rtn None 0 UdEnv.
Definition reg_boot : list KCall := [KRegister 3 start_request; KRegister 4 end_request].

Definition reg_kernel (start fin : option Entry) : Kernel :=
  mkKernel 0 5 50 false start fin false ∅ [] [mkEntry 1 next_request] [] {[0 := mkValueCb (mkEntry 2 change_request) 7 "0"]} [] [] 1 {[2 := 0]}.
Definition reg0 : KState Reg :=
  mkKState (reg_kernel None None) ({[1 := next_request; 2 := change_request; 3 := start_request; 4 := end_request]}, 4).
Definition reg1 : KState Reg :=
  mkKState (reg_kernel (Some (mkEntry 3 start_request)) (Some (mkEntry 4 end_request))) (client reg0).

Lemma reg1_ready : boot_ready reg1.
Proof.
  split; [|done]. split; cbn.
  - by apply (bool_decide_unpack _); vm_compute.
  - intros e He. repeat (apply elem_of_cons in He as [->|He]; [done|]). by apply elem_of_nil in He.
  - intros raw info [[Hl _]|Hl]; [|set_solver]. cbn in Hl. apply lookup_singleton_Some in Hl as [<- <-]. done.
  - constructor.
  - set_solver.
  - intros raw info [Hl|Hl]; [|set_solver]. apply lookup_singleton_Some in Hl as [<- <-]. done.
  - lia.
Qed.

Definition reg_end : KState Reg := match wave_vpi_loop 5 false reg_boot reg0 with Ret _ st => st | _ => reg0 end.

Lemma calls_only_registered_witness :
  wave_vpi_loop (Client0 := guard_client) 5 false reg_boot reg0 = Ret tt reg_end /\ clean reg_end /\ snd (client reg_end) = 20.
Proof.
  assert (E : wave_vpi_loop 5 false reg_boot reg0 = Ret tt reg_end) by (vm_compute; reflexivity).
  assert (M : snd (client reg_end) = 20) by (vm_compute; reflexivity).
  destruct (calls_only_registered 5 false reg_boot reg0 reg1 reg_end reg_disciplined (proj1 list_containers_ok)) as [G K];
    [vm_compute; reflexivity|exact reg1_ready|exact E|change (snd (client reg_end) < 2 ^ 32); rewrite M; lia|].
  by split_and!.
Defined.

(** A handler that removes a callback other than its own. *)
#[local] Instance hasty_client : Client unit := {|
  cb_call i e z s :=
    if is_change (e_cb e) then Some ([], s)
    else if reason (e_cb e) =? cbAfterDelay then Some ([KRemove 2], s)
    else Some ([KRegister 3 change_request; KRemove 3], s)
|}.

Definition hasty (times : gmap Z (list Entry)) (next : list Entry) : KState (Logged unit) :=
  mkKState (mkKernel 0 5 50 false None None false times [] next [] {[0 := mkValueCb (mkEntry 2 change_request) 7 "0"]} [] [] 1 {[2 := 0]})
    (mkLogged tt []).

Definition called (st : KState (Logged unit)) : list LogItem :=
  match evaluation_loop 5 st with Ret _ st' => log (client st') | _ => [] end.

(** At index 1 a delayed callback removes callback 2, whose signal changes at that
    index: it is called all the same, once. *)
Lemma removed_still_called :
  called (hasty {[1 := [mkEntry 5 delay_request]]} []) =
  [mkLog 1 (mkEntry 5 delay_request) 0 [KRemove 2]; mkLog 1 (mkEntry 2 change_request) 1 []].
Proof. vm_compute. reflexivity. Qed.

(** Callback 3 is registered and removed by the same handler: the removal is lost, and
    it is called at every change that follows. *)
Lemma early_removal_lost :
  map (fun x => (l_index x, e_id (l_entry x))) (called (hasty ∅ [mkEntry 1 next_request])) =
  [(0, 1); (1, 3); (1, 2); (3, 3); (3, 2)].
Proof. vm_compute. reflexivity. Qed.

End ContractDemo.
