(* ===== verification/WaveSystem.v ===== *)
(** * libverilua on the waveform kernel

    The two sides put together: the callbacks the kernel calls are the handlers of
    [libverilua] ([dispatch]), and the VPI calls a handler makes, read off its
    trace, are the calls the kernel gets.  [traced]: a handler changes the
    registered callbacks by the registrations and removals of its trace, and
    nothing else; hence the library is a disciplined client, the kernel calls
    registered callbacks only, and a run of the kernel is a run of the system of
    [Running.v]. *)

From S2P Require Import Prelude Bytes WaveKernel WaveKernelFacts WaveContract.
From S2P Require Import State Backend PutQueue Frame ValueGetters ValueSetters Handles Lifecycle.
From S2P Require Import Callbacks ChunkTask NativeClock EdgeEngine System SystemApi SystemOps SystemEvents VerilatorHelper Running Startup.
#[local] Open Scope Z_scope.

(** ** What a trace does to the registered callbacks *)

Fixpoint replay (evs : list Event) (H : gmap Z s_cb_data) : gmap Z s_cb_data :=
  match evs with
  | [] => H
  | EvRegister cb h :: evs => replay evs (if h =? 0 then H else <[h := cb]> H)
  | EvRemove h :: evs => replay evs (delete h H)
  | _ :: evs => replay evs H
  end.

(** Handles in use are not given out again. *)
Fixpoint fresh_along (evs : list Event) (H : gmap Z s_cb_data) : Prop :=
  match evs with
  | [] => True
  | EvRegister cb h :: evs => h <> 0 /\ H !! h = None /\ fresh_along evs (<[h := cb]> H)
  | EvRemove h :: evs => fresh_along evs (delete h H)
  | _ :: evs => fresh_along evs H
  end.

(** The kernel's calls behind the events of a handler; [H] are the registered
    callbacks and [own] the value-change callback being called.  [None]: the run is
    not followed past [vpi_control], nor past the removal of a callback other than
    [own] (the library makes none, [EdgeEngine.v]). *)
Fixpoint kernel_calls (own : option Z) (H : gmap Z s_cb_data) (evs : list Event) : option (list KCall) :=
  match evs with
  | [] => Some []
  | EvRegister cb h :: evs => cons (KRegister h cb) <$> kernel_calls own (<[h := cb]> H) evs
  | EvRemove h :: evs =>
      if h =? 0 then Some [KRemove 0]
      else if decide (own = Some h) then cons (KRemove h) <$> kernel_calls None (delete h H) evs else None
  | EvFree h :: evs => cons (KFree h) <$> kernel_calls own H evs
  | EvPut _ _ _ :: _ => Some [KPut]
  | EvControl _ :: _ => None
  | EvLua _ :: evs => kernel_calls own H evs
  end.

Lemma kernel_calls_lawful own H evs cs :
  fresh_along evs H -> kernel_calls own H evs = Some cs ->
  lawful own H cs /\ (Exists refused cs \/ replay evs H = holds_after H cs).
Proof.
  revert own H cs. induction evs as [|[h v f|cb h|h|h|c|cmd] evs IH]; intros own H cs; cbn [kernel_calls fresh_along replay].
  - intros _ [= <-]. split; [done|by right].
  - intros _ [= <-]. split; [done|]. left. by left.
  - intros (Hh & Hn & Hf) (cs' & E & ->)%fmap_Some. destruct (IH own _ cs' Hf E) as [Hl Hr]. rewrite (proj2 (Z.eqb_neq _ _) Hh).
    split; [done|]. destruct Hr as [Hr|Hr]; [left; by right|by right].
  - intros Hf. destruct (Z.eqb_spec h 0) as [->|]; [intros [= <-]; split; [by left|]; left; by left|].
    destruct (decide (own = Some h)) as [->|]; [|done]. intros (cs' & E & ->)%fmap_Some. destruct (IH None _ cs' Hf E) as [Hl Hr].
    split; [by right|]. destruct Hr as [Hr|Hr]; [left; by right|by right].
  - intros Hf (cs' & E & ->)%fmap_Some. destruct (IH own H cs' Hf E) as [Hl Hr]. split; [by right|].
    destruct Hr as [Hr|Hr]; [left; by right|by right].
  - intros Hf E. by apply IH.
  - done.
Qed.

Lemma replay_app evs1 evs2 H : replay (evs1 ++ evs2) H = replay evs2 (replay evs1 H).
Proof. revert H. induction evs1 as [|[] evs1 IH]; intros H; cbn; auto. Qed.

Lemma fresh_along_app evs1 evs2 H : fresh_along evs1 H -> fresh_along evs2 (replay evs1 H) -> fresh_along (evs1 ++ evs2) H.
Proof.
  revert H. induction evs1 as [|[] evs1 IH]; intros H; cbn; auto. intros (H1 & H2 & H3).
  rewrite (proj2 (Z.eqb_neq _ _) H1). auto.
Qed.

Section WaveSystem.
Context {Sim : Type} `{!VpiBackend Sim} `{!LuaRuntime Sim} {C0 : Containers} {F : Features}.
Local Abbreviation W := (W Sim).

Definition traced (w w' : World Sim) : Prop :=
  w_created w = true -> w_created w' = true /\
  exists evs, w_trace w' = w_trace w ++ evs /\ w_cbs w' = replay evs (w_cbs w) /\ fresh_along evs (w_cbs w).

#[local] Instance traced_preorder : PreOrder traced.
Proof.
  split.
  - intros w Hc. split; [done|]. exists []. by rewrite app_nil_r.
  - intros w1 w2 w3 H1 H2 Hc. destruct (H1 Hc) as (Hc1 & e1 & T1 & C1 & F1). destruct (H2 Hc1) as (Hc2 & e2 & T2 & C2 & F2).
    split; [done|]. exists (e1 ++ e2).
    rewrite T2, T1, app_assoc, replay_app, <- C1. split_and!; [done..|]. apply fresh_along_app; [done|by rewrite <- C1].
Qed.

Lemma traced_same (w w' : World Sim) : w_created w' = w_created w -> w_trace w' = w_trace w -> w_cbs w' = w_cbs w -> traced w w'.
Proof. intros E0 E1 E2 Hc. split; [congruence|]. exists []. by rewrite app_nil_r. Qed.

Lemma traced_env f : keeps traced (env_mod f).
Proof. apply keeps_modify. intros w. by apply traced_same. Qed.

Lemma traced_emit e : match e with EvRegister _ _ | EvRemove _ => False | _ => True end -> keeps traced (emit e).
Proof. intros He. apply keeps_modify. intros w Hc. split; [done|]. exists [e]. by destruct e. Qed.

Lemma traced_remove h : keeps traced (vpi_remove_cb h).
Proof. intros w Hc. split; [done|]. by exists [EvRemove h]. Qed.

Context (He : environment_ok).

Lemma traced_verilua_env : keeps traced get_verilua_env.
Proof.
  intros w. destruct (w_created w) eqn:Hc.
  - rewrite (get_env_created w Hc). by apply traced_same.
  - destruct (get_verilua_env w); first [exact I|intros H; congruence].
Qed.

Lemma traced_register cb : keeps traced (vpi_register_cb cb).
Proof.
  intros w Hc. cbn. unfold registered. pose proof (ev_accept He w cb) as Ha. pose proof (ev_fresh He w cb Ha) as Hf.
  rewrite (proj2 (Z.eqb_neq _ _) Ha). split; [done|]. exists [EvRegister cb (vpi_register_result w cb)]. cbn.
  by rewrite (proj2 (Z.eqb_neq _ _) Ha).
Qed.

Lemma traced_put h v f : keeps traced (vpi_put_value h v f).
Proof.
  unfold vpi_put_value. apply keeps_bind; [apply _|by apply traced_emit|intros _ w].
  destruct (ev_quiet He h v f w) as [s ->]. by apply traced_same.
Qed.

Lemma traced_ch_get raw : keeps traced (ch_get raw).
Proof. intros w. unfold ch_get. destruct (w_heap w !! raw); [by apply traced_same|exact I]. Qed.

Lemma traced_ch_mod raw f : keeps traced (ch_mod raw f).
Proof. intros w. unfold ch_mod. destruct (w_heap w !! raw); [by apply traced_same|exact I]. Qed.

Lemma traced_clock_get p : keeps traced (clock_get p).
Proof. intros w. unfold clock_get. destruct (w_clocks w !! p); [by apply traced_same|exact I]. Qed.

Lemma traced_clock_mod p f : keeps traced (clock_mod p f).
Proof. intros w. unfold clock_mod. destruct (w_clocks w !! p); [by apply traced_same|exact I]. Qed.

Lemma traced_alloc : keeps traced alloc.
Proof. intros w. by apply traced_same. Qed.

Lemma traced_rand : keeps traced rand.
Proof. intros w. unfold rand. destruct (libc_rand (w_sim w)). by apply traced_same. Qed.

Ltac traced_leaf :=
  first
    [ apply traced_env | apply traced_verilua_env | apply traced_remove | apply traced_register | apply traced_put
    | apply traced_emit; exact I
    | apply keeps_modify; intros ?; by apply traced_same
    | apply traced_ch_get | apply traced_ch_mod | apply traced_clock_get | apply traced_clock_mod
    | apply traced_alloc | apply traced_rand ].

Ltac unfold_head m := match m with ?f _ => unfold_head f | _ => unfold m end.
Ltac traced_step :=
  first
    [ assumption | traced_leaf | progress keeps_step
    | match goal with |- keeps _ (let x := _ in _) => cbv zeta end
    | match goal with |- keeps _ ?m => unfold_head m end ].
Ltac traced_tac := repeat traced_step.

Lemma traced_position h q : keeps traced (position_by_handle h q).
Proof. induction q; cbn [position_by_handle]; traced_tac. Qed.

Lemma traced_rand_words n : keeps traced (rand_words n).
Proof. induction n; cbn [rand_words]; traced_tac. Qed.

Lemma traced_count_down raw t tasks : keeps traced (count_down_chunk raw t tasks).
Proof. induction tasks; cbn [count_down_chunk]; traced_tac. Qed.

Lemma traced_get_words resolve words i n : keeps traced (get_words resolve words i n).
Proof. revert i. induction n; intros i; cbn [get_words]; traced_tac. Qed.

#[local] Hint Resolve traced_position traced_rand_words traced_count_down traced_get_words : keeps.

Lemma traced_apply_loop fuel : keeps traced (apply_loop fuel).
Proof. induction fuel; cbn [apply_loop]; traced_tac. Qed.

Lemma traced_register_loop fuel raw v t idx : keeps traced (register_loop fuel raw v t idx).
Proof. revert idx. induction fuel; intros idx; cbn [register_loop]; [traced_tac|]. destruct (_ <? _)%nat; [|traced_tac]. traced_tac. Qed.

Lemma traced_pin_chunks i n : keeps traced (pin_chunks i n).
Proof. revert i. induction n; intros i; cbn [pin_chunks]; traced_tac. Qed.

#[local] Hint Resolve traced_apply_loop traced_register_loop traced_pin_chunks : keeps.

Lemma traced_try_put self flag format : keeps traced (try_put_value self flag format).
Proof. traced_tac. Qed.

Lemma traced_push raw : keeps traced (do_push_hdl_put_value raw).
Proof. traced_tac. Qed.

Lemma traced_assert_rd raw : keeps traced (assert_not_rd_phase_active raw).
Proof. traced_tac. Qed.

#[local] Hint Resolve traced_try_put traced_push traced_assert_rd : keeps.

(** ** The exported functions, and Lua *)

Lemma traced_op op : keeps traced (run_op op).
Proof. destruct op; cbn [run_op]; traced_tac. Qed.

Lemma traced_script w w' : script w w' -> traced w w'.
Proof.
  induction 1 as [w|s w w' H IH|op r w w1 w' Hok E H IH]; [reflexivity| |].
  - transitivity (set_w_sim s w); [by apply traced_same|done].
  - transitivity w1; [|done]. pose proof (traced_op op w) as Ht. by rewrite E in Ht.
Qed.

Lemma traced_call_lua c : keeps traced (call_lua c).
Proof.
  unfold call_lua. apply keeps_bind; [apply _|by apply traced_emit|intros _ w].
  destruct (ev_lua He c w) as (r & w' & -> & Hs). by apply traced_script.
Qed.

#[local] Hint Resolve traced_call_lua : keeps.

(** ** The handlers *)

Lemma traced_no_init : keeps traced get_verilua_env_no_init.
Proof.
  intros w. unfold get_verilua_env_no_init. mrun. destruct (w_created w) eqn:Hc; cbn; [by apply traced_same|].
  intros H. congruence.
Qed.

Lemma traced_chunk n d z : keeps traced (edge_callback_chunk n d z).
Proof. traced_tac. Qed.

Lemma chunk_handler_inv n f : chunk_handler (Sim := Sim) n = Some f -> f = edge_callback_chunk n.
Proof. do 17 (destruct n as [|n]; [by intros [= <-]|]). done. Qed.

#[local] Hint Resolve traced_no_init traced_chunk : keeps.

Lemma traced_dispatch fuel cb z : keeps traced (dispatch fuel cb z).
Proof.
  unfold dispatch. destruct (cb_rtn cb);
    try (match goal with |- context [chunk_handler ?n] => destruct (chunk_handler n) as [f|] eqn:E end; [rewrite (chunk_handler_inv _ f E)|]);
    traced_tac.
Qed.

(** ** The library as a client of the kernel *)

(** [seek i s]: the simulator's state at index [i]; the second component counts the
    calls. *)
Context (seek : Z -> Sim -> Sim) (fuel : nat).

Definition LibState : Type := World Sim * Z.

#[local] Instance lib_holder : Holder LibState := {| hold s := w_cbs (fst s); made := snd |}.

Definition handle_cb (i : Z) (e : Entry) (z : Z) : W unit :=
  modify (fun w => set_w_sim (seek i (w_sim w)) w) ;;
  when (one_shot (e_cb e)) (modify (fun w => set_w_cbs (delete (e_id e) (w_cbs w)) w)) ;;
  dispatch fuel (e_cb e) z.

(** A callback is only called once the environment exists. *)
Definition lib_call (i : Z) (e : Entry) (z : Z) (s : LibState) : option (list KCall * LibState) :=
  if w_created (fst s) then
    match handle_cb i e z (fst s) with
    | Ret _ w' =>
        match kernel_calls (own_of e) (passed e (w_cbs (fst s))) (drop (length (w_trace (fst s))) (w_trace w')) with
        | Some cs => Some (cs, (w', snd s + Z.of_nat (length cs)))
        | None => None
        end
    | _ => None
    end
  else None.

#[local] Instance lib_client : Client LibState := {| cb_call := lib_call |}.

Lemma lib_call_inv i e z s cs s' : lib_call i e z s = Some (cs, s') ->
  exists w', w_created (fst s) = true /\ handle_cb i e z (fst s) = Ret tt w' /\
    kernel_calls (own_of e) (passed e (w_cbs (fst s))) (drop (length (w_trace (fst s))) (w_trace w')) = Some cs /\
    s' = (w', snd s + Z.of_nat (length cs)).
Proof.
  unfold lib_call. destruct (w_created (fst s)); [|done]. destruct (handle_cb i e z (fst s)) as [[] w'| | |]; [|done..].
  destruct (kernel_calls _ _ _) as [cs'|] eqn:Ek; [|done]. intros [= <- <-]. exists w'. done.
Qed.

Lemma lib_disciplined : disciplined (S := LibState).
Proof.
  split.
  - intros i e z s cs s' E. destruct (lib_call_inv i e z s cs s' E) as (w' & _ & _ & _ & ->). done.
  - intros i e z s cs s' Hh E. destruct (lib_call_inv i e z s cs s' E) as (w' & Hc & Ew & Ek & ->). cbn [hold lib_holder fst] in *.
    destruct s as [w n]. cbn [fst] in *.
    set (w1 := set_w_cbs (passed e (w_cbs w)) (set_w_sim (seek i (w_sim w)) w)).
    assert (E1 : dispatch fuel (e_cb e) z w1 = Ret tt w').
    { revert Ew. unfold handle_cb. mrun. unfold w1, passed, one_shot, is_change. destruct (reason (e_cb e) =? cbValueChange); cbn [negb when]; mrun; [|done].
      by destruct w. }
    pose proof (traced_dispatch fuel (e_cb e) z w1) as Ht. rewrite E1 in Ht. destruct (Ht Hc) as (_ & evs & T & Cb & Fr).
    cbn in T. rewrite T, drop_app_length in Ek. destruct (kernel_calls_lawful _ _ evs cs Fr Ek) as [Hl Hr]. by rewrite Cb.
Qed.

Lemma held_call_event i e z (s : LibState) cs s' :
  hold s !! e_id e = Some (e_cb e) -> lib_call i e z s = Some (cs, s') -> rtc (event fuel) (fst s) (fst s').
Proof.
  intros Hh E. destruct (lib_call_inv i e z s cs s' E) as (w' & Hc & Ew & Ek & ->). destruct s as [w n]. cbn in Hh. cbn [fst].
  eapply rtc_l; [apply (ev_script fuel w (set_w_sim (seek i (w_sim w)) w)); apply (sc_sim (seek i (w_sim w))), sc_done|].
  apply rtc_once, (ev_fire fuel (e_id e) z). unfold fire. cbn. rewrite Hh. exact Ew.
Qed.

(** ** A run of the kernel is a run of the system *)

Definition advanced (st st' : KState LibState) : Prop := rtc (event fuel) (fst (client st)) (fst (client st')).

#[local] Instance advanced_preorder : PreOrder advanced.
Proof. split; [intros ?; apply rtc_refl|intros x y z H1 H2; unfold advanced in *; by transitivity (fst (client y))]. Qed.

Context {source : WaveSource}.

Lemma advanced_ret {A} (m : KM A) st a st' : keeps advanced m -> m st = Ret a st' -> advanced st st'.
Proof. intros H E. specialize (H st). by rewrite E in H. Qed.

Lemma advanced_mod f : keeps advanced (k_mod f).
Proof. intros st. apply rtc_refl. Qed.

Lemma advanced_call e z : keeps advanced (call (Client0 := guard_client) e z).
Proof.
  intros st. unfold call. cbn [cb_call guard_client]. destruct (decide _) as [Hh|]; [|apply rtc_refl].
  destruct (cb_call (k_index (kern st)) e z (client st)) as [[cs s']|] eqn:E; [|apply rtc_refl].
  pose proof (held_call_event _ _ _ _ _ _ Hh E) as Hev.
  pose proof (keeps_for_each same_client cs apply_call apply_call_client (mkKState (kern st) s')) as Hc.
  unfold same_client, advanced in *. destruct (for_each _ _ _); cbn in *; by rewrite ?Hc.
Qed.

#[local] Hint Resolve advanced_mod advanced_call : keeps.

Lemma advanced_loop n : keeps advanced (evaluation_loop (Client0 := guard_client) n).
Proof.
  induction n as [|n IH]; cbn [evaluation_loop];
    unfold iteration, time_phase, appendTimeCb, value_phase, check_value, next_phase, appendNextSimTimeCb, removeValueCb, appendValueCb, k_get;
    keeps_tac; exact IH.
Qed.

(** Libverilua on the waveform kernel.  Every run of the evaluation loop whose
    callbacks are the library's handlers is a run of the system of callbacks, steps and
    scripts: each call is the firing of a callback that is registered, whatever the
    handlers register, remove and await in between.  Hence the invariant of the
    running system holds at its end, and the kernel still describes the registered
    callbacks. *)
Theorem kernel_run_is_system_run n (st st' : KState LibState) :
  build_ok -> (2 <= fuel)%nat -> sys_inv (fst (client st)) -> clean st ->
  evaluation_loop n st = Ret tt st' -> snd (client st') < 2 ^ 32 ->
  rtc (event fuel) (fst (client st)) (fst (client st')) /\ sys_inv (fst (client st')) /\ clean st'.
Proof.
  intros Hb Hfuel Hi Hc E Hm. destruct (loop_held n st st' lib_disciplined (ev_hash He) Hc E Hm) as [G C].
  assert (R : advanced st st') by exact (advanced_ret _ _ _ _ (advanced_loop n) G).
  split_and!; [exact R| |exact C]. by apply (events_sys fuel (fst (client st))).
Qed.

(** ** The process *)

(** [cursor] after [wave_vpi_init], nothing registered. *)
Definition fresh_kernel (maxIndex maxTime : Z) : Kernel :=
  mkKernel 0 maxIndex maxTime false None None false ∅ [] [] [] ∅ [] [] 0 ∅.

(** The handles of the kernel: [vpi_register_cb] of [WaveKernel.v]. *)
Definition kernel_backend : Prop := forall r, vpi_null_handle r = negb (r =? cbValueChange).

Lemma no_timer_on_kernel (w : World Sim) : kernel_backend -> sys_inv w ->
  forall h cb, w_cbs w !! h = Some cb -> ~ is_timer cb.
Proof.
  intros Hk [B _] h cb Hh Ht. pose proof (b_typed _ w B h cb Hh) as Hc. unfold cb_typed in Hc. rewrite Ht in Hc.
  destruct (user_data cb); try done. destruct Hc as [_ Hc]. unfold gives_handle in Hc. by rewrite Hk in Hc.
Qed.

(** What the startup routines hand to the kernel. *)
Definition boot_calls (h1 h2 : Z) : list KCall := [KRegister h1 start_cb; KFree 0; KRegister h2 final_cb; KFree 0].

Definition booted_kernel (maxIndex maxTime h1 h2 : Z) : Kernel :=
  set_endOfSimulationCb (Some (mkEntry h2 final_cb)) (set_startOfSimulationCb (Some (mkEntry h1 start_cb)) (fresh_kernel maxIndex maxTime)).

Lemma boot_calls_run maxIndex maxTime h1 h2 (s : LibState) :
  for_each (boot_calls h1 h2) apply_call (mkKState (fresh_kernel maxIndex maxTime) s) =
  Ret tt (mkKState (booted_kernel maxIndex maxTime h1 h2) s).
Proof. done. Qed.

Lemma boot_calls_traced h1 h2 : kernel_calls None ∅ [EvRegister start_cb h1; EvFree 0; EvRegister final_cb h2; EvFree 0] = Some (boot_calls h1 h2).
Proof. done. Qed.

Lemma booted_ready maxIndex maxTime h1 h2 (s : LibState) :
  h1 <> h2 -> w_cbs (fst s) = <[h2 := final_cb]> (<[h1 := start_cb]> ∅) -> 0 <= snd s ->
  boot_ready (mkKState (booted_kernel maxIndex maxTime h1 h2) s).
Proof.
  intros Hne Hcb Hn. split; [|done]. unfold kept_inv. cbn [client kern hold lib_holder made]. rewrite Hcb. split; cbn.
  - constructor; [by intros ->%list_elem_of_singleton|apply NoDup_singleton].
  - intros e [->|[->|Hin%elem_of_nil]%elem_of_cons]%elem_of_cons; cbn; [|by rewrite lookup_insert_eq|done].
    by rewrite lookup_insert_ne, lookup_insert_eq by done.
  - intros raw info [[Hl _]|Hl%elem_of_nil]; [|done]. cbn in Hl. by rewrite lookup_empty in Hl.
  - constructor.
  - by intros raw info ?%elem_of_nil.
  - intros raw info [Hl|Hl%elem_of_nil]; [|done]. by rewrite lookup_empty in Hl.
  - lia.
Qed.

(** The start callback fires in the booted world, at index 0. *)
Lemma start_fired maxIndex maxTime h1 h2 (w1 : World Sim) made0 (st2 : KState LibState) :
  w_cbs w1 !! h1 = Some start_cb ->
  startOfSimulation (mkKState (booted_kernel maxIndex maxTime h1 h2) (w1, made0)) = Ret tt st2 ->
  fire fuel h1 0 (set_w_sim (seek 0 (w_sim w1)) w1) = Ret tt (fst (client st2)).
Proof.
  intros Hh. unfold startOfSimulation, k_get. mrun. cbn [call_opt booted_kernel kern set_startOfSimulationCb set_endOfSimulationCb startOfSimulationCb].
  unfold call. cbn [cb_call lib_client client kern].
  change (k_index (booted_kernel maxIndex maxTime h1 h2)) with 0. destruct (lib_call 0 (mkEntry h1 start_cb) 0 (w1, made0)) as [[cs s']|] eqn:El; [|done]. intros Er.
  destruct (lib_call_inv _ _ _ _ _ _ El) as (w' & _ & Ew & _ & ->). cbn [fst] in Ew.
  pose proof (keeps_for_each same_client cs apply_call apply_call_client (mkKState (booted_kernel maxIndex maxTime h1 h2) (w', made0 + Z.of_nat (length cs)))) as Hc.
  cbn [snd] in Er. rewrite Er in Hc. unfold same_client in Hc.
  etransitivity; [|apply (f_equal (fun s : LibState => Ret tt (fst s))); symmetry; exact Hc].
  unfold fire. cbn [w_cbs set_w_sim fst client]. rewrite Hh. exact Ew.
Qed.

Lemma advanced_rest n quick : keeps advanced (rest guard_client n quick).
Proof. pose proof (advanced_loop n). unfold rest, endOfSimulation, call_opt, k_get. destruct quick; keeps_tac. Qed.


(** C14: libverilua on the waveform kernel, from the first instruction to the last.
    The library runs against the handles the kernel returns, null for all but value
    changes.  In a fresh process the startup routines register the start and the end
    callback; every run of [wave_vpi_loop] that follows fires the start callback,
    which establishes the invariant of the running system, and from there on is a run
    of the system of callbacks, steps and scripts: each call of the kernel - in the
    evaluation loop and at the end of the simulation - is the firing of a callback
    that is registered.  Hence the invariant holds when the process ends, and no timer
    of a native clock is left: by [op_ok] scripts start none on this kernel, where the
    null handle would let the timer outlive its clock ([null_timer_dangles]).  Runs
    that abort, on a write or on a reason the kernel does not know, return nothing and
    are not described; a run is not followed into [vpi_control]. *)
Theorem wave_process_is_system_run n ho maxIndex maxTime (w : World Sim) :
  kernel_backend -> build_ok -> (2 <= fuel)%nat -> fresh_process w ->
  exists w1 h1 boot, vlog_startup_routines_bootstrap w = Ret tt w1 /\ w_cbs w1 !! h1 = Some start_cb /\
    kernel_calls None (w_cbs w) (drop (length (w_trace w)) (w_trace w1)) = Some boot /\
    forall st', wave_vpi_loop n ho boot (mkKState (fresh_kernel maxIndex maxTime) (w1, Z.of_nat (length boot))) = Ret tt st' ->
      snd (client st') < 2 ^ 32 ->
      exists w2, fire fuel h1 0 (set_w_sim (seek 0 (w_sim w1)) w1) = Ret tt w2 /\
        sys_inv w2 /\ has_next_sim_time_cb (w_env w2) = true /\
        rtc (event fuel) w2 (fst (client st')) /\ sys_inv (fst (client st')) /\ clean st' /\
        (forall h cb, w_cbs (fst (client st')) !! h = Some cb -> ~ is_timer cb).
Proof.
  intros Hkb Hb Hfuel Hfresh. destruct (startup_world w He Hfresh) as (w1 & h1 & h2 & E & Hne & Hc & Hv & Hh & Hk & Hn & Hvars & Hcbs & Htr).
  exists w1, h1, (boot_calls h1 h2). split; [done|].
  assert (w_cbs w1 !! h1 = Some start_cb) as Hs by (rewrite Hcbs, lookup_insert_ne by done; apply lookup_insert_eq).
  split; [done|]. split; [rewrite (fp_cbs _ Hfresh), Htr, drop_app_length, !Hkb; apply boot_calls_traced|].
  intros st'. rewrite loop_after_boot, (bind_Ret _ _ _ _ _ (boot_calls_run _ _ _ _ _)).
  intros E' Hm. pose proof (booted_ready maxIndex maxTime h1 h2 (w1, 4) Hne Hcbs ltac:(done)) as Hr.
  destruct (process_runs n ho _ st' lib_disciplined (ev_hash He) Hr E' Hm) as (_ & C' & st2 & st3 & quick & E2 & Hcl & G).
  assert (rtc (event fuel) (fst (client st2)) (fst (client st'))) as R.
  { pose proof (advanced_ret _ _ _ _ (advanced_rest n quick) G) as R.
    exact (eq_ind _ (fun s : LibState => rtc (event fuel) (fst s) (fst (client st'))) R _ Hcl). }
  pose proof (start_fired _ _ _ _ _ _ _ Hs E2) as Ef. exists (fst (client st2)).
  assert (sys_inv (fst (client st2)) /\ has_next_sim_time_cb (w_env (fst (client st2))) = true) as [H2 Hn2].
  { rewrite (fire_one_shot fuel h1 0 start_cb (set_w_sim (seek 0 (w_sim w1)) w1) Hs eq_refl) in Ef. unfold dispatch in Ef. cbn [cb_rtn start_cb] in Ef.
    pose proof (booted_start False (released h1 (set_w_sim (seek 0 (w_sim w1)) w1)) He Hb ltac:(done) ltac:(done) Hc Hv Hh Hk) as Hst.
    rewrite Ef in Hst. apply Hst; [cbn; rewrite Hn; apply Hfresh|].
    intros h cb. cbn. rewrite Hcbs, lookup_delete_Some, lookup_insert_Some, lookup_insert_Some, lookup_empty. naive_solver. }
  assert (sys_inv (fst (client st'))) as Hi by by apply (events_sys fuel (fst (client st2))).
  split_and!; try done. by apply no_timer_on_kernel.
Qed.

(** C23: a handle the kernel cannot free.  [vpiml_get_top_module], called during the
    initialisation when [VL_DUT_TOP] is not set, frees the iterator it has scanned
    only once; on the waveform kernel [vpi_free_object] of any handle but a null one
    aborts the process. *)
Theorem top_module_aborts own nm (w w' : World Sim) (st : KState LibState) :
  let iter := vpi_iterate_modules (w_sim w) in
  vpiml_get_top_module w = Ret nm w' ->
  kernel_calls own (w_cbs w) (drop (length (w_trace w)) (w_trace w')) = Some [KFree iter] /\
  for_each [KFree iter] apply_call st = Panic "TODO: vpi_free_object is not supported for now" st.
Proof.
  intros iter. unfold vpiml_get_top_module, env_var, set_var, Backend.vpi_free_object. mrun. fold iter.
  destruct (Z.eqb_spec iter 0) as [|Hi]; cbn [negb assert_]; mrun; [done|].
  destruct (vpi_scan_first (w_sim w) iter =? 0); cbn [negb assert_]; mrun; [done|]. intros E.
  assert (Ht : w_trace w' = w_trace w ++ [EvFree iter]).
  { revert E. cbn. destruct (w_vars w !! _); mrun; by intros [= _ <-]. }
  split.
  - by rewrite Ht, drop_app_length.
  - cbn. unfold WaveKernel.vpi_free_object, vl_fatal. rewrite (proj2 (Z.eqb_neq _ _) Hi). done.
Qed.

End WaveSystem.

(** ** A run *)

Module WaveRun.
Import KernelDemo.
#[local] Existing Instance null_backend.
#[local] Existing Instance demo_wave.
#[local] Existing Instance lib_client.
#[local] Existing Instance lib_holder.

(** Task 7 awaits the next rising edge of signal 1 whenever it is resumed. *)
Definition wait_again : Backend.W CountSim unit :=
  vpiml_register_edge_callback_common (F := wave_vpi_features) Posedge 1 7.

#[local] Instance WaveLua : LuaRuntime CountSim := {|
  lua_call := fun _ w =>
    match (if can_wait w then wait_again w else NoFuel) with Ret _ w' => Ret None w' | _ => Ret None w end;
  lua_global_fn := fun _ s => Some (Z.of_nat (String.length s));
  lua_registry_key := fun _ f => f;
  path_is_file := fun _ _ => false
|}.

Lemma wave_lua_scripted : lua_scripted (LuaRuntime0 := WaveLua) (F := wave_vpi_features).
Proof.
  intros c w. cbn. destruct (can_wait w) eqn:Ec; [|exists None, w; split; [done|constructor]].
  apply andb_prop in Ec as [Hl Hn]. apply bool_decide_eq_true_1 in Hl. apply Z.ltb_lt in Hn.
  destruct (wait_again w) as [[] w'| | |] eqn:E; try (exists None, w; split; [done|constructor]).
  exists None, w'. split; [done|]. apply (sc_op (ApiAwaitEdge Posedge 1 7) 0 w w' w').
  - by split.
  - cbn. by rewrite (bind_Ret _ _ _ _ _ E).
  - constructor.
Qed.

Lemma wave_environment : environment_ok (LuaRuntime0 := WaveLua) (F := wave_vpi_features).
Proof.
  destruct list_containers_ok. split; [apply count_quiet|apply null_accepting|apply count_fresh|done|done|apply wave_lua_scripted|by intros w; eexists].
Qed.

Lemma wave_build : build_ok (F := wave_vpi_features).
Proof. done. Qed.

Definition waiting : World CountSim := after wait_again running_world.

Lemma waiting_inv : sys_inv (F := wave_vpi_features) waiting.
Proof.
  apply (event_sys (F := wave_vpi_features) 2 running_world waiting wave_environment); [done|lia|apply running_inv|].
  apply ev_script, (sc_op (ApiAwaitEdge Posedge 1 7) 0 running_world waiting waiting).
  - split; [by eexists|by rewrite running_counts].
  - vm_compute. reflexivity.
  - constructor.
Qed.

(** The kernel holds the heartbeat; [seek] leaves the state as it is. *)
Definition boot_state : KState (World CountSim * Z) :=
  mkKState (mkKernel 0 5 50 false None None false ∅ [] [mkEntry 1 sim_time_cb] [] ∅ [] [] 0 ∅) (waiting, 0).

#[local] Instance run_client : Client (World CountSim * Z) := lib_client (LuaRuntime0 := WaveLua) (F := wave_vpi_features) (fun _ s => s) 2.

Definition end_state : KState (World CountSim * Z) :=
  match evaluation_loop 5 boot_state with Ret _ st => st | _ => boot_state end.

Definition resumptions (w : World CountSim) : nat :=
  length (omap (fun e => match e with EvLua c => Some c | _ => None end) (w_trace w)).

Lemma boot_clean : clean boot_state.
Proof.
  assert (Hw : w_cbs waiting = {[1 := sim_time_cb]}) by (vm_compute; reflexivity).
  split; [|done]. unfold kept_inv, all_once. cbn [client hold lib_holder boot_state fst made snd]. rewrite Hw. split; cbn.
  - constructor; [set_solver|constructor].
  - intros e He. replace e with (mkEntry 1 sim_time_cb) by set_solver. done.
  - intros raw info [[Hl _]|Hl]; [|set_solver]. cbn in Hl. by rewrite lookup_empty in Hl.
  - constructor.
  - set_solver.
  - intros raw info [Hl|Hl]; [|set_solver]. by rewrite lookup_empty in Hl.
  - lia.
Qed.

Lemma kernel_run_is_system_run_witness :
  rtc (event (LuaRuntime0 := WaveLua) (F := wave_vpi_features) 2) waiting (fst (client end_state)) /\
  sys_inv (F := wave_vpi_features) (fst (client end_state)) /\ clean (H0 := lib_holder) end_state /\
  resumptions (fst (client end_state)) = 1%nat.
Proof.
  destruct (kernel_run_is_system_run (F := wave_vpi_features) wave_environment (fun _ s => s) 2 5 boot_state end_state)
    as (R & I & C); [exact wave_build|apply le_n|exact waiting_inv|exact boot_clean|vm_compute; reflexivity|vm_compute; reflexivity|].
  split_and!; [exact R|exact I|exact C|vm_compute; reflexivity].
Defined.

(** From the first instruction: the top module is configured, the waveform has five
    indices after the first. *)
Definition start_world : World CountSim := set_w_vars (<["VL_DUT_TOP"%string := "top"%string]> (w_vars fresh_world)) fresh_world.
Definition started : World CountSim := after (vlog_startup_routines_bootstrap (F := wave_vpi_features)) start_world.
Definition run_process : Res (KState (World CountSim * Z)) unit :=
  wave_vpi_loop 5 false (boot_calls 1 2) (mkKState (fresh_kernel 5 50) (started, 4)).
Definition process_end : KState (World CountSim * Z) := match run_process with Ret _ st => st | _ => boot_state end.

Lemma wave_process_is_system_run_witness :
  run_process = Ret tt process_end /\ sys_inv (F := wave_vpi_features) (fst (client process_end)) /\
  k_index (kern process_end) = 5 /\ (length (w_trace (fst (client process_end))) > 10)%nat.
Proof.
  destruct (wave_process_is_system_run (F := wave_vpi_features) wave_environment (fun _ s => s) 2 5 false 5 50 start_world)
    as (w1 & h1 & boot & E & _ & Eb & H); [done|exact wave_build|apply le_n|done|].
  assert (vlog_startup_routines_bootstrap (F := wave_vpi_features) start_world = Ret tt started) as E' by (vm_compute; reflexivity).
  assert (w1 = started) as -> by congruence.
  assert (kernel_calls None (w_cbs start_world) (drop (length (w_trace start_world)) (w_trace started)) = Some (boot_calls 1 2)) as Eb'
    by (vm_compute; reflexivity).
  assert (boot = boot_calls 1 2) as -> by congruence.
  assert (run_process = Ret tt process_end) as Er by (vm_compute; reflexivity).
  destruct (H process_end Er) as (w2 & _ & _ & _ & _ & I & _ & _); [vm_compute; reflexivity|].
  split; [exact Er|]. split; [exact I|]. split; vm_compute; [reflexivity|lia].
Defined.

Lemma top_module_aborts_witness :
  exists st, kernel_calls None (w_cbs waiting) [EvFree 901] = Some [KFree 901] /\
    for_each [KFree 901] apply_call boot_state = Panic "TODO: vpi_free_object is not supported for now" st.
Proof.
  destruct (vpiml_get_top_module waiting) as [nm w'| | |] eqn:E; [|vm_compute in E; discriminate E..].
  destruct (top_module_aborts None nm waiting w' boot_state E) as [H1 H2].
  exists boot_state. split; [vm_compute; reflexivity|exact H2].
Defined.

End WaveRun.
