(* ===== verification/WaveBinding.v ===== *)
(** * The waveform kernel over wellen_impl

    The kernel reads values and times through [WaveSource]; here [wellen_impl]
    discharges that interface: [session_source] are its exported functions on an open
    session, and the lemmas say what the kernel gets from them. *)

From S2P Require Import Prelude Bytes State Backend WaveKernel WaveKernelFacts.
From S2P Require Import WaveValue WaveData WaveImpl WaveSession WaveRead WaveFiles Wave.
From Stdlib Require Import Sorting.Sorted.
#[local] Open Scope Z_scope.

Section Binding.
Context {wellen : Wellen} {serde : Serde} {allocator : Allocator}.

(** [SignalHandle::vpiHdl] is the handle [a] of the session. *)
Definition session_source (l : Live) : WaveSource := {|
  value_str a idx := match wellen_get_value_str a idx (world l) with Ret s _ => s | _ => ""%string end;
  time_at i := match wellen_get_time_from_index i (world l) with Ret t _ => t | _ => 0 end;
  index_at t := match wellen_get_index_from_time t (world l) with Ret i _ => i | _ => 0 end
|}.

(** The string of a signal is that of the bits recorded for it; before its first value
    it is [0]. *)
Lemma session_value l a r info idx :
  l_boxes l !! a = Some (SignalBox r) -> l_sigs l !! r = Some info ->
  (forall off s, get_offset (signal info) (u32 idx) = Some off -> to_bit_string (get_value_at (signal info) off 0) = Some s ->
     value_str (WaveSource := session_source l) a idx = s) /\
  (get_offset (signal info) (u32 idx) = None -> idx = 0 -> value_str (WaveSource := session_source l) a idx = "0"%string).
Proof.
  intros Ha Hr. unfold value_str, session_source, wellen_get_value_str. rewrite (bind_Ret _ _ _ _ _ (signal_info_run _ _ _ _ Ha Hr)).
  split.
  - intros off s Ho Hs. rewrite Ho, Hs. done.
  - intros Ho ->. by rewrite Ho.
Qed.

Lemma session_time l i : (i < length (l_time l))%nat -> time_at (WaveSource := session_source l) (Z.of_nat i) = nth i (l_time l) 0.
Proof.
  intros Hi. unfold time_at, session_source, wellen_get_time_from_index, bind, static_. cbn. rewrite Nat2Z.id.
  destruct (lookup_lt_is_Some_2 _ _ Hi) as [v Hv]. by rewrite Hv, (nth_lookup_Some _ _ 0 _ Hv).
Qed.

Lemma session_index l t : StronglySorted Z.lt (l_time l) -> l_time l <> [] ->
  exists i, index_at (WaveSource := session_source l) t = Z.of_nat i /\ nearest (l_time l) t i.
Proof.
  intros Hs Hne. destruct (find_nearest_facts (l_time l) t (sorted_nondecreasing _ Hs) Hne) as (i & E & Hn). exists i. split; [|done].
  unfold index_at, session_source, wellen_get_index_from_time. by rewrite (bind_Ret _ _ _ _ _ (nearest_index_run _ _ _ E)).
Qed.

(** The index a delayed callback is queued for: that of the last recorded time not
    after its due time, so never one in the past, and never one whose time is later
    than asked. *)
Theorem delayed_callback_index l i cb t hi lo :
  StronglySorted Z.lt (l_time l) -> (i < length (l_time l))%nat -> cb_time cb = Some (t, hi, lo) ->
  in_width 32 lo -> 0 <= hi -> 0 <= nth i (l_time l) 0 -> nth i (l_time l) 0 + join64 hi lo < 2 ^ 64 ->
  let target := target_time (H := session_source l) cb (Z.of_nat i) in
  target = nth i (l_time l) 0 + join64 hi lo /\
  exists j, index_at (WaveSource := session_source l) target = Z.of_nat j /\ (i <= j < length (l_time l))%nat /\
    nth j (l_time l) 0 <= target /\ forall k, (j < k < length (l_time l))%nat -> target < nth k (l_time l) 0.
Proof.
  intros Hs Hi Ht Hlo Hhi H0 Hb target.
  pose proof (join64_add hi lo Hlo) as Hj. unfold in_width in Hlo.
  assert (Etar : target = nth i (l_time l) 0 + join64 hi lo).
  { unfold target, target_time. rewrite Ht, session_time by done. unfold u64. apply wrap_small. unfold in_width, join64 in *. lia. }
  split; [done|]. destruct (session_index l target Hs ltac:(by intros E; rewrite E in Hi; cbn in Hi; lia)) as (j & Ej & Hjl & Hle & Hgt).
  exists j. split; [done|]. assert (Hij : (i <= j)%nat).
  { destruct (Nat.le_gt_cases i j) as [|Hlt]; [done|]. specialize (Hgt i ltac:(lia)). lia. }
  split_and!; [done|done| |done]. destruct Hle as [Hle| ->]; [done|]. replace i with 0%nat in Etar by lia. lia.
Qed.

End Binding.

(** ** The kernel over a small waveform

    [top.data] has no value at time 0 and is [01xz] from time 10 on: its callback is
    called once, at index 1, with the number of the digits before the [x].  A delay of
    15 from time 0 is served at index 1, whose time is 10. *)
Module BindingDemo.
Import Demo.

Definition demo_data : Live := after (CByName "top.data") demo_live.

#[local] Instance data_source : WaveSource := session_source demo_data.
#[local] Instance idle : Client unit := {| cb_call _ _ _ s := Some ([], s) |}.

Definition change : s_cb_data := mkCb cbValueChange edge_callback_rtn (Some (vpiSuppressTime, 0, 0)) 1 UdNull.
Definition delay : s_cb_data := mkCb cbAfterDelay time_callback_handler_rtn (Some (vpiSimTime, 0, 15)) 0 (TaskIDWithEnv 1).

Definition kernel : Kernel := mkKernel 0 2 20 false None None false ∅ [] [] [] ∅ [] [] 0 ∅.

Definition log_of (r : Res (KState (Logged unit)) unit) : list (Z * Z * Z) :=
  match r with Ret _ st => map (fun x => (l_index x, e_id (l_entry x), l_integer x)) (log (client st)) | _ => [] end.

Example data_callbacks :
  log_of (wave_vpi_loop 2 false [KRegister 1 change; KRegister 2 delay] (mkKState kernel (mkLogged tt []))) =
  [(1, 2, 0); (1, 1, 1)].
Proof. vm_compute. reflexivity. Qed.

Lemma delayed_callback_index_witness :
  exists j, index_at 15 = Z.of_nat j /\ (0 <= j < 3)%nat /\ nth j [0; 10; 20] 0 <= 15.
Proof.
  destruct (delayed_callback_index demo_data 0 delay vpiSimTime 0 15) as (E & j & Ej & Hj & Hle & _);
    [apply demo_table|vm_compute; lia|reflexivity|by vm_compute|lia|vm_compute; congruence|vm_compute; reflexivity|].
  rewrite E in Ej, Hle. exists j. split; [exact Ej|]. split; [exact Hj|exact Hle].
Defined.

End BindingDemo.
