(* ===== verification/WaveHandles.v ===== *)
(** * The VPI functions of the waveform kernel

    [src/wave_vpi/src/vpi_compat_wellen.cpp], the functions that look up, iterate and
    read objects.  A signal handle of the kernel is a C++ object around a handle of
    [wellen_impl]; module handles and iterators are the pointers of [wellen_impl]
    themselves.  The kernel remembers in sets which pointer is which.  The state is
    the C++ side ([VpiState]) beside the statics of [wellen_impl] ([WaveWorld]);
    both allocate from one heap. *)

From S2P Require Import Prelude Bytes State WaveValue WaveData WaveImpl WaveSession WaveRead WaveFiles Wave WaveJit.
#[local] Open Scope Z_scope.

Definition vpiTimePrecision : Z := 12.
Definition vpiScaledRealTime : Z := 1.

(** ** State *)

(** [SignalHandle_t]: the name, the handle of [wellen_impl], the size and prefetch
    fields ([WaveJit.SignalHandle]) and the thread. *)
Record SigObj := mkSigObj {
  so_name : string;
  so_vpiHdl : Z;
  so_jit : SignalHandle;
  so_thread : OptThread
}.

(** The handle sets, the heap of [SignalHandle_t], [cursor], the number of prefetch
    threads and [vpiControlTerminate]. *)
Record VpiState := mkVpi {
  signalHandleSet : gset Z;
  moduleHandleSet : gset Z;
  iteratorHandleSet : gset Z;
  iteratorTypeMap : gmap Z Z;
  sig_objs : gmap Z SigObj;
  v_index : Z;
  v_maxIndex : Z;
  v_threads : Z;
  v_terminate : bool
}.

Definition set_signals (s : gset Z) (o : gmap Z SigObj) (v : VpiState) : VpiState :=
  mkVpi s (moduleHandleSet v) (iteratorHandleSet v) (iteratorTypeMap v) o (v_index v) (v_maxIndex v) (v_threads v) (v_terminate v).
Definition set_modules (s : gset Z) (v : VpiState) : VpiState :=
  mkVpi (signalHandleSet v) s (iteratorHandleSet v) (iteratorTypeMap v) (sig_objs v) (v_index v) (v_maxIndex v) (v_threads v) (v_terminate v).
Definition set_iterators (s : gset Z) (t : gmap Z Z) (v : VpiState) : VpiState :=
  mkVpi (signalHandleSet v) (moduleHandleSet v) s t (sig_objs v) (v_index v) (v_maxIndex v) (v_threads v) (v_terminate v).
Definition set_v_index (i : Z) (v : VpiState) : VpiState :=
  mkVpi (signalHandleSet v) (moduleHandleSet v) (iteratorHandleSet v) (iteratorTypeMap v) (sig_objs v) i (v_maxIndex v) (v_threads v) (v_terminate v).
Definition set_v_threads (n : Z) (v : VpiState) : VpiState :=
  mkVpi (signalHandleSet v) (moduleHandleSet v) (iteratorHandleSet v) (iteratorTypeMap v) (sig_objs v) (v_index v) (v_maxIndex v) n (v_terminate v).

Section Vpi.
Context {wellen : Wellen} {serde : Serde} {allocator : Allocator}.

Record Compat := mkCompat { vpi : VpiState; wave : WaveWorld }.

Definition HM (A : Type) : Type := M Compat A.

Definition v_get {A} (f : VpiState -> A) : HM A := gets (fun st => f (vpi st)).
Definition v_mod (f : VpiState -> VpiState) : HM unit := modify (fun st => mkCompat (f (vpi st)) (wave st)).

(** [VL_FATAL]. *)
Definition fatal_unless (cond : bool) (msg : string) : HM unit := assert_ cond msg.

(** ** Crossing into Rust

    [wellen_impl] allocates its boxes beside the objects of the C++ side. *)
Definition outside (used : gset Z) : Allocator := fun X => fresh_addr (used ∪ X).

Definition wellen_call {A} (m : Allocator -> WM A) : HM A := fun st =>
  match m (outside (dom (sig_objs (vpi st)))) (wave st) with
  | Ret a w => Ret a (mkCompat (vpi st) w)
  | Panic e w => Panic e (mkCompat (vpi st) w)
  | UB why => UB why
  | NoFuel => NoFuel
  end.

(** ** Objects *)

(** [new SignalHandle{...}], [canOpt] and the insertion into the set. *)
Definition new_signal_handle (name : string) (vpiHdl bitSize : Z) : HM Z := fun st =>
  let v := vpi st in
  let a := fresh_addr (dom (boxes (wave st)) ∪ dom (sig_objs v)) in
  let jit := mkSignalHandle (Z.to_nat (u64 bitSize)) (bitSize <=? 32) 0 false false [] 0 0 in
  Ret a (mkCompat (set_signals ({[a]} ∪ signalHandleSet v) (<[a := mkSigObj name vpiHdl jit OptNone]> (sig_objs v)) v) (wave st)).

(** [reinterpret_cast<SignalHandlePtr>(h)] and an access through it. *)
Definition as_signal (h : Z) : HM SigObj :=
  let! objs := v_get sig_objs in
  match objs !! h with Some o => ret o | None => undefined "not a SignalHandle" end.

(** ** Lookup *)

Definition vpi_handle_by_name (name : option string) (scope : Z) : HM Z :=
  fatal_unless (scope =? 0) "TODO: scope is not supported for now" ;;
  let! hdl := wellen_call (fun al => wellen_vpi_handle_by_name (allocator := al) name) in
  if hdl =? 0 then ret 0 else
  let! bitSize := wellen_call (fun _ => wellen_vpi_get vpiSize hdl) in
  new_signal_handle (default ""%string name) hdl bitSize.

(** ** Iteration *)

Definition vpi_iterate (type_ refHandle : Z) : HM Z :=
  if negb (type_ =? vpiModule) && negb (type_ =? vpiNet) && negb (type_ =? vpiReg) && negb (type_ =? vpiMemory)
  then ret 0 else
  let! iter := wellen_call (fun al => wellen_vpi_iterate (allocator := al) type_ refHandle) in
  (if negb (iter =? 0)
   then v_mod (fun v => set_iterators ({[iter]} ∪ iteratorHandleSet v) (<[iter := type_]> (iteratorTypeMap v)) v)
   else ret tt) ;;
  ret iter.

(** The [while (true)]: a signal without a name is skipped. *)
Fixpoint scan_loop (fuel : nat) (iterator iterType : Z) : HM Z :=
  match fuel with
  | O => out_of_fuel
  | S fuel =>
      let! next := wellen_call (fun al => wellen_vpi_scan (allocator := al) iterator) in
      if next =? 0 then
        v_mod (fun v => set_iterators (iteratorHandleSet v ∖ {[iterator]}) (delete iterator (iteratorTypeMap v)) v) ;;
        ret 0
      else if iterType =? vpiModule then
        v_mod (fun v => set_modules ({[next]} ∪ moduleHandleSet v) v) ;;
        ret next
      else
        let! signalName := wellen_call (fun _ => wellen_vpi_get_str vpiName next) in
        match signalName with
        | None => scan_loop fuel iterator iterType
        | Some name =>
            let! bitSize := wellen_call (fun _ => wellen_vpi_get vpiSize next) in
            new_signal_handle name next bitSize
        end
  end.

Definition vpi_scan (fuel : nat) (iterator : Z) : HM Z :=
  if iterator =? 0 then ret 0 else
  let! its := v_get iteratorHandleSet in
  if negb (bool_decide (iterator ∈ its)) then ret 0 else
  let! types := v_get iteratorTypeMap in
  scan_loop fuel iterator (default vpiModule (types !! iterator)).

(** ** Properties *)

Definition vpi_get (property sigHdl : Z) : HM Z :=
  if property =? vpiSize then
    let! mods := v_get moduleHandleSet in
    if bool_decide (sigHdl ∈ mods) then ret 0
    else let! o := as_signal sigHdl in ret (i32 (Z.of_nat (bitSize (so_jit o))))
  else if property =? vpiTimePrecision then wellen_call (fun _ => wellen_get_time_precision)
  else panic "Unimplemented property".

(** The string behind the returned pointer; [None] is the null pointer. *)
Definition vpi_get_str (property sigHdl : Z) : HM (option string) :=
  let! mods := v_get moduleHandleSet in
  let! sigs := v_get signalHandleSet in
  let of_wellen h := wellen_call (fun _ => wellen_vpi_get_str property h) in
  if property =? vpiName then
    if bool_decide (sigHdl ∈ mods) then of_wellen sigHdl
    else if bool_decide (sigHdl ∈ sigs) then let! o := as_signal sigHdl in ret (Some (so_name o))
    else ret None
  else if property =? vpiType then
    if bool_decide (sigHdl ∈ mods) then of_wellen sigHdl
    else let! o := as_signal sigHdl in of_wellen (so_vpiHdl o)
  else if property =? vpiDefName then
    if bool_decide (sigHdl ∈ mods) then of_wellen sigHdl else ret None
  else panic "Unimplemented property".

(** What [vpi_get_time] writes: the halves of the time, or the time as a [double]. *)
Inductive TimeValue := TSim (high low : Z) | TReal (t : Z).

Definition vpi_get_time (type_ : option Z) : HM (option TimeValue) :=
  match type_ with
  | None => ret None
  | Some type_ =>
      let! index := v_get v_index in
      let! simTime := wellen_call (fun _ => wellen_get_time_from_index index) in
      if type_ =? vpiSimTime then ret (Some (TSim (u32 (Z.shiftr simTime 32)) (u32 (Z.land simTime 0xFFFFFFFF))))
      else if type_ =? vpiScaledRealTime then ret (Some (TReal simTime))
      else panic "Unsupported time type"
  end.

(** [_wellen_get_value_str]: what a value-change callback compares. *)
Definition wellen_value_str (sigHdl : Z) : HM string :=
  fatal_unless (negb (sigHdl =? 0)) "sigHdl is nullptr" ;;
  let! o := as_signal sigHdl in
  let! index := v_get v_index in
  wellen_call (fun _ => wellen_get_value_str (so_vpiHdl o) index).

(** ** Values *)

(** The state machine of one handle ([WaveJit.Jit]) in the process, and back. *)
Definition jit_of (v : VpiState) (o : SigObj) : Jit :=
  mkJit (so_jit o) (so_thread o) (v_index v) (v_maxIndex v) (v_threads v) (v_terminate v).

Definition put_jit (h : Z) (o : SigObj) (s : Jit) : HM unit :=
  v_mod (fun v => set_v_threads (optThreadCnt s)
    (set_signals (signalHandleSet v) (<[h := mkSigObj (so_name o) (so_vpiHdl o) (hdl s) (thread s)]> (sig_objs v)) v)).

(** [vpi_get_value] without a thread step inside; [Races] of [WaveJit.v] has the
    interleavings. *)
Definition vpi_get_value (opts : JitOptions) (sigHdl fmt : Z) : HM s_vpi_value :=
  let! o := as_signal sigHdl in
  let! s := v_get (fun v => jit_of v o) in
  let '(s', plan) := read_begin opts s in
  put_jit sigHdl o s' ;;
  match plan with
  | PFast local =>
      match read_end local s' with
      | None => undefined "index outside optValueVec"
      | Some value =>
          match jit_value fmt (bitSize (so_jit o)) value with
          | Some x => ret x
          | None => panic "Unsupported format"
          end
      end
  | PSlow => wellen_call (fun _ => wellen_vpi_get_value_from_index (so_vpiHdl o) (cursor_index s) fmt)
  end.

(** ** The end of the simulation *)

(** What [endOfSimulation] does before it calls the callback. *)
Definition finalize_backend (host : Host) : HM unit := wellen_call (fun _ => wellen_finalize host).

(** ** The prefetch threads *)

(** What the thread of a handle reads at an index. *)
Definition int_read (w : WaveWorld) (vpiHdl idx : Z) : option Z :=
  match wellen_get_int_value vpiHdl idx w with Ret x _ => Some x | _ => None end.

(** A step of the thread of [sigHdl]; one that is blocked does nothing. *)
Definition thread_step (opts : JitOptions) (sigHdl : Z) : HM unit := fun st =>
  match sig_objs (vpi st) !! sigHdl with
  | None => UB "not a SignalHandle"
  | Some o =>
      match opt_step opts (int_read (wave st) (so_vpiHdl o)) (jit_of (vpi st) o) with
      | OMoved s => put_jit sigHdl o s st
      | OBlocked => Ret tt st
      | OAborted => Panic "wellen_get_int_value panicked" st
      | OUndefined => UB "index outside optValueVec"
      end
  end.

End Vpi.
