(* ===== verification/WaveHandlesFacts.v ===== *)
(** * The VPI functions of the waveform kernel: what they promise

    The invariant of the handle sets ([good]), a judgement for calls that return in
    it ([vruns]), and what lookups, iterations and reads answer.  A waveform is a
    function from signals to their records ([content]): whenever a signal is loaded,
    it is that one. *)

From S2P Require Import Prelude Bytes State WaveValue WaveData WaveImpl WaveSession WaveRead WaveFiles Wave WaveJit WaveHandles.
#[local] Open Scope Z_scope.

(** Every variable of a scope is found under its full name. *)
Definition full_names `{Wellen} (h : Hierarchy) : Prop :=
  forall s v, v ∈ scope_vars h s -> resolves h (var_full_name h v) = Some (var_signal_ref h v).

Lemma distinct_vars_in `{Wellen} h ty vars : forall seen v, v ∈ distinct_vars h ty seen vars -> v ∈ vars.
Proof.
  induction vars as [|w vars IH]; intros seen v; cbn [distinct_vars]; [done|].
  destruct (_ && _); [rewrite !elem_of_cons; intros [->|?]; [by left|right; by eapply IH]|].
  intros Hv. apply elem_of_cons. right. by eapply IH.
Qed.

Section Facts.
Context {wellen : Wellen} {serde : Serde} {allocator : Allocator}.
Context (content : SignalRef -> Signal).

(** ** The recorded signals *)

Definition from_content (l : Live) : Prop := forall r i, l_sigs l !! r = Some i -> signal i = content r.

(** The width of a signal: that of its first value. *)
Definition content_width (r : SignalRef) : Z :=
  match get_first_time_idx (content r) with
  | Some i => match get_offset (content r) i with
              | Some off => default 0 (sv_width (get_value_at (content r) off 0))
              | None => 0 end
  | None => 0
  end.

(** What [wellen_get_int_value] reads at an index. *)
Definition content_int (r : SignalRef) (idx : Z) : option Z :=
  match get_offset (content r) (u32 idx) with
  | Some off =>
      match get_value_at (content r) off 0 with
      | BitVec bv => if bool_decide (bv_states bv = Two)
                     then (fun data => u32 (i32 (bytes_last_u32_be data))) <$> bv_be_bytes bv else Some 0
      | OtherValue _ => None
      end
  | None => Some 0
  end.

(** The waveform holds [content]. *)
Record waveform : Prop := mkWaveform {
  wf_crates : crates_ok;
  wf_loaded : forall r sg, loaded r sg -> sg = content r
}.

(** The first value of a signal is a bit vector: only then has it a size.  A real or
    string variable and a signal without a value are not [sized]. *)
Definition sized_obj (o : Obj) : Prop := match o with OSignal r => sized (content r) | OModule _ => True end.

Hypothesis wf : waveform.

Lemma content_evolves `{al : Allocator} l l' : from_content l -> evolves (allocator := al) l l' -> from_content l'.
Proof.
  intros Hc Hev r i Hi. destruct (ev_sigs _ _ Hev r i Hi) as [H|H]; [by apply Hc|by apply (wf_loaded wf)].
Qed.

Lemma content_info l a r : live_ok l -> from_content l -> l_boxes l !! a = Some (SignalBox r) ->
  exists info, l_sigs l !! r = Some info /\ signal info = content r.
Proof. intros Hok Hc Ha. destruct (ok_signal _ Hok _ _ Ha) as [[i Hi] _]. exists i. split; [done|by apply Hc]. Qed.

Lemma content_width_bound r : sized (content r) -> 0 < content_width r < 2 ^ 31.
Proof.
  unfold content_width. intros (i & off & bv & -> & -> & ->).
  destruct (cr_values (wf_crates wf) bv) as (Hw & -> & _). exact Hw.
Qed.

Lemma content_size l a r : live_ok l -> from_content l -> l_boxes l !! a = Some (SignalBox r) -> sized (content r) ->
  wellen_vpi_get vpiSize a (world l) = Ret (content_width r) (world l).
Proof.
  intros Hok Hc Ha Hsz. destruct (content_info l a r Hok Hc Ha) as (info & Hr & Hs).
  unfold wellen_vpi_get. rewrite (bind_Ret _ _ _ _ _ (signal_info_run _ _ _ _ Ha Hr)), Hs.
  pose proof (content_width_bound r Hsz) as Hb. unfold content_width in *.
  destruct Hsz as (i & off & bv & Hi & Ho & Hv). destruct (cr_values (wf_crates wf) bv) as (Hw & Hsv & _).
  rewrite Hi, Ho, Hv, Hsv in Hb |- *. unfold unwrap at 1. rewrite bind_ret, Ho. unfold expect. rewrite bind_ret, Hv.
  change (u32 vpiSize =? vpiSize) with true. cbv iota beta. rewrite Hsv. unfold unwrap. rewrite bind_ret.
  unfold ret. cbn in *. rewrite i32_small; [done|]. unfold in_width. lia.
Qed.

(** [wellen]: a real or a string has no number of bits. *)
Definition bits_of_other : Prop := forall x, sv_width (OtherValue x) = None.

(** The size of any other signal is an [unwrap] of [None]. *)
Lemma unsized_size l a r : bits_of_other -> live_ok l -> from_content l -> l_boxes l !! a = Some (SignalBox r) -> ~ sized (content r) ->
  exists why, wellen_vpi_get vpiSize a (world l) = Panic why (world l).
Proof.
  intros Hx Hok Hc Ha Hsz. destruct (content_info l a r Hok Hc Ha) as (info & Hr & Hs).
  unfold wellen_vpi_get. rewrite (bind_Ret _ _ _ _ _ (signal_info_run _ _ _ _ Ha Hr)), Hs.
  destruct (get_first_time_idx (content r)) as [i|] eqn:Hi; [|by eexists]. unfold unwrap at 1. rewrite bind_ret.
  destruct (get_offset (content r) i) as [off|] eqn:Ho; [|by eexists]. unfold expect. rewrite bind_ret.
  destruct (get_value_at (content r) off 0) as [bv|x] eqn:Hv; [destruct Hsz; by exists i, off, bv|].
  change (u32 vpiSize =? vpiSize) with true. cbv iota beta. rewrite Hx. by eexists.
Qed.

Lemma content_int_read l a r idx : live_ok l -> from_content l -> l_boxes l !! a = Some (SignalBox r) ->
  int_read (world l) a idx = content_int r idx.
Proof.
  intros Hok Hc Ha. destruct (content_info l a r Hok Hc Ha) as (info & Hr & Hs).
  unfold int_read, wellen_get_int_value, content_int.
  rewrite (bind_Ret _ _ _ _ _ (signal_info_run _ _ _ _ Ha Hr)), Hs.
  destruct (get_offset _ _) as [off|]; [|done]. destruct (get_value_at _ _ _) as [bv|]; [|done].
  destruct (bool_decide _); [|done]. by destruct (bv_be_bytes bv).
Qed.

(** ** Names after an iteration has begun *)

Section Names.
Context {al : Allocator}.
Hypothesis alloc : @alloc_ok al.

Lemma collect_vars_names type_ vars : forall l seen,
  live_ok l -> hierarchy_ok (l_hier l) ->
  (forall v, v ∈ vars -> resolves (l_hier l) (var_full_name (l_hier l) v) = Some (var_signal_ref (l_hier l) v)) ->
  runs (allocator := al) (collect_vars (allocator := al) (l_hier l) type_ seen vars) l (fun _ l' =>
    (forall v, v ∈ distinct_vars (l_hier l) type_ seen vars ->
       l_names l' !! var_signal_ref (l_hier l) v = Some (var_full_name (l_hier l) v)) /\
    (forall r, r ∈ seen -> l_names l' !! r = l_names l !! r)).
Proof.
  induction vars as [|v vars IH]; intros l seen Hok Hh Hn; cbn [collect_vars distinct_vars].
  { apply runs_ret; [done|]. split; [|done]. by intros v ?%elem_of_nil. }
  assert (forall w, w ∈ vars -> resolves (l_hier l) (var_full_name (l_hier l) w) = Some (var_signal_ref (l_hier l) w)) as Hn'
    by (intros w Hw; apply Hn, elem_of_cons; by right).
  destruct (_ =? type_); cbn [negb andb]; [|by apply IH].
  destruct (decide (var_signal_ref (l_hier l) v ∈ seen)) as [Hin|Hin].
  { rewrite bool_decide_true, bool_decide_false by (try done; auto). by apply IH. }
  rewrite bool_decide_false, bool_decide_true by done.
  destruct (proj1 (proj2 Hh v)) as [Hstr Hnul]. unfold CString_new. rewrite Hnul. apply runs_bind_ret.
  eapply runs_bind.
  { apply handle_by_name_runs; [done|by apply (cr_load (wf_crates wf))|done|by split|by apply dotted]. }
  intros a l1 Hok1 Hev1 Ha. pose proof (ev_hier _ _ Hev1) as Hhe.
  unfold answers in Ha. rewrite Hn in Ha by (apply elem_of_cons; by left). destruct Ha as (_ & _ & _ & Hnames).
  pose proof (IH l1 ({[var_signal_ref (l_hier l) v]} ∪ seen) Hok1) as IH1. rewrite Hhe in IH1.
  eapply runs_bind; [by apply IH1|]. intros hs l2 Hok2 Hev2 [Hd Hs]. apply runs_ret; [done|]. split.
  - intros v' [->|Hin']%elem_of_cons; [|by apply Hd].
    rewrite Hs by set_solver. by rewrite Hnames, lookup_insert_eq.
  - intros r Hr. rewrite Hs by set_solver. rewrite Hnames. apply lookup_insert_ne. intros <-. done.
Qed.

Definition scope_names (type_ : Z) (ref : option ScopeRef) (h : Hierarchy) (l' : Live) : Prop :=
  forall s v, ref = Some s -> signal_type type_ = true -> v ∈ distinct_vars h type_ ∅ (scope_vars h s) ->
    l_names l' !! var_signal_ref h v = Some (var_full_name h v).

Lemma iterate_names type_ a ref l :
  live_ok l -> hierarchy_ok (l_hier l) -> full_names (l_hier l) -> ref_denotes l a ref -> u32 type_ <> vpiModule ->
  forall it l', wellen_vpi_iterate (allocator := al) type_ a (world l) = Ret it (world l') ->
  scope_names type_ ref (l_hier l) l'.
Proof.
  intros Hok Hh Hn Href Hty it l' E s v -> Hst Hv. inversion Href as [|? ? Ha]; subst.
  destruct (collect_vars_names type_ (scope_vars (l_hier l) s) l ∅ Hok Hh (Hn s)) as (hs & l1 & E1 & _ & _ & Hd & _).
  assert (iterate_items (allocator := al) type_ a (world l) = Ret (map ItSignal hs) (world l1)) as Ei.
  { unfold iterate_items, collect_signal_handles. rewrite Hst. destruct (Z.eqb_spec (u32 type_) vpiModule); [done|].
    destruct (Z.eqb_spec a 0) as [->|_]; [by destruct (ptr_nonnull l 0 s)|].
    unfold bind, static_. cbn. rewrite Ha. cbn. by rewrite E1. }
  assert (l_names l' = l_names l1) as ->; [|by apply Hd].
  unfold wellen_vpi_iterate in E. rewrite (bind_Ret _ _ _ _ _ Ei) in E. destruct (_ =? 0)%nat.
  - destruct l1, l'. by injection E.
  - unfold bind, new_box, static_, modify, ret in E. cbn in E. destruct l'. by injection E.
Qed.
End Names.

(** ** The invariant *)

Context (opts : JitOptions) (forward : bool).
Hypothesis window : 0 <= compileWindowSize opts.

(** The allocator of [wellen_impl] when the C++ side is [v]. *)
Abbreviation al v := (outside (dom (sig_objs v))).

Lemma al_ok v : @alloc_ok (al v).
Proof.
  intros X. destruct (cr_alloc (wf_crates wf) (dom (sig_objs v) ∪ X)) as [Hn H0]. split; [|exact H0].
  intros Hin. apply Hn. apply elem_of_union. by right.
Qed.

Lemma al_given v a : given (allocator := al v) a -> sig_objs v !! a = None /\ a <> 0.
Proof.
  intros [X ->]. destruct (cr_alloc (wf_crates wf) (dom (sig_objs v) ∪ X)) as [Hn H0]. split; [|exact H0].
  apply not_elem_of_dom. intros Hin. apply Hn. apply elem_of_union. by left.
Qed.

(** A [SignalHandle_t] describes the signal behind its [vpiHdl]. *)
Record obj_ok (v : VpiState) (l : Live) (o : SigObj) (r : SignalRef) : Prop := mkObj {
  ob_box : l_boxes l !! so_vpiHdl o = Some (SignalBox r);
  ob_name : resolves (l_hier l) (so_name o) = Some r;
  ob_size : Z.of_nat (bitSize (so_jit o)) = content_width r;
  ob_sized : sized (content r);
  ob_opt : canOpt (so_jit o) = (content_width r <=? 32);
  ob_jit : jit_inv opts (content_int r) forward (jit_of v o)
}.

(** What an iterator of a type yields. *)
Definition of_type (ty : Z) (o : Obj) : Prop :=
  match o with OModule _ => ty = vpiModule | OSignal _ => ty <> vpiModule end.

Record good (v : VpiState) (l : Live) : Prop := mkGood {
  g_live : live_ok l;
  g_hier : hierarchy_ok (l_hier l);
  g_full : full_names (l_hier l);
  g_content : from_content l;
  g_names : forall r n, l_names l !! r = Some n -> resolves (l_hier l) n = Some r;
  g_sets : signalHandleSet v = dom (sig_objs v);
  g_objs : forall a o, sig_objs v !! a = Some o -> exists r, obj_ok v l o r;
  g_apart : forall a, is_Some (sig_objs v !! a) -> l_boxes l !! a = None /\ a <> 0;
  g_mods : forall a, a ∈ moduleHandleSet v -> is_Some (l_ptrs l !! a);
  g_iters : iteratorHandleSet v = dom (iteratorTypeMap v);
  g_types : forall a ty, iteratorTypeMap v !! a = Some ty ->
    exists objs, iterator_over objs l a /\ Forall (of_type ty) objs;
  g_cursor : 0 <= v_index v <= v_maxIndex v /\ v_maxIndex v + 2 * compileWindowSize opts < 2 ^ 64
}.

(** A process starts with an open waveform and no handles. *)
Definition blank_vpi (maxIndex : Z) : VpiState := mkVpi ∅ ∅ ∅ ∅ ∅ 0 maxIndex 0 false.

Lemma good_start l maxIndex : live_ok l -> hierarchy_ok (l_hier l) -> full_names (l_hier l) -> from_content l ->
  l_names l = ∅ -> 0 <= maxIndex -> maxIndex + 2 * compileWindowSize opts < 2 ^ 64 -> good (blank_vpi maxIndex) l.
Proof.
  intros. split; try done; cbn; try lia; try (by intros ? ? ?); try (by intros ? [? ?]).
  - intros r n Hr. by rewrite H3, lookup_empty in Hr.
Qed.

(** The handle sets tell the three kinds of pointers apart. *)
Lemma sets_apart v l : good v l ->
  signalHandleSet v ## moduleHandleSet v /\ signalHandleSet v ## iteratorHandleSet v /\
  moduleHandleSet v ## iteratorHandleSet v.
Proof.
  intros G. pose proof (g_live _ _ G) as Hok.
  assert (forall a, a ∈ moduleHandleSet v -> exists n, l_boxes l !! a = Some (ModuleBox n)) as Hm.
  { intros a Ha. destruct (g_mods _ _ G a Ha) as [s Hs]. eexists. by apply (ok_module _ Hok). }
  assert (forall a, a ∈ iteratorHandleSet v -> exists items i, l_boxes l !! a = Some (IterBox items i)) as Hi.
  { intros a Ha. rewrite (g_iters _ _ G) in Ha. apply elem_of_dom in Ha as [ty Ht].
    destruct (g_types _ _ G a ty Ht) as (objs & (items & i & Hb & _) & _). eauto. }
  assert (forall a, a ∈ signalHandleSet v -> l_boxes l !! a = None) as Hs.
  { intros a Ha. rewrite (g_sets _ _ G) in Ha. apply elem_of_dom in Ha. by apply (g_apart _ _ G). }
  split; [|split]; intros a H1 H2.
  - destruct (Hm a H2) as [n Hn]. specialize (Hs a H1). congruence.
  - destruct (Hi a H2) as (items & i & Hn). specialize (Hs a H1). congruence.
  - destruct (Hm a H1) as [n Hn], (Hi a H2) as (items & i & Hn'). congruence.
Qed.

(** What the calls of a client leave as it is: the hierarchy and the cursor, and what
    the handles stand for. *)
Record moves (v : VpiState) (l : Live) (v' : VpiState) (l' : Live) : Prop := mkMoves {
  mv_hier : l_hier l' = l_hier l;
  mv_index : v_index v' = v_index v;
  mv_boxes : forall a r, l_boxes l !! a = Some (SignalBox r) -> l_boxes l' !! a = Some (SignalBox r);
  mv_ptrs : l_ptrs l ⊆ l_ptrs l';
  mv_mods : moduleHandleSet v ⊆ moduleHandleSet v';
  mv_objs : forall a o, sig_objs v !! a = Some o -> exists o', sig_objs v' !! a = Some o' /\
    so_name o' = so_name o /\ so_vpiHdl o' = so_vpiHdl o /\ bitSize (so_jit o') = bitSize (so_jit o)
}.

Lemma moves_refl v l : moves v l v l.
Proof. split; eauto. Qed.

Lemma moves_trans v1 l1 v2 l2 v3 l3 : moves v1 l1 v2 l2 -> moves v2 l2 v3 l3 -> moves v1 l1 v3 l3.
Proof.
  intros [] []. split; eauto; try congruence; try by etransitivity.
  intros a o Ha. destruct (mv_objs0 a o Ha) as (o' & Ho' & ? & ? & ?).
  destruct (mv_objs1 a o' Ho') as (o'' & ? & ? & ? & ?). exists o''. split_and!; congruence.
Qed.

(** The iterators in [P] are left alone. *)
Definition iters_kept (P : Z -> Prop) (v : VpiState) (l : Live) (v' : VpiState) (l' : Live) : Prop :=
  forall a ty, P a -> iteratorTypeMap v !! a = Some ty ->
    iteratorTypeMap v' !! a = Some ty /\
    forall items i, l_boxes l !! a = Some (IterBox items i) -> l_boxes l' !! a = Some (IterBox items i).

Lemma kept_refl P v l : iters_kept P v l v l.
Proof. by intros a ty _ Ha. Qed.

Lemma kept_trans P v1 l1 v2 l2 v3 l3 :
  iters_kept P v1 l1 v2 l2 -> iters_kept P v2 l2 v3 l3 -> iters_kept P v1 l1 v3 l3.
Proof.
  intros H1 H2 a ty HP Ha. destruct (H1 a ty HP Ha) as [Ha2 Hb2]. destruct (H2 a ty HP Ha2) as [Ha3 Hb3].
  split; [done|]. intros items i Hb. by apply Hb3, Hb2.
Qed.

Lemma kept_mono (P Q : Z -> Prop) v l v' l' : (forall a, P a -> Q a) -> iters_kept Q v l v' l' -> iters_kept P v l v' l'.
Proof. intros HPQ H a ty HP. apply H. by apply HPQ. Qed.

Lemma over_evolves `{al' : Allocator} objs l l' it :
  evolves (allocator := al') l l' ->
  (forall items i, l_boxes l !! it = Some (IterBox items i) -> l_boxes l' !! it = Some (IterBox items i)) ->
  iterator_over objs l it -> iterator_over objs l' it.
Proof.
  intros Hev Hit (items & i & Hb & Hf). exists items, i. split; [by apply Hit|].
  eapply Forall2_impl; [exact Hf|]. intros. by eapply item_denotes_evolves.
Qed.

(** A call into [wellen_impl] that leaves the iterators of the C++ side good. *)
Lemma good_evolves v l l' : good v l -> live_ok l' -> evolves (allocator := al v) l l' ->
  (forall a ty, iteratorTypeMap v !! a = Some ty -> exists objs, iterator_over objs l' a /\ Forall (of_type ty) objs) ->
  good v l' /\ moves v l v l'.
Proof.
  intros G Hok Hev Hty. pose proof (ev_hier _ _ Hev) as Hh. split.
  - destruct G as [H1 H2 H3 H4 H5 H6 H7 H8 H9 H10 H11 H12]. split; rewrite ?Hh; try done.
    + exact (content_evolves l l' H4 Hev).
    + intros r n Hn. destruct (ev_names _ _ Hev r n Hn) as [Hn'|]; [by apply H5|done].
    + intros a o Ho. destruct (H7 a o Ho) as [r []]. exists r. split; try done; [by apply (ev_signal _ _ Hev)|by rewrite Hh].
    + intros a Ha. destruct (H8 a Ha) as [Hn H0]. split; [|done].
      destruct (l_boxes l' !! a) as [b|] eqn:Hb; [|done]. exfalso.
      destruct (ev_boxes _ _ Hev a b Hb) as [[b' Hb']|Hg]; [congruence|].
      apply al_given in Hg as [Hg _]. destruct Ha. congruence.
    + intros a Ha. destruct (H9 a Ha) as [s Hs]. exists s. eapply lookup_weaken; [exact Hs|apply (ev_ptrs _ _ Hev)].
  - split; eauto; [apply (ev_signal _ _ Hev)|apply (ev_ptrs _ _ Hev)].
Qed.

(** ** Calls that return *)

(** [vruns m v l Q]: [m] returns from [v] and [l], in a good state, with [Q]. *)
Definition vruns {A} (m : HM A) (v : VpiState) (l : Live) (Q : A -> VpiState -> Live -> Prop) : Prop :=
  exists a v' l', m (mkCompat v (world l)) = Ret a (mkCompat v' (world l')) /\
    good v' l' /\ moves v l v' l' /\ Q a v' l'.

Lemma vruns_ret {A} (a : A) v l (Q : A -> VpiState -> Live -> Prop) : good v l -> Q a v l -> vruns (ret a) v l Q.
Proof. intros. exists a, v, l. split; [done|]. split; [done|]. split; [apply moves_refl|done]. Qed.

Lemma vruns_bind {A B} (m : HM A) (k : A -> HM B) v l (P : A -> VpiState -> Live -> Prop) (Q : B -> VpiState -> Live -> Prop) :
  vruns m v l P ->
  (forall a v1 l1, good v1 l1 -> moves v l v1 l1 -> P a v1 l1 -> vruns (k a) v1 l1 Q) ->
  vruns (bind m k) v l Q.
Proof.
  intros (a & v1 & l1 & E1 & G1 & M1 & HP) Hk.
  destruct (Hk a v1 l1 G1 M1 HP) as (b & v2 & l2 & E2 & G2 & M2 & HQ).
  exists b, v2, l2. split; [by rewrite (bind_Ret _ _ _ _ _ E1)|]. split; [done|].
  split; [by eapply moves_trans|done].
Qed.

Lemma vruns_mono {A} (m : HM A) v l (P Q : A -> VpiState -> Live -> Prop) :
  vruns m v l P -> (forall a v' l', good v' l' -> moves v l v' l' -> P a v' l' -> Q a v' l') -> vruns m v l Q.
Proof. intros (a & v' & l' & E & G & M & HP) H. exists a, v', l'. eauto 10. Qed.

Lemma vruns_get {A B} (f : VpiState -> A) (k : A -> HM B) v l Q : vruns (k (f v)) v l Q -> vruns (bind (v_get f) k) v l Q.
Proof. intros H. exact H. Qed.

(** A read of [wellen_impl]. *)
Lemma vruns_pure {A} (m : WM A) (a : A) v l (Q : A -> VpiState -> Live -> Prop) :
  good v l -> m (world l) = Ret a (world l) -> Q a v l -> vruns (wellen_call (fun _ => m)) v l Q.
Proof.
  intros G E HQ. exists a, v, l. split; [unfold wellen_call; cbn; by rewrite E|]. split; [done|].
  split; [apply moves_refl|done].
Qed.

Lemma wellen_call_Ret {A} (m : Allocator -> WM A) a v l l' :
  m (al v) (world l) = Ret a (world l') ->
  wellen_call m (mkCompat v (world l)) = Ret a (mkCompat v (world l')).
Proof. intros E. unfold wellen_call. cbn. by rewrite E. Qed.

Lemma vruns_call {A B} (m : Allocator -> WM A) (k : A -> HM B) a v l l1 Q :
  m (al v) (world l) = Ret a (world l1) -> moves v l v l1 -> vruns (k a) v l1 Q ->
  vruns (bind (wellen_call m) k) v l Q.
Proof.
  intros E M (b & v' & l' & E2 & G2 & M2 & HQ). exists b, v', l'.
  split; [by rewrite (bind_Ret _ _ _ _ _ (wellen_call_Ret m a v l l1 E))|]. split; [done|].
  split; [by eapply moves_trans|done].
Qed.

(** A call into [wellen_impl] that leaves its iterators alone. *)
Lemma vruns_wellen {A} (m : Allocator -> WM A) v l (P : A -> Live -> Prop) (Q : A -> VpiState -> Live -> Prop) :
  good v l -> runs (allocator := al v) (m (al v)) l P -> (forall a l', P a l' -> iters_same l l') ->
  (forall a l', good v l' -> moves v l v l' -> iters_kept (fun _ => True) v l v l' ->
     evolves (allocator := al v) l l' -> P a l' -> m (al v) (world l) = Ret a (world l') -> Q a v l') ->
  vruns (wellen_call m) v l Q.
Proof.
  intros G (a & l' & E & Hok & Hev & HP) Hit HQ. specialize (Hit a l' HP).
  destruct (good_evolves v l l' G Hok Hev) as [G' M].
  { intros x ty Hx. destruct (g_types _ _ G x ty Hx) as (objs & Ho & Ht). exists objs. split; [|done].
    eapply (over_evolves (al' := al v)); [exact Hev|apply Hit|exact Ho]. }
  exists a, v, l'. split; [by apply wellen_call_Ret|]. split; [done|]. split; [done|].
  apply HQ; try done. intros x ty _ Hx. split; [done|]. apply Hit.
Qed.

(** ** Signal handles *)

(** [h] is a handle of the signal [r] with the name [n]. *)
Definition is_signal (v : VpiState) (l : Live) (h : Z) (n : string) (r : SignalRef) : Prop :=
  exists o, sig_objs v !! h = Some o /\ so_name o = n /\ obj_ok v l o r.

Lemma new_signal_handle_vruns name hdl r v l :
  good v l -> l_boxes l !! hdl = Some (SignalBox r) -> resolves (l_hier l) name = Some r -> sized (content r) ->
  vruns (new_signal_handle name hdl (content_width r)) v l (fun h v' l' =>
    l' = l /\ h <> 0 /\ sig_objs v !! h = None /\ is_signal v' l' h name r /\
    moduleHandleSet v' = moduleHandleSet v /\ iteratorTypeMap v' = iteratorTypeMap v).
Proof.
  intros G Hb Hn Hsz. set (h := fresh_addr (dom (l_boxes l) ∪ dom (sig_objs v))).
  destruct (cr_alloc (wf_crates wf) (dom (l_boxes l) ∪ dom (sig_objs v))) as [Hf H0]. fold h in Hf, H0.
  apply not_elem_of_union in Hf as [Hf1 Hf2]. apply not_elem_of_dom in Hf1, Hf2.
  pose proof (content_width_bound r Hsz) as Hw.
  set (o := mkSigObj name hdl (mkSignalHandle (Z.to_nat (u64 (content_width r))) (content_width r <=? 32) 0 false false [] 0 0) OptNone).
  set (v' := set_signals ({[h]} ∪ signalHandleSet v) (<[h := o]> (sig_objs v)) v).
  assert (obj_ok v' l o r) as Ho.
  { split; cbn; try done.
    - unfold u64. rewrite wrap_small by (unfold in_width; lia). lia.
    - apply start_inv. exists (Z.to_nat (u64 (content_width r))). cbn. split_and!; try done; [|apply G|apply G].
      unfold new_handle. f_equal. unfold u64. rewrite wrap_small by (unfold in_width; lia).
      destruct (Z.leb_spec (content_width r) 32); [rewrite bool_decide_true by lia|rewrite bool_decide_false by lia]; done. }
  exists h, v', l. split; [done|]. split; [|split; [|split_and!; try done; exists o; split; [cbn; apply lookup_insert_eq|done]]].
  - destruct G as [H1 H2 H3 H4 H5 H6 H7 H8 H9 H10 H11 H12]. split; cbn; try done.
    + by rewrite dom_insert_L, H6.
    + intros a o' [[<- <-]|[? Ha]]%lookup_insert_Some; [by exists r|]. destruct (H7 a o' Ha) as [r' []]. by exists r'.
    + intros a [o' [[<- <-]|[? Ha]]%lookup_insert_Some]; [done|]. apply H8. by eexists.
  - split; cbn; try done. intros a o' Ha. exists o'. split; [|done]. rewrite lookup_insert_ne; [done|]. intros ->. congruence.
Qed.

(** Looking a name up gives a new handle of the signal it denotes, with the name, or
    null. *)
Lemma by_name_vruns v l n : good v l -> c_name n -> has "." (as_bytes n) = true ->
  (forall r, resolves (l_hier l) n = Some r -> sized (content r)) ->
  vruns (vpi_handle_by_name (Some n) 0) v l (fun h v' l' =>
    iters_kept (fun _ => True) v l v' l' /\
    match resolves (l_hier l) n with
    | Some r => h <> 0 /\ sig_objs v !! h = None /\ is_signal v' l' h n r
    | None => h = 0
    end).
Proof.
  intros G Hc Hd Hsz. unfold vpi_handle_by_name, fatal_unless. cbn [Z.eqb assert_].
  eapply vruns_bind; [by apply (vruns_ret tt _ _ (fun _ v' l' => v' = v /\ l' = l))|]. intros [] v0 l0 _ _ [-> ->].
  eapply vruns_bind.
  { eapply (vruns_wellen (fun al => wellen_vpi_handle_by_name (allocator := al) (Some n)) v l _
      (fun a v' l' => v' = v /\ iters_kept (fun _ => True) v l v l' /\ l_hier l' = l_hier l /\
         match resolves (l_hier l) n with Some r => a <> 0 /\ l_boxes l' !! a = Some (SignalBox r) | None => a = 0 end) G).
    - apply handle_by_name_runs; [apply al_ok|apply (cr_load (wf_crates wf))|apply G|done|by apply has_dot].
    - unfold answers. intros a l'. destruct (resolves _ _); [intros (_ & ? & _)|intros (_ & ? & _)]; done.
    - intros a l' G' M K Hev Ha _. split; [done|]. split; [done|]. split; [apply M|]. unfold answers in Ha.
      destruct (resolves _ _); [|by destruct Ha]. destruct Ha as ([_ H0] & _ & Hb & _). done. }
  intros a v1 l1 G1 M1 (-> & K1 & Hh & Ha). destruct (resolves (l_hier l) n) as [r|] eqn:Hr.
  - destruct Ha as [H0 Hb]. destruct (Z.eqb_spec a 0); [done|].
    eapply vruns_bind; [eapply (vruns_pure _ (content_width r) v l1 (fun w v' l' => w = content_width r /\ v' = v /\ l' = l1));
      [done|by apply content_size; [apply G1|apply G1| |apply Hsz]|done]|].
    intros w v2 l2 _ _ (-> & -> & ->).
    eapply vruns_mono; [by apply (new_signal_handle_vruns n a r); [|done|rewrite Hh|apply Hsz]|].
    intros h v2 l2 _ _ (-> & Hh0 & Hf & His & _ & Ht). split; [|done].
    intros x ty _ Hx. rewrite Ht. split; [done|]. by apply K1 with ty.
  - subst a. cbn [Z.eqb]. apply vruns_ret; [done|]. done.
Qed.

(** ** Iterations *)

Definition iter_type (ty : Z) : Prop := ty = vpiModule \/ ty = vpiNet \/ ty = vpiReg \/ ty = vpiMemory.

Lemma objects_of_type h ty ref : iter_type ty -> Forall (of_type ty) (objects h ty ref).
Proof.
  intros Hty. unfold objects. destruct (Z.eqb_spec (u32 ty) vpiModule) as [E|E].
  - apply Forall_fmap, Forall_true. intros s. cbn. by destruct Hty as [->|[->|[->| ->]]].
  - destruct (signal_type ty); [|constructor]. destruct ref as [s|]; [|constructor].
    apply Forall_fmap, Forall_true. intros r. cbn. by destruct Hty as [->|[->|[->| ->]]].
Qed.

(** What an iteration starts: null when there is nothing, else a new iterator over
    the objects; each signal among them has its full name recorded. *)
Definition iterates (ty : Z) (ref : option ScopeRef) (v : VpiState) (l : Live) (it : Z) (v' : VpiState) (l' : Live) : Prop :=
  iters_kept (fun _ => True) v l v' l' /\
  (u32 ty <> vpiModule -> scope_names ty ref (l_hier l) l') /\
  match objects (l_hier l) ty ref with
  | [] => it = 0 /\ iteratorTypeMap v' = iteratorTypeMap v
  | objs => it <> 0 /\ iteratorTypeMap v !! it = None /\ iteratorTypeMap v' = <[it := ty]> (iteratorTypeMap v) /\ iterator_over objs l' it
  end.

Lemma iterate_vruns ty a ref v l : good v l -> iter_type ty -> ref_denotes l a ref ->
  vruns (vpi_iterate ty a) v l (iterates ty ref v l).
Proof.
  intros G Hty Href. unfold vpi_iterate.
  assert (negb (ty =? vpiModule) && negb (ty =? vpiNet) && negb (ty =? vpiReg) && negb (ty =? vpiMemory) = false) as ->
    by (by destruct Hty as [->|[->|[->| ->]]]).
  eapply vruns_bind.
  { eapply (vruns_wellen (fun al => wellen_vpi_iterate (allocator := al) ty a) v l _
      (fun it v' l' => v' = v /\ iters_kept (fun _ => True) v l v l' /\ l_hier l' = l_hier l /\
         (u32 ty <> vpiModule -> scope_names ty ref (l_hier l) l') /\
         match objects (l_hier l) ty ref with [] => it = 0 | objs => it <> 0 /\ l_boxes l !! it = None /\ iterator_over objs l' it end) G).
    - apply iterate_runs; [apply al_ok|apply (cr_load (wf_crates wf))|apply G|apply G|exact Href].
    - by intros it l' [? _].
    - intros it l' G' M K Hev [_ Hit] E. split; [done|]. split; [done|]. split; [apply M|]. split; [|done].
      intros Hm. apply (iterate_names (al := al v)) with (a := a) (it := it); [apply al_ok|apply G..|done|done|exact E]. }
  intros it v1 l1 G1 M1 (-> & K & Hh & Hn & Hit).
  pose proof (objects_of_type (l_hier l) ty ref Hty) as Hot. unfold iterates.
  destruct (objects (l_hier l) ty ref) as [|o objs] eqn:Eo.
  - subst it. cbn [Z.eqb negb]. eapply vruns_bind; [by apply (vruns_ret tt _ _ (fun _ v' l' => v' = v /\ l' = l1))|].
    intros [] v2 l2 _ _ [-> ->]. by apply vruns_ret.
  - destruct Hit as (H0 & Hf & Hover). destruct (Z.eqb_spec it 0); [done|]. cbn [negb].
    assert (iteratorTypeMap v !! it = None) as Hfresh.
    { destruct (iteratorTypeMap v !! it) as [ty'|] eqn:E; [|done].
      destruct (g_types _ _ G it ty' E) as (? & (items & i & Hb & _) & _). congruence. }
    set (v2 := set_iterators ({[it]} ∪ iteratorHandleSet v) (<[it := ty]> (iteratorTypeMap v)) v).
    exists it, v2, l1. split; [done|]. split; [|split].
    + destruct G1 as [H1 H2 H3 H4 H5 H6 H7 H8 H9 H10 H11 H12]. split; cbn; try done.
      * intros x o' Ho. destruct (H7 x o' Ho) as [r []]. by exists r.
      * by rewrite dom_insert_L, H10.
      * intros x ty' [[<- <-]|[? Hx]]%lookup_insert_Some; [by exists (o :: objs)|by apply H11].
    + split; cbn; try done. eauto.
    + split; [|split; [done|split; [done|split; [done|split; [done|done]]]]].
      intros x ty' _ Hx. split; [|by apply (K x ty')]. cbn. rewrite lookup_insert_ne; [done|]. intros ->. congruence.
Qed.

(** ** Scans *)

(** A handle stands for an object; a signal handle carries the name recorded for the
    signal. *)
Definition yields (o : Obj) (h : Z) (v : VpiState) (l : Live) : Prop :=
  match o with
  | OModule s => h ∈ moduleHandleSet v /\ l_ptrs l !! h = Some s
  | OSignal r => exists n, l_names l !! r = Some n /\ is_signal v l h n r
  end.

(** A scan yields the next object and advances, or ends and frees the iterator;
    others are left alone. *)
Definition scans (objs : list Obj) (ty it : Z) (v : VpiState) (l : Live) (h : Z) (v' : VpiState) (l' : Live) : Prop :=
  iters_kept (fun x => x <> it) v l v' l' /\ l_names l' = l_names l /\
  match objs with
  | [] => h = 0 /\ iteratorTypeMap v' = delete it (iteratorTypeMap v) /\ l_boxes l' !! it = None
  | o :: objs => h <> 0 /\ yields o h v' l' /\ iteratorTypeMap v' = iteratorTypeMap v /\ iterator_over objs l' it
  end.

(** A scan that answers does so with more fuel. *)
Lemma scan_loop_more n m it ty st h st' : scan_loop n it ty st = Ret h st' -> (n <= m)%nat -> scan_loop m it ty st = Ret h st'.
Proof.
  revert m st. induction n as [|n IH]; intros m st; [done|]. destruct m as [|m]; [lia|]. cbn [scan_loop].
  intros E Hle. mon_inv. erewrite bind_Ret by done. destruct (_ =? 0); [done|]. destruct (_ =? vpiModule); [done|].
  mon_inv. erewrite bind_Ret by done. case_match; [done|]. apply IH; [done|lia].
Qed.

Lemma scan_end_vruns ty it v l : good v l -> iteratorTypeMap v !! it = Some ty -> iterator_over [] l it ->
  vruns (scan_loop 1 it ty) v l (scans [] ty it v l).
Proof.
  intros G Hty Hover.
  destruct (scan_runs (allocator := al v) (al_ok v) l it [] (g_live _ _ G) (g_hier _ _ G) Hover)
    as (a & l' & E & Hok & Hev & Hoth & Hnm & -> & Hb).
  pose proof (wellen_call_Ret (fun al => wellen_vpi_scan (allocator := al) it) 0 v l l' E) as Ec.
  set (v' := set_iterators (iteratorHandleSet v ∖ {[it]}) (delete it (iteratorTypeMap v)) v).
  assert (forall x ty', iteratorTypeMap v' !! x = Some ty' -> exists objs, iterator_over objs l' x /\ Forall (of_type ty') objs) as Hty'.
  { intros x ty' Hx. apply (lookup_delete_Some (iteratorTypeMap v)) in Hx as [Hne Hx]. destruct (g_types _ _ G x ty' Hx) as (objs & Ho & Ht). exists objs.
    split; [|done]. apply (over_evolves (al' := al v) objs l l' x Hev); [|done]. intros. by apply Hoth. }
  assert (good v' l) as G0.
  { destruct G as [H1 H2 H3 H4 H5 H6 H7 H8 H9 H10 H11 H12]. split; cbn; try done.
    - intros x o Ho. destruct (H7 x o Ho) as [r []]. by exists r.
    - by rewrite dom_delete_L, H10.
    - intros x ty' [_ Hx]%lookup_delete_Some. by apply H11. }
  destruct (good_evolves v' l l' G0 Hok Hev Hty') as [G' M].
  exists 0, v', l'. split; [|split; [done|split]].
  - cbn [scan_loop]. by rewrite (bind_Ret _ _ _ _ _ Ec).
  - destruct M. by split.
  - split; [|split; [done|split; [done|split; [done|done]]]].
    intros x ty' Hne Hx. split; [cbn; by rewrite lookup_delete_ne by done|]. intros. by apply Hoth.
Qed.

Lemma scan_item_vruns o objs ty it v l : good v l -> iteratorTypeMap v !! it = Some ty ->
  of_type ty o -> iterator_over (o :: objs) l it -> Forall (of_type ty) objs -> sized_obj o ->
  vruns (scan_loop 1 it ty) v l (scans (o :: objs) ty it v l).
Proof.
  intros G Hty Hot Hover Hots Hsz.
  destruct (scan_runs (allocator := al v) (al_ok v) l it (o :: objs) (g_live _ _ G) (g_hier _ _ G) Hover)
    as (a & l1 & E & Hok & Hev & Hoth & Hnm & H0 & Hden & Hover').
  pose proof (wellen_call_Ret (fun al => wellen_vpi_scan (allocator := al) it) a v l l1 E) as Ec.
  destruct (good_evolves v l l1 G Hok Hev) as [G1 M1].
  { intros x ty' Hx. destruct (decide (x = it)) as [->|Hne].
    - exists objs. split; [done|]. by simplify_eq.
    - destruct (g_types _ _ G x ty' Hx) as (os & Ho & Ht). exists os. split; [|done].
      apply (over_evolves (al' := al v) os l l1 x Hev); [|done]. intros. by apply Hoth. }
  assert (iters_kept (fun x => x <> it) v l v l1) as K.
  { intros x ty' Hne Hx. split; [done|]. intros. by apply Hoth. }
  eapply (vruns_call _ _ a); [exact E|exact M1|]. destruct (Z.eqb_spec a 0); [done|].
  destruct o as [s|r]; cbn in Hot, Hden.
  - subst ty. cbn [Z.eqb]. set (v' := set_modules ({[a]} ∪ moduleHandleSet v) v).
    exists a, v', l1. split; [done|]. split; [|split].
    + destruct G1 as [H1 H2 H3 H4 H5 H6 H7 H8 H9 H10 H11 H12]. split; cbn; try done.
      * intros x o Ho. destruct (H7 x o Ho) as [r []]. by exists r.
      * intros x [->%elem_of_singleton|Hx]%elem_of_union; [by exists s|by apply H9].
    + split; cbn; eauto. set_solver.
    + split; [exact K|]. split; [done|]. split; [done|]. split; [|done]. split; [cbn; set_solver|done].
  - destruct (Z.eqb_spec ty vpiModule); [done|].
    destruct (get_str_signal l1 vpiName a r Hok Hden) as (on & En & Hname).
    destruct (Hname eq_refl) as (nm & -> & Hn).
    eapply (vruns_call (fun _ => wellen_vpi_get_str vpiName a) _ (Some nm)); [exact En|apply moves_refl|].
    eapply (vruns_call (fun _ => wellen_vpi_get vpiSize a) _ (content_width r));
      [by apply content_size; [|apply G1| |]|apply moves_refl|].
    eapply vruns_mono; [apply (new_signal_handle_vruns nm a r); [done|done|by apply (g_names _ _ G1)|done]|].
    intros h v' l' _ _ (-> & Hh0 & Hf & His & _ & Ht). split; [|split; [done|split; [done|]]].
    + intros x ty' Hne Hx. rewrite Ht. by apply K.
    + split; [by exists nm|]. by rewrite Ht.
Qed.

Lemma scan_vruns objs ty it v l : good v l -> iteratorTypeMap v !! it = Some ty ->
  Forall (of_type ty) objs -> iterator_over objs l it -> (forall o, head objs = Some o -> sized_obj o) ->
  forall fuel, (0 < fuel)%nat -> vruns (vpi_scan fuel it) v l (scans objs ty it v l).
Proof.
  intros G Hty Hot Hover Hsz fuel Hf. destruct fuel as [|fuel]; [lia|]. unfold vpi_scan.
  assert (it <> 0) as H0.
  { intros ->. destruct Hover as (items & i & Hb & _). rewrite (ok_null _ (g_live _ _ G)) in Hb. done. }
  destruct (Z.eqb_spec it 0); [done|]. apply vruns_get. rewrite bool_decide_true by (rewrite (g_iters _ _ G); apply elem_of_dom; by eexists).
  cbn [negb]. apply vruns_get. rewrite Hty. cbn [default].
  destruct objs as [|o objs].
  - destruct (scan_end_vruns ty it v l G Hty Hover) as (h & v' & l' & E & H). exists h, v', l'. split; [|done].
    by apply (scan_loop_more 1).
  - apply Forall_cons in Hot as [Ho Hot].
    destruct (scan_item_vruns o objs ty it v l G Hty Ho Hover Hot (Hsz o eq_refl)) as (h & v' & l' & E & H). exists h, v', l'. split; [|done].
    by apply (scan_loop_more 1).
Qed.

(** *** Signals without a size

    Looking such a signal up, or scanning it, aborts the process. *)

Lemma wellen_call_Panic {A} (m : Allocator -> WM A) why v w w' :
  m (al v) w = Panic why w' -> wellen_call m (mkCompat v w) = Panic why (mkCompat v w').
Proof. intros E. unfold wellen_call. cbn. by rewrite E. Qed.

Lemma unsized_lookup_panics v l n r : bits_of_other -> good v l -> c_name n -> has "." (as_bytes n) = true ->
  resolves (l_hier l) n = Some r -> ~ sized (content r) ->
  exists why st, vpi_handle_by_name (Some n) 0 (mkCompat v (world l)) = Panic why st.
Proof.
  intros Hx G Hc Hd Hr Hsz.
  destruct (handle_by_name_runs (allocator := al v) (al_ok v) (cr_load (wf_crates wf)) l n (g_live _ _ G) Hc (has_dot _ Hd))
    as (a & l1 & E & Hok1 & Hev & Ha). unfold answers in Ha. rewrite Hr in Ha. destruct Ha as ([_ H0] & _ & Hb & _).
  destruct (unsized_size l1 a r Hx Hok1 (content_evolves l l1 (g_content _ _ G) Hev) Hb Hsz) as [why Ew].
  exists why, (mkCompat v (world l1)). unfold vpi_handle_by_name, fatal_unless. cbn [Z.eqb assert_]. rewrite bind_ret.
  erewrite bind_Ret by (by apply wellen_call_Ret). destruct (Z.eqb_spec a 0); [done|].
  apply bind_Panic. by apply wellen_call_Panic.
Qed.

Lemma unsized_scan_panics r objs ty it v l : bits_of_other -> good v l -> iteratorTypeMap v !! it = Some ty -> ty <> vpiModule ->
  iterator_over (OSignal r :: objs) l it -> ~ sized (content r) ->
  exists why st, vpi_scan 1 it (mkCompat v (world l)) = Panic why st.
Proof.
  intros Hx G Hty Hm Hover Hsz.
  destruct (scan_runs (allocator := al v) (al_ok v) l it (OSignal r :: objs) (g_live _ _ G) (g_hier _ _ G) Hover)
    as (a & l1 & E & Hok & Hev & Hoth & Hnm & H0 & Hden & Hover').
  destruct (get_str_signal l1 vpiName a r Hok Hden) as (on & En & Hname). destruct (Hname eq_refl) as (nm & -> & Hn).
  destruct (unsized_size l1 a r Hx Hok (content_evolves l l1 (g_content _ _ G) Hev) Hden Hsz) as [why Ew].
  exists why, (mkCompat v (world l1)). unfold vpi_scan.
  assert (it <> 0) as Hit.
  { intros ->. destruct Hover as (items & i & Hb & _). rewrite (ok_null _ (g_live _ _ G)) in Hb. done. }
  destruct (Z.eqb_spec it 0); [done|]. unfold v_get. mrun. cbn [vpi].
  rewrite bool_decide_true by (rewrite (g_iters _ _ G); apply elem_of_dom; by eexists). cbn [negb]. mrun. cbn [vpi]. rewrite Hty. cbn [default scan_loop].
  erewrite bind_Ret by (by apply wellen_call_Ret). destruct (Z.eqb_spec a 0); [done|]. unfold id. destruct (Z.eqb_spec ty vpiModule); [done|].
  erewrite bind_Ret by (apply (wellen_call_Ret (fun _ => wellen_vpi_get_str vpiName a)); exact En).
  apply bind_Panic. by apply (wellen_call_Panic (fun _ => wellen_vpi_get vpiSize a)).
Qed.

(** Any other pointer yields null. *)
Lemma scan_unknown_vruns fuel it v l : good v l -> it ∉ iteratorHandleSet v ->
  vruns (vpi_scan fuel it) v l (fun h v' l' => h = 0 /\ v' = v /\ l' = l).
Proof.
  intros G Hit. unfold vpi_scan. destruct (it =? 0); [by apply vruns_ret|]. apply vruns_get.
  rewrite bool_decide_false by done. by apply vruns_ret.
Qed.

End Facts.
