(* ===== verification/WaveVpi.v ===== *)
(** * The VPI of the waveform kernel as a process

    Clients call the VPI functions with the handles they were given, the prefetch
    threads of the signals run beside them and the evaluation loop moves the cursor.
    Every such run keeps the invariant of the handle sets ([WaveHandlesFacts.good]),
    every admissible call returns, and a value read is the recorded one, whichever
    path it takes. *)

From S2P Require Import Prelude Bytes State WaveValue WaveData WaveImpl WaveSession WaveRead WaveFiles Wave WaveJit.
From S2P Require Import WaveHandles WaveHandlesFacts.
From Stdlib Require Import Sorting.Sorted.
#[local] Open Scope Z_scope.

Section Vpi.
Context {wellen : Wellen} {serde : Serde} {allocator : Allocator}.
Context (content : SignalRef -> Signal).
Hypothesis wf : waveform content.
Context (opts : JitOptions) (forward : bool).
Hypothesis window : 0 <= compileWindowSize opts.

Abbreviation good := (good content opts forward).
Abbreviation vruns := (vruns content opts forward).
Abbreviation is_signal := (is_signal content opts forward).

(** ** Strings and sizes *)

Lemma wellen_pure {A} (m : WM A) a v l :
  m (world l) = Ret a (world l) -> wellen_call (fun _ => m) (mkCompat v (world l)) = Ret a (mkCompat v (world l)).
Proof. intros E. unfold wellen_call. cbn. by rewrite E. Qed.

Lemma signal_not_module v l h n r : good v l -> is_signal v l h n r -> h ∈ signalHandleSet v /\ h ∉ moduleHandleSet v.
Proof.
  intros G (o & Ho & _ & _). assert (h ∈ signalHandleSet v) as Hs.
  { rewrite (g_sets _ _ _ _ _ G). apply elem_of_dom. by eexists. }
  split; [done|]. intros Hm. by apply (proj1 (sets_apart content opts forward v l G) h).
Qed.

Lemma get_str_of_module p v l h s : good v l -> h ∈ moduleHandleSet v -> l_ptrs l !! h = Some s ->
  p = vpiName \/ p = vpiType \/ p = vpiDefName ->
  vpi_get_str p h (mkCompat v (world l)) =
  Ret (if p =? vpiName then Some (scope_name (l_hier l) s) else if p =? vpiType then Some "vpiModule"%string else None)
      (mkCompat v (world l)).
Proof.
  intros G Hm Hs Hp. pose proof (wellen_pure _ _ v l (get_str_module l p h s (g_live _ _ _ _ _ G) Hs)) as E.
  unfold vpi_get_str, v_get. mrun. cbn [vpi]. rewrite bool_decide_true by done.
  destruct Hp as [->|[->| ->]]; exact E.
Qed.

(** The name and the size of a signal are kept on the C++ side. *)
Lemma get_name_of_signal_any v l h n r w : good v l -> is_signal v l h n r ->
  vpi_get_str vpiName h (mkCompat v w) = Ret (Some n) (mkCompat v w).
Proof.
  intros G Hs. destruct (signal_not_module v l h n r G Hs) as [Hin Hout]. destruct Hs as (o & Ho & <- & _).
  unfold vpi_get_str, as_signal, v_get. mrun. change (vpiName =? vpiName) with true. cbn [vpi].
  rewrite bool_decide_false, bool_decide_true by done. mrun. cbn [vpi]. by rewrite Ho.
Qed.

Lemma get_size_of_signal_any v l h n r w : good v l -> is_signal v l h n r ->
  vpi_get vpiSize h (mkCompat v w) = Ret (content_width content r) (mkCompat v w).
Proof.
  intros G Hs. destruct (signal_not_module v l h n r G Hs) as [_ Hout]. destruct Hs as (o & Ho & _ & Hob).
  pose proof (content_width_bound content wf r (ob_sized _ _ _ _ _ _ _ Hob)) as Hw.
  unfold vpi_get, as_signal, v_get. change (vpiSize =? vpiSize) with true. cbv iota. mrun. cbn [vpi].
  rewrite bool_decide_false by done. mrun. cbn [vpi]. rewrite Ho. mrun. unfold ret.
  rewrite (ob_size _ _ _ _ _ _ _ Hob), i32_small; [done|]. unfold in_width. lia.
Qed.

Lemma get_name_of_signal v l h n r : good v l -> is_signal v l h n r ->
  vpi_get_str vpiName h (mkCompat v (world l)) = Ret (Some n) (mkCompat v (world l)).
Proof. apply get_name_of_signal_any. Qed.

Lemma get_size_of_signal v l h n r : good v l -> is_signal v l h n r ->
  vpi_get vpiSize h (mkCompat v (world l)) = Ret (content_width content r) (mkCompat v (world l)).
Proof. apply get_size_of_signal_any. Qed.

(** ** Prefetching keeps the invariant *)

(** What a step of the prefetch state machine leaves alone. *)
Definition jit_frame (s s' : Jit) : Prop :=
  cursor_index s' = cursor_index s /\ cursor_maxIndex s' = cursor_maxIndex s /\
  vpiControlTerminate s' = vpiControlTerminate s /\
  bitSize (hdl s') = bitSize (hdl s) /\ canOpt (hdl s') = canOpt (hdl s).

Lemma read_begin_frame o s : jit_frame s (read_begin o s).1.
Proof. unfold read_begin, count_read, notify_one, jit_frame. repeat case_match; done. Qed.

Lemma opt_step_frame int_at s s' : opt_step opts int_at s = OMoved s' -> jit_frame s s'.
Proof.
  unfold opt_step, jit_frame. destruct (thread s); repeat case_match; intros E; try done; injection E as <-; try done.
Qed.

Lemma opt_step_ext f g s : (forall i, f i = g i) -> opt_step opts f s = opt_step opts g s.
Proof. intros E. unfold opt_step. destruct (thread s); try done. by rewrite E. Qed.

Lemma jit_inv_count int_at s n : jit_inv opts int_at forward s -> jit_inv opts int_at forward (set_count n s).
Proof. intros [[] HV]. split; [by split|]. intros Hf. by destruct (HV Hf). Qed.

(** The state with the prefetch state of a handle replaced. *)
Definition with_jit (h : Z) (o : SigObj) (s : Jit) (v : VpiState) : VpiState :=
  set_v_threads (optThreadCnt s)
    (set_signals (signalHandleSet v) (<[h := mkSigObj (so_name o) (so_vpiHdl o) (hdl s) (thread s)]> (sig_objs v)) v).

Lemma with_jit_good h o r s v l : good v l -> sig_objs v !! h = Some o -> obj_ok content opts forward v l o r ->
  jit_inv opts (content_int content r) forward s -> jit_frame (jit_of v o) s ->
  good (with_jit h o s v) l /\ moves v l (with_jit h o s v) l.
Proof.
  intros G Ho Hob Hj (Fc & Fm & Ft & Fb & Fo). pose proof (elem_of_dom_2 _ _ _ Ho) as Hdom. split.
  - destruct G as [H1 H2 H3 H4 H5 H6 H7 H8 H9 H10 H11 H12]. split; cbn; try done.
    + rewrite dom_insert_L, H6. set_solver.
    + intros a o' [[<- <-]|[Hne Ha]]%lookup_insert_Some.
      * exists r. destruct Hob as [B1 B2 B3 B3' B4 B5]. split; cbn in *; try congruence.
        assert (jit_of (with_jit h o s v) (mkSigObj (so_name o) (so_vpiHdl o) (hdl s) (thread s)) = s) as ->; [|done].
        unfold jit_of, with_jit. destruct s. cbn in *. congruence.
      * destruct (H7 a o' Ha) as [r' [B1 B2 B3 B3' B4 B5]]. exists r'. split; try done.
        apply (jit_inv_count _ _ (optThreadCnt s)) in B5. exact B5.
    + intros a [o' [[<- <-]|[_ Ha]]%lookup_insert_Some]; apply H8; by eexists.
  - split; cbn; try done. intros a o' Ha. destruct (decide (h = a)) as [<-|Hne].
    + rewrite lookup_insert_eq. eexists. split; [done|]. simplify_eq. split_and!; [done|done|exact Fb].
    + exists o'. by rewrite lookup_insert_ne.
Qed.

Lemma jit_fits v l o : good v l -> fits opts (jit_of v o).
Proof. intros G. destruct (g_cursor _ _ _ _ _ G) as [_ H]. exact H. Qed.

(** ** Values *)

(** A read of the object [o]: from the prefetched window or from [wellen_impl]. *)
Definition value_read (o : SigObj) (r : SignalRef) (fmt : Z) (v : VpiState) (l : Live) (val : s_vpi_value) (l' : Live) : Prop :=
  (exists x, (forward = true -> content_int content r (v_index v) = Some x) /\ content_width content r <= 32 /\
     jit_value fmt (Z.to_nat (content_width content r)) x = Some val) \/
  wellen_vpi_get_value_from_index (so_vpiHdl o) (v_index v) fmt (world l) = Ret val (world l').

Lemma supported_jit fmt n x : supported fmt -> exists val, jit_value fmt n x = Some val.
Proof.
  intros Hf. unfold supported in Hf. unfold jit_value.
  repeat (apply elem_of_cons in Hf as [->|Hf]; [by eexists|]). by apply elem_of_nil in Hf.
Qed.

Lemma evolves_buffer (al : Allocator) b l : evolves (allocator := al) l (with_buffer b l).
Proof. split; cbn; eauto. Qed.

Lemma get_value_vruns jo h o r fmt v l : good v l -> sig_objs v !! h = Some o -> obj_ok content opts forward v l o r ->
  readable (content r) (v_index v) -> supported fmt ->
  vruns (vpi_get_value jo h fmt) v l (fun val _ l' => value_read o r fmt v l val l').
Proof.
  intros G Ho Hob Hrd Hf. unfold vpi_get_value, as_signal, v_get. destruct (read_begin jo (jit_of v o)) as [s plan] eqn:Eb.
  pose proof (read_begin_frame jo (jit_of v o)) as Hfr. pose proof (read_begin_inv opts _ _ jo _ (ob_jit _ _ _ _ _ _ _ Hob)) as Hj.
  rewrite Eb in Hfr, Hj. cbn [fst] in Hfr, Hj.
  destruct (with_jit_good h o r s v l G Ho Hob Hj Hfr) as [G1 M1].
  set (k := fun _ : unit => match plan with
    | PFast local => match read_end local s with
        | None => undefined "index outside optValueVec"
        | Some value => match jit_value fmt (bitSize (so_jit o)) value with Some x => ret x | None => panic "Unsupported format" end
        end
    | PSlow => wellen_call (fun _ => wellen_vpi_get_value_from_index (so_vpiHdl o) (cursor_index (jit_of v o)) fmt)
    end : HM s_vpi_value).
  assert (vruns (k tt) (with_jit h o s v) l (fun val _ l' => value_read o r fmt v l val l')) as (val & v' & l' & E & G' & M' & HQ).
  { unfold k. destruct plan as [|local].
    - destruct (content_info content l (so_vpiHdl o) r (g_live _ _ _ _ _ G) (g_content _ _ _ _ _ G) (ob_box _ _ _ _ _ _ _ Hob)) as (info & Hr & Hs).
      rewrite <- Hs in Hrd.
      destruct (value_returns (wf_crates content wf) l (so_vpiHdl o) (v_index v) fmt (signal info)) as (val & l' & E & Hb);
        [apply G|exists r, info; split_and!; [apply Hob|done|done]|exact Hrd|done|].
      exists val, (with_jit h o s v), l'.
      assert (good (with_jit h o s v) l' /\ moves (with_jit h o s v) l (with_jit h o s v) l') as [G2 M2].
      { assert (l' = l \/ exists b, l' = with_buffer b l) as [->|[b ->]]
          by (destruct val; cbn in Hb; eauto).
        - split; [done|apply moves_refl].
        - apply (good_evolves content wf opts forward); [done|apply ok_with_buffer, G|apply evolves_buffer|].
          intros a ty Ha. destruct (g_types _ _ _ _ _ G1 a ty Ha) as (objs & Hov & Hty). by exists objs. }
      split; [|split; [done|split; [done|by right]]]. by apply wellen_call_Ret.
    - destruct (read_fast opts (content_int content r) forward window jo (jit_of v o) s local) as (x & -> & Hx);
        [by eapply jit_fits|apply Hob|done|].
      pose proof (ob_size _ _ _ _ _ _ _ Hob) as Hsz. pose proof (content_width_bound content wf r (ob_sized _ _ _ _ _ _ _ Hob)) as Hw.
      assert (bitSize (so_jit o) = Z.to_nat (content_width content r)) as -> by lia.
      destruct (supported_jit fmt (Z.to_nat (content_width content r)) x Hf) as [val Ev]. rewrite Ev.
      exists val, (with_jit h o s v), l. split; [done|]. split; [done|]. split; [apply moves_refl|]. left. exists x. split_and!; try done.
      pose proof (ob_opt _ _ _ _ _ _ _ Hob) as Hop. unfold read_begin in Eb. cbn [hdl jit_of] in Eb.
      destruct (canOpt (so_jit o)); [lia|]. by cbn in Eb. }
  exists val, v', l'. split; [|split; [done|split; [by eapply moves_trans|done]]].
  mrun. cbn [vpi]. rewrite Ho. mrun. cbn [vpi]. rewrite Eb. unfold bind at 1, put_jit, v_mod, modify. exact E.
Qed.

(** ** Runs of the process *)

Inductive VpiCall :=
| VByName (name : string)
| VIterate (ty ref : Z)
| VScan (it : Z)
| VGetStr (p h : Z)
| VGetSize (h : Z)
| VGetTime
| VGetValue (h fmt : Z).

Definition no_answer {A} (m : HM A) : HM unit := m ;; ret tt.

(** [jo]: the options at the time of the call. *)
Definition vpi_exec (jo : JitOptions) (c : VpiCall) : HM unit :=
  match c with
  | VByName n => no_answer (vpi_handle_by_name (Some n) 0)
  | VIterate ty ref => no_answer (vpi_iterate ty ref)
  | VScan it => no_answer (vpi_scan 1 it)
  | VGetStr p h => no_answer (vpi_get_str p h)
  | VGetSize h => no_answer (vpi_get vpiSize h)
  | VGetTime => no_answer (vpi_get_time (Some vpiSimTime))
  | VGetValue h fmt => no_answer (vpi_get_value jo h fmt)
  end.

(** The handles a client may pass: any pointer to scan, null or a module to iterate
    over, live handles elsewhere.  A lookup and a scan find a signal that has a size
    ([unsized_lookup_panics], [unsized_scan_panics]), a value read a recorded bit
    vector. *)
Definition allowed (v : VpiState) (l : Live) (c : VpiCall) : Prop :=
  match c with
  | VByName n => c_name n /\ has "." (as_bytes n) = true /\
      forall r, resolves (l_hier l) n = Some r -> sized (content r)
  | VIterate ty ref => iter_type ty /\ (ref = 0 \/ ref ∈ moduleHandleSet v)
  | VScan it => forall o objs, it ∈ iteratorHandleSet v -> iterator_over (o :: objs) l it -> sized_obj content o
  | VGetStr p h => p = vpiName /\ ((exists n r, is_signal v l h n r) \/ h ∈ moduleHandleSet v)
  | VGetSize h => (exists n r, is_signal v l h n r) \/ h ∈ moduleHandleSet v
  | VGetTime => (Z.to_nat (v_index v) < length (l_time l))%nat
  | VGetValue h fmt => (exists n r, is_signal v l h n r /\ readable (content r) (v_index v)) /\ supported fmt
  end.

(** A call; the halves of a value read that other steps come between - the decision,
    and the read of [wellen_impl] at the index of the decision (the access to the
    window changes nothing); a step of a thread or its spurious wake-up; the cursor,
    which goes anywhere in the waveform, or only ahead when [forward].  The options
    may differ from call to call, but for the size of the compile window, which the
    threads read. *)
Inductive pstep : VpiState * Live -> VpiState * Live -> Prop :=
| ps_call jo c v l v' l' : allowed v l c -> vpi_exec jo c (mkCompat v (world l)) = Ret tt (mkCompat v' (world l')) -> pstep (v, l) (v', l')
| ps_begin jo h o v l : sig_objs v !! h = Some o ->
    pstep (v, l) (with_jit h o (read_begin jo (jit_of v o)).1 v, l)
| ps_slow h o r idx fmt val v l l' : sig_objs v !! h = Some o -> obj_ok content opts forward v l o r ->
    readable (content r) idx -> supported fmt ->
    wellen_vpi_get_value_from_index (so_vpiHdl o) idx fmt (world l) = Ret val (world l') -> pstep (v, l) (v, l')
| ps_thread h v l v' l' : thread_step opts h (mkCompat v (world l)) = Ret tt (mkCompat v' (world l')) -> pstep (v, l) (v', l')
| ps_wake h o v l : sig_objs v !! h = Some o -> so_thread o = OptAsleep ->
    pstep (v, l) (with_jit h o (set_thread OptWait (jit_of v o)) v, l)
| ps_cursor i v l : 0 <= i <= v_maxIndex v -> (forward = true -> v_index v <= i) -> pstep (v, l) (set_v_index i v, l).

(** What lives on: signals keep name and signal, modules their scope. *)
Record keeps_handles (v : VpiState) (l : Live) (v' : VpiState) (l' : Live) : Prop := mkKeeps {
  kh_signal : forall h n r, is_signal v l h n r -> is_signal v' l' h n r;
  kh_module : forall h s, h ∈ moduleHandleSet v -> l_ptrs l !! h = Some s -> h ∈ moduleHandleSet v' /\ l_ptrs l' !! h = Some s
}.

Lemma keeps_refl v l : keeps_handles v l v l.
Proof. by split. Qed.

Lemma keeps_trans v1 l1 v2 l2 v3 l3 : keeps_handles v1 l1 v2 l2 -> keeps_handles v2 l2 v3 l3 -> keeps_handles v1 l1 v3 l3.
Proof. intros [] []. split; eauto. intros h s H1 H2. destruct (kh_module0 h s H1 H2). by apply kh_module1. Qed.

(** A handle that keeps its [vpiHdl] and name keeps its signal. *)
Lemma is_signal_kept v l v' l' h n r : good v' l' -> is_signal v l h n r ->
  (forall a r, l_boxes l !! a = Some (SignalBox r) -> l_boxes l' !! a = Some (SignalBox r)) ->
  (forall o, sig_objs v !! h = Some o -> exists o', sig_objs v' !! h = Some o' /\ so_name o' = so_name o /\ so_vpiHdl o' = so_vpiHdl o) ->
  is_signal v' l' h n r.
Proof.
  intros G' (o & Ho & Hn & Hob) Hbx Hkeep. destruct (Hkeep o Ho) as (o' & Ho' & Hn' & Hh').
  destruct (g_objs _ _ _ _ _ G' h o' Ho') as [r' Hob']. exists o'. split; [done|]. split; [congruence|].
  pose proof (Hbx _ _ (ob_box _ _ _ _ _ _ _ Hob)) as Hb. rewrite <- Hh', (ob_box _ _ _ _ _ _ _ Hob') in Hb. by injection Hb as ->.
Qed.

Lemma is_signal_intro v l h o r : good v l -> sig_objs v !! h = Some o -> l_boxes l !! so_vpiHdl o = Some (SignalBox r) ->
  is_signal v l h (so_name o) r.
Proof.
  intros G Ho Hb. destruct (g_objs _ _ _ _ _ G h o Ho) as [r' Hob]. exists o. split; [done|]. split; [done|].
  rewrite (ob_box _ _ _ _ _ _ _ Hob) in Hb. by injection Hb as ->.
Qed.

Lemma moves_keeps v l v' l' : good v' l' -> moves v l v' l' -> keeps_handles v l v' l'.
Proof.
  intros G' M. split.
  - intros h n r Hs. eapply is_signal_kept; [done|exact Hs|apply M|].
    intros o Ho. destruct (mv_objs _ _ _ _ M h o Ho) as (o' & ? & ? & ? & _). by exists o'.
  - intros h s Hm Hs. split; [by apply M|]. eapply lookup_weaken; [exact Hs|apply M].
Qed.

Lemma thread_step_good h v l : good v l ->
  match thread_step opts h (mkCompat v (world l)) with
  | Ret tt st => exists v', st = mkCompat v' (world l) /\ good v' l /\ moves v l v' l
  | Panic _ _ => True
  | UB _ => sig_objs v !! h = None
  | NoFuel => False
  end.
Proof.
  intros G. unfold thread_step. cbn [vpi wave]. destruct (sig_objs v !! h) as [o|] eqn:Ho; [|done].
  destruct (g_objs _ _ _ _ _ G h o Ho) as [r Hob].
  rewrite (opt_step_ext _ (content_int content r)) by (intros i; apply (content_int_read content l _ r i); [apply G|apply G|apply Hob]).
  pose proof (jit_fits v l o G) as Hfit.
  destruct (opt_step opts (content_int content r) (jit_of v o)) as [s| | |] eqn:E; try done.
  - destruct (opt_step_inv opts (content_int content r) forward window _ s Hfit (ob_jit _ _ _ _ _ _ _ Hob) E) as [Hj _].
    destruct (with_jit_good h o r s v l G Ho Hob Hj (opt_step_frame _ _ _ E)) as [G' M]. unfold put_jit, v_mod, modify. eauto.
  - exists v. split; [done|]. split; [done|apply moves_refl].
  - exfalso. by apply (opt_step_in_range opts (content_int content r) forward (jit_of v o) Hfit (ob_jit _ _ _ _ _ _ _ Hob)).
Qed.

Lemma no_answer_vruns {A} (m : HM A) v l P : vruns m v l P -> vruns (no_answer m) v l (fun _ _ _ => True).
Proof.
  intros (a & v' & l' & E & G & M & _). exists tt, v', l'. split; [|done]. unfold no_answer.
  by rewrite (bind_Ret _ _ _ _ _ E).
Qed.

(** A text with its leading zeros is one without. *)
Lemma reads_jit fmt n x val : reads_as fmt n x val -> jit_reads_as fmt n x val.
Proof.
  unfold jit_reads_as. destruct (Z.eqb_spec fmt vpiHexStrVal) as [->|]; [|done]. unfold reads_as. destruct val; try done.
  - by intros [? _].
  - by intros [? _].
  - intros [-> [(_ & _ & ?)|[[? _]|[? _]]]]; [by eexists|done|done].
Qed.

Lemma same_vruns {A} (m : HM A) a v l : good v l -> m (mkCompat v (world l)) = Ret a (mkCompat v (world l)) ->
  vruns m v l (fun _ _ _ => True).
Proof. intros G E. exists a, v, l. split; [done|]. split; [done|]. split; [apply moves_refl|done]. Qed.

Lemma get_time_run v l t : l_time l !! Z.to_nat (v_index v) = Some t ->
  vpi_get_time (Some vpiSimTime) (mkCompat v (world l)) =
  Ret (Some (TSim (u32 (Z.shiftr t 32)) (u32 (Z.land t 0xFFFFFFFF)))) (mkCompat v (world l)).
Proof.
  intros Ht. unfold vpi_get_time, v_get. mrun. cbn [vpi].
  assert (wellen_get_time_from_index (v_index v) (world l) = Ret t (world l)) as E
    by (unfold wellen_get_time_from_index, bind, static_; cbn; by rewrite Ht).
  by rewrite (bind_Ret _ _ _ _ _ (wellen_pure _ _ v l E)).
Qed.

Lemma call_vruns jo c v l : good v l -> allowed v l c -> vruns (vpi_exec jo c) v l (fun _ _ _ => True).
Proof.
  intros G Ha. destruct c as [n|ty ref|it|p h|h| |h fmt]; cbn [allowed vpi_exec] in *.
  - destruct Ha as (? & ? & ?). eapply no_answer_vruns. by apply (by_name_vruns content wf opts).
  - destruct Ha as [Hty Href].
    assert (exists s, ref_denotes l ref s) as [s Hs].
    { destruct Href as [->|Hm]; [exists None; constructor|]. destruct (g_mods _ _ _ _ _ G ref Hm) as [s Hs].
      exists (Some s). by constructor. }
    eapply no_answer_vruns. by apply (iterate_vruns content wf opts).
  - destruct (decide (it ∈ iteratorHandleSet v)) as [Hin|Hin].
    + pose proof Hin as Hin'. rewrite (g_iters _ _ _ _ _ G) in Hin. apply elem_of_dom in Hin as [ty Hty].
      destruct (g_types _ _ _ _ _ G it ty Hty) as (objs & Hov & Hot).
      eapply no_answer_vruns. apply (scan_vruns content wf opts forward window objs ty); [done|done|done|done| |lia].
      intros o Ho. destruct objs as [|o' objs]; [done|]. injection Ho as ->. by apply (Ha o objs).
    + eapply no_answer_vruns. by apply (scan_unknown_vruns content opts).
  - destruct Ha as [-> [(n & r & Hs)|Hm]].
    + eapply no_answer_vruns, same_vruns; [done|by eapply get_name_of_signal].
    + destruct (g_mods _ _ _ _ _ G h Hm) as [s Hs].
      eapply no_answer_vruns, same_vruns; [done|eapply get_str_of_module; [done|done|exact Hs|by left]].
  - destruct Ha as [(n & r & Hs)|Hm]; eapply no_answer_vruns, same_vruns; try done.
    + by eapply get_size_of_signal.
    + unfold vpi_get, v_get. change (vpiSize =? vpiSize) with true. cbv iota. mrun. cbn [vpi]. by rewrite bool_decide_true.
  - destruct (lookup_lt_is_Some_2 _ _ Ha) as [t Ht]. by eapply no_answer_vruns, same_vruns, get_time_run.
  - destruct Ha as [(n & r & (o & Ho & Hn & Hob) & Hrd) Hf]. eapply no_answer_vruns. by eapply get_value_vruns.
Qed.

Lemma cursor_good i v l : good v l -> 0 <= i <= v_maxIndex v -> (forward = true -> v_index v <= i) ->
  good (set_v_index i v) l /\ keeps_handles v l (set_v_index i v) l.
Proof.
  intros G Hi Hfw. assert (good (set_v_index i v) l) as G'.
  { destruct G as [H1 H2 H3 H4 H5 H6 H7 H8 H9 H10 H11 H12]. split; cbn; try done; [|lia].
    intros a o Ho. destruct (H7 a o Ho) as [r [B1 B2 B3 B3' B4 B5]]. exists r. split; try done.
    exact (cursor_inv opts (content_int content r) forward (jit_of v o) i Hi Hfw B5). }
  split; [done|]. split; [|done]. intros h n r Hs. eapply is_signal_kept; [done|exact Hs|done|]. intros o Ho. by exists o.
Qed.

(** The read of [wellen_impl] writes its buffer only. *)
Lemma slow_read_good o r idx fmt val v l l' : good v l -> obj_ok content opts forward v l o r ->
  readable (content r) idx -> supported fmt ->
  wellen_vpi_get_value_from_index (so_vpiHdl o) idx fmt (world l) = Ret val (world l') -> good v l' /\ moves v l v l'.
Proof.
  intros G Hob Hrd Hf E.
  destruct (content_info content l (so_vpiHdl o) r (g_live _ _ _ _ _ G) (g_content _ _ _ _ _ G) (ob_box _ _ _ _ _ _ _ Hob)) as (info & Hr & Hs).
  rewrite <- Hs in Hrd.
  destruct (value_returns (wf_crates content wf) l (so_vpiHdl o) idx fmt (signal info)) as (val' & l2 & E2 & Hb);
    [apply G|exists r, info; split_and!; [apply Hob|done|done]|exact Hrd|done|].
  rewrite E2 in E. assert (world l2 = world l') as Ew by congruence. apply world_inj in Ew as <-.
  assert (l2 = l \/ exists b, l2 = with_buffer b l) as [->|[b ->]] by (destruct val'; cbn in Hb; eauto).
  - split; [done|apply moves_refl].
  - apply (good_evolves content wf opts forward); [done|apply ok_with_buffer, G|apply evolves_buffer|].
    intros a ty Ha. destruct (g_types _ _ _ _ _ G a ty Ha) as (objs & Hov & Hty). by exists objs.
Qed.

Lemma pstep_good v l v' l' : good v l -> pstep (v, l) (v', l') -> good v' l' /\ keeps_handles v l v' l'.
Proof.
  intros G Hs. inversion Hs as [jo c ? ? ? ? Ha E|jo h o ? ? Ho|h o r idx fmt val ? ? ? Ho Hob Hrd Hf E|h ? ? ? ? E|h o ? ? Ho Ht|i ? ? Hi Hfw]; subst.
  - destruct (call_vruns jo c v l G Ha) as ([] & v2 & l2 & E2 & G2 & M2 & _). rewrite E2 in E.
    assert (v' = v2) as -> by congruence. assert (world l' = world l2) as Ew by congruence.
    apply world_inj in Ew as ->. split; [done|by apply moves_keeps].
  - destruct (g_objs _ _ _ _ _ G h o Ho) as [r Hob].
    destruct (with_jit_good h o r _ v l' G Ho Hob (read_begin_inv opts _ _ jo _ (ob_jit _ _ _ _ _ _ _ Hob)) (read_begin_frame jo _)) as [G' M].
    split; [done|by apply moves_keeps].
  - destruct (slow_read_good o r idx fmt val v' l l' G Hob Hrd Hf E) as [G' M]. split; [done|by apply moves_keeps].
  - pose proof (thread_step_good h v l G) as H. rewrite E in H. destruct H as (v2 & E2 & G2 & M2).
    assert (v' = v2) as -> by congruence. assert (world l' = world l) as Ew by congruence.
    apply world_inj in Ew as ->. split; [done|by apply moves_keeps].
  - destruct (g_objs _ _ _ _ _ G h o Ho) as [r Hob].
    destruct (jstep_inv opts (content_int content r) forward window _ _ (jit_fits v _ o G) (ob_jit _ _ _ _ _ _ _ Hob)
      (js_wake opts (content_int content r) forward (jit_of v o) Ht)) as [Hj _].
    destruct (with_jit_good h o r _ v l' G Ho Hob Hj) as [G' M]; [done|]. split; [done|by apply moves_keeps].
  - by apply cursor_good.
Qed.

Lemma psteps_good p p' : rtc pstep p p' -> good p.1 p.2 -> good p'.1 p'.2 /\ keeps_handles p.1 p.2 p'.1 p'.2.
Proof.
  induction 1 as [p|[v1 l1] [v2 l2] p3 Hs _ IH]; intros G; [split; [done|apply keeps_refl]|].
  destruct (pstep_good _ _ _ _ G Hs) as [G2 K2]. destruct (IH G2) as [G3 K3]. split; [done|]. by eapply keeps_trans.
Qed.

(** C17: the VPI of the waveform kernel is safe between its calls.  However calls of
    clients, value reads that thread steps interrupt, steps of the prefetch threads,
    moves of the cursor anywhere in the waveform and changes of the options - the size
    of the compile window stays - follow each other: the sets tell signal, module and
    iterator handles apart, every handle given out keeps naming the same signal or
    module, no thread writes outside its window, and every admissible call that no
    thread step comes into returns - any pointer may be scanned.  Admissible
    ([allowed]) are lookups and scans of signals that have a size - of others they
    abort ([unsized_lookup_panics], [unsized_scan_panics]) - and reads of recorded bit
    vectors; the hierarchy of a [good] state finds every variable under its full name.
    A read from the window that a thread step does come into may index past its end
    ([interrupted_read_out_of_range]). *)
Theorem vpi_process_safe v0 l0 v l :
  good v0 l0 -> rtc pstep (v0, l0) (v, l) ->
  (signalHandleSet v ## moduleHandleSet v /\ signalHandleSet v ## iteratorHandleSet v /\ moduleHandleSet v ## iteratorHandleSet v) /\
  (forall h n r, is_signal v0 l0 h n r -> is_signal v l h n r /\
     vpi_get_str vpiName h (mkCompat v (world l)) = Ret (Some n) (mkCompat v (world l))) /\
  (forall h s, h ∈ moduleHandleSet v0 -> l_ptrs l0 !! h = Some s -> h ∈ moduleHandleSet v /\ l_ptrs l !! h = Some s) /\
  (forall jo c, allowed v l c -> exists v' l', vpi_exec jo c (mkCompat v (world l)) = Ret tt (mkCompat v' (world l')) /\ pstep (v, l) (v', l')) /\
  forall h why, h ∈ signalHandleSet v -> thread_step opts h (mkCompat v (world l)) <> UB why.
Proof.
  intros G0 Hr. destruct (psteps_good _ _ Hr G0) as [G [Ks Km]]. cbn in G, Ks, Km. split; [by eapply sets_apart|].
  split; [|split; [done|split]].
  - intros h n r Hs%Ks. split; [done|]. by eapply get_name_of_signal.
  - intros jo c Hc. destruct (call_vruns jo c v l G Hc) as ([] & v' & l' & E & _). exists v', l'. split; [done|]. by eapply ps_call.
  - intros h why Hh E. pose proof (thread_step_good h v l G) as H. rewrite E in H.
    rewrite (g_sets _ _ _ _ _ G) in Hh. apply elem_of_dom in Hh as [o Ho]. congruence.
Qed.

(** C18: a value read through the VPI is the recorded one, as long as the cursor only
    moves ahead, as the evaluation loop moves it, and no thread step comes into the
    read.  In every state the process reaches so, whether the value comes from the
    prefetched window or from [wellen_impl]: where the waveform records a two-state
    value of the signal at the cursor, [vpi_get_value] returns that number in the format
    asked for; as a decimal, and as an integer, it is the number modulo [2 ^ 32].  After a jump back of
    the cursor, and in an interrupted read, it may be another
    ([skipped_index_reads_zero], [interrupted_read_wrong_value]). *)
Theorem vpi_value_at_cursor jo v0 l0 v l h n r fmt off bv :
  forward = true -> good v0 l0 -> rtc pstep (v0, l0) (v, l) -> is_signal v0 l0 h n r -> supported fmt ->
  get_offset (content r) (u32 (v_index v)) = Some off -> get_value_at (content r) off 0 = BitVec bv ->
  bv_states bv = Two -> bv_width bv = content_width content r ->
  exists data val v' l', bv_be_bytes bv = Some data /\
    vpi_get_value jo h fmt (mkCompat v (world l)) = Ret val (mkCompat v' (world l')) /\ good v' l' /\
    jit_reads_as fmt (Z.to_nat (content_width content r)) (be_value data) val.
Proof.
  intros Hfw G0 Hr Hs Hf Ho Hv Htwo Hw. destruct (psteps_good _ _ Hr G0) as [G [Ks _]]. cbn in G, Ks.
  destruct (Ks h n r Hs) as (o & Hobj & Hn & Hob).
  destruct (cr_values (wf_crates content wf) bv) as (Hpos & _ & H2 & _). destruct (H2 Htwo) as (data & Hd & Hlen & Hlt & _).
  destruct (get_value_vruns jo h o r fmt v l G Hobj Hob) as (val & v' & l' & E & G' & _ & HQ); [|done|].
  { unfold readable. rewrite Ho. by exists bv. }
  exists data, val, v', l'. split; [done|]. split; [done|]. split; [done|].
  destruct (content_info content l (so_vpiHdl o) r (g_live _ _ _ _ _ G) (g_content _ _ _ _ _ G) (ob_box _ _ _ _ _ _ _ Hob)) as (info & Hi & Hsig).
  pose proof Ho as Ho'. pose proof Hv as Hv'. rewrite <- Hsig in Ho', Hv'.
  destruct HQ as [(x & Hx & Hle & Ej)|Ew].
  - specialize (Hx Hfw). destruct (int_of_two_state (cr_values (wf_crates content wf)) l (so_vpiHdl o) r info (v_index v) off bv) as (data' & Hd' & Hi' & Hb);
      [apply Hob|done|done|done|done|lia|]. rewrite Hd in Hd'. injection Hd' as <-.
    pose proof (content_int_read content l (so_vpiHdl o) r (v_index v) (g_live _ _ _ _ _ G) (g_content _ _ _ _ _ G) (ob_box _ _ _ _ _ _ _ Hob)) as Hr'.
    unfold int_of in Hi'. unfold int_read in Hr'. rewrite Hi', Hx in Hr'. injection Hr' as <-.
    destruct (jit_value_reads fmt (Z.to_nat (content_width content r)) (be_value data)) as (val' & Ej' & Hj);
      [done|lia|rewrite Z2Nat.id by lia; rewrite <- Hw; lia|]. congruence.
  - pose proof (value_facts (cr_values (wf_crates content wf)) l (so_vpiHdl o) r info (v_index v) fmt (ob_box _ _ _ _ _ _ _ Hob) Hi Hf) as Hspec.
    unfold value_spec in Hspec. rewrite Ho', Hv' in Hspec. destruct Hspec as (val' & l2 & E2 & _ & Hread).
    rewrite decide_True in Hread by done. destruct Hread as (data' & Hd' & Hread). rewrite Hd in Hd'. injection Hd' as <-.
    rewrite E2 in Ew. injection Ew as -> _. rewrite Hw in Hread. by apply reads_jit.
Qed.

(** ** After the end of the simulation *)

(** C19: what the handles are after the end-of-simulation routine has finalised the
    waveform, which it does before it calls the client's last callback.  Signal
    handles keep their name and size and a leftover iterator scans to null; but the
    module handles are freed while [moduleHandleSet] keeps them: asking one for its
    name follows a dangling pointer. *)
Theorem finished_handles host v l :
  good v l -> creatable host ->
  let st := mkCompat v (world (closed l)) in
  finalize_backend host (mkCompat v (world l)) = Ret tt st /\
  (forall h n r, is_signal v l h n r ->
     vpi_get_str vpiName h st = Ret (Some n) st /\ vpi_get vpiSize h st = Ret (content_width content r) st) /\
  (forall it, it ∈ iteratorHandleSet v -> exists st', vpi_scan 1 it st = Ret 0 st') /\
  (forall h, h ∈ moduleHandleSet v -> vpi_get_str vpiName h st = UB "dangling pointer").
Proof.
  intros G Hc st. pose proof (finalize_run host l (g_live _ _ _ _ _ G) Hc) as Ef. split; [|split; [|split]].
  - unfold finalize_backend, wellen_call. cbn [vpi wave]. by rewrite Ef.
  - intros h n r Hs. split; [exact (get_name_of_signal_any v l h n r (world (closed l)) G Hs)|].
    exact (get_size_of_signal_any v l h n r (world (closed l)) G Hs).
  - intros it Hit. unfold vpi_scan, v_get, st. assert (it <> 0) as H0.
    { intros ->. rewrite (g_iters _ _ _ _ _ G) in Hit. apply elem_of_dom in Hit as [ty Ht].
      destruct (g_types _ _ _ _ _ G 0 ty Ht) as (objs & (items & i & Hb & _) & _).
      rewrite (ok_null _ (g_live _ _ _ _ _ G)) in Hb. done. }
    destruct (Z.eqb_spec it 0); [done|]. mrun. cbn [vpi]. rewrite bool_decide_true by done. cbn [negb]. mrun.
    unfold scan_loop, wellen_call, wellen_vpi_scan, static_. destruct (Z.eqb_spec it 0); [done|].
    unfold bind. cbn. by eexists.
  - intros h Hm. destruct (g_mods _ _ _ _ _ G h Hm) as [s Hs]. unfold vpi_get_str, v_get, st. mrun.
    change (vpiName =? vpiName) with true. cbv iota. cbn [vpi]. rewrite bool_decide_true by done.
    assert (l_boxes (closed l) !! h = None) as Hb.
    { destruct (l_boxes (closed l) !! h) as [b|] eqn:E; [|done]. apply closed_boxes in E as [E [r ->]]; [|apply G].
      apply (ok_module _ (g_live _ _ _ _ _ G)) in Hs. congruence. }
    unfold wellen_call, wellen_vpi_get_str, deref_signal, deref, bind, static_. cbn -[closed].
    change (l_ptrs (closed l)) with (∅ : gmap Z ScopeRef). rewrite lookup_empty. cbn -[closed]. by rewrite Hb.
Qed.

End Vpi.

(** ** The small waveform *)

Module VpiDemo.
Import Demo.

Definition demo_content (r : SignalRef) : @Signal demo := r.
Definition demo_opts : JitOptions := mkJitOptions true 900 3 2 2.

Lemma demo_waveform : waveform demo_content.
Proof.
  split; [exact demo_crates|]. intros r sg (src & h & mt & src' & E). cbn in E. by injection E.
Qed.

Lemma demo_sized r : sized (demo_content r).
Proof.
  exists (if bool_decide (r = 2%positive) then 1 else 0), tt.
  exists (match r with 1%positive => BClk | 2%positive => BNib | _ => BBus end).
  split; [done|]. split; [|done]. cbn. unfold demo_content. by destruct (bool_decide (r = 2%positive)).
Qed.

Lemma demo_full_names : full_names tt.
Proof.
  intros s v Hv. destruct s as [?|?|]; cbn in Hv; [by apply elem_of_nil in Hv..|].
  repeat (apply elem_of_cons in Hv as [->|Hv]; [by vm_compute|]). by apply elem_of_nil in Hv.
Qed.

Lemma demo_good fw : good demo_content demo_opts fw (blank_vpi 2) demo_live.
Proof.
  apply good_start; try done.
  - exact demo_live_ok.
  - exact demo_hierarchy.
  - exact demo_full_names.
Qed.

(** The state after a call. *)
Definition then_call (c : VpiCall) (p : VpiState * Live) : VpiState * Live :=
  match vpi_exec demo_opts c (mkCompat p.1 (world p.2)) with Ret _ st => (vpi st, live_of (wave st)) | _ => p end.

(** [top.clk] is looked up and read four times, which starts its thread; the top
    module is iterated to. *)
Definition opened_clk : VpiState * Live := then_call (VByName "top.clk") (blank_vpi 2, demo_live).
Definition read_clk (p : VpiState * Live) : VpiState * Live := then_call (VGetValue 2 vpiIntVal) p.
Definition hot_clk : VpiState * Live := read_clk (read_clk (read_clk opened_clk)).
Definition at_top : VpiState * Live := then_call (VIterate vpiModule 0) hot_clk.
Definition with_top : VpiState * Live := then_call (VScan 3) at_top.

Example hot_started : (fun o => so_thread o) <$> sig_objs hot_clk.1 !! 2 = Some OptStart.
Proof. vm_compute. reflexivity. Qed.
Example top_found : moduleHandleSet with_top.1 = {[4]}.
Proof. vm_compute. reflexivity. Qed.

Section Runs.
Context (fw : bool).

Abbreviation run := (rtc (pstep demo_content demo_opts fw)).

Lemma call_run c p : allowed demo_content demo_opts fw p.1 p.2 c ->
  vpi_exec demo_opts c (mkCompat p.1 (world p.2)) = Ret tt (mkCompat (then_call c p).1 (world (then_call c p).2)) ->
  run p (then_call c p).
Proof.
  generalize (then_call c p). destruct p as [v l]. intros [v' l'] Ha E. apply rtc_once.
  exact (ps_call demo_content demo_opts fw demo_opts c v l v' l' Ha E).
Qed.

Lemma run_good p : run (blank_vpi 2, demo_live) p -> good demo_content demo_opts fw p.1 p.2.
Proof. intros Hr. by apply (psteps_good demo_content demo_waveform demo_opts fw ltac:(done) _ _ Hr (demo_good fw)). Qed.

Lemma opened_run : run (blank_vpi 2, demo_live) opened_clk.
Proof.
  apply call_run; [|by vm_compute]. split; [by vm_compute|]. split; [by vm_compute|]. intros r _. apply demo_sized.
Qed.

Lemma clk_signal : is_signal demo_content demo_opts fw opened_clk.1 opened_clk.2 2 "top.clk" 1%positive.
Proof.
  set (o := mkSigObj "top.clk" 1 (mkSignalHandle 1 true 0 false false [] 0 0) OptNone).
  assert (sig_objs opened_clk.1 !! 2 = Some o) as Ho by (by vm_compute).
  apply (is_signal_intro demo_content demo_opts fw opened_clk.1 opened_clk.2 2 o 1%positive); [apply run_good, opened_run|exact Ho|by vm_compute].
Qed.

Lemma read_run p : run opened_clk p -> v_index p.1 = 0 ->
  vpi_exec demo_opts (VGetValue 2 vpiIntVal) (mkCompat p.1 (world p.2)) =
    Ret tt (mkCompat (read_clk p).1 (world (read_clk p).2)) -> run opened_clk (read_clk p).
Proof.
  intros Hr Hi E. etransitivity; [exact Hr|]. apply call_run; [|exact E]. split; [|unfold supported; set_solver].
  destruct (psteps_good demo_content demo_waveform demo_opts fw ltac:(done) _ _ Hr (run_good _ opened_run)) as [_ [Ks _]].
  exists "top.clk"%string, 1%positive. split; [apply Ks, clk_signal|]. rewrite Hi. by exists BClk.
Qed.

Lemma hot_run : run opened_clk hot_clk.
Proof. unfold hot_clk. do 3 (apply read_run; [|by vm_compute|by vm_compute]). reflexivity. Qed.

Lemma top_run : run opened_clk with_top.
Proof.
  transitivity hot_clk; [exact hot_run|]. transitivity at_top.
  - apply (call_run (VIterate vpiModule 0) hot_clk); [split; left; reflexivity|vm_compute; reflexivity].
  - apply (call_run (VScan 3) at_top); [intros [s|r] objs _ _; [exact I|apply demo_sized]|vm_compute; reflexivity].
Qed.

Lemma jump_run i v l p : run p (v, l) -> 0 <= i <= v_maxIndex v -> (fw = true -> v_index v <= i) ->
  run p (set_v_index i v, l).
Proof. intros Hr Hi Hf. eapply rtc_r; [exact Hr|]. by apply ps_cursor. Qed.

End Runs.

(** The cursor has jumped ahead and back. *)
Definition jumped : VpiState * Live := (set_v_index 1 (set_v_index 2 with_top.1), with_top.2).

Lemma top_last : v_maxIndex with_top.1 = 2.
Proof. vm_compute. reflexivity. Qed.

Lemma jumped_found : v_index jumped.1 = 1 /\ moduleHandleSet jumped.1 = {[4]}.
Proof. split; vm_compute; reflexivity. Qed.

Lemma jumped_run : rtc (pstep demo_content demo_opts false) opened_clk jumped.
Proof.
  pose proof (top_run false) as Hr. pose proof top_last as Hl. unfold jumped. revert Hr Hl. generalize with_top. intros [v l] Hr Hl.
  cbn [fst snd] in *. apply jump_run; [apply jump_run; [exact Hr|rewrite Hl; lia|done]|cbn; rewrite Hl; lia|done].
Qed.

Lemma vpi_process_safe_witness :
  v_index jumped.1 = 1 /\ moduleHandleSet jumped.1 = {[4]} /\
  vpi_get_str vpiName 2 (mkCompat jumped.1 (world jumped.2)) = Ret (Some "top.clk"%string) (mkCompat jumped.1 (world jumped.2)) /\
  exists v' l', vpi_exec demo_opts (VGetStr vpiName 4) (mkCompat jumped.1 (world jumped.2)) = Ret tt (mkCompat v' (world l')).
Proof.
  destruct (vpi_process_safe demo_content demo_waveform demo_opts false ltac:(done) opened_clk.1 opened_clk.2 jumped.1 jumped.2)
    as (_ & Hs & _ & Hc & _).
  - apply run_good, opened_run.
  - rewrite <- !surjective_pairing. exact jumped_run.
  - split; [exact (proj1 jumped_found)|]. split; [exact (proj2 jumped_found)|]. split; [by apply (Hs 2 "top.clk"%string 1%positive (clk_signal false))|].
    destruct (Hc demo_opts (VGetStr vpiName 4)) as (v' & l' & E & _).
    + split; [done|]. right. rewrite (proj2 jumped_found). set_solver.
    + exists v', l'. exact E.
Defined.

(** The fourth read is answered while the thread has not filled the window. *)
Lemma vpi_value_at_cursor_witness :
  exists val v' l', vpi_get_value demo_opts 2 vpiIntVal (mkCompat hot_clk.1 (world hot_clk.2)) = Ret val (mkCompat v' (world l')) /\
    jit_reads_as vpiIntVal 1 1 val.
Proof.
  destruct (vpi_value_at_cursor demo_content demo_waveform demo_opts true ltac:(done) demo_opts opened_clk.1 opened_clk.2 hot_clk.1 hot_clk.2
    2 "top.clk"%string 1%positive vpiIntVal tt BClk) as (data & val & v' & l' & Hd & E & _ & H); try done.
  - apply run_good, opened_run.
  - rewrite <- !surjective_pairing. exact (hot_run true).
  - exact (clk_signal true).
  - unfold supported. set_solver.
  - exists val, v', l'. split; [exact E|]. injection Hd as <-. exact H.
Defined.

Lemma finished_handles_witness :
  exists st, finalize_backend demo_host (mkCompat with_top.1 (world with_top.2)) = Ret tt st /\
    vpi_get_str vpiName 4 st = UB "dangling pointer".
Proof.
  destruct (finished_handles demo_content demo_waveform demo_opts true demo_host with_top.1 with_top.2) as (E & _ & _ & H).
  - apply run_good. transitivity opened_clk; [exact (opened_run true)|exact (top_run true)].
  - split; reflexivity.
  - eexists. split; [exact E|]. apply H. rewrite top_found. set_solver.
Defined.

End VpiDemo.
