(* ===== verification/WaveControl.v ===== *)
(** * The controls of the waveform kernel

    [src/wave_vpi/src/jit_options.cpp] and [control.cpp]: where the options of the
    prefetch threads come from - defaults, environment variables, and the calls of
    [WaveVpiCtrl.lua] while the client runs - and how a client moves the cursor. *)

From S2P Require Import Prelude Bytes State WaveValue WaveData WaveImpl WaveSession WaveRead Wave WaveJit WaveKernel WaveHandles.
From Stdlib Require Import Sorting.Sorted.
#[local] Open Scope Z_scope.

(** ** The options *)

(** The variables of [jit_options] that may be changed at run time. *)
Record JitConfig := mkConfig { jit_options : JitOptions; verboseJIT : bool }.

Definition default_config : JitConfig := mkConfig (mkJitOptions true 900 30 200000 200000) false.

Definition set_enable (b : bool) (c : JitConfig) : JitConfig :=
  let o := jit_options c in
  mkConfig (mkJitOptions b (maxOptThreads o) (hotAccessThreshold o) (compileWindowSize o) (recompileWindowSize o)) (verboseJIT c).
Definition set_verbose (b : bool) (c : JitConfig) : JitConfig := mkConfig (jit_options c) b.
(** [maxOptThreads] is a [uint32_t]. *)
Definition set_max_threads (v : Z) (c : JitConfig) : JitConfig :=
  let o := jit_options c in
  mkConfig (mkJitOptions (enableJIT o) (u32 v) (hotAccessThreshold o) (compileWindowSize o) (recompileWindowSize o)) (verboseJIT c).
Definition set_threshold (v : Z) (c : JitConfig) : JitConfig :=
  let o := jit_options c in
  mkConfig (mkJitOptions (enableJIT o) (maxOptThreads o) (u64 v) (compileWindowSize o) (recompileWindowSize o)) (verboseJIT c).
Definition set_compile_window (v : Z) (c : JitConfig) : JitConfig :=
  let o := jit_options c in
  mkConfig (mkJitOptions (enableJIT o) (maxOptThreads o) (hotAccessThreshold o) (u64 v) (recompileWindowSize o)) (verboseJIT c).
Definition set_recompile_window (v : Z) (c : JitConfig) : JitConfig :=
  let o := jit_options c in
  mkConfig (mkJitOptions (enableJIT o) (maxOptThreads o) (hotAccessThreshold o) (compileWindowSize o) (u64 v)) (verboseJIT c).

(** *** From the environment: [jit_options::initialize] *)

Definition is_c_space (b : byte) : bool := let v := byteZ b in (v =? 32) || ((9 <=? v) && (v <=? 13)).

Fixpoint skip_spaces (l : list byte) : list byte :=
  match l with
  | [] => []
  | b :: l' => if is_c_space b then skip_spaces l' else l
  end.

(** [std::stoull] and, on this platform, [std::stoul]: blanks, a sign, the digits of a
    prefix; none or too many throw, a minus negates modulo [2 ^ 64]. *)
Definition stoull (s : string) : option Z :=
  let l := skip_spaces (as_bytes s) in
  let '(negative, l) := match l with
    | b :: l' => if byteZ b =? 45 then (true, l') else if byteZ b =? 43 then (false, l') else (false, l)
    | [] => (false, l)
    end in
  let ds := digits_prefix l in
  if bool_decide (ds = []) then None
  else let v := decimal_value ds in
       if 2 ^ 64 <=? v then None else Some (if negative : bool then u64 (- v) else v).

Definition parse_u64 (s : string) : M JitConfig Z :=
  match stoull s with Some v => ret v | None => panic "terminate called after throwing an exception" end.

(** A variable that is set replaces the value there is. *)
Definition on_env (env : string -> option string) (name : string) (set : string -> M JitConfig unit) : M JitConfig unit :=
  match env name with Some s => set s | None => ret tt end.

Definition number_from (set : Z -> JitConfig -> JitConfig) (s : string) : M JitConfig unit :=
  let! v := parse_u64 s in modify (set v).

Definition jit_initialize (env : string -> option string) : M JitConfig unit :=
  on_env env "WAVE_VPI_ENABLE_JIT" (fun s => modify (set_enable (bool_decide (s = "1"%string)))) ;;
  let! enable := gets (fun c => enableJIT (jit_options c)) in
  when enable
    (on_env env "WAVE_VPI_VERBOSE_JIT" (fun s => modify (set_verbose (bool_decide (s = "1"%string)))) ;;
     on_env env "WAVE_VPI_JIT_MAX_OPT_THREADS" (number_from set_max_threads) ;;
     on_env env "WAVE_VPI_JIT_HOT_ACCESS_THRESHOLD" (number_from set_threshold) ;;
     on_env env "WAVE_VPI_JIT_COMPILE_WINDOW_SIZE" (number_from set_compile_window) ;;
     on_env env "WAVE_VPI_JIT_RECOMPILE_WINDOW_SIZE" (fun s =>
       if bool_decide (s = "-1"%string)
       then modify (fun c => set_recompile_window (compileWindowSize (jit_options c)) c)
       else number_from set_recompile_window s) ;;
     let! o := gets jit_options in
     assert_ (recompileWindowSize o <=? compileWindowSize o) "`recompileWindowSize` should less than or equal to `compileWindowSize`").

(** *** From the client *)

Definition wave_vpi_ctrl_set_jit_options (opt_name : string) (v : Z) : M JitConfig unit :=
  if bool_decide (opt_name = "enable"%string) then modify (set_enable (1 <=? v))
  else if bool_decide (opt_name = "verbose"%string) then modify (set_verbose (1 <=? v))
  else if bool_decide (opt_name = "max_opt_threads"%string) then modify (set_max_threads v)
  else if bool_decide (opt_name = "hot_access_threshold"%string) then modify (set_threshold v)
  else if bool_decide (opt_name = "compile_window_size"%string) then modify (set_compile_window v)
  else if bool_decide (opt_name = "recompile_window_size"%string) then modify (set_recompile_window v)
  else panic "Unknown JIT option".

Definition wave_vpi_ctrl_get_jit_options (opt_name : string) : M JitConfig Z :=
  let! o := gets jit_options in
  let! verbose := gets verboseJIT in
  if bool_decide (opt_name = "enable"%string) then ret (Z.b2z (enableJIT o))
  else if bool_decide (opt_name = "verbose"%string) then ret (Z.b2z verbose)
  else if bool_decide (opt_name = "max_opt_threads"%string) then ret (maxOptThreads o)
  else if bool_decide (opt_name = "hot_access_threshold"%string) then ret (hotAccessThreshold o)
  else if bool_decide (opt_name = "compile_window_size"%string) then ret (compileWindowSize o)
  else if bool_decide (opt_name = "recompile_window_size"%string) then ret (recompileWindowSize o)
  else panic "Unknown JIT option".

(** ** The cursor *)

Section Cursor.
Context {wellen : Wellen} {serde : Serde} {allocator : Allocator}.

Definition wave_vpi_ctrl_get_cursor_index : HM Z := v_get v_index.
Definition wave_vpi_ctrl_get_max_cursor_index : HM Z := v_get v_maxIndex.
Definition wave_vpi_ctrl_set_cursor_index (index : Z) : HM unit := v_mod (set_v_index (u64 index)).

Definition wave_vpi_ctrl_set_cursor_time (time : Z) : HM unit :=
  let! targetIndex := wellen_call (fun _ => wellen_get_index_from_time time) in
  v_mod (fun v => set_v_index (if v_maxIndex v <=? targetIndex then u64 (v_maxIndex v - 1) else targetIndex) v).

End Cursor.

(** ** What the options can become *)

Definition config_ok (c : JitConfig) : Prop :=
  in_width 64 (compileWindowSize (jit_options c)) /\ in_width 64 (recompileWindowSize (jit_options c)).

Lemma default_config_ok : config_ok default_config.
Proof. by vm_compute. Qed.

Definition ok_after (c c' : JitConfig) : Prop := config_ok c -> config_ok c'.

#[local] Instance ok_after_preorder : PreOrder ok_after.
Proof. split; [by intros c Hc|]. intros c1 c2 c3 H1 H2 H. apply H2, H1, H. Qed.

Lemma on_env_keeps env name f : (forall s, keeps ok_after (f s)) -> keeps ok_after (on_env env name f).
Proof. intros H. unfold on_env. destruct (env name); [apply H|]. apply keeps_ret. apply _. Qed.

Lemma modify_keeps f : (forall c, ok_after c (f c)) -> keeps ok_after (modify f).
Proof. exact (keeps_modify _ f). Qed.

Lemma number_keeps set s : (forall v c, ok_after c (set v c)) -> keeps ok_after (number_from set s).
Proof.
  intros H. unfold number_from, parse_u64. apply keeps_bind; [apply _| |intros v; by apply modify_keeps].
  destruct (stoull s); [apply keeps_ret|apply keeps_panic]; apply _.
Qed.

(** Every setter stores its number at the width of the variable. *)
Ltac setter := intros ? ? [? ?]; split; cbn; try assumption; apply wrap_bound; lia.

Lemma threads_ok v c : ok_after c (set_max_threads v c).
Proof. by intros [? ?]. Qed.
Lemma threshold_ok v c : ok_after c (set_threshold v c).
Proof. by intros [? ?]. Qed.
Lemma compile_ok v c : ok_after c (set_compile_window v c).
Proof. revert v c. setter. Qed.
Lemma recompile_ok v c : ok_after c (set_recompile_window v c).
Proof. revert v c. setter. Qed.
Lemma flag_ok b c : ok_after c (set_enable b c) /\ ok_after c (set_verbose b c).
Proof. by split; intros [? ?]. Qed.

Lemma initialize_keeps env : keeps ok_after (jit_initialize env).
Proof.
  unfold jit_initialize. repeat (apply keeps_bind; [apply _| |intros ?]).
  - apply on_env_keeps. intros s. apply modify_keeps. intros c. apply flag_ok.
  - apply keeps_gets. apply _.
  - apply keeps_when; [apply _|]. repeat (apply keeps_bind; [apply _| |intros ?]).
    + apply on_env_keeps. intros s. apply modify_keeps. intros c. apply flag_ok.
    + apply on_env_keeps. intros s. apply number_keeps, threads_ok.
    + apply on_env_keeps. intros s. apply number_keeps, threshold_ok.
    + apply on_env_keeps. intros s. apply number_keeps, compile_ok.
    + apply on_env_keeps. intros s. destruct (bool_decide _); [|apply number_keeps, recompile_ok].
      apply modify_keeps. intros c. apply recompile_ok.
    + apply keeps_gets. apply _.
    + apply keeps_assert. apply _.
Qed.

(** Whatever the environment says, a kernel that starts with prefetching enabled has
    a recompile window no larger than the compile window, both 64-bit numbers. *)
Theorem initialized_windows env c :
  jit_initialize env default_config = Ret tt c ->
  config_ok c /\ (enableJIT (jit_options c) = true -> recompileWindowSize (jit_options c) <= compileWindowSize (jit_options c)).
Proof.
  intros E. split; [pose proof (initialize_keeps env default_config) as H; rewrite E in H; apply H, default_config_ok|].
  intros He. unfold jit_initialize in E.
  apply bind_Ret_inv in E as (? & c1 & _ & E). apply bind_Ret_inv in E as (b & c2 & Eb & E).
  injection Eb as <- <-. destruct (enableJIT (jit_options c1)) eqn:Hb.
  - cbn [when] in E. do 5 (apply bind_Ret_inv in E as (? & ? & _ & E)).
    apply bind_Ret_inv in E as (o & c3 & Eo & E). injection Eo as <- <-. unfold assert_ in E.
    destruct (_ <=? _) eqn:Hle; [|done]. injection E as <-. by apply Z.leb_le.
  - injection E as <-. congruence.
Qed.

Definition demo_env (n : string) : option string :=
  if bool_decide (n = "WAVE_VPI_JIT_RECOMPILE_WINDOW_SIZE"%string) then Some "-1"%string
  else if bool_decide (n = "WAVE_VPI_JIT_COMPILE_WINDOW_SIZE"%string) then Some " 500"%string else None.
Definition demo_config : JitConfig := mkConfig (mkJitOptions true 900 30 500 500) false.

Lemma initialized_windows_witness :
  jit_initialize demo_env default_config = Ret tt demo_config /\
  recompileWindowSize (jit_options demo_config) <= compileWindowSize (jit_options demo_config).
Proof.
  assert (jit_initialize demo_env default_config = Ret tt demo_config) as E by (vm_compute; reflexivity).
  split; [exact E|]. exact (proj2 (initialized_windows demo_env demo_config E) eq_refl).
Defined.

(** A client that sets the options at run time escapes that check. *)
Definition client_options : M JitConfig unit :=
  wave_vpi_ctrl_set_jit_options "hot_access_threshold" 1 ;;
  wave_vpi_ctrl_set_jit_options "compile_window_size" 2 ;;
  wave_vpi_ctrl_set_jit_options "recompile_window_size" 4.

(** Three calls of [WaveVpiCtrl.jit_options:set] on the defaults lead to windows the
    start would have refused, and with them a read that a thread interrupts can
    return the value of another index. *)
Theorem unchecked_windows_wrong_value :
  (forall env, (forall n, env n = None) -> jit_initialize env default_config = Ret tt default_config) /\
  exists c, client_options default_config = Ret tt c /\
    exists s s1 local s2, rtc (jstep (jit_options c) Races.at_index true) (Races.fresh 14) s /\ cursor_index s = 5 /\
      read_begin (jit_options c) s = (s1, PFast local) /\ opt_steps (jit_options c) Races.at_index 9 s1 = Some s2 /\
      read_end local s2 = Races.at_index 9.
Proof.
  split.
  - intros env H. unfold jit_initialize, on_env. rewrite !H. done.
  - eexists. split; [by vm_compute|]. exact Races.interrupted_read_wrong_value.
Qed.

(** The option the comments name ([jit_options.cpp], [vpi_compat_wellen.cpp]) is none
    of the names the kernel knows: the process is aborted. *)
Theorem documented_option_unknown v c : wave_vpi_ctrl_set_jit_options "enableJIT" v c = Panic "Unknown JIT option" c.
Proof. done. Qed.

(** ** Moving the cursor to a time *)

Section Moving.
Context {wellen : Wellen} {serde : Serde} {allocator : Allocator}.

(** The cursor is put on the last index whose time is not after the one asked for, but
    never on the last index of the waveform - and with a single index, on none: the
    subtraction wraps and the next question for the time aborts. *)
Theorem set_cursor_time_spec time v l :
  StronglySorted Z.lt (l_time l) -> l_time l <> [] -> v_maxIndex v = Z.of_nat (length (l_time l)) - 1 -> v_maxIndex v < 2 ^ 64 ->
  exists i v', wave_vpi_ctrl_set_cursor_time time (mkCompat v (world l)) = Ret tt (mkCompat v' (world l)) /\
    nearest (l_time l) time i /\
    ((length (l_time l) > 1)%nat -> v' = set_v_index (Z.min (Z.of_nat i) (v_maxIndex v - 1)) v /\ 0 <= v_index v' < v_maxIndex v) /\
    (length (l_time l) = 1%nat -> v' = set_v_index (2 ^ 64 - 1) v /\
       vpi_get_time (Some vpiSimTime) (mkCompat v' (world l)) = Panic "index out of bounds" (mkCompat v' (world l))).
Proof.
  intros Hs Hne Hmax Hb. destruct (find_nearest_facts (l_time l) time (sorted_nondecreasing _ Hs) Hne) as (i & E & Hn).
  pose proof (proj1 Hn) as Hi. exists i.
  set (v' := set_v_index (if v_maxIndex v <=? Z.of_nat i then u64 (v_maxIndex v - 1) else Z.of_nat i) v). exists v'.
  split; [|split; [done|split]].
  - unfold wave_vpi_ctrl_set_cursor_time, wellen_call, bind. cbn [vpi wave]. unfold wellen_get_index_from_time.
    by rewrite (bind_Ret _ _ _ _ _ (nearest_index_run _ _ _ E)).
  - intros Hl. assert (v' = set_v_index (Z.min (Z.of_nat i) (v_maxIndex v - 1)) v) as ->; [|split; [done|cbn; lia]].
    unfold v'. f_equal. destruct (Z.leb_spec (v_maxIndex v) (Z.of_nat i)); [|lia]. rewrite u64_small by lia. lia.
  - intros Hl. assert (v' = set_v_index (2 ^ 64 - 1) v) as Ev.
    { unfold v'. rewrite Hmax, Hl. destruct (Z.leb_spec (Z.of_nat 1 - 1) (Z.of_nat i)); [done|lia]. }
    split; [done|]. rewrite Ev. unfold vpi_get_time, v_get. mrun. unfold wellen_call, wellen_get_time_from_index, bind, static_.
    cbn -[Z.to_nat Z.pow Z.sub]. rewrite lookup_ge_None_2 by lia. done.
Qed.

End Moving.

Module ControlDemo.
Import Demo.

Lemma set_cursor_time_spec_witness : exists i v',
  wave_vpi_ctrl_set_cursor_time 15 (mkCompat (mkVpi ∅ ∅ ∅ ∅ ∅ 0 2 0 false) (world Demo.demo_live)) =
    Ret tt (mkCompat v' (world Demo.demo_live)) /\ nearest (l_time Demo.demo_live) 15 i /\ 0 <= v_index v' < 2.
Proof.
  destruct (set_cursor_time_spec 15 (mkVpi ∅ ∅ ∅ ∅ ∅ 0 2 0 false) Demo.demo_live) as (i & v' & E & Hn & H & _);
    [apply Demo.demo_table|done|done|done|].
  exists i, v'. split; [exact E|]. split; [exact Hn|]. apply H. vm_compute. lia.
Defined.

End ControlDemo.
