(* ===== verification/TursoFfi.v ===== *)
(** * The database bindings

    [turso_ffi/src/lib.rs]: a C interface over the [turso] crate.  The registries
    of live handles, the boxes behind them and the error slots are the state;
    the database engine is a parameter whose operations thread a state of its
    own.  The theorems: no call follows a dangling pointer whatever pointers it
    is given, the error slots report the failing call, and executing a script
    terminates with every statement it prepared finalised. *)

From S2P Require Import Prelude Bytes.
#[local] Open Scope Z_scope.

(** [TursoStatusCode], [Value] and [Numeric], with the variants told apart. *)
Inductive TursoStatusCode := StDone | StRow | StOther (n : Z).
Inductive Value (F B : Type) := VInteger (v : Z) | VFloat (f : F) | VText (t : string) | VNull | VOther (b : B).
Arguments VInteger {F B} v.
Arguments VFloat {F B} f.
Arguments VText {F B} t.
Arguments VNull {F B}.
Arguments VOther {F B} b.

(** The engine: [turso_sdk_kit::rsapi] and the conversions of its floats. *)
Class Turso := {
  Engine : Type;
  Conn : Type;
  TursoStatement : Type;
  TFloat : Type;
  TBlob : Type;
  db_open : string -> Engine -> (Conn + string) * Engine;
  conn_close : Conn -> Engine -> option string * Engine;
  prepare_first : Conn -> string -> Engine -> (option (TursoStatement * nat) + string) * Engine;
  prepare_single : Conn -> string -> Engine -> (TursoStatement + string) * Engine;
  st_execute : TursoStatement -> Engine -> (TursoStatusCode + string) * Engine;
  st_step : TursoStatement -> Engine -> (TursoStatusCode + string) * Engine;
  st_reset : TursoStatement -> Engine -> option string * Engine;
  st_finalize : TursoStatement -> Engine -> (TursoStatusCode + string) * Engine;
  st_bind : TursoStatement -> Z -> Value TFloat TBlob -> Engine -> option string * Engine;
  row_value : TursoStatement -> Z -> Engine -> Value TFloat TBlob + string;
  float_as_i64 : TFloat -> Z;
  float_to_string : TFloat -> string;
  status_debug : TursoStatusCode -> string;
  utf8_error : list byte -> string
}.

(** The allocator: the address of a new box, given those in use. *)
Class TursoAlloc := turso_fresh : gset Z -> Z.
Definition turso_alloc_ok `{TursoAlloc} : Prop := forall X, turso_fresh X ∉ X /\ turso_fresh X <> 0.

Definition TURSO_FFI_OK : Z := 0.
Definition TURSO_FFI_ROW : Z := 100.
Definition TURSO_FFI_DONE : Z := 101.
Definition TURSO_FFI_ERR : Z := 1.

(** [CString::new(msg.replace('\0', ""))]. *)
Definition no_nul (s : string) : string := of_bytes (filter (fun b => b <> x00) (as_bytes s)).

(** [str::trim().is_empty()]. *)
Definition trim_is_empty (s : string) : bool := all_space (as_bytes s).

(** A pointer argument to text: null, or the bytes up to the first NUL. *)
Definition CStrArg : Type := option (list byte).

Section Ffi.
Context {turso : Turso} {alloc : TursoAlloc}.

Record Db := mkDb { db_conn : Conn; db_errmsg : string; db_errmsg_c : string; db_col_text_c : string }.
Record Stmt := mkStmt { s_db : Z; s_stmt : TursoStatement }.
Inductive TBox := BDb (d : Db) | BStmt (s : Stmt).

Record TWorld := mkTW {
  LAST_GLOBAL_ERR : string * string;
  LIVE_DBS : gset Z;
  LIVE_STMTS : gset Z;
  t_boxes : gmap Z TBox;
  t_engine : Engine
}.

Definition TM (A : Type) : Type := M TWorld A.

Definition set_t_err (e : string * string) (w : TWorld) : TWorld :=
  mkTW e (LIVE_DBS w) (LIVE_STMTS w) (t_boxes w) (t_engine w).
Definition set_t_dbs (s : gset Z) (w : TWorld) : TWorld :=
  mkTW (LAST_GLOBAL_ERR w) s (LIVE_STMTS w) (t_boxes w) (t_engine w).
Definition set_t_stmts (s : gset Z) (w : TWorld) : TWorld :=
  mkTW (LAST_GLOBAL_ERR w) (LIVE_DBS w) s (t_boxes w) (t_engine w).
Definition set_t_boxes (b : gmap Z TBox) (w : TWorld) : TWorld :=
  mkTW (LAST_GLOBAL_ERR w) (LIVE_DBS w) (LIVE_STMTS w) b (t_engine w).
Definition set_t_engine (e : Engine) (w : TWorld) : TWorld :=
  mkTW (LAST_GLOBAL_ERR w) (LIVE_DBS w) (LIVE_STMTS w) (t_boxes w) e.

(** An operation of the engine. *)
Definition eng {A} (f : Engine -> A * Engine) : TM A := fun w =>
  let '(a, e) := f (t_engine w) in Ret a (set_t_engine e w).

(** ** Error slots, registries, boxes *)

Definition set_global_err (msg : string) : TM unit := modify (set_t_err (msg, no_nul msg)).
Definition clear_global_err : TM unit := modify (set_t_err (empty_str, empty_str)).

Definition register_db (p : Z) : TM unit := modify (fun w => set_t_dbs ({[p]} ∪ LIVE_DBS w) w).
Definition unregister_db (p : Z) : TM bool := fun w =>
  Ret (bool_decide (p ∈ LIVE_DBS w)) (set_t_dbs (LIVE_DBS w ∖ {[p]}) w).
Definition is_live_db (p : Z) : TM bool :=
  gets (fun w => negb (p =? 0) && bool_decide (p ∈ LIVE_DBS w)).
Definition register_stmt (p : Z) : TM unit := modify (fun w => set_t_stmts ({[p]} ∪ LIVE_STMTS w) w).
Definition unregister_stmt (p : Z) : TM bool := fun w =>
  Ret (bool_decide (p ∈ LIVE_STMTS w)) (set_t_stmts (LIVE_STMTS w ∖ {[p]}) w).
Definition is_live_stmt (p : Z) : TM bool :=
  gets (fun w => negb (p =? 0) && bool_decide (p ∈ LIVE_STMTS w)).

Definition box_new (b : TBox) : TM Z := fun w =>
  let a := turso_fresh (dom (t_boxes w)) in Ret a (set_t_boxes (<[a := b]> (t_boxes w)) w).
Definition read_db (p : Z) : TM Db := fun w =>
  match t_boxes w !! p with Some (BDb d) => Ret d w | _ => UB "dangling database" end.
Definition write_db (p : Z) (d : Db) : TM unit := fun w =>
  match t_boxes w !! p with
  | Some (BDb _) => Ret tt (set_t_boxes (<[p := BDb d]> (t_boxes w)) w)
  | _ => UB "dangling database"
  end.
Definition read_stmt (p : Z) : TM Stmt := fun w =>
  match t_boxes w !! p with Some (BStmt s) => Ret s w | _ => UB "dangling statement" end.
(** [Box::from_raw] and the drop of the box: freeing what is not allocated is
    undefined. *)
Definition box_take (p : Z) : TM unit := fun w =>
  match t_boxes w !! p with
  | Some _ => Ret tt (set_t_boxes (delete p (t_boxes w)) w)
  | None => UB "double free"
  end.

Definition set_err_str (p : Z) (msg : string) : TM unit :=
  let! d := read_db p in
  write_db p (mkDb (db_conn d) msg (no_nul msg) (db_col_text_c d)) ;;
  set_global_err msg.
Definition set_err (p : Z) (err : string) : TM unit := set_err_str p err.

(** [db.errmsg.clear(); db.errmsg_c = default; clear_global_err()]. *)
Definition clear_err (p : Z) : TM unit :=
  let! d := read_db p in
  write_db p (mkDb (db_conn d) empty_str empty_str (db_col_text_c d)) ;;
  clear_global_err.

Definition cstr_to_str (p : CStrArg) : string + string :=
  match p with
  | None => inr "null string"%string
  | Some bytes => match from_utf8 bytes with Some s => inl s | None => inr (utf8_error bytes) end
  end.

Definition db_mut (p : Z) : TM bool := is_live_db p.

(** The statement, when it and its database are live. *)
Definition stmt_mut (p : Z) : TM (option Stmt) :=
  let! live := is_live_stmt p in
  if negb live then ret None else
  let! s := read_stmt p in
  let! dblive := is_live_db (s_db s) in
  ret (if dblive then Some s else None).

(** The pattern [if is_live_db(stmt.db) { set_err(&mut *stmt.db, e) } else
    { set_global_err(e) }]. *)
Definition report (db : Z) (e : string) : TM unit :=
  let! live := is_live_db db in if live then set_err db e else set_global_err e.

(** ** Executing a script *)

(** The statements of [sql] in turn; [remaining] is the rest of the text. *)
Fixpoint exec_loop (fuel : nat) (conn : Conn) (remaining : string) : TM (option string) :=
  if trim_is_empty remaining then ret None else
  match fuel with
  | O => out_of_fuel
  | S fuel =>
      let! prepared := eng (prepare_first conn remaining) in
      match prepared with
      | inr e => ret (Some e)
      | inl None => ret None
      | inl (Some (stmt, tail)) =>
          let! r := eng (st_execute stmt) in
          match r with
          | inr e => let! _ := eng (st_finalize stmt) in ret (Some e)
          | inl StDone =>
              let! f := eng (st_finalize stmt) in
              match f with
              | inl StDone =>
                  let rest := drop tail (as_bytes remaining) in
                  if (str_len remaining <=? tail)%nat then ret None
                  else if utf8_valid rest then exec_loop fuel conn (of_bytes rest)
                  else panic "byte index is not a char boundary"
              | inl other => ret (Some (String.append "finalize status: " (status_debug other)))
              | inr e => ret (Some e)
              end
          | inl other =>
              let! _ := eng (st_finalize stmt) in
              ret (Some (String.append "execute status: " (status_debug other)))
          end
      end
  end.

Definition exec_sql (conn : Conn) (sql : string) : TM (option string) := exec_loop (str_len sql) conn sql.
(** ** The exported functions

    [out] tells whether the out pointer is not null; the second component of a
    result is what is stored there. *)

Definition fail_global (msg : string) : TM Z := set_global_err msg ;; ret TURSO_FFI_ERR.

Definition turso_ffi_open (path : CStrArg) (out : bool) : TM (Z * Z) :=
  if negb out then let! r := fail_global "out_db is null" in ret (r, 0) else
  match cstr_to_str path with
  | inr e => let! r := fail_global e in ret (r, 0)
  | inl path =>
      let! o := eng (db_open path) in
      match o with
      | inl conn =>
          clear_global_err ;;
          let! raw := box_new (BDb (mkDb conn empty_str empty_str empty_str)) in
          register_db raw ;;
          ret (TURSO_FFI_OK, raw)
      | inr e => let! r := fail_global e in ret (r, 0)
      end
  end.

Definition turso_ffi_close (db : Z) : TM Z :=
  let! was := unregister_db db in
  if negb was then fail_global "close: null or already closed db" else
  let! boxed := read_db db in
  let! r := eng (conn_close (db_conn boxed)) in
  (match r with None => clear_global_err | Some e => set_global_err e end) ;;
  box_take db ;;
  ret (match r with None => TURSO_FFI_OK | Some _ => TURSO_FFI_ERR end).

Definition turso_ffi_exec (db : Z) (sql : CStrArg) : TM Z :=
  let! live := db_mut db in
  if negb live then fail_global "exec: null or closed db" else
  match cstr_to_str sql with
  | inr e => set_err_str db e ;; ret TURSO_FFI_ERR
  | inl sql =>
      let! d := read_db db in
      let! r := exec_sql (db_conn d) sql in
      match r with
      | None => clear_err db ;; ret TURSO_FFI_OK
      | Some e => set_err_str db e ;; ret TURSO_FFI_ERR
      end
  end.

Definition turso_ffi_prepare (db : Z) (sql : CStrArg) (out : bool) : TM (Z * Z) :=
  if negb out then let! r := fail_global "prepare: out_stmt is null" in ret (r, 0) else
  let! live := db_mut db in
  if negb live then let! r := fail_global "prepare: null or closed db" in ret (r, 0) else
  match cstr_to_str sql with
  | inr e => set_err_str db e ;; ret (TURSO_FFI_ERR, 0)
  | inl sql =>
      let! d := read_db db in
      let! r := eng (prepare_single (db_conn d) sql) in
      match r with
      | inl stmt =>
          clear_err db ;;
          let! raw := box_new (BStmt (mkStmt db stmt)) in
          register_stmt raw ;;
          ret (TURSO_FFI_OK, raw)
      | inr e => set_err db e ;; ret (TURSO_FFI_ERR, 0)
      end
  end.

(** A call on a statement: [none] when it or its database is not live. *)
Definition with_stmt {A} (p : Z) (msg : string) (none : A) (k : Stmt -> TM A) : TM A :=
  let! s := stmt_mut p in
  match s with
  | Some s => k s
  | None => set_global_err msg ;; ret none
  end.

(** The end of a call whose engine operation reports an error or nothing. *)
Definition finish (db : Z) (r : option string) : TM Z :=
  match r with None => ret TURSO_FFI_OK | Some e => report db e ;; ret TURSO_FFI_ERR end.

Definition turso_ffi_bind_int (stmt idx value : Z) : TM Z :=
  if idx <=? 0 then fail_global "bind_int: index must be >= 1" else
  with_stmt stmt "bind_int: null/finalized stmt or closed db" TURSO_FFI_ERR (fun s =>
    let! r := eng (st_bind (s_stmt s) idx (VInteger value)) in finish (s_db s) r).

(** [text] is the buffer: its first [len] bytes, or up to the first NUL when
    [len] is negative; reading past the buffer is undefined. *)
Fixpoint c_prefix (l : list byte) : list byte :=
  match l with
  | [] => []
  | b :: l => if bool_decide (b = x00) then [] else b :: c_prefix l
  end.

Definition bind_bytes (text : list byte) (len : Z) : TM (string + string) :=
  if len <? 0 then ret (cstr_to_str (Some (c_prefix text)))
  else if Z.of_nat (length text) <? len then undefined "read past the buffer"
  else
    let bytes := take (Z.to_nat len) text in
    ret (match from_utf8 bytes with Some s => inl s | None => inr (utf8_error bytes) end).

Definition turso_ffi_bind_text (stmt idx : Z) (text : CStrArg) (len : Z) : TM Z :=
  match text with
  | None => fail_global "bind_text: bad args"
  | Some bytes =>
      if idx <=? 0 then fail_global "bind_text: bad args" else
      with_stmt stmt "bind_text: null/finalized stmt or closed db" TURSO_FFI_ERR (fun s =>
        let! t := bind_bytes bytes len in
        match t with
        | inr e => report (s_db s) e ;; ret TURSO_FFI_ERR
        | inl t => let! r := eng (st_bind (s_stmt s) idx (VText t)) in finish (s_db s) r
        end)
  end.

Definition turso_ffi_step (stmt : Z) : TM Z :=
  with_stmt stmt "step: null/finalized stmt or closed db" TURSO_FFI_ERR (fun s =>
    let! r := eng (st_step (s_stmt s)) in
    match r with
    | inl StRow => ret TURSO_FFI_ROW
    | inl StDone => ret TURSO_FFI_DONE
    | inl other => report (s_db s) (String.append "step status: " (status_debug other)) ;; ret TURSO_FFI_ERR
    | inr e => report (s_db s) e ;; ret TURSO_FFI_ERR
    end).

Definition turso_ffi_reset (stmt : Z) : TM Z :=
  with_stmt stmt "reset: null/finalized stmt or closed db" TURSO_FFI_ERR (fun s =>
    let! r := eng (st_reset (s_stmt s)) in finish (s_db s) r).

Definition turso_ffi_finalize (stmt : Z) : TM Z :=
  let! was := unregister_stmt stmt in
  if negb was then fail_global "finalize: null or already finalized stmt" else
  let! boxed := read_stmt stmt in
  let! r := eng (st_finalize (s_stmt boxed)) in
  let! code :=
    match r with
    | inl StDone => clear_global_err ;; ret TURSO_FFI_OK
    | inl other => report (s_db boxed) (String.append "finalize status: " (status_debug other)) ;; ret TURSO_FFI_ERR
    | inr e => report (s_db boxed) e ;; ret TURSO_FFI_ERR
    end in
  box_take stmt ;; ret code.

Definition turso_ffi_errmsg (db : Z) : TM string :=
  let! live := is_live_db db in
  if live then let! d := read_db db in ret (db_errmsg_c d)
  else gets (fun w => snd (LAST_GLOBAL_ERR w)).

(** [if is_live_db(stmt.db) { set_err_str(..) }]: reported to the database only. *)
Definition report_db (db : Z) (e : string) : TM unit :=
  let! live := is_live_db db in if live then set_err_str db e else ret tt.

Definition turso_ffi_column_int (stmt idx : Z) : TM Z :=
  if idx <? 0 then set_global_err "column_int: index must be >= 0" ;; ret 0 else
  with_stmt stmt "column_int: null/finalized stmt or closed db" 0 (fun s =>
    let! v := gets (fun w => row_value (s_stmt s) idx (t_engine w)) in
    match v with
    | inl (VInteger v) => ret v
    | inl (VFloat f) => ret (float_as_i64 f)
    | inl _ => report_db (s_db s) "column_int: value is not numeric" ;; ret 0
    | inr e => report (s_db s) e ;; ret 0
    end).

Definition column_string (s : Stmt) (idx : Z) : TM (option string) :=
  let! v := gets (fun w => row_value (s_stmt s) idx (t_engine w)) in
  match v with
  | inl (VText t) => ret (Some t)
  | inl (VInteger v) => ret (Some (to_decimal v))
  | inl (VFloat f) => ret (Some (float_to_string f))
  | inl VNull => report_db (s_db s) "column_text: NULL" ;; ret None
  | inl (VOther _) => report_db (s_db s) "column_text: unsupported type" ;; ret None
  | inr e => report (s_db s) e ;; ret None
  end.

Definition turso_ffi_column_text (stmt idx : Z) : TM string :=
  if idx <? 0 then set_global_err "column_text: index must be >= 0" ;; ret empty_str else
  with_stmt stmt "column_text: null/finalized stmt or closed db" empty_str (fun s =>
    let! t := column_string s idx in
    match t with
    | None => ret empty_str
    | Some t =>
        let! live := is_live_db (s_db s) in
        if negb live then set_global_err "column_text: parent db closed" ;; ret empty_str else
        let! d := read_db (s_db s) in
        write_db (s_db s) (mkDb (db_conn d) (db_errmsg d) (db_errmsg_c d) (no_nul t)) ;;
        ret (no_nul t)
    end).
(* ------------------------------------------------------------------ *)
(** ** Safety *)

(** Registered handles have their boxes. *)
Record turso_ok (w : TWorld) : Prop := mkTOk {
  tok_dbs : forall p, p ∈ LIVE_DBS w -> exists d, t_boxes w !! p = Some (BDb d);
  tok_stmts : forall p, p ∈ LIVE_STMTS w -> exists s, t_boxes w !! p = Some (BStmt s);
  tok_null : t_boxes w !! 0 = None
}.

(** Every box is registered. *)
Definition no_leak (w : TWorld) : Prop := dom (t_boxes w) = LIVE_DBS w ∪ LIVE_STMTS w.

Definition same_live (w w' : TWorld) : Prop :=
  LIVE_DBS w' = LIVE_DBS w /\ LIVE_STMTS w' = LIVE_STMTS w /\ dom (t_boxes w') = dom (t_boxes w).

#[export] Instance same_live_preorder : PreOrder same_live.
Proof. split; [by intros w|]. intros w1 w2 w3 (? & ? & ?) (? & ? & ?). repeat split; congruence. Qed.

(** [calm L m]: when the databases [L] are live, [m] returns, the registries
    stay exact and no handle appears or disappears. *)
Definition calm {A} (L : gset Z) (m : TM A) : Prop :=
  forall w, turso_ok w -> L ⊆ LIVE_DBS w ->
  exists a w', m w = Ret a w' /\ turso_ok w' /\ same_live w w'.

Lemma calm_ret {A} L (a : A) : calm L (ret a).
Proof. intros w Hok HL. exists a, w. by split. Qed.

Lemma calm_gets {A} L (f : TWorld -> A) : calm L (gets f).
Proof. intros w Hok HL. exists (f w), w. by split. Qed.

Lemma calm_bind {A B} L (m : TM A) (k : A -> TM B) :
  calm L m -> (forall a, calm L (k a)) -> calm L (bind m k).
Proof.
  intros Hm Hk w Hok HL. destruct (Hm w Hok HL) as (a & w1 & E1 & Hok1 & Hs1).
  destruct (Hk a w1 Hok1) as (b & w2 & E2 & Hok2 & Hs2); [by rewrite (proj1 Hs1)|].
  exists b, w2. rewrite (bind_Ret _ _ _ _ _ E1). do 2 (split; [done|]). by transitivity w1.
Qed.

Lemma calm_eng {A} L (f : Engine -> A * Engine) : calm L (eng f).
Proof.
  intros w [] HL. unfold eng. destruct (f (t_engine w)) as [a e]. exists a, (set_t_engine e w).
  split; [done|]. by split.
Qed.

Lemma calm_set_global_err L msg : calm L (set_global_err msg).
Proof. intros w [] HL. exists tt, (set_t_err (msg, no_nul msg) w). split; [done|]. by split. Qed.

Lemma calm_clear_global_err L : calm L clear_global_err.
Proof. intros w [] HL. exists tt, (set_t_err (empty_str, empty_str) w). split; [done|]. by split. Qed.

Lemma live_db_box w p : turso_ok w -> {[p]} ⊆ LIVE_DBS w -> exists d, t_boxes w !! p = Some (BDb d).
Proof. intros Hok HL. apply (tok_dbs _ Hok). set_solver. Qed.

Lemma calm_read_db p : calm {[p]} (read_db p).
Proof.
  intros w Hok HL. destruct (live_db_box w p Hok HL) as [d Hd]. exists d, w.
  unfold read_db. rewrite Hd. by split.
Qed.

Lemma ok_write_db w p d d' : turso_ok w -> t_boxes w !! p = Some (BDb d) ->
  turso_ok (set_t_boxes (<[p := BDb d']> (t_boxes w)) w).
Proof.
  intros [] Hd. split; cbn.
  - intros q Hq. destruct (decide (p = q)) as [<-|]; [rewrite lookup_insert_eq; eauto|].
    rewrite lookup_insert_ne by done. auto.
  - intros q Hq. destruct (tok_stmts0 q Hq) as [s Hs]. exists s. rewrite lookup_insert_ne; [done|congruence].
  - rewrite lookup_insert_ne; [done|]. intros ->. congruence.
Qed.

Lemma calm_write_db p d : calm {[p]} (write_db p d).
Proof.
  intros w Hok HL. destruct (live_db_box w p Hok HL) as [d0 Hd].
  exists tt, (set_t_boxes (<[p := BDb d]> (t_boxes w)) w). unfold write_db. rewrite Hd.
  split; [done|]. split; [by eapply ok_write_db|]. split; [done|]. split; [done|]. cbn.
  apply dom_insert_lookup_L. eauto.
Qed.

Lemma calm_set_err_str p msg : calm {[p]} (set_err_str p msg).
Proof.
  apply calm_bind; [apply calm_read_db|]. intros d. apply calm_bind; [apply calm_write_db|].
  intros _. apply calm_set_global_err.
Qed.

Lemma calm_clear_err p : calm {[p]} (clear_err p).
Proof.
  apply calm_bind; [apply calm_read_db|]. intros d. apply calm_bind; [apply calm_write_db|].
  intros _. apply calm_clear_global_err.
Qed.

(** The test of the registry gives the right to follow the pointer. *)
Lemma calm_if_live {A} L p (k : bool -> TM A) :
  calm ({[p]} ∪ L) (k true) -> calm L (k false) -> calm L (let! b := is_live_db p in k b).
Proof.
  intros Ht Hf w Hok HL. unfold is_live_db. rewrite bind_gets.
  destruct (negb (p =? 0)); cbn [andb]; [|by apply Hf].
  destruct (decide (p ∈ LIVE_DBS w)) as [Hin|Hin].
  - rewrite bool_decide_true by done. apply Ht; [done|set_solver].
  - rewrite bool_decide_false by done. by apply Hf.
Qed.

Lemma calm_weaken {A} L L' (m : TM A) : calm L m -> L ⊆ L' -> calm L' m.
Proof. intros Hm HL w Hok H. apply Hm; [done|set_solver]. Qed.

Lemma calm_report L db e : calm L (report db e).
Proof.
  unfold report. apply calm_if_live; [|apply calm_set_global_err].
  eapply calm_weaken; [apply calm_set_err_str|set_solver].
Qed.

Lemma calm_report_db L db e : calm L (report_db db e).
Proof.
  unfold report_db. apply calm_if_live; [|apply calm_ret].
  eapply calm_weaken; [apply calm_set_err_str|set_solver].
Qed.

Lemma calm_finish L db r : calm L (finish db r).
Proof. destruct r; cbn; [|apply calm_ret]. apply calm_bind; [apply calm_report|intros; apply calm_ret]. Qed.

Lemma calm_stmt_mut L p : calm L (stmt_mut p).
Proof.
  intros w Hok HL. unfold stmt_mut, is_live_stmt. rewrite bind_gets.
  destruct (negb (p =? 0)); cbn [andb]; [|by apply (calm_ret L None)].
  destruct (decide (p ∈ LIVE_STMTS w)) as [Hin|Hin]; [|rewrite bool_decide_false by done; by apply (calm_ret L None)].
  rewrite bool_decide_true by done. cbn [negb]. apply (tok_stmts _ Hok) in Hin as [s Hs].
  rewrite (bind_Ret _ _ w s w) by (unfold read_stmt; by rewrite Hs).
  unfold is_live_db. rewrite bind_gets. by apply (calm_ret L).
Qed.

Lemma calm_with_stmt {A} L p msg (none : A) k :
  (forall s, calm L (k s)) -> calm L (with_stmt p msg none k).
Proof.
  intros Hk. apply calm_bind; [apply calm_stmt_mut|]. intros [s|]; [apply Hk|].
  apply calm_bind; [apply calm_set_global_err|intros; apply calm_ret].
Qed.

Lemma calm_fail_global L msg : calm L (fail_global msg).
Proof. apply calm_bind; [apply calm_set_global_err|intros; apply calm_ret]. Qed.

End Ffi.
Create HintDb calm.
#[export] Hint Resolve calm_ret calm_gets calm_eng calm_set_global_err calm_clear_global_err calm_report
  calm_report_db calm_finish calm_fail_global : calm.
Ltac calm_step :=
  first [ solve [auto 2 with calm]
        | apply calm_with_stmt; intros ?
        | apply calm_bind; [|intros ?]
        | match goal with
          | |- calm _ (if ?b then _ else _) => destruct b
          | |- calm _ (match ?x with _ => _ end) => destruct x
          end ].
Ltac calm_tac := repeat calm_step.

Section Safety.
Context {turso : Turso} {alloc : TursoAlloc}.

(** Preparing the first statement of a script consumes part of it, up to a
    character boundary. *)
Definition engine_ok : Prop :=
  forall c s e st tail e', prepare_first c s e = (inl (Some (st, tail)), e') ->
    (0 < tail)%nat /\ ((tail < str_len s)%nat -> utf8_valid (drop tail (as_bytes s)) = true).

Hypothesis engine : engine_ok.
Hypothesis fresh : turso_alloc_ok.

Lemma calm_exec_loop L c fuel : forall s, (str_len s <= fuel)%nat -> calm L (exec_loop fuel c s).
Proof.
  clear fresh. induction fuel as [|fuel IH]; intros s Hs; cbn [exec_loop].
  - assert (s = empty_str) as -> by (apply str_len_0; lia). apply calm_ret.
  - destruct (trim_is_empty s); [apply calm_ret|]. intros w Hok HL. unfold eng at 1. unfold bind at 1.
    destruct (prepare_first c s (t_engine w)) as [r e1] eqn:E.
    assert (turso_ok (set_t_engine e1 w)) as Hok1 by by destruct Hok.
    change (LIVE_DBS w) with (LIVE_DBS (set_t_engine e1 w)) in HL.
    enough (forall m : TM (option string), calm L m -> exists a w',
      m (set_t_engine e1 w) = Ret a w' /\ turso_ok w' /\ same_live w w') as Hm.
    { apply Hm. destruct r as [[[st tail]|]|err]; [|apply calm_ret|apply calm_ret].
      destruct (engine _ _ _ _ _ _ E) as [H0 Hutf].
      apply calm_bind; [apply calm_eng|]. intros [[]|]; try solve [calm_tac].
      apply calm_bind; [apply calm_eng|]. intros [[]|]; try solve [calm_tac].
      destruct (Nat.leb_spec (str_len s) tail); [apply calm_ret|]. rewrite Hutf by done. apply IH.
      unfold str_len in *. rewrite as_bytes_of_bytes, length_drop. lia. }
    intros m Hm. exact (Hm _ Hok1 HL).
Qed.

Definition fine {A} (m : TM A) : Prop :=
  forall w, turso_ok w -> no_leak w -> exists a w', m w = Ret a w' /\ turso_ok w' /\ no_leak w'.

Lemma no_leak_same w w' : same_live w w' -> no_leak w -> no_leak w'.
Proof. unfold no_leak. intros (-> & -> & ->). done. Qed.

Lemma fine_calm {A} (m : TM A) : calm ∅ m -> fine m.
Proof.
  intros Hm w Hok Hl. destruct (Hm w Hok) as (a & w' & E & Hok' & Hs); [set_solver|].
  exists a, w'. eauto using no_leak_same.
Qed.

Lemma fine_bind {A B} (m : TM A) (k : A -> TM B) : fine m -> (forall a, fine (k a)) -> fine (bind m k).
Proof.
  intros Hm Hk w Hok Hl. destruct (Hm w Hok Hl) as (a & w1 & E & Hok1 & Hl1).
  destruct (Hk a w1 Hok1 Hl1) as (b & w2 & E2 & Hok2 & Hl2).
  exists b, w2. by rewrite (bind_Ret _ _ _ _ _ E).
Qed.

Lemma calm_exec db sql : calm ∅ (turso_ffi_exec db sql).
Proof.
  unfold turso_ffi_exec, db_mut. apply calm_if_live; cbn [negb]; [|apply calm_fail_global].
  eapply (calm_weaken {[db]}); [|set_solver].
  destruct (cstr_to_str sql) as [s|e].
  - apply calm_bind; [apply calm_read_db|]. intros d.
    apply calm_bind; [by apply calm_exec_loop|]. intros [e|]; (apply calm_bind; [|intros; apply calm_ret]).
    + apply calm_set_err_str.
    + apply calm_clear_err.
  - apply calm_bind; [apply calm_set_err_str|intros; apply calm_ret].
Qed.

Lemma calm_bind_bytes L text len : len <= Z.of_nat (length text) -> calm L (bind_bytes text len).
Proof.
  intros Hlen. unfold bind_bytes. destruct (len <? 0); [apply calm_ret|].
  destruct (Z.ltb_spec (Z.of_nat (length text)) len); [lia|apply calm_ret].
Qed.

Lemma calm_column_text p idx : calm ∅ (turso_ffi_column_text p idx).
Proof.
  unfold turso_ffi_column_text, column_string. destruct (idx <? 0); [calm_tac|].
  apply calm_with_stmt. intros s. apply calm_bind; [calm_tac|]. intros [t|]; [|calm_tac].
  apply calm_if_live; cbn [negb]; [|calm_tac]. eapply (calm_weaken {[s_db s]}); [|set_solver].
  apply calm_bind; [apply calm_read_db|]. intros d.
  apply calm_bind; [apply calm_write_db|intros; apply calm_ret].
Qed.

Lemma calm_errmsg p : calm ∅ (turso_ffi_errmsg p).
Proof.
  unfold turso_ffi_errmsg. apply calm_if_live; [|apply calm_gets].
  eapply (calm_weaken {[p]}); [|set_solver]. apply calm_bind; [apply calm_read_db|intros; apply calm_ret].
Qed.

(** A new box, registered at once. *)
Lemma fresh_box w : turso_ok w ->
  t_boxes w !! turso_fresh (dom (t_boxes w)) = None /\ turso_fresh (dom (t_boxes w)) <> 0.
Proof. intros Hok. destruct (fresh (dom (t_boxes w))) as [H ?]. split; [by apply not_elem_of_dom|done]. Qed.

Lemma fine_new_db d : fine (let! raw := box_new (BDb d) in register_db raw ;; ret (TURSO_FFI_OK, raw)).
Proof.
  intros w Hok Hl. destruct (fresh_box w Hok) as [Hn H0]. set (a := turso_fresh (dom (t_boxes w))) in *.
  eexists _, _. split; [done|]. destruct Hok. split; [split; cbn; fold a|].
  - intros p. rewrite elem_of_union, elem_of_singleton.
    destruct (decide (a = p)) as [<-|]; [rewrite lookup_insert_eq; eauto|].
    rewrite lookup_insert_ne by done. intros [|]; [congruence|auto].
  - intros p Hp. destruct (tok_stmts0 p Hp) as [s Hs]. exists s. rewrite lookup_insert_ne; [done|congruence].
  - by rewrite lookup_insert_ne.
  - unfold no_leak in *. cbn. fold a. rewrite dom_insert_L, Hl. set_solver.
Qed.

Lemma fine_new_stmt s : fine (let! raw := box_new (BStmt s) in register_stmt raw ;; ret (TURSO_FFI_OK, raw)).
Proof.
  intros w Hok Hl. destruct (fresh_box w Hok) as [Hn H0]. set (a := turso_fresh (dom (t_boxes w))) in *.
  eexists _, _. split; [done|]. destruct Hok. split; [split; cbn; fold a|].
  - intros p Hp. destruct (tok_dbs0 p Hp) as [d Hd]. exists d. rewrite lookup_insert_ne; [done|congruence].
  - intros p. rewrite elem_of_union, elem_of_singleton.
    destruct (decide (a = p)) as [<-|]; [rewrite lookup_insert_eq; eauto|].
    rewrite lookup_insert_ne by done. intros [|]; [congruence|auto].
  - by rewrite lookup_insert_ne.
  - unfold no_leak in *. cbn. fold a. rewrite dom_insert_L, Hl. set_solver.
Qed.

Lemma fine_open path out : fine (turso_ffi_open path out).
Proof.
  unfold turso_ffi_open. destruct out; cbn [negb]; [|apply fine_calm; calm_tac].
  destruct (cstr_to_str path) as [p|e]; [|apply fine_calm; calm_tac].
  apply fine_bind; [apply fine_calm; calm_tac|]. intros [conn|e]; [|apply fine_calm; calm_tac].
  apply fine_bind; [apply fine_calm; calm_tac|]. intros _. apply fine_new_db.
Qed.

(** A calm start with a right, then anything fine. *)
Lemma calm_then_fine {A B} L (m : TM A) (k : A -> TM B) w :
  calm L m -> (forall a, fine (k a)) -> turso_ok w -> no_leak w -> L ⊆ LIVE_DBS w ->
  exists b w', bind m k w = Ret b w' /\ turso_ok w' /\ no_leak w'.
Proof.
  intros Hm Hk Hok Hl HL. destruct (Hm w Hok HL) as (a & w1 & E & Hok1 & Hs).
  rewrite (bind_Ret _ _ _ _ _ E). apply Hk; [done|]. by eapply no_leak_same.
Qed.

Lemma fine_prepare db sql out : fine (turso_ffi_prepare db sql out).
Proof.
  unfold turso_ffi_prepare. destruct out; cbn [negb]; [|apply fine_calm; calm_tac].
  intros w Hok Hl. unfold db_mut, is_live_db. rewrite bind_gets.
  assert (fine (let! r := fail_global "prepare: null or closed db" in ret (r, 0))) as Hfail by (apply fine_calm; calm_tac).
  destruct (negb (db =? 0)); cbn [andb negb]; [|by apply Hfail].
  destruct (decide (db ∈ LIVE_DBS w)) as [Hin|Hin]; [rewrite bool_decide_true by done
    |rewrite bool_decide_false by done; by apply Hfail]. cbn [negb].
  assert ({[db]} ⊆ LIVE_DBS w) as HL by set_solver.
  destruct (cstr_to_str sql) as [s|e].
  - apply (tok_dbs _ Hok) in Hin as [d Hd].
    rewrite (bind_Ret _ _ w d w) by (unfold read_db; by rewrite Hd).
    destruct (calm_eng {[db]} (prepare_single (db_conn d) s) w Hok HL) as (r & w1 & E1 & Hok1 & Hs1).
    rewrite (bind_Ret _ _ _ _ _ E1).
    assert ({[db]} ⊆ LIVE_DBS w1) as HL1 by by rewrite (proj1 Hs1).
    pose proof (no_leak_same _ _ Hs1 Hl) as Hl1. destruct r as [st|e].
    + apply (calm_then_fine {[db]}); auto using calm_clear_err, fine_new_stmt.
    + apply (calm_then_fine {[db]}); auto using calm_set_err_str. intros _. apply fine_calm, calm_ret.
  - apply (calm_then_fine {[db]}); auto using calm_set_err_str. intros _. apply fine_calm, calm_ret.
Qed.

(** Freeing the box of a handle that is no longer registered. *)
Lemma take_box w p : turso_ok w -> p ∉ LIVE_DBS w -> p ∉ LIVE_STMTS w -> turso_ok (set_t_boxes (delete p (t_boxes w)) w).
Proof.
  intros [] Hd Hs. split; cbn.
  - intros q Hq. rewrite lookup_delete_ne by set_solver. auto.
  - intros q Hq. rewrite lookup_delete_ne by set_solver. auto.
  - apply lookup_delete_None. by right.
Qed.

Lemma ok_shrink w dbs stmts : turso_ok w -> dbs ⊆ LIVE_DBS w -> stmts ⊆ LIVE_STMTS w ->
  turso_ok (set_t_stmts stmts (set_t_dbs dbs w)).
Proof. intros [] ? ?. split; cbn; auto. Qed.

(** The end of close and finalize: a calm report, then the box is freed. *)
Lemma calm_then_take {A B} (m : TM A) (b : A -> B) w p :
  calm ∅ m -> turso_ok w -> p ∉ LIVE_DBS w -> p ∉ LIVE_STMTS w ->
  dom (t_boxes w) = {[p]} ∪ (LIVE_DBS w ∪ LIVE_STMTS w) ->
  exists c w', (let! a := m in box_take p ;; ret (b a)) w = Ret c w' /\ turso_ok w' /\ no_leak w'.
Proof.
  intros Hm Hok Hd Hs Hdom. destruct (Hm w Hok) as (a & w1 & E & Hok1 & H1 & H2 & H3); [set_solver|].
  rewrite (bind_Ret _ _ _ _ _ E).
  assert (is_Some (t_boxes w1 !! p)) as [x Hx] by (apply elem_of_dom; rewrite H3, Hdom; set_solver).
  exists (b a), (set_t_boxes (delete p (t_boxes w1)) w1). split; [by unfold box_take, bind; rewrite Hx|]. split.
  - apply take_box; [done|congruence|congruence].
  - unfold no_leak. cbn. rewrite dom_delete_L, H3, H1, H2, Hdom. set_solver.
Qed.

Lemma not_both w p : turso_ok w -> p ∈ LIVE_DBS w -> p ∈ LIVE_STMTS w -> False.
Proof. intros [] Hd Hs. apply tok_dbs0 in Hd as [d Hd]. apply tok_stmts0 in Hs as [s Hs]. congruence. Qed.

Lemma fine_close p : fine (turso_ffi_close p).
Proof.
  intros w Hok Hl. unfold turso_ffi_close, unregister_db, bind at 1.
  destruct (decide (p ∈ LIVE_DBS w)) as [Hin|Hin].
  - rewrite bool_decide_true by done. cbn [negb]. pose proof (not_both w p Hok Hin) as Hns.
    destruct (tok_dbs _ Hok p Hin) as [d Hd]. set (w0 := set_t_dbs (LIVE_DBS w ∖ {[p]}) w).
    rewrite (bind_Ret _ _ w0 d w0) by (unfold read_db; cbn; by rewrite Hd).
    assert (turso_ok w0) as Hok0 by (destruct (ok_shrink w (LIVE_DBS w ∖ {[p]}) (LIVE_STMTS w) Hok); [set_solver..|by split]).
    set (m := let! r := eng (conn_close (db_conn d)) in
              (match r with None => clear_global_err | Some e => set_global_err e end) ;; ret r).
    destruct (calm_then_take m (fun r => match r with None => TURSO_FFI_OK | Some _ => TURSO_FFI_ERR end) w0 p)
      as (c & w' & E & H1 & H2); [unfold m; calm_tac|done|cbn; set_solver|cbn; set_solver| |].
    { cbn. rewrite Hl. assert (LIVE_DBS w = {[p]} ∪ LIVE_DBS w ∖ {[p]}) as E by by apply union_difference_singleton_L.
      rewrite E at 1. set_solver. }
    exists c, w'. split; [|done]. rewrite <- E. unfold m, bind, ret. destruct (eng _ w0) as [[r|] ?| | |]; reflexivity.
  - rewrite bool_decide_false by done. cbn [negb].
    assert (set_t_dbs (LIVE_DBS w ∖ {[p]}) w = w) as ->
      by (rewrite difference_disjoint_L by set_solver; by destruct w).
    by apply (fine_calm _ (calm_fail_global ∅ _)).
Qed.

Lemma fine_finalize p : fine (turso_ffi_finalize p).
Proof.
  intros w Hok Hl. unfold turso_ffi_finalize, unregister_stmt, bind at 1.
  destruct (decide (p ∈ LIVE_STMTS w)) as [Hin|Hin].
  - rewrite bool_decide_true by done. cbn [negb].
    assert (p ∉ LIVE_DBS w) as Hnd by (intros ?; by eapply not_both).
    destruct (tok_stmts _ Hok p Hin) as [s Hs]. set (w0 := set_t_stmts (LIVE_STMTS w ∖ {[p]}) w).
    rewrite (bind_Ret _ _ w0 s w0) by (unfold read_stmt; cbn; by rewrite Hs).
    assert (turso_ok w0) as Hok0 by (destruct (ok_shrink w (LIVE_DBS w) (LIVE_STMTS w ∖ {[p]}) Hok); [set_solver..|by split]).
    unfold bind at 1. destruct (eng (st_finalize (s_stmt s)) w0) as [r w1| | |] eqn:E1;
      [|by unfold eng in E1; destruct (st_finalize _ _)..].
    destruct (calm_eng ∅ (st_finalize (s_stmt s)) w0 Hok0) as (r' & w1' & E1' & Hok1 & H1 & H2 & H3); [set_solver|].
    rewrite E1 in E1'. injection E1' as <- <-.
    apply (calm_then_take _ id); [destruct r as [[]|]; calm_tac|done|rewrite H1; cbn; set_solver|rewrite H2; cbn; set_solver|].
    rewrite H3, H1, H2. cbn. rewrite Hl.
    assert (LIVE_STMTS w = {[p]} ∪ LIVE_STMTS w ∖ {[p]}) as E by by apply union_difference_singleton_L.
    rewrite E at 1. set_solver.
  - rewrite bool_decide_false by done. cbn [negb].
    assert (set_t_stmts (LIVE_STMTS w ∖ {[p]}) w = w) as ->
      by (rewrite difference_disjoint_L by set_solver; by destruct w).
    by apply (fine_calm _ (calm_fail_global ∅ _)).
Qed.

(** ** Every sequence of calls *)

Inductive TCall :=
| TOpen (path : CStrArg) (out : bool)
| TClose (db : Z)
| TExec (db : Z) (sql : CStrArg)
| TPrepare (db : Z) (sql : CStrArg) (out : bool)
| TBindInt (stmt idx value : Z)
| TBindText (stmt idx : Z) (text : CStrArg) (len : Z)
| TStep (stmt : Z)
| TReset (stmt : Z)
| TFinalize (stmt : Z)
| TErrmsg (db : Z)
| TColumnInt (stmt idx : Z)
| TColumnText (stmt idx : Z).

Definition ignore {A} (m : TM A) : TM unit := m ;; ret tt.

Definition call_turso (c : TCall) : TM unit :=
  match c with
  | TOpen path out => ignore (turso_ffi_open path out)
  | TClose db => ignore (turso_ffi_close db)
  | TExec db sql => ignore (turso_ffi_exec db sql)
  | TPrepare db sql out => ignore (turso_ffi_prepare db sql out)
  | TBindInt p i v => ignore (turso_ffi_bind_int p i v)
  | TBindText p i t n => ignore (turso_ffi_bind_text p i t n)
  | TStep p => ignore (turso_ffi_step p)
  | TReset p => ignore (turso_ffi_reset p)
  | TFinalize p => ignore (turso_ffi_finalize p)
  | TErrmsg db => ignore (turso_ffi_errmsg db)
  | TColumnInt p i => ignore (turso_ffi_column_int p i)
  | TColumnText p i => ignore (turso_ffi_column_text p i)
  end.

(** The one part of the contract left to the caller: text of a given length has
    that many bytes. *)
Definition text_readable (c : TCall) : Prop :=
  match c with TBindText _ _ (Some text) len => len <= Z.of_nat (length text) | _ => True end.

Lemma fine_ignore {A} (m : TM A) : fine m -> fine (ignore m).
Proof. intros Hm. apply fine_bind; [done|]. intros _. apply fine_calm, calm_ret. Qed.

Lemma calm_bind_text p i t n : text_readable (TBindText p i t n) -> calm ∅ (turso_ffi_bind_text p i t n).
Proof.
  intros Ht. unfold turso_ffi_bind_text. destruct t as [text|]; [|calm_tac].
  destruct (i <=? 0); [calm_tac|]. apply calm_with_stmt. intros s.
  apply calm_bind; [by apply calm_bind_bytes|]. intros [t|e]; calm_tac.
Qed.

Lemma fine_call c : text_readable c -> fine (call_turso c).
Proof.
  intros Ht. destruct c; cbn [call_turso]; apply fine_ignore;
    eauto using fine_open, fine_close, fine_prepare, fine_finalize; apply fine_calm;
    eauto using calm_exec, calm_bind_text, calm_errmsg, calm_column_text.
  - unfold turso_ffi_bind_int. calm_tac.
  - unfold turso_ffi_step. calm_tac.
  - unfold turso_ffi_reset. calm_tac.
  - unfold turso_ffi_column_int. calm_tac.
Qed.

Lemma fine_calls cs : Forall text_readable cs -> fine (for_each cs call_turso).
Proof.
  induction 1 as [|c cs Hc Hcs IH]; cbn [for_each]; [apply fine_calm, calm_ret|].
  apply fine_bind; [by apply fine_call|]. intros _. exact IH.
Qed.

(** C35: whatever pointers the caller passes (null, closed, finalized, foreign
    or stale), every sequence of calls returns: no dangling pointer is followed,
    nothing is freed twice, the registered handles have their boxes and every
    box is registered, so that closing and finalising frees everything. *)
Theorem turso_handles_safe w cs :
  turso_ok w -> no_leak w -> Forall text_readable cs ->
  exists w', for_each cs call_turso w = Ret tt w' /\ turso_ok w' /\ no_leak w'.
Proof.
  intros Hok Hl Hcs. destruct (fine_calls cs Hcs w Hok Hl) as ([] & w' & E & Hok' & Hl'). eauto.
Qed.

(** ** Error reporting *)

Lemma exec_reports db p sql w d :
  turso_ok w -> t_boxes w !! db = Some (BDb d) -> db ∈ LIVE_DBS w -> p = Some (as_bytes sql) -> is_str sql = true ->
  exists code w', turso_ffi_exec db p w = Ret code w' /\
    match code with
    | 0 => turso_ffi_errmsg db w' = Ret empty_str w' /\ LAST_GLOBAL_ERR w' = (empty_str, empty_str)
    | _ => code = TURSO_FFI_ERR /\ exists e, turso_ffi_errmsg db w' = Ret (no_nul e) w' /\ LAST_GLOBAL_ERR w' = (e, no_nul e)
    end.
Proof.
  clear fresh. intros Hok Hd Hin -> Hs. assert (db <> 0) as H0 by (intros ->; rewrite (tok_null _ Hok) in Hd; done).
  unfold turso_ffi_exec, db_mut, is_live_db. rewrite bind_gets.
  destruct (Z.eqb_spec db 0); [done|]. rewrite bool_decide_true by done. cbn [negb andb].
  unfold cstr_to_str. rewrite from_utf8_as_bytes by done.
  rewrite (bind_Ret _ _ w d w) by (unfold read_db; by rewrite Hd).
  destruct (calm_exec_loop {[db]} (db_conn d) (str_len sql) sql (le_n _) w Hok) as (r & w1 & E & Hok1 & Hs1); [set_solver|].
  unfold exec_sql. rewrite (bind_Ret _ _ _ _ _ E).
  assert (db ∈ LIVE_DBS w1) as Hin1 by (rewrite (proj1 Hs1); done).
  destruct (tok_dbs _ Hok1 db Hin1) as [d1 Hd1].
  assert (forall d2 g, turso_ffi_errmsg db (set_t_err g (set_t_boxes (<[db := BDb d2]> (t_boxes w1)) w1)) =
            Ret (db_errmsg_c d2) (set_t_err g (set_t_boxes (<[db := BDb d2]> (t_boxes w1)) w1))) as Hmsg.
  { intros d2 g. unfold turso_ffi_errmsg, is_live_db. rewrite bind_gets. cbn.
    destruct (Z.eqb_spec db 0); [done|]. rewrite bool_decide_true by done. cbn [negb andb].
    unfold read_db, bind. cbn. by rewrite lookup_insert_eq. }
  destruct r as [e|].
  - eexists TURSO_FFI_ERR, _. split.
    { unfold set_err_str, read_db, write_db, bind. rewrite Hd1. cbn. rewrite Hd1. reflexivity. }
    split; [done|]. exists e. by rewrite Hmsg.
  - eexists TURSO_FFI_OK, _. split.
    { unfold clear_err, read_db, write_db, bind. rewrite Hd1. cbn. rewrite Hd1. reflexivity. }
    by rewrite Hmsg.
Qed.

(** Executing a script on a live database terminates, whatever the script;
    on success the error slots are empty, on failure the database's slot and
    the global one hold the error of the failing statement. *)
Theorem turso_exec_terminates w db sql :
  turso_ok w -> db ∈ LIVE_DBS w -> is_str sql = true ->
  exists code w', turso_ffi_exec db (Some (as_bytes sql)) w = Ret code w' /\
    match code with
    | 0 => turso_ffi_errmsg db w' = Ret empty_str w' /\ LAST_GLOBAL_ERR w' = (empty_str, empty_str)
    | _ => code = TURSO_FFI_ERR /\ exists e, turso_ffi_errmsg db w' = Ret (no_nul e) w' /\ LAST_GLOBAL_ERR w' = (e, no_nul e)
    end.
Proof. intros Hok Hin Hs. destruct (tok_dbs _ Hok db Hin) as [d Hd]. by eapply exec_reports. Qed.

End Safety.

(** ** A small engine

    Statements end in a semicolon; one that starts with [x] fails.  The state
    counts the statements prepared and finalised. *)
Module TursoDemo.

Fixpoint semi (l : list byte) : option nat :=
  match l with
  | [] => None
  | b :: l => if bool_decide (b = ";"%byte) then Some 1%nat else S <$> semi l
  end.

#[export] Instance toy : Turso := {|
  Engine := nat * nat;
  Conn := unit;
  TursoStatement := bool;
  TFloat := unit;
  TBlob := unit;
  db_open p e := (if bool_decide (p = empty_str) then inr "no path"%string else inl tt, e);
  conn_close _ e := (None, e);
  prepare_first _ s e :=
    if forallb (fun b => byteZ b <=? 0x7F) (as_bytes s) then
      match semi (as_bytes s) with
      | Some n => (inl (Some (bool_decide (head (as_bytes s) = Some "x"%byte), n)), (S e.1, e.2))
      | None => (inr "incomplete"%string, e)
      end
    else (inr "not ascii"%string, e);
  prepare_single _ s e := (inl (bool_decide (head (as_bytes s) = Some "x"%byte)), (S e.1, e.2));
  st_execute bad e := (if bad then inr "bad statement"%string else inl StDone, e);
  st_step bad e := (if bad then inr "bad statement"%string else inl StRow, e);
  st_reset _ e := (None, e);
  st_finalize _ e := (inl StDone, (e.1, S e.2));
  st_bind _ i _ e := (if i <=? 3 then None else Some "no such parameter"%string, e);
  row_value _ i _ := if i =? 0 then inl (VInteger 7) else inl (VText "seven");
  float_as_i64 _ := 0;
  float_to_string _ := "0"%string;
  status_debug _ := "Io"%string;
  utf8_error _ := "invalid utf-8"%string
|}.

#[export] Instance toy_alloc : TursoAlloc := fun X => 1 + set_fold Z.max 0 X.

Lemma toy_alloc_ok : turso_alloc_ok.
Proof.
  intros X. unfold turso_fresh, toy_alloc.
  assert (0 <= set_fold Z.max 0 X /\ forall x, x ∈ X -> x <= set_fold Z.max 0 X) as [H0 Hx].
  { apply (set_fold_ind_L (fun r X => 0 <= r /\ forall x, x ∈ X -> x <= r)).
    - split; [lia|]. set_solver.
    - intros x Y r Hn [Hr Hy]. split; [lia|]. intros y [->%elem_of_singleton|Hin%Hy]%elem_of_union; lia. }
  split; [|lia]. intros Hin%Hx. lia.
Qed.

Lemma toy_engine_ok : engine_ok.
Proof.
  intros c s e st tail e'. unfold prepare_first, toy.
  destruct (forallb _ _) eqn:Ha; [|done]. destruct (semi (as_bytes s)) as [n|] eqn:Hn; [|done].
  intros [= _ <- _]. split.
  - destruct (as_bytes s) as [|b l]; cbn in Hn; [done|]. case_bool_decide; [simplify_eq; lia|].
    destruct (semi l); cbn in Hn; [simplify_eq; lia|done].
  - intros _. apply ascii_utf8. apply Forall_drop. apply Forall_forall. intros b Hb.
    rewrite forallb_forall in Ha. apply Z.leb_le, Ha. by apply list_elem_of_In.
Qed.

Definition toy_start : TWorld := mkTW (empty_str, empty_str) ∅ ∅ ∅ (0, 0)%nat.

Lemma toy_start_ok : turso_ok toy_start /\ no_leak toy_start.
Proof. split; [split; [set_solver|set_solver|done]|]. unfold no_leak. cbn. set_solver. Qed.

(** A statement used after its database was closed, twice freed handles, a
    foreign pointer. *)
Definition rough_calls : list TCall :=
  [TOpen (Some (as_bytes "f.db")) true; TPrepare 1 (Some (as_bytes "select;")) true; TStep 2; TClose 1;
   TStep 2; TColumnText 2 0; TClose 1; TFinalize 2; TFinalize 2; TErrmsg 77; TBindText 2 1 (Some (as_bytes "ab")) 2].

Lemma turso_handles_safe_witness :
  exists w', for_each rough_calls call_turso toy_start = Ret tt w' /\ turso_ok w' /\ no_leak w'.
Proof.
  apply (turso_handles_safe toy_engine_ok toy_alloc_ok); [apply toy_start_ok|apply toy_start_ok|].
  unfold rough_calls. repeat (constructor; [first [exact I|vm_compute; discriminate]|]). constructor.
Defined.

Definition toy_open : TWorld :=
  mkTW (empty_str, empty_str) {[1]} ∅ {[1 := BDb (mkDb (tt : @Conn toy) empty_str empty_str empty_str)]} (0, 0)%nat.

Lemma toy_open_ok : turso_ok toy_open.
Proof. split; cbn; [intros p ->%elem_of_singleton; eauto using lookup_singleton_eq|set_solver|done]. Qed.

(** The code of a call and the message of database 1 after it. *)
Definition outcome (r : Res TWorld Z) : option (Z * string) :=
  match r with
  | Ret code w => match turso_ffi_errmsg 1 w with Ret m _ => Some (code, m) | _ => None end
  | _ => None
  end.

Lemma turso_exec_terminates_witness :
  exists w', turso_ffi_exec 1 (Some (as_bytes "a;x;b;")) toy_open = Ret TURSO_FFI_ERR w' /\
    turso_ffi_errmsg 1 w' = Ret "bad statement"%string w'.
Proof.
  destruct (turso_exec_terminates toy_engine_ok toy_open 1 "a;x;b;" toy_open_ok) as (code & w' & E & H);
    [apply elem_of_singleton; reflexivity|reflexivity|].
  assert (outcome (turso_ffi_exec 1 (Some (as_bytes "a;x;b;")) toy_open) = Some (TURSO_FFI_ERR, "bad statement"%string)) as Ho
    by (vm_compute; reflexivity).
  rewrite E in Ho. cbn [outcome] in Ho.
  assert (code = TURSO_FFI_ERR) as -> by (destruct (turso_ffi_errmsg 1 w'); congruence).
  destruct H as (_ & e & Em & _). rewrite Em in Ho. injection Ho as He.
  exists w'. split; [exact E|]. rewrite Em, He. reflexivity.
Defined.

End TursoDemo.
