(* ===== verification/BundleCrypto.v ===== *)
(** * Sealed script bundles

    [libverilua/src/utils/bundle_crypto.rs]: key material, the envelope
    [VLBC | ver | nonce | tag | ciphertext] and the two exported functions with
    their output buffer protocol.  AES-256-GCM and SHA-256 are parameters; the
    nonce the random generator draws is an argument.  The theorems: what is
    sealed is unsealed, exactly the sealed blobs are accepted, the buffer
    protocol, and the two readings of the key text. *)

From S2P Require Import Prelude Bytes.
#[local] Open Scope Z_scope.

Class BundleCrates := {
  gcm_encrypt : list byte -> list byte -> list byte -> list byte * list byte;          (* key nonce plain: body, tag *)
  gcm_decrypt : list byte -> list byte -> list byte -> list byte -> option (list byte); (* key nonce body tag *)
  sha256 : list byte -> list byte
}.

Definition MAGIC : list byte := ["V"; "L"; "B"; "C"]%byte.
Definition VERSION : byte := x01.
Definition NONCE_LEN : nat := 12.
Definition TAG_LEN : nat := 16.
Definition HEADER_LEN : nat := 4 + 1 + NONCE_LEN + TAG_LEN.
Definition VL_BUNDLE_OK : Z := 0.
Definition VL_BUNDLE_ERR_NO_KEY : Z := -1.
Definition VL_BUNDLE_ERR_ARGS : Z := -2.
Definition VL_BUNDLE_ERR_BUF : Z := -3.
Definition VL_BUNDLE_ERR_FORMAT : Z := -4.
Definition VL_BUNDLE_ERR_AUTH : Z := -5.

Definition sealed_len (plain_len : nat) : nat := HEADER_LEN + plain_len.

(** [u8::from_str_radix(s, 16)] of a slice: an optional plus sign, then digits;
    the value must fit a byte. *)
Definition u8_from_hex (s : list byte) : option byte :=
  let digits := match s with b :: r => if bool_decide (b = "+"%byte) then r else s | [] => [] end in
  if (length digits =? 0)%nat then None
  else if forallb (fun b => match hex_digit b with Some _ => true | None => false end) digits
       then if hex_value digits <? 256 then Some (Zbyte (hex_value digits)) else None
       else None.

(** The loop over [i < 32] of the slices [hex[2 i .. 2 i + 2]]. *)
Fixpoint hex_pairs (n : nat) (hex : list byte) : option (list byte) :=
  match n with
  | O => Some []
  | S n =>
      match u8_from_hex (take 2 hex) with
      | Some b => match hex_pairs n (drop 2 hex) with Some k => Some (b :: k) | None => None end
      | None => None
      end
  end.

Definition parse_raw_hex64 (hex : list byte) : list byte + string :=
  match hex_pairs 32 hex with
  | Some key => inl key
  | None => inr "VL_BUNDLE_KEY_HEX raw key must be hexadecimal"%string
  end.

Definition is_ascii_hexdigit (b : byte) : bool := match hex_digit b with Some _ => true | None => false end.

Section Bundle.
Context {crates : BundleCrates}.

Definition parse_key_material (input : list byte) : list byte + string :=
  let input := trim input in
  if (length input =? 0)%nat then inr "VL_BUNDLE_KEY_HEX is empty"%string
  else if (length input =? 64)%nat && forallb is_ascii_hexdigit input then parse_raw_hex64 input
  else inl (sha256 input).

(** The environment variable at compile time: [None] when unset. *)
Definition compiled_key (raw : option (list byte)) : Res unit (option (list byte)) :=
  match raw with
  | None => Ret None tt
  | Some raw => match parse_key_material raw with inl k => Ret (Some k) tt | inr e => Panic e tt end
  end.

Definition seal_with_key (key nonce plain : list byte) : list byte :=
  let '(body, tag) := gcm_encrypt key nonce plain in
  MAGIC ++ [VERSION] ++ nonce ++ tag ++ body.

Definition unseal_with_key (key blob : list byte) : list byte + Z :=
  if (length blob <? HEADER_LEN)%nat then inr VL_BUNDLE_ERR_FORMAT
  else if negb (bool_decide (take 4 blob = MAGIC)) then inr VL_BUNDLE_ERR_FORMAT
  else if negb (bool_decide (head (drop 4 blob) = Some VERSION)) then inr VL_BUNDLE_ERR_FORMAT
  else
    let nonce := take NONCE_LEN (drop 5 blob) in
    let tag := take TAG_LEN (drop (5 + NONCE_LEN) blob) in
    let body := drop HEADER_LEN blob in
    match gcm_decrypt key nonce body tag with
    | Some plain => inl plain
    | None => inr VL_BUNDLE_ERR_AUTH
    end.

(** The caller's buffers: [output] is null or a buffer whose content is given,
    [output_len] is null or the cell it points to. *)
Record Out := mkOut { output : option (list byte); output_len : option nat }.

(** [ptr::copy_nonoverlapping] to the start of the buffer; past its end it is
    undefined. *)
Definition copy_out (src : list byte) (output_cap : nat) : M Out Z := fun o =>
  match output_len o with
  | None => Ret VL_BUNDLE_ERR_ARGS o
  | Some _ =>
      let o := mkOut (output o) (Some (length src)) in
      match output o with
      | None => Ret VL_BUNDLE_ERR_ARGS o
      | Some buf =>
          if (output_cap <? length src)%nat then Ret VL_BUNDLE_ERR_BUF o
          else if (length buf <? length src)%nat then UB "write past the buffer"
          else Ret VL_BUNDLE_OK (mkOut (Some (src ++ drop (length src) buf)) (Some (length src)))
      end
  end.

(** [compiled_key()] in the state of a call. *)
Definition the_key (raw : option (list byte)) : M Out (option (list byte)) := fun o =>
  match compiled_key raw with
  | Ret k _ => Ret k o
  | Panic e _ => Panic e o
  | UB w => UB w
  | NoFuel => NoFuel
  end.

(** [input] is null or a buffer; [input_len] bytes of it are read. *)
Definition input_slice (input : option (list byte)) (input_len : nat) : M Out (list byte) :=
  match input with
  | None => ret []
  | Some buf => if (length buf <? input_len)%nat then undefined "read past the input" else ret (take input_len buf)
  end.

Definition is_null {A} (p : option A) : bool := match p with None => true | Some _ => false end.

Definition vl_bundle_seal (raw : option (list byte)) (nonce : list byte)
    (input : option (list byte)) (input_len output_cap : nat) : M Out Z :=
  let! key := the_key raw in
  match key with
  | None => ret VL_BUNDLE_ERR_NO_KEY
  | Some key =>
      if is_null input && negb (input_len =? 0)%nat then ret VL_BUNDLE_ERR_ARGS else
      let! plain := if (input_len =? 0)%nat then ret [] else input_slice input input_len in
      copy_out (seal_with_key key nonce plain) output_cap
  end.

Definition vl_bundle_unseal (raw : option (list byte)) (input : option (list byte)) (input_len output_cap : nat)
  : M Out Z :=
  let! key := the_key raw in
  match key with
  | None => ret VL_BUNDLE_ERR_NO_KEY
  | Some key =>
      if is_null input || (input_len =? 0)%nat then ret VL_BUNDLE_ERR_ARGS else
      let! blob := input_slice input input_len in
      match unseal_with_key key blob with
      | inl plain => copy_out plain output_cap
      | inr code => ret code
      end
  end.

(** ** What is assumed of AES-GCM

    Decryption under the same key and nonce inverts encryption, and accepts
    exactly the body and tag that encryption produces; lengths. *)
Record gcm_ok : Prop := mkGcm {
  gcm_inverse : forall k n p b t, gcm_encrypt k n p = (b, t) -> gcm_decrypt k n b t = Some p;
  gcm_exact : forall k n b t p, length t = TAG_LEN -> gcm_decrypt k n b t = Some p -> gcm_encrypt k n p = (b, t);
  gcm_lengths : forall k n p b t, gcm_encrypt k n p = (b, t) -> length b = length p /\ length t = TAG_LEN
}.

Hypothesis gcm : gcm_ok.

Lemma seal_length key nonce plain : length nonce = NONCE_LEN ->
  length (seal_with_key key nonce plain) = sealed_len (length plain).
Proof.
  intros Hn. unfold seal_with_key. destruct (gcm_encrypt key nonce plain) as [b t] eqn:E.
  apply (gcm_lengths gcm) in E as [Hb Ht]. rewrite !length_app, Hn, Hb, Ht. done.
Qed.

(** Cutting an envelope along its fields. *)
Lemma envelope_fields nonce tag body :
  length nonce = NONCE_LEN -> length tag = TAG_LEN ->
  let blob := MAGIC ++ [VERSION] ++ nonce ++ tag ++ body in
  (HEADER_LEN <= length blob)%nat /\ take 4 blob = MAGIC /\ head (drop 4 blob) = Some VERSION /\
  take NONCE_LEN (drop 5 blob) = nonce /\ take TAG_LEN (drop (5 + NONCE_LEN) blob) = tag /\
  drop HEADER_LEN blob = body.
Proof.
  intros Hn Ht. cbn zeta. split; [rewrite !length_app, Hn, Ht; unfold HEADER_LEN, NONCE_LEN, TAG_LEN, MAGIC; cbn [length]; lia|].
  split; [done|]. split; [done|].
  change (MAGIC ++ [VERSION] ++ nonce ++ tag ++ body) with ((MAGIC ++ [VERSION]) ++ nonce ++ tag ++ body).
  split; [|split].
  - rewrite drop_app_length' by done. by apply take_app_length'.
  - rewrite app_assoc, drop_app_length' by (rewrite length_app, Hn; done). by apply take_app_length'.
  - rewrite !app_assoc, drop_app_length'; [done|]. rewrite !length_app, Hn, Ht. done.
Qed.

(** Conversely a blob with the right header is such an envelope. *)
Lemma envelope_of blob :
  (HEADER_LEN <= length blob)%nat -> take 4 blob = MAGIC -> head (drop 4 blob) = Some VERSION ->
  blob = MAGIC ++ [VERSION] ++ take NONCE_LEN (drop 5 blob) ++ take TAG_LEN (drop (5 + NONCE_LEN) blob) ++ drop HEADER_LEN blob /\
  length (take NONCE_LEN (drop 5 blob)) = NONCE_LEN /\ length (take TAG_LEN (drop (5 + NONCE_LEN) blob)) = TAG_LEN.
Proof.
  intros Hl Hm Hv. unfold HEADER_LEN, NONCE_LEN, TAG_LEN in *. cbn [Nat.add] in *.
  split; [|rewrite !length_take, !length_drop; lia].
  rewrite <- Hm. rewrite <- (take_drop 4 blob) at 1. f_equal.
  destruct (drop 4 blob) as [|v r] eqn:E; [done|]. cbn in Hv. injection Hv as ->.
  cbn [app]. f_equal. assert (drop 5 blob = r) as H5 by (change 5%nat with (4 + 1)%nat; rewrite <- drop_drop, E; done).
  rewrite <- H5. rewrite <- (take_drop 12 (drop 5 blob)) at 1. f_equal. rewrite drop_drop.
  rewrite <- (take_drop 16 (drop (5 + 12) blob)) at 1. f_equal. by rewrite drop_drop.
Qed.

(** Exactly the sealed blobs unseal. *)
Lemma unseal_spec key blob plain :
  unseal_with_key key blob = inl plain <->
  exists nonce, length nonce = NONCE_LEN /\ blob = seal_with_key key nonce plain.
Proof.
  split.
  - unfold unseal_with_key. destruct (Nat.ltb_spec (length blob) HEADER_LEN); [done|].
    destruct (decide (take 4 blob = MAGIC)) as [Hm|]; [rewrite bool_decide_true by done|by rewrite bool_decide_false by done].
    destruct (decide (head (drop 4 blob) = Some VERSION)) as [Hv|]; [rewrite bool_decide_true by done|by rewrite bool_decide_false by done].
    cbn [negb]. destruct (envelope_of blob) as (Hb & Hn & Ht); [done..|].
    destruct (gcm_decrypt _ _ _ _) as [p|] eqn:E; [|done]. intros [= ->].
    exists (take NONCE_LEN (drop 5 blob)). split; [done|].
    unfold seal_with_key. by rewrite (gcm_exact gcm _ _ _ _ _ Ht E).
  - intros (nonce & Hn & ->). unfold seal_with_key. destruct (gcm_encrypt key nonce plain) as [b t] eqn:E.
    destruct (gcm_lengths gcm _ _ _ _ _ E) as [Hb Ht].
    destruct (envelope_fields nonce t b Hn Ht) as (H1 & H2 & H3 & H4 & H5 & H6).
    unfold unseal_with_key. destruct (Nat.ltb_spec (length (MAGIC ++ [VERSION] ++ nonce ++ t ++ b)) HEADER_LEN); [lia|].
    rewrite H2, H3, !bool_decide_true by done. cbn [negb]. rewrite H4, H5, H6. by rewrite (gcm_inverse gcm _ _ _ _ _ E).
Qed.

(** A blob has the outer form of an envelope: the magic, the version, twelve bytes
    of nonce, sixteen of tag, and any body. *)
Definition enveloped (blob : list byte) : Prop :=
  exists nonce tag body, length nonce = NONCE_LEN /\ length tag = TAG_LEN /\ blob = MAGIC ++ [VERSION] ++ nonce ++ tag ++ body.

Lemma enveloped_dec blob : enveloped blob \/ ~ enveloped blob.
Proof.
  destruct (decide ((HEADER_LEN <= length blob)%nat /\ take 4 blob = MAGIC /\ head (drop 4 blob) = Some VERSION)) as [(H1 & H2 & H3)|Hn].
  - left. destruct (envelope_of blob H1 H2 H3) as (Hb & Hn & Ht). by eexists _, _, _.
  - right. intros (nonce & tag & body & Hl & Ht & ->). apply Hn.
    destruct (envelope_fields nonce tag body Hl Ht) as (H1 & H2 & H3 & _). by split_and!.
Qed.

(** The error code tells the two reasons of a refusal apart. *)
Lemma unseal_error key blob code :
  unseal_with_key key blob = inr code ->
  (enveloped blob -> code = VL_BUNDLE_ERR_AUTH) /\ (~ enveloped blob -> code = VL_BUNDLE_ERR_FORMAT).
Proof.
  intros E. split.
  - intros (nonce & tag & body & Hn & Ht & ->). destruct (envelope_fields nonce tag body Hn Ht) as (H1 & H2 & H3 & _).
    unfold unseal_with_key in E. destruct (Nat.ltb_spec (length (MAGIC ++ [VERSION] ++ nonce ++ tag ++ body)) HEADER_LEN); [lia|].
    rewrite H2, H3, !bool_decide_true in E by done. cbn [negb] in E. destruct (gcm_decrypt _ _ _ _); [done|]. by injection E as <-.
  - intros Hn. unfold unseal_with_key in E. destruct (Nat.ltb_spec (length blob) HEADER_LEN); [by injection E as <-|].
    destruct (decide (take 4 blob = MAGIC)) as [Hm|]; [rewrite bool_decide_true in E by done|rewrite bool_decide_false in E by done; by injection E as <-].
    destruct (decide (head (drop 4 blob) = Some VERSION)) as [Hv|]; [|rewrite (bool_decide_false (head _ = _)) in E by done; by injection E as <-].
    destruct Hn. destruct (envelope_of blob) as (Hb & Hn & Ht); [done..|]. by eexists _, _, _.
Qed.

(** ** Key material *)

Lemma hex_digit_bound b v : hex_digit b = Some v -> 0 <= v < 16.
Proof.
  unfold hex_digit. pose proof (byteZ_bound b). repeat case_match; try done; intros [= <-];
    repeat match goal with H : (_ && _)%bool = true |- _ => apply andb_true_iff in H as [?%Z.leb_le ?%Z.leb_le] end; lia.
Qed.

Lemma u8_from_hex_pair a b : is_ascii_hexdigit a = true -> is_ascii_hexdigit b = true ->
  u8_from_hex [a; b] = Some (Zbyte (hex_value [a; b])) /\ 0 <= hex_value [a; b] < 256.
Proof.
  unfold is_ascii_hexdigit. intros Ha Hb. destruct (hex_digit a) as [x|] eqn:Ea; [|done].
  destruct (hex_digit b) as [y|] eqn:Eb; [|done].
  pose proof (hex_digit_bound _ _ Ea). pose proof (hex_digit_bound _ _ Eb).
  assert (hex_value [a; b] = 16 * x + y) as Hv by (unfold hex_value; cbn; rewrite Ea, Eb; cbn; lia).
  unfold u8_from_hex. assert (a <> "+"%byte) as Hp by (intros ->; done).
  rewrite bool_decide_false by done. cbn [length Nat.eqb forallb]. rewrite Ea, Eb. cbn [andb].
  destruct (Z.ltb_spec (hex_value [a; b]) 256); [split; [done|lia]|lia].
Qed.

Lemma hex_value_acc_app l1 l2 : hex_value (l1 ++ l2) = hex_value l1 * 16 ^ Z.of_nat (length l2) + hex_value l2.
Proof.
  unfold hex_value. rewrite fold_left_app. generalize (fold_left (fun a b => 16 * a + default 0 (hex_digit b)) l1 0).
  induction l2 as [|b l2 IH]; intros a; cbn [fold_left length]; [lia|].
  rewrite IH, (IH (16 * 0 + _)), Nat2Z.inj_succ, Z.pow_succ_r by lia. ring.
Qed.

Lemma hex_pairs_spec n : forall hex, length hex = (2 * n)%nat -> forallb is_ascii_hexdigit hex = true ->
  exists key, hex_pairs n hex = Some key /\ length key = n /\ be_value key = hex_value hex.
Proof.
  induction n as [|n IH]; intros hex Hl Hh.
  - destruct hex; [|done]. by exists [].
  - destruct hex as [|a [|b hex]]; [done|cbn in Hl; lia|]. cbn in Hl.
    cbn [forallb] in Hh. apply andb_true_iff in Hh as [Ha Hh]. apply andb_true_iff in Hh as [Hb Hh].
    destruct (IH hex) as (key & Hk & Hn & Hv); [lia|done|].
    destruct (u8_from_hex_pair a b Ha Hb) as [Hu Hbd].
    exists (Zbyte (hex_value [a; b]) :: key). cbn [hex_pairs]. change (take 2 (a :: b :: hex)) with [a; b].
    change (drop 2 (a :: b :: hex)) with hex. rewrite Hu, Hk. split; [done|]. split; [cbn; lia|].
    change (Zbyte (hex_value [a; b]) :: key) with ([Zbyte (hex_value [a; b])] ++ key).
    rewrite be_value_app, Hv, Hn. change (a :: b :: hex) with ([a; b] ++ hex). rewrite hex_value_acc_app.
    f_equal. assert (be_value [Zbyte (hex_value [a; b])] = hex_value [a; b]) as ->.
    { unfold be_value. cbn [rev app le_value]. unfold le_value. rewrite byteZ_Zbyte, Z.mod_small by done. lia. }
    f_equal. replace (length hex) with (2 * n)%nat by lia. rewrite Nat2Z.inj_mul, Z.pow_mul_r by lia. done.
Qed.

(** Key material: white space around it does not matter; exactly 64
    hexadecimal digits are the key itself, big-endian; nothing is an error; any
    other text is hashed. *)
Theorem key_material_spec input :
  let t := trim input in
  (t = [] -> exists e, parse_key_material input = inr e) /\
  (length t = 64%nat -> forallb is_ascii_hexdigit t = true ->
     exists key, parse_key_material input = inl key /\ length key = 32%nat /\ be_value key = hex_value t) /\
  (t <> [] -> ~ (length t = 64%nat /\ forallb is_ascii_hexdigit t = true) ->
     parse_key_material input = inl (sha256 t)).
Proof.
  cbn zeta. unfold parse_key_material. split; [intros ->; by eexists|]. split.
  - intros Hl Hh. rewrite Hl, Hh. cbn. destruct (hex_pairs_spec 32 (trim input) Hl Hh) as (key & Hk & ? & ?).
    exists key. split; [|done]. unfold parse_raw_hex64. by rewrite Hk.
  - intros Hne Hn. destruct (Nat.eqb_spec (length (trim input)) 0) as [E|]; [by apply nil_length_inv in E|].
    destruct (Nat.eqb_spec (length (trim input)) 64); [|done].
    destruct (forallb is_ascii_hexdigit (trim input)) eqn:E; [|done]. by destruct Hn.
Qed.

(** ** The exported functions *)

Lemma copy_out_run src cap ob n :
  (cap <= length ob)%nat ->
  copy_out src cap (mkOut (Some ob) (Some n)) =
  if (cap <? length src)%nat then Ret VL_BUNDLE_ERR_BUF (mkOut (Some ob) (Some (length src)))
  else Ret VL_BUNDLE_OK (mkOut (Some (src ++ drop (length src) ob)) (Some (length src))).
Proof.
  intros Hc. unfold copy_out. cbn [output output_len]. destruct (Nat.ltb_spec cap (length src)); [done|].
  destruct (Nat.ltb_spec (length ob) (length src)); [lia|done].
Qed.

Lemma seal_run raw key nonce buf len cap ob n :
  compiled_key raw = Ret (Some key) tt -> (len <= length buf)%nat ->
  vl_bundle_seal raw nonce (Some buf) len cap (mkOut (Some ob) (Some n)) =
  copy_out (seal_with_key key nonce (take len buf)) cap (mkOut (Some ob) (Some n)).
Proof.
  intros Hk Hl. unfold vl_bundle_seal, the_key, bind at 1. rewrite Hk. cbn [is_null andb].
  destruct (Nat.eqb_spec len 0) as [->|]; [done|]. unfold input_slice.
  destruct (Nat.ltb_spec (length buf) len); [lia|done].
Qed.

Lemma unseal_run raw key blob plain rest cap ob n :
  compiled_key raw = Ret (Some key) tt -> unseal_with_key key blob = inl plain -> blob <> [] ->
  vl_bundle_unseal raw (Some (blob ++ rest)) (length blob) cap (mkOut (Some ob) (Some n)) =
  copy_out plain cap (mkOut (Some ob) (Some n)).
Proof.
  intros Hk Hu Hne. unfold vl_bundle_unseal, the_key, bind at 1. rewrite Hk. cbn [is_null orb].
  destruct (Nat.eqb_spec (length blob) 0) as [E|]; [by apply nil_length_inv in E|]. unfold input_slice.
  rewrite length_app. destruct (Nat.ltb_spec (length blob + length rest) (length blob)); [lia|].
  rewrite take_app_length. unfold bind, ret. by rewrite Hu.
Qed.

(** With a key built in, sealing into a buffer that is too small reports the
    size needed and writes nothing; into a large enough one it writes the header
    plus the bytes of the plain text, and unsealing that gives the plain text
    back with its length. *)
Theorem bundle_roundtrip raw key nonce buf len cap ob n :
  compiled_key raw = Ret (Some key) tt -> length nonce = NONCE_LEN ->
  (len <= length buf)%nat -> (cap <= length ob)%nat ->
  let need := sealed_len len in
  ((cap < need)%nat ->
     vl_bundle_seal raw nonce (Some buf) len cap (mkOut (Some ob) (Some n)) =
       Ret VL_BUNDLE_ERR_BUF (mkOut (Some ob) (Some need))) /\
  ((need <= cap)%nat -> exists sealed,
     vl_bundle_seal raw nonce (Some buf) len cap (mkOut (Some ob) (Some n)) =
       Ret VL_BUNDLE_OK (mkOut (Some (sealed ++ drop need ob)) (Some need)) /\
     length sealed = need /\
     forall ob2 n2 cap2, (len <= cap2 <= length ob2)%nat ->
       vl_bundle_unseal raw (Some (sealed ++ drop need ob)) need cap2 (mkOut (Some ob2) (Some n2)) =
         Ret VL_BUNDLE_OK (mkOut (Some (take len buf ++ drop len ob2)) (Some len))).
Proof.
  intros Hk Hn Hl Hc need. rewrite (seal_run raw key) by done. set (sealed := seal_with_key key nonce (take len buf)).
  assert (length (take len buf) = len) as Hp by (rewrite length_take; lia).
  assert (length sealed = need) as Hs by (unfold sealed, need; rewrite seal_length by done; by rewrite Hp).
  rewrite copy_out_run, Hs by done. split; intros Hcap.
  - destruct (Nat.ltb_spec cap need); [done|lia].
  - destruct (Nat.ltb_spec cap need); [lia|]. exists sealed. split; [done|]. split; [done|].
    intros ob2 n2 cap2 Hc2. rewrite <- Hs at 2. rewrite (unseal_run raw key _ (take len buf)); [|done| |].
    + rewrite copy_out_run, Hp by lia. destruct (Nat.ltb_spec cap2 len); [lia|done].
    + apply unseal_spec. by exists nonce.
    + intros E. rewrite E in Hs. unfold need, sealed_len, HEADER_LEN in Hs. cbn in Hs. lia.
Qed.

(** C36: a blob is accepted exactly when it is one that sealing under the same
    key produces, and then yields the text sealed.  Every other blob is refused,
    and the code says why: the authentication error if it has the outer form of an
    envelope (magic, version, nonce and tag complete) but was not sealed under
    this key or was altered, the format error if it has not (truncated within the
    header, wrong magic or version). *)
Theorem unseal_accepts_exactly_sealed key blob :
  (exists nonce plain, length nonce = NONCE_LEN /\ blob = seal_with_key key nonce plain /\
     unseal_with_key key blob = inl plain) \/
  ((forall nonce plain, length nonce = NONCE_LEN -> blob <> seal_with_key key nonce plain) /\
   ((enveloped blob /\ unseal_with_key key blob = inr VL_BUNDLE_ERR_AUTH) \/
    (~ enveloped blob /\ unseal_with_key key blob = inr VL_BUNDLE_ERR_FORMAT))).
Proof.
  destruct (unseal_with_key key blob) as [plain|code] eqn:E.
  - left. destruct (proj1 (unseal_spec key blob plain) E) as (nonce & ? & ?). eauto.
  - right. split.
    + intros nonce plain Hn ->. assert (unseal_with_key key (seal_with_key key nonce plain) = inl plain) as E2
        by (apply unseal_spec; eauto). congruence.
    + destruct (unseal_error key blob code E) as [H1 H2].
      destruct (enveloped_dec blob) as [He|He]; [left|right]; (split; [done|]); f_equal; [by apply H1|by apply H2].
Qed.
End Bundle.

(** ** A toy cipher *)
Module BundleDemo.

(** The tag is the key and nonce cut to sixteen bytes; the body is the text. *)
Definition toy_tag (k n : list byte) : list byte := take TAG_LEN (k ++ n ++ replicate TAG_LEN x00).

#[export] Instance toy_crates : BundleCrates := {|
  gcm_encrypt k n p := (p, toy_tag k n);
  gcm_decrypt k n b t := if bool_decide (t = toy_tag k n) then Some b else None;
  sha256 l := take 32 (l ++ replicate 32 x00)
|}.

Lemma toy_gcm : gcm_ok.
Proof.
  split.
  - intros k n p b t [= <- <-]. cbn. by rewrite bool_decide_true.
  - intros k n b t p _. cbn. case_bool_decide; [|done]. intros [= ->]. by subst.
  - intros k n p b t [= <- <-]. split; [done|]. unfold toy_tag.
    rewrite length_take, !length_app, length_replicate. lia.
Qed.

Definition toy_key : list byte := as_bytes "passphrase".

Lemma bundle_roundtrip_witness :
  exists sealed, length sealed = 36%nat /\
    vl_bundle_unseal (Some toy_key) (Some sealed) 36 5 (mkOut (Some (replicate 5 x00)) (Some 0%nat)) =
      Ret VL_BUNDLE_OK (mkOut (Some [x01; x02; x03; x00; x00]) (Some 3%nat)).
Proof.
  destruct (bundle_roundtrip toy_gcm (Some toy_key) (take 32 (toy_key ++ replicate 32 x00)) (replicate 12 x07)
              [x01; x02; x03] 3 36 (replicate 36 xff) 0) as [_ H]; [reflexivity|reflexivity|cbn; lia|cbn; lia|].
  destruct H as (sealed & _ & Hl & H); [vm_compute; lia|]. exists sealed. split; [exact Hl|].
  specialize (H (replicate 5 x00) 0%nat 5%nat). cbn [drop replicate app] in H. rewrite app_nil_r in H.
  apply H. cbn. lia.
Defined.

(** A short blob, a wrong magic and a wrong tag. *)
Definition altered : list byte := MAGIC ++ [VERSION] ++ replicate 12 x07 ++ replicate 16 x00 ++ [x01; x02].

Lemma unseal_accepts_exactly_sealed_witness :
  unseal_with_key toy_key (take 20 altered) = inr VL_BUNDLE_ERR_FORMAT /\
  unseal_with_key toy_key (replicate 40 x00) = inr VL_BUNDLE_ERR_FORMAT /\
  unseal_with_key toy_key altered = inr VL_BUNDLE_ERR_AUTH.
Proof.
  split; [|split].
  - destruct (unseal_accepts_exactly_sealed toy_gcm toy_key (take 20 altered)) as [(nonce & plain & Hn & E & _)|[_ [[He _]|[_ H]]]].
    + exfalso. apply (f_equal length) in E. rewrite (seal_length toy_gcm) in E by done. cbn in E. unfold sealed_len, HEADER_LEN in E. cbn in E. lia.
    + exfalso. destruct He as (nonce & tag & body & Hn & Ht & E). apply (f_equal length) in E.
      rewrite !length_app, Hn, Ht in E. cbn in E. lia.
    + exact H.
  - destruct (unseal_accepts_exactly_sealed toy_gcm toy_key (replicate 40 x00)) as [(nonce & plain & _ & E & _)|[_ [[He _]|[_ H]]]].
    + exfalso. unfold seal_with_key in E. destruct (gcm_encrypt toy_key nonce plain). discriminate E.
    + exfalso. destruct He as (nonce & tag & body & _ & _ & E). discriminate E.
    + exact H.
  - destruct (unseal_accepts_exactly_sealed toy_gcm toy_key altered) as [(nonce & plain & _ & E & H)|[_ [[_ H]|[Hn _]]]].
    + exfalso. vm_compute in H. discriminate H.
    + exact H.
    + exfalso. apply Hn. by exists (replicate 12 x07), (replicate 16 x00), [x01; x02].
Defined.
End BundleDemo.
