(* ===== verification/HierarchyCollect.v ===== *)
(** * Collecting and filtering the design hierarchy

    [libverilua/src/vpi_access/hierarchy_collect.rs], lines 321-637: the walk
    over the design through VPI, the merge of what it finds into entries with
    unique paths, the filters, and the items passed to the Lua callback.  A VPI
    iteration is the list of handles that [vpi_iterate] and [vpi_scan] yield,
    empty for a null iterator. *)

From S2P Require Import Prelude Bytes HierarchyCache.
From stdpp Require Import sorting.
#[local] Open Scope Z_scope.

(** The simulator's object model and the [wildmatch] crate. *)
Class DesignVpi := {
  iterate_scan : Z -> Z -> list Z;             (* object type, parent: the children *)
  get_str_name : Z -> option (list byte);      (* vpi_get_str(vpiName, h), [None] for null *)
  get_str_def_name : Z -> option (list byte);  (* vpi_get_str(vpiDefName, h) *)
  get_size : Z -> Z;                           (* vpi_get(vpiSize, h) *)
  wild_matches : string -> string -> bool      (* WildMatch::new(pattern).matches(s) *)
}.

Definition hc_vpiModule : Z := 32.
Definition hc_vpiNet : Z := 36.
Definition hc_vpiReg : Z := 48.
Definition hc_vpiMemory : Z := 29.

(** [utils::c_char_to_str_opt]. *)
Definition c_char_to_str_opt (p : option (list byte)) : option string := p ≫= from_utf8.

Definition dot : byte := "."%byte.

(** [format!("{parent}.{name}")]. *)
Definition join_path (parent name : string) : string := of_bytes (as_bytes parent ++ dot :: as_bytes name).

(** [s.split(c)]. *)
Fixpoint split_on (c : byte) (l : list byte) : list (list byte) :=
  match l with
  | [] => [[]]
  | b :: l' =>
      if bool_decide (b = c) then [] :: split_on c l'
      else match split_on c l' with seg :: segs => (b :: seg) :: segs | [] => [[b]] end
  end.

Definition str_contains (c : byte) (s : string) : bool := bool_decide (c ∈ as_bytes s).

Section Collect.
Context {vpi : DesignVpi}.

(** ** Merging *)

Definition Found : Type := list HierarchyEntry * gset string.

Definition set_sig (s : option string) (e : HierarchyEntry) : HierarchyEntry :=
  mkEntry (full_path e) (module_name e) s (level e) (bitwidth e).

(** [entries.iter_mut().find(..)] and the assignment: the first entry of the
    path. *)
Fixpoint upgrade_first (p : string) (es : list HierarchyEntry) : list HierarchyEntry :=
  match es with
  | [] => []
  | e :: es => if bool_decide (full_path e = p) then set_sig (Some "reg"%string) e :: es
               else e :: upgrade_first p es
  end.

Definition push_hierarchy_entry (c : HierarchyEntry) (st : Found) : Found :=
  let '(entries, seen) := st in
  if bool_decide (full_path c ∈ seen) then
    (if bool_decide (sig_type c = Some "reg"%string) then upgrade_first (full_path c) entries else entries, seen)
  else (entries ++ [c], {[full_path c]} ∪ seen).

(** ** The walk *)

Definition leaf_types : list Z := [hc_vpiNet; hc_vpiReg; hc_vpiMemory].

(** The two nested loops over object types and objects, as one list. *)
Definition leaf_objects (child : Z) : list (Z * Z) :=
  flat_map (fun ty => map (pair ty) (iterate_scan ty child)) leaf_types.

Definition leaf_entry (full : string) (lvl : Z) (name : string) (ty obj : Z) : HierarchyEntry :=
  mkEntry (if str_contains dot name then name else join_path full name) None
    (Some (if ty =? hc_vpiNet then "wire"%string else "reg"%string)) (lvl + 1) (get_size obj).

Fixpoint leaf_loop (full : string) (lvl : Z) (visited : gset string) (objs : list (Z * Z)) (st : Found) : Found :=
  match objs with
  | [] => st
  | (ty, obj) :: objs =>
      match c_char_to_str_opt (get_str_name obj) with
      | None => leaf_loop full lvl visited objs st
      | Some name =>
          if bool_decide (name ∈ visited) then leaf_loop full lvl visited objs st
          else leaf_loop full lvl ({[name]} ∪ visited) objs (push_hierarchy_entry (leaf_entry full lvl name ty obj) st)
      end
  end.

Definition module_entry (full : string) (lvl : Z) (child : Z) : HierarchyEntry :=
  let def := c_char_to_str_opt (get_str_def_name child) in
  mkEntry full (match def with Some n => if (str_len n =? 0)%nat then None else Some n | None => None end)
    None lvl (-1).

Definition path_under (parent name : string) : string :=
  if (str_len parent =? 0)%nat then name else join_path parent name.

Fixpoint collect_hierarchy_recursive (fuel : nat) (module : Z) (parent : string) (lvl max_level : Z) (st : Found)
  : option Found :=
  if negb (max_level =? 0) && (max_level <? lvl) then Some st else
  match fuel with
  | O => None
  | S fuel =>
      fold_left (fun acc child =>
        match acc with
        | None => None
        | Some st =>
            match c_char_to_str_opt (get_str_name child) with
            | None => Some st
            | Some name =>
                let full := path_under parent name in
                let st := push_hierarchy_entry (module_entry full lvl child) st in
                let st := if (max_level =? 0) || (lvl <? max_level)
                          then leaf_loop full lvl ∅ (leaf_objects child) st else st in
                collect_hierarchy_recursive fuel child full (lvl + 1) max_level st
            end
        end) (iterate_scan hc_vpiModule module) (Some st)
  end.

(** ** Order *)

(** Byte-wise comparison of strings. *)
Fixpoint bytes_cmp (a b : list byte) : comparison :=
  match a, b with
  | [], [] => Eq
  | [], _ => Lt
  | _, [] => Gt
  | x :: a, y :: b => match byteZ x ?= byteZ y with Eq => bytes_cmp a b | c => c end
  end.

Definition entry_le (a b : HierarchyEntry) : Prop :=
  match bytes_cmp (as_bytes (full_path a)) (as_bytes (full_path b)) with
  | Lt => True
  | Gt => False
  | Eq => level a <= level b
  end.
#[export] Instance entry_le_dec : RelDecision entry_le.
Proof. intros a b. unfold entry_le. destruct (bytes_cmp _ _); apply _. Defined.

Definition collect_hierarchy_entries (fuel : nat) (max_level : Z) : option (list HierarchyEntry) :=
  match collect_hierarchy_recursive fuel 0 empty_str 0 max_level ([], ∅) with
  | Some (entries, _) => Some (merge_sort entry_le entries)
  | None => None
  end.

(** ** Filters *)

Definition entry_matches (wildcard_matchers : list string) (module_name_filter : option string) (e : HierarchyEntry) : bool :=
  ((length wildcard_matchers =? 0)%nat || existsb (fun p => wild_matches p (full_path e)) wildcard_matchers) &&
  match module_name_filter with Some f => bool_decide (module_name e = Some f) | None => true end.

Definition parse_wildcard_matchers (wildcard : option (list byte)) : list string :=
  match c_char_to_str_opt wildcard with
  | None => []
  | Some raw =>
      map of_bytes (filter (fun p => p <> []) (map trim (split_on ","%byte (as_bytes raw))))
  end.

(** ** Items *)

(** What the callback receives; [None] is a null pointer. *)
Record HierarchyItem := mkItem {
  i_path : string; i_name : string; i_module : option string; i_sig : option string; i_level : Z; i_width : Z
}.

Definition no_nul_opt (s : string) : option string := if bool_decide (x00 ∈ as_bytes s) then None else Some s.

Definition emit_hierarchy_entry (e : HierarchyEntry) : list HierarchyItem :=
  match no_nul_opt (full_path e) with
  | None => []
  | Some path =>
      let name := of_bytes (List.last (split_on dot (as_bytes (full_path e))) []) in
      match no_nul_opt name with
      | None => []
      | Some name => [mkItem path name (module_name e ≫= no_nul_opt) (sig_type e ≫= no_nul_opt) (level e) (bitwidth e)]
      end
  end.

(** The prefixes of a path, as the loop over its segments builds them. *)
Fixpoint prefixes_from (prefix : string) (segs : list (list byte)) : list string :=
  match segs with
  | [] => []
  | seg :: segs =>
      let prefix := if (str_len prefix =? 0)%nat then of_bytes seg else join_path prefix (of_bytes seg) in
      prefix :: prefixes_from prefix segs
  end.
Definition path_prefixes (path : string) : list string := prefixes_from empty_str (split_on dot (as_bytes path)).

Definition visible_paths (ws : list string) (f : option string) (es : list HierarchyEntry) : gset string :=
  list_to_set (flat_map (fun e => path_prefixes (full_path e)) (List.filter (entry_matches ws f) es)).

Inductive HierErr := MODULE_NAME_ONLY_FSDB | SHOW_DEF_NAME_ONLY_FSDB | INTERNAL_NULL_CB | UNSUPPORTED_DPI.

(** The entries in range, the metadata test, the two ways to emit; [inl] is the
    items the callback got, [inr] the error message returned instead. *)
Definition emit_hierarchy (all_entries : list HierarchyEntry) (max_level : Z) (ws : list string) (f : option string)
    (include_tree_prefixes require_module_name_data : bool) : list HierarchyItem + HierErr :=
  let entries := if max_level =? 0 then all_entries else List.filter (fun e => level e <=? max_level) all_entries in
  let has_data := existsb (fun e => match module_name e with Some _ => true | None => false end) entries in
  let has_filter := match f with Some _ => true | None => false end in
  if (has_filter || require_module_name_data) && negb has_data then
    inr (if has_filter then MODULE_NAME_ONLY_FSDB else SHOW_DEF_NAME_ONLY_FSDB)
  else if include_tree_prefixes && negb (length ws =? 0)%nat then
    let visible := visible_paths ws f entries in
    inl (flat_map emit_hierarchy_entry (List.filter (fun e => bool_decide (full_path e ∈ visible)) entries))
  else inl (flat_map emit_hierarchy_entry (List.filter (entry_matches ws f) entries)).

(** [cache] is the process-wide cache when the feature [hierarchy_cache] is on;
    the fuel is that of the walk, which has no effect and is needed only when the
    cache is cold. *)
Definition vpiml_collect_hierarchy (dpi : bool) (cb : bool) (cache : option CacheEnv) (fuel : nat) (max_level : Z)
    (wildcard module_name : option (list byte)) (include_tree_prefixes require_module_name_data : Z)
  : option ((list HierarchyItem + HierErr) * option CacheEnv) :=
  if dpi then Some (inr UNSUPPORTED_DPI, cache) else
  if negb cb then Some (inr INTERNAL_NULL_CB, cache) else
  let ws := parse_wildcard_matchers wildcard in
  let f := match c_char_to_str_opt module_name with
           | Some n => if (str_len n =? 0)%nat then None else Some n | None => None end in
  match cache with
  | Some c =>
      match collect_hierarchy_entries fuel 0 with
      | Some collected =>
          let '(all, c) := get_or_init_hierarchy_cache (fun _ => collected) c in
          Some (emit_hierarchy all max_level ws f (negb (include_tree_prefixes =? 0)) (negb (require_module_name_data =? 0)), Some c)
      | None => None
      end
  | None =>
      match collect_hierarchy_entries fuel max_level with
      | Some all => Some (emit_hierarchy all max_level ws f (negb (include_tree_prefixes =? 0)) (negb (require_module_name_data =? 0)), None)
      | None => None
      end
  end.
(* ------------------------------------------------------------------ *)
(** ** The walk as a stream of candidates *)

Definition push_all (cs : list HierarchyEntry) (st : Found) : Found :=
  fold_left (fun st c => push_hierarchy_entry c st) cs st.

Fixpoint leaf_stream (full : string) (lvl : Z) (visited : gset string) (objs : list (Z * Z)) : list HierarchyEntry :=
  match objs with
  | [] => []
  | (ty, obj) :: objs =>
      match c_char_to_str_opt (get_str_name obj) with
      | None => leaf_stream full lvl visited objs
      | Some name =>
          if bool_decide (name ∈ visited) then leaf_stream full lvl visited objs
          else leaf_entry full lvl name ty obj :: leaf_stream full lvl ({[name]} ∪ visited) objs
      end
  end.

(** The entries the walk finds, in its order, before merging. *)
Fixpoint stream (fuel : nat) (module : Z) (parent : string) (lvl max_level : Z) : option (list HierarchyEntry) :=
  if negb (max_level =? 0) && (max_level <? lvl) then Some [] else
  match fuel with
  | O => None
  | S fuel =>
      (fun css => List.concat css) <$> mapM (fun child =>
        match c_char_to_str_opt (get_str_name child) with
        | None => Some []
        | Some name =>
            let full := path_under parent name in
            (fun rest => module_entry full lvl child ::
               (if (max_level =? 0) || (lvl <? max_level) then leaf_stream full lvl ∅ (leaf_objects child) else [])
               ++ rest) <$> stream fuel child full (lvl + 1) max_level
        end) (iterate_scan hc_vpiModule module)
  end.

Lemma push_all_app cs1 cs2 st : push_all (cs1 ++ cs2) st = push_all cs2 (push_all cs1 st).
Proof. apply fold_left_app. Qed.

Lemma leaf_loop_stream full lvl objs : forall visited st,
  leaf_loop full lvl visited objs st = push_all (leaf_stream full lvl visited objs) st.
Proof.
  induction objs as [|[ty obj] objs IH]; intros visited st; cbn; [done|].
  destruct (c_char_to_str_opt _); [|apply IH]. destruct (bool_decide _); [apply IH|]. cbn. apply IH.
Qed.

Lemma mapM_cons {A B} (g : A -> option B) x l :
  mapM g (x :: l) = match g x, mapM g l with Some y, Some ys => Some (y :: ys) | _, _ => None end.
Proof. cbn. destruct (g x); cbn; [|done]. by destruct (mapM g l). Qed.

Lemma collect_stream fuel : forall module parent lvl max_level st,
  collect_hierarchy_recursive fuel module parent lvl max_level st =
  (fun cs => push_all cs st) <$> stream fuel module parent lvl max_level.
Proof.
  induction fuel as [|fuel IH]; intros module parent lvl max_level st; cbn [collect_hierarchy_recursive stream];
    (destruct (_ && _); [done|]); [done|].
  set (f := fun acc child => _). match goal with |- context [mapM ?h _] => set (g := h) end.
  enough (forall l acc, fold_left f l acc =
            match acc, mapM g l with Some st, Some css => Some (push_all (List.concat css) st) | _, _ => None end) as H
    by (rewrite H; by destruct (mapM g _)).
  induction l as [|child l IHl]; intros acc; cbn [fold_left]; [by destruct acc|].
  rewrite IHl, mapM_cons. destruct acc as [st1|]; [|by destruct (g child), (mapM g l)].
  assert (match c_char_to_str_opt (get_str_name child) with
          | Some _ => f (Some st1) child
          | None => Some st1
          end = (fun cs => push_all cs st1) <$> g child) as Hf.
  { unfold f, g. destruct (c_char_to_str_opt (get_str_name child)) as [name|]; cbn; [|done].
    rewrite IH. destruct (stream fuel child _ _ _) as [rest|]; cbn; [|done]. rewrite push_all_app.
    destruct ((max_level =? 0) || (lvl <? max_level)); [by rewrite leaf_loop_stream|done]. }
  assert (f (Some st1) child = (fun cs => push_all cs st1) <$> g child) as ->.
  { rewrite <- Hf. unfold f. by destruct (c_char_to_str_opt (get_str_name child)). }
  destruct (g child) as [cs|]; cbn; [|done]. destruct (mapM g l) as [css|]; [|done].
  cbn. by rewrite push_all_app.
Qed.

(** ** What merging keeps *)

Definition at_path (p : string) (e : HierarchyEntry) : bool := bool_decide (full_path e = p).
Definition is_reg (e : HierarchyEntry) : bool := bool_decide (sig_type e = Some "reg"%string).

(** The entry of a path: the first one found, with the type [reg] when any has
    it. *)
Definition merged (cs : list HierarchyEntry) (p : string) : option HierarchyEntry :=
  (fun c => if existsb (fun d => at_path p d && is_reg d) cs then set_sig (Some "reg"%string) c else c)
    <$> List.find (at_path p) cs.

Definition merge_inv (cs : list HierarchyEntry) (st : Found) : Prop :=
  st.2 = list_to_set (full_path <$> cs) /\ NoDup (full_path <$> st.1) /\
  forall p, List.find (at_path p) st.1 = merged cs p.

Lemma find_app_path p l1 l2 :
  List.find (at_path p) (l1 ++ l2) =
  match List.find (at_path p) l1 with Some e => Some e | None => List.find (at_path p) l2 end.
Proof. induction l1 as [|e l1 IH]; cbn; [done|]. by destruct (at_path p e). Qed.

Lemma find_path_in p l : List.find (at_path p) l = None <-> p ∉ full_path <$> l.
Proof.
  induction l as [|e l IH]; cbn; [split; [by intros _ ?%elem_of_nil|done]|].
  rewrite elem_of_cons. unfold at_path at 1. case_bool_decide; split; try done; naive_solver.
Qed.

Lemma upgrade_paths p es : full_path <$> upgrade_first p es = full_path <$> es.
Proof. induction es as [|e es IH]; cbn; [done|]. case_bool_decide; cbn; congruence. Qed.

Lemma find_upgrade p q es :
  List.find (at_path q) (upgrade_first p es) =
  (fun e => if bool_decide (p = q) then set_sig (Some "reg"%string) e else e) <$> List.find (at_path q) es.
Proof.
  induction es as [|e es IH]; cbn; [done|]. unfold at_path in *.
  destruct (decide (full_path e = p)) as [<-|Hp].
  - rewrite bool_decide_true by done. cbn. destruct (decide (full_path e = q)) as [<-|Hq].
    + by rewrite !bool_decide_true by done.
    + rewrite !bool_decide_false by done. by destruct (List.find _ es).
  - rewrite bool_decide_false by done. cbn. destruct (decide (full_path e = q)) as [<-|Hq].
    + rewrite bool_decide_true by done. cbn. by rewrite bool_decide_false.
    + rewrite bool_decide_false by done. apply IH.
Qed.

Lemma set_sig_twice s1 s2 e : set_sig s1 (set_sig s2 e) = set_sig s1 e.
Proof. done. Qed.

Lemma merged_snoc cs c p : merged (cs ++ [c]) p =
  if decide (full_path c = p) then
    match merged cs p with
    | Some e => Some (if is_reg c then set_sig (Some "reg"%string) e else e)
    | None => Some c
    end
  else merged cs p.
Proof.
  unfold merged. rewrite find_app_path, existsb_app. cbn [existsb List.find]. rewrite orb_false_r.
  destruct (decide (full_path c = p)) as [Hp|Hp].
  - assert (at_path p c = true) as Hc by (unfold at_path; by rewrite bool_decide_true). rewrite Hc. cbn [andb].
    destruct (List.find (at_path p) cs) as [e|] eqn:E; cbn.
    + destruct (existsb _ cs), (is_reg c); done.
    + assert (existsb (fun d => at_path p d && is_reg d) cs = false) as ->.
      { apply not_true_is_false. intros (d & Hd & Hb)%existsb_exists. apply andb_true_iff in Hb as [Hb _].
        pose proof (find_none _ _ E d Hd). congruence. }
      cbn. unfold is_reg. case_bool_decide as Hr; [|done]. destruct c; cbn in *; by subst.
  - assert (at_path p c = false) as Hc by (unfold at_path; by rewrite bool_decide_false). rewrite Hc.
    cbn [andb]. rewrite orb_false_r.
    by destruct (List.find (at_path p) cs).
Qed.

Lemma merge_step cs c st : merge_inv cs st -> merge_inv (cs ++ [c]) (push_hierarchy_entry c st).
Proof.
  intros (Hseen & Hnd & Hf). destruct st as [es seen]. cbn [fst snd] in *. subst seen.
  unfold push_hierarchy_entry, merge_inv. rewrite fmap_app, list_to_set_app_L. cbn [fmap list_fmap].
  assert (List.find (at_path (full_path c)) es = None <-> full_path c ∉ full_path <$> cs) as Hin.
  { rewrite Hf. unfold merged. rewrite fmap_None. apply find_path_in. }
  destruct (decide (full_path c ∈ full_path <$> cs)) as [Hc|Hc].
  - assert (List.find (at_path (full_path c)) es <> None) as Hex by (rewrite Hin; tauto). clear Hin.
    rewrite bool_decide_true by by apply elem_of_list_to_set. cbn [fst snd]. split; [set_solver|].
    split; [destruct (bool_decide _); [by rewrite upgrade_paths|done]|]. intros p. rewrite merged_snoc, <- Hf.
    fold (is_reg c). destruct (is_reg c) eqn:Er.
    + rewrite find_upgrade. destruct (decide (full_path c = p)) as [<-|Hp].
      * rewrite bool_decide_true by done. by destruct (List.find _ es).
      * rewrite bool_decide_false by done. by destruct (List.find (at_path p) es).
    + destruct (decide (full_path c = p)) as [<-|Hp]; [|done].
      by destruct (List.find _ es).
  - rewrite bool_decide_false by by rewrite elem_of_list_to_set. cbn [fst snd]. split; [set_solver|].
    assert (full_path c ∉ full_path <$> es) as Hce by by apply find_path_in, Hin. split.
    + rewrite fmap_app. apply NoDup_app. split; [done|]. split; [|apply NoDup_singleton].
      intros p Hp ->%list_elem_of_singleton. done.
    + intros p. rewrite find_app_path, merged_snoc, <- Hf. cbn [List.find].
      destruct (decide (full_path c = p)) as [<-|Hp].
      * rewrite (proj2 (find_path_in _ _) Hce). unfold at_path. by rewrite bool_decide_true.
      * destruct (List.find (at_path p) es); [done|]. unfold at_path. by rewrite bool_decide_false.
Qed.

Lemma merge_push_all cs : merge_inv cs (push_all cs ([], ∅)).
Proof.
  induction cs as [|c cs IH] using rev_ind.
  - split; [done|]. split; [constructor|]. done.
  - rewrite push_all_app. by apply merge_step.
Qed.

(** ** Order and uniqueness *)

Lemma bytes_cmp_refl a : bytes_cmp a a = Eq.
Proof. induction a as [|x a IH]; cbn; [done|]. by rewrite Z.compare_refl. Qed.

Lemma bytes_cmp_eq a b : bytes_cmp a b = Eq -> a = b.
Proof.
  revert b. induction a as [|x a IH]; intros [|y b]; cbn; try done.
  destruct (Z.compare_spec (byteZ x) (byteZ y)) as [E| |]; try done.
  intros H%IH. apply byteZ_inj in E. congruence.
Qed.

Lemma bytes_cmp_antisym a b : bytes_cmp b a = CompOpp (bytes_cmp a b).
Proof.
  revert b. induction a as [|x a IH]; intros [|y b]; cbn; try done.
  rewrite Z.compare_antisym. destruct (byteZ x ?= byteZ y); cbn; auto.
Qed.

Lemma bytes_cmp_trans a b c : bytes_cmp a b = Lt -> bytes_cmp b c = Lt -> bytes_cmp a c = Lt.
Proof.
  revert b c. induction a as [|x a IH]; intros [|y b] [|z c]; cbn; try done.
  destruct (Z.compare_spec (byteZ x) (byteZ y)) as [Exy|Exy|Exy]; try done;
    destruct (Z.compare_spec (byteZ y) (byteZ z)) as [Eyz|Eyz|Eyz]; try done;
    destruct (Z.compare_spec (byteZ x) (byteZ z)); try done; try lia. apply IH.
Qed.

#[export] Instance entry_le_trans : Transitive entry_le.
Proof.
  intros a b c. unfold entry_le.
  destruct (bytes_cmp (as_bytes (full_path a)) (as_bytes (full_path b))) eqn:E1; [| |done];
    destruct (bytes_cmp (as_bytes (full_path b)) (as_bytes (full_path c))) eqn:E2; [| |done| | |done]; intros H1 H2.
  - apply bytes_cmp_eq in E1, E2. rewrite E1, E2, bytes_cmp_refl. lia.
  - apply bytes_cmp_eq in E1. by rewrite E1, E2.
  - apply bytes_cmp_eq in E2. by rewrite <- E2, E1.
  - by rewrite (bytes_cmp_trans _ _ _ E1 E2).
Qed.

#[export] Instance entry_le_total : Total entry_le.
Proof.
  intros a b. unfold entry_le. rewrite (bytes_cmp_antisym (as_bytes (full_path a))).
  destruct (bytes_cmp _ _); cbn; auto. lia.
Qed.

(** What the collected list holds, in terms of what the walk found. *)
Definition collected_from (cs es : list HierarchyEntry) : Prop :=
  StronglySorted entry_le es /\ NoDup (full_path <$> es) /\
  forall e, e ∈ es <-> merged cs (full_path e) = Some e.

Lemma find_unique es e : NoDup (full_path <$> es) ->
  e ∈ es <-> List.find (at_path (full_path e)) es = Some e.
Proof.
  intros Hnd. split.
  - induction es as [|d es IH]; intros Hin; [by apply elem_of_nil in Hin|]. cbn in *.
    apply NoDup_cons in Hnd as [Hd Hnd]. unfold at_path at 1. apply elem_of_cons in Hin as [->|Hin].
    + by rewrite bool_decide_true.
    + rewrite bool_decide_false; [by apply IH|]. intros E. apply Hd. rewrite E. by apply list_elem_of_fmap_2.
  - intros Hf. apply find_some in Hf as [Hin _]. by apply list_elem_of_In.
Qed.

Lemma collected_spec cs : collected_from cs (merge_sort entry_le (push_all cs ([], ∅)).1).
Proof.
  destruct (merge_push_all cs) as (_ & Hnd & Hf). set (es := (push_all cs ([], ∅)).1) in *.
  pose proof (merge_sort_Permutation entry_le es) as Hp.
  assert (NoDup (full_path <$> merge_sort entry_le es)) as Hnd' by by rewrite Hp.
  split; [by apply StronglySorted_merge_sort; apply _|]. split; [done|]. intros e.
  rewrite Hp, <- Hf. by apply find_unique.
Qed.

(** ** Enough fuel *)

(** The depth of the design below a handle. *)
Definition depth_bounded (rank : Z -> nat) : Prop :=
  forall h c, c ∈ iterate_scan hc_vpiModule h -> (rank c < rank h)%nat.

Lemma mapM_is_Some {A B} (g : A -> option B) l : (forall x, x ∈ l -> is_Some (g x)) -> is_Some (mapM g l).
Proof.
  induction l as [|x l IH]; intros H; [by eexists|]. rewrite mapM_cons.
  destruct (H x) as [y ->]; [by left|]. destruct IH as [ys ->]; [intros; apply H; by right|]. by eexists.
Qed.

Lemma stream_enough rank fuel : depth_bounded rank -> forall module parent lvl max_level,
  (rank module < fuel)%nat -> is_Some (stream fuel module parent lvl max_level).
Proof.
  intros Hr. induction fuel as [|fuel IH]; intros module parent lvl max_level Hf; [lia|].
  cbn [stream]. destruct (_ && _); [by eexists|]. apply fmap_is_Some, mapM_is_Some. intros child Hc.
  destruct (c_char_to_str_opt _); [|by eexists]. apply fmap_is_Some, IH.
  specialize (Hr _ _ Hc). lia.
Qed.

(** A level limit bounds the walk by itself. *)
Lemma stream_limited fuel : forall module parent lvl max_level,
  max_level <> 0 -> max_level - lvl + 1 < Z.of_nat fuel -> is_Some (stream fuel module parent lvl max_level).
Proof.
  induction fuel as [|fuel IH]; intros module parent lvl max_level Hm Hf; cbn [stream];
    destruct (Z.eqb_spec max_level 0); [done| |done|]; cbn [negb andb].
  - destruct (Z.ltb_spec max_level lvl); [by eexists|lia].
  - destruct (Z.ltb_spec max_level lvl); [by eexists|].
    apply fmap_is_Some, mapM_is_Some. intros child Hc.
    destruct (c_char_to_str_opt _); [|by eexists]. apply fmap_is_Some, IH; lia.
Qed.

Lemma collect_of_stream fuel max_level cs : stream fuel 0 empty_str 0 max_level = Some cs ->
  exists es, collect_hierarchy_entries fuel max_level = Some es /\ collected_from cs es.
Proof.
  intros Hs. unfold collect_hierarchy_entries. rewrite collect_stream, Hs. cbn.
  pose proof (collected_spec cs) as Hc. destruct (push_all cs ([], ∅)) as [es seen]. by eexists.
Qed.

(** C34: the walk over a design terminates (with as much fuel as the design is
    deep, or as the level limit asks), and what is collected is sorted by path,
    has every path the walk found exactly once, with the data of its first
    occurrence and the type [reg] when any occurrence has it. *)
Theorem collected_hierarchy_spec (rank : Z -> nat) (fuel : nat) (max_level : Z) :
  depth_bounded rank /\ (rank (0%Z) < fuel)%nat \/ max_level <> 0 /\ max_level + 1 < Z.of_nat fuel ->
  exists cs es, stream fuel 0 empty_str 0 max_level = Some cs /\
    collect_hierarchy_entries fuel max_level = Some es /\ collected_from cs es.
Proof.
  intros H.
  assert (is_Some (stream fuel 0 empty_str 0 max_level)) as [cs Hs].
  { destruct H as [[Hr Hf]|[Hm Hf]]; [by eapply stream_enough|apply stream_limited; [done|lia]]. }
  destruct (collect_of_stream _ _ _ Hs) as (es & Hes & Hc). by exists cs, es.
Qed.

End Collect.
