(* ===== verification/WaveNames.v ===== *)
(** * The names suggested for an unknown signal

    [wellen_impl/src/lib.rs], [get_most_likely_signal_name]: when a name is not found,
    the names of the waveform that share most leading path segments with it are
    logged. *)

From S2P Require Import Prelude Bytes State WaveValue WaveData WaveImpl WaveSession Wave HierarchyCollect.
From stdpp Require Import sorting.
From Stdlib Require Import Sorting.Sorted.

Section Names.
Context {wellen : Wellen} {serde : Serde} {allocator : Allocator}.

(** [zip], [take_while], [count]. *)
Fixpoint common_prefix (a b : list (list byte)) : nat :=
  match a, b with
  | x :: a, y :: b => if bool_decide (x = y) then S (common_prefix a b) else O
  | _, _ => O
  end.

Definition lest_score (target candidate : string) : nat :=
  common_prefix (split_dot (as_bytes target)) (split_dot (as_bytes candidate)).

(** The comparison of [sort_unstable_by]: higher scores first, then by name. *)
Definition closer (a b : nat * string) : Prop :=
  (b.1 < a.1)%nat \/ b.1 = a.1 /\ bytes_cmp (as_bytes a.2) (as_bytes b.2) <> Gt.
#[local] Instance closer_dec : RelDecision closer.
Proof. intros a b. unfold closer. apply _. Defined.

Definition scored (h : Hierarchy) (name : string) : list (nat * string) :=
  map (fun v => (lest_score name (var_full_name h v), var_full_name h v)) (all_vars h).

Definition get_most_likely_signal_name (name : string) (n : nat) : WM (list string) :=
  let! hierarchy := get_hierarchy in
  ret (map snd (take n (merge_sort closer (scored hierarchy name)))).

(** The score is the length of the longest common prefix of the two paths. *)
Lemma common_prefix_spec a : forall b,
  take (common_prefix a b) a = take (common_prefix a b) b /\
  forall k x y, k = common_prefix a b -> a !! k = Some x -> b !! k = Some y -> x <> y.
Proof.
  induction a as [|x a IH]; intros [|y b]; cbn; try by split; intros; simplify_eq.
  destruct (decide (x = y)) as [->|Hne].
  - rewrite bool_decide_true by done. destruct (IH b) as [Ht Hd]. split; [cbn; by rewrite Ht|].
    intros k u v -> Hu Hv. by eapply Hd.
  - rewrite bool_decide_false by done. split; [done|]. intros k u v -> [= ->] [= ->]. done.
Qed.

#[local] Instance closer_trans : Transitive closer.
Proof.
  intros [i a] [j b] [k c]. unfold closer. cbn -[as_bytes]. intros [H1|[-> H1]] [H2|[-> H2]]; try (left; lia).
  right. split; [done|]. destruct (bytes_cmp (as_bytes a) (as_bytes b)) eqn:E1; [| |done];
    destruct (bytes_cmp (as_bytes b) (as_bytes c)) eqn:E2; try done.
  - apply bytes_cmp_eq in E1, E2. by rewrite E1, E2, bytes_cmp_refl.
  - apply bytes_cmp_eq in E1. by rewrite E1, E2.
  - apply bytes_cmp_eq in E2. by rewrite <- E2, E1.
  - by rewrite (bytes_cmp_trans _ _ _ E1 E2).
Qed.

#[local] Instance closer_total : Total closer.
Proof.
  intros [i a] [j b]. unfold closer. cbn -[as_bytes]. destruct (Nat.lt_trichotomy i j) as [?|[->|?]]; [by right; left| |by left; left].
  rewrite (bytes_cmp_antisym (as_bytes a)). destruct (bytes_cmp (as_bytes a) (as_bytes b)); cbn; [left; right|left; right|right; right]; by split.
Qed.

#[local] Instance closer_antisym : AntiSymm (=) closer.
Proof.
  intros [i a] [j b]. unfold closer. cbn -[as_bytes]. intros [H1|[-> H1]] [H2|[H H2]]; try lia.
  rewrite (bytes_cmp_antisym (as_bytes a)) in H2. destruct (bytes_cmp (as_bytes a) (as_bytes b)) eqn:E; try done.
  apply bytes_cmp_eq in E. f_equal. by apply as_bytes_inj.
Qed.

Lemma sorted_app_le (l1 l2 : list (nat * string)) x y :
  StronglySorted closer (l1 ++ l2) -> x ∈ l1 -> y ∈ l2 -> closer x y.
Proof.
  induction l1 as [|z l1 IH]; intros Hs Hx Hy; [by apply elem_of_nil in Hx|]. cbn in Hs. inversion Hs as [|? ? Hs' Hall]; subst.
  apply elem_of_cons in Hx as [->|Hx]; [|by apply IH]. rewrite Forall_forall in Hall. apply Hall, elem_of_app. by right.
Qed.

(** The names suggested are the first of the whole list in the order of closeness:
    none that is left out is closer than one that is shown.  An unstable sort cannot
    give another list. *)
Theorem suggested_names h name n w :
  HIERARCHY w = Some h ->
  exists shown rest, get_most_likely_signal_name name n w = Ret (map snd shown) w /\
    length shown = Nat.min n (length (all_vars h)) /\ shown ++ rest ≡ₚ scored h name /\
    StronglySorted closer (shown ++ rest) /\ (forall x y, x ∈ shown -> y ∈ rest -> closer x y) /\
    forall sorted, StronglySorted closer sorted -> sorted ≡ₚ scored h name -> sorted = shown ++ rest.
Proof.
  intros Hh. set (l := merge_sort closer (scored h name)).
  assert (StronglySorted closer l) as Hs by (apply StronglySorted_merge_sort; apply _).
  assert (l ≡ₚ scored h name) as Hp by apply merge_sort_Permutation.
  exists (take n l), (drop n l). rewrite take_drop. split; [|split; [|split; [done|split; [done|split]]]].
  - unfold get_most_likely_signal_name, get_hierarchy, static_, bind. by rewrite Hh.
  - rewrite length_take, Hp. unfold scored. by rewrite length_map.
  - intros x y. apply sorted_app_le. by rewrite take_drop.
  - intros sorted Hss Hsp. apply (StronglySorted_unique closer); [done|done|]. by rewrite Hsp, Hp.
Qed.

End Names.

(** ** The small waveform *)

Module NamesDemo.
Import Demo.

Example names_near : get_most_likely_signal_name "top.sub.x" 2 (world demo_live) =
  Ret ["top.alias"%string; "top.bus"%string] (world demo_live).
Proof. vm_compute. reflexivity. Qed.

Lemma suggested_names_witness : exists shown rest : list (nat * string),
  get_most_likely_signal_name "top.sub.x" 2 (world demo_live) = Ret (map snd shown) (world demo_live) /\ length shown = 2%nat /\
  forall x y, x ∈ shown -> y ∈ rest -> closer x y.
Proof.
  destruct (suggested_names (wellen := demo) tt "top.sub.x" 2 (world demo_live)) as (shown & rest & E & Hl & _ & _ & H & _); [reflexivity|].
  exists shown, rest. split; [exact E|]. split; [exact Hl|exact H].
Defined.

End NamesDemo.
