(* ===== verification/HierarchyQuery.v ===== *)
(** * What a hierarchy query answers

    The filters and the emission of [vpiml_collect_hierarchy]
    ([libverilua/src/vpi_access/hierarchy_collect.rs], lines 478-637; the
    definitions are in [HierarchyCollect]): which entries reach the callback, the
    dotted prefixes of tree mode, the error results, and that a query answered
    from the process-wide cache (which holds every level) is the query answered
    by a walk that stops at the level limit. *)

From S2P Require Import Prelude Bytes HierarchyCache HierarchyCollect.
From stdpp Require Import sorting.
#[local] Open Scope Z_scope.

(** ** Dotted prefixes *)

(** [p] is [q], or [q] goes on with a dot after [p]. *)
Definition dotted_prefix (p q : list byte) : Prop := p = q \/ exists r, q = p ++ dot :: r.

Fixpoint unsplit (c : byte) (segs : list (list byte)) : list byte :=
  match segs with
  | [] => []
  | [seg] => seg
  | seg :: segs => seg ++ c :: unsplit c segs
  end.

Lemma split_on_ne c l : split_on c l <> [].
Proof. destruct l as [|b l]; cbn; [done|]. case_bool_decide; [done|]. by destruct (split_on c l). Qed.

Lemma unsplit_split c l : unsplit c (split_on c l) = l.
Proof.
  induction l as [|b l IH]; [done|]. cbn [split_on].
  pose proof (split_on_ne c l) as Hne. destruct (split_on c l) as [|seg segs]; [done|].
  case_bool_decide as Hb; cbn in *; [by rewrite IH, Hb|].
  destruct segs as [|seg2 segs]; cbn in *; by rewrite <- IH.
Qed.

Lemma split_on_free c l : Forall (fun seg => c ∉ seg) (split_on c l).
Proof.
  induction l as [|b l IH]; cbn; [by repeat constructor; apply not_elem_of_nil|].
  case_bool_decide as Hb; [constructor; [apply not_elem_of_nil|done]|].
  destruct (split_on c l) as [|seg segs]; [by repeat constructor; rewrite list_elem_of_singleton|].
  apply Forall_cons in IH as [Hs IH]. constructor; [|done]. rewrite elem_of_cons. naive_solver.
Qed.

(** The nonempty runs of leading segments, dot-separated. *)
Fixpoint run_of (p : list byte) (segs : list (list byte)) : Prop :=
  match segs with
  | [] => False
  | seg :: segs => p = seg \/ exists t, p = seg ++ dot :: t /\ run_of t segs
  end.

Lemma app_dot_free (s1 s2 r1 r2 : list byte) : dot ∉ s1 -> s1 ++ dot :: r1 = s2 ++ dot :: r2 ->
  (s1 = s2 /\ r1 = r2) \/ exists t, s2 = s1 ++ dot :: t /\ r1 = t ++ dot :: r2.
Proof.
  revert s2. induction s1 as [|b s1 IH]; intros [|b2 s2] Hd E; cbn in E; simplify_eq.
  - by left.
  - right. by eexists.
  - exfalso. apply Hd. by left.
  - destruct (IH s2) as [[-> ->]|(t & -> & ->)]; [|done|by left|right; by exists t].
    intros Hin. apply Hd. by right.
Qed.

Lemma run_of_prefix segs : segs <> [] -> Forall (fun seg => dot ∉ seg) segs ->
  forall p, run_of p segs <-> dotted_prefix p (unsplit dot segs).
Proof.
  intros Hne Hfree. induction Hfree as [|seg segs Hd Hfree IH]; [done|]. intros p. cbn [run_of].
  destruct segs as [|seg2 segs].
  - cbn. unfold dotted_prefix. split; [naive_solver|]. intros [->|[r E]]; [by left|].
    exfalso. apply Hd. rewrite E. apply elem_of_app. right. by left.
  - specialize (IH ltac:(done)). change (unsplit dot (seg :: seg2 :: segs)) with (seg ++ dot :: unsplit dot (seg2 :: segs)).
    split.
    + intros [->|(t & -> & Ht%IH)]; [right; by eexists|]. destruct Ht as [->|[r ->]]; [by left|].
      right. exists r. by rewrite <- app_assoc.
    + intros [->|[r E]].
      * right. eexists. split; [done|]. apply IH. by left.
      * apply app_dot_free in E as [[-> E]|(t & -> & E)]; [by left| |done].
        right. exists t. split; [done|]. apply IH. right. by exists r.
Qed.

Lemma str_len_eqb s : (str_len s =? 0)%nat = bool_decide (as_bytes s = []).
Proof.
  destruct (Nat.eqb_spec (str_len s) 0) as [E|E]; symmetry.
  - apply bool_decide_eq_true. by rewrite (str_len_0 _ E).
  - apply bool_decide_eq_false. intros E2. apply E. unfold str_len. by rewrite E2.
Qed.

Lemma prefixes_from_run segs : forall prefix, as_bytes prefix <> [] -> forall p,
  p ∈ prefixes_from prefix segs <-> exists t, as_bytes p = as_bytes prefix ++ dot :: t /\ run_of t segs.
Proof.
  induction segs as [|seg segs IH]; intros prefix Hp p; cbn [prefixes_from run_of].
  - rewrite elem_of_nil. naive_solver.
  - rewrite str_len_eqb, bool_decide_false by done. set (q := join_path prefix (of_bytes seg)).
    assert (as_bytes q = as_bytes prefix ++ dot :: seg) as Hq by (unfold q, join_path; by rewrite !as_bytes_of_bytes).
    rewrite elem_of_cons, IH, Hq by by rewrite Hq; destruct (as_bytes prefix). split.
    + intros [->|(t & E & Ht)]; [exists seg; auto|].
      exists (seg ++ dot :: t). rewrite E, <- app_assoc. split; [done|]. right. by exists t.
    + intros (t & E & [->|(t2 & -> & Ht)]).
      * left. apply as_bytes_inj. by rewrite Hq.
      * right. exists t2. by rewrite E, <- app_assoc.
Qed.

(** A path with a first segment: not empty and not starting with a dot. *)
Definition rooted (s : string) : Prop :=
  match as_bytes s with [] => False | b :: _ => b <> dot end.
#[export] Instance rooted_dec s : Decision (rooted s).
Proof. unfold rooted. destruct (as_bytes s); apply _. Defined.

Lemma path_prefixes_spec q p : rooted q -> p ∈ path_prefixes q <-> dotted_prefix (as_bytes p) (as_bytes q).
Proof.
  intros Hq. unfold path_prefixes.
  pose proof (unsplit_split dot (as_bytes q)) as Hu. pose proof (split_on_free dot (as_bytes q)) as Hfree.
  pose proof (run_of_prefix _ (split_on_ne dot (as_bytes q)) Hfree) as Hrun. rewrite Hu in Hrun. rewrite <- Hrun.
  destruct (split_on dot (as_bytes q)) as [|seg segs] eqn:E; [by apply split_on_ne in E|].
  assert (seg <> []) as Hseg.
  { unfold rooted in Hq. destruct (as_bytes q) as [|b l]; [done|]. cbn in E.
    rewrite bool_decide_false in E by done. destruct (split_on dot l); congruence. }
  cbn [prefixes_from run_of]. replace (str_len empty_str =? 0)%nat with true by done.
  rewrite elem_of_cons, prefixes_from_run, as_bytes_of_bytes by by rewrite as_bytes_of_bytes.
  assert (p = of_bytes seg <-> as_bytes p = seg) as ->; [|done]. split.
  - intros ->. by rewrite as_bytes_of_bytes.
  - intros <-. by rewrite of_bytes_as_bytes.
Qed.

(** ** What a query emits *)

Section Query.
Context {vpi : DesignVpi}.

Definition in_range (max_level : Z) (e : HierarchyEntry) : bool := (max_level =? 0) || (level e <=? max_level).

(** Whether the query shows the entry: it matches, or in tree mode it is above
    an entry in range that does. *)
Definition shown (tree : bool) (ws : list string) (f : option string) (range : list HierarchyEntry) (e : HierarchyEntry) : Prop :=
  if tree && negb (length ws =? 0)%nat
  then exists d, d ∈ range /\ entry_matches ws f d = true /\
                 dotted_prefix (as_bytes (full_path e)) (as_bytes (full_path d))
  else entry_matches ws f e = true.

(** The answer expected of a query over the collected entries. *)
Definition answers (all : list HierarchyEntry) (max_level : Z) (ws : list string) (f : option string) (tree need : bool)
    (r : list HierarchyItem + HierErr) : Prop :=
  let range := List.filter (in_range max_level) all in
  let lacking := (f <> None \/ need = true) /\ (forall e, e ∈ range -> module_name e = None) in
  match r with
  | inr err => lacking /\ err = match f with Some _ => MODULE_NAME_ONLY_FSDB | None => SHOW_DEF_NAME_ONLY_FSDB end
  | inl items => ~ lacking /\
      exists es, sublist es range /\ (forall e, e ∈ range -> e ∈ es <-> shown tree ws f range e) /\
        items = flat_map emit_hierarchy_entry es
  end.

Lemma filter_sublist {A} (g : A -> bool) l : sublist (List.filter g l) l.
Proof. induction l as [|x l IH]; cbn; [constructor|]. destruct (g x); by constructor. Qed.

Lemma elem_of_Filter {A} (g : A -> bool) l x : x ∈ List.filter g l <-> x ∈ l /\ g x = true.
Proof. rewrite !list_elem_of_In. apply filter_In. Qed.

Lemma filter_all_true {A} (g : A -> bool) l : (forall x, x ∈ l -> g x = true) -> List.filter g l = l.
Proof.
  induction l as [|x l IH]; intros H; cbn; [done|]. rewrite (H x) by by left. f_equal. apply IH. intros. apply H. by right.
Qed.

Lemma in_range_filter max_level all :
  (if max_level =? 0 then all else List.filter (fun e => level e <=? max_level) all) =
  List.filter (in_range max_level) all.
Proof.
  unfold in_range. destruct (max_level =? 0); [|done]. symmetry. by apply filter_all_true.
Qed.

Lemma has_data_spec es :
  existsb (fun e => match module_name e with Some _ => true | None => false end) es = false <->
  forall e, e ∈ es -> module_name e = None.
Proof.
  rewrite <- not_true_iff_false, existsb_exists. split.
  - intros H e He. destruct (module_name e) eqn:E; [|done]. exfalso. apply H. exists e.
    by rewrite list_elem_of_In in He; rewrite E.
  - intros H (e & He & E). rewrite (H e) in E by by apply list_elem_of_In. done.
Qed.

Lemma visible_spec ws f es p : (forall e, e ∈ es -> rooted (full_path e)) ->
  p ∈ visible_paths ws f es <->
  exists d, d ∈ es /\ entry_matches ws f d = true /\ dotted_prefix (as_bytes p) (as_bytes (full_path d)).
Proof.
  intros Hr. unfold visible_paths. rewrite elem_of_list_to_set, list_elem_of_In, in_flat_map.
  apply exist_proper. intros d. rewrite <- !list_elem_of_In, elem_of_Filter. split.
  - intros [[Hd Hm] Hp]. by rewrite <- path_prefixes_spec by auto.
  - intros (Hd & Hm & Hp). by rewrite path_prefixes_spec by auto.
Qed.

(** The entries the two emission loops keep. *)
Lemma shown_entries tree ws f range : (forall e, e ∈ range -> rooted (full_path e)) ->
  exists es, sublist es range /\ (forall e, e ∈ range -> e ∈ es <-> shown tree ws f range e) /\
    (if tree && negb (length ws =? 0)%nat
     then @inl _ HierErr (flat_map emit_hierarchy_entry (List.filter (fun e => bool_decide (full_path e ∈ visible_paths ws f range)) range))
     else inl (flat_map emit_hierarchy_entry (List.filter (entry_matches ws f) range))) =
    inl (flat_map emit_hierarchy_entry es).
Proof.
  intros Hr. unfold shown. destruct (tree && _); eexists; (split; [apply filter_sublist|]; split; [|done]);
    intros e He; rewrite elem_of_Filter.
  - rewrite bool_decide_eq_true, visible_spec by done. naive_solver.
  - naive_solver.
Qed.

Lemma emit_hierarchy_answers all max_level ws f tree need :
  (forall e, e ∈ all -> rooted (full_path e)) ->
  answers all max_level ws f tree need (emit_hierarchy all max_level ws f tree need).
Proof.
  intros Hr. unfold emit_hierarchy, answers. rewrite in_range_filter.
  set (range := List.filter (in_range max_level) all).
  assert (forall e, e ∈ range -> rooted (full_path e)) as Hrr by (intros e [He _]%elem_of_Filter; auto).
  set (has_filter := match f with Some _ => true | None => false end).
  assert (((has_filter || need) = true) <-> (f <> None \/ need = true)) as Hn
    by (unfold has_filter; rewrite orb_true_iff; destruct f; naive_solver).
  pose proof (has_data_spec range) as Hd. set (data := existsb _ range) in *.
  destruct ((has_filter || need) && negb data) eqn:E.
  - apply andb_true_iff in E as [E1 E2%negb_true_iff]. split; [split; [by apply Hn|by apply Hd]|].
    unfold has_filter. by destruct f.
  - destruct (shown_entries tree ws f range Hrr) as (es & Hs & Hiff & ->). split; [|by exists es].
    intros [Ha%Hn Hb%Hd]. by rewrite Ha, Hb in E.
Qed.

(** The filters [vpiml_collect_hierarchy] reads from its C strings. *)
Definition name_filter (module_name : option (list byte)) : option string :=
  match c_char_to_str_opt module_name with
  | Some n => if (str_len n =? 0)%nat then None else Some n | None => None end.

(** C33: a hierarchy query over a design of bounded depth returns a result, and
    that result is the answer the filters ask for: the DPI and null-callback
    errors first; an error exactly when module names are needed and no entry in
    range has one; otherwise the callback gets the entries in range, in path
    order, that match the wildcards and the module name, or (tree mode with
    wildcards) that are dotted prefixes of an entry that does. *)
Theorem hierarchy_query_spec (rank : Z -> nat) (fuel : nat) (dpi cb : bool) (max_level : Z)
    (wildcard mname : option (list byte)) (tree need : Z) :
  depth_bounded rank -> (rank 0%Z < fuel)%nat ->
  (forall es e, collect_hierarchy_entries fuel max_level = Some es -> e ∈ es -> rooted (full_path e)) ->
  exists r, vpiml_collect_hierarchy dpi cb None fuel max_level wildcard mname tree need = Some (r, None) /\
    (dpi = true -> r = inr UNSUPPORTED_DPI) /\
    (dpi = false -> cb = false -> r = inr INTERNAL_NULL_CB) /\
    (dpi = false -> cb = true -> exists cs all,
       stream fuel 0 empty_str 0 max_level = Some cs /\ collected_from cs all /\
       answers all max_level (parse_wildcard_matchers wildcard) (name_filter mname)
         (negb (tree =? 0)) (negb (need =? 0)) r).
Proof.
  intros Hrank Hf Hroot. unfold vpiml_collect_hierarchy.
  destruct dpi; [by eexists|]. destruct cb; cbn [negb]; [|by eexists].
  destruct (stream_enough rank fuel Hrank 0 empty_str 0 max_level Hf) as [cs Hs].
  destruct (collect_of_stream _ _ _ Hs) as (all & Hall & Hc). rewrite Hall.
  eexists. split; [done|]. do 2 (split; [done|]). intros _ _. exists cs, all.
  split; [done|]. split; [done|]. apply emit_hierarchy_answers. eauto.
Qed.

(** ** The cache and the level limit *)

(** Every occurrence of a path is found at one level. *)
Definition one_level (cs : list HierarchyEntry) : Prop :=
  forall c d, c ∈ cs -> d ∈ cs -> full_path c = full_path d -> level c = level d.

Definition upto (max_level : Z) (e : HierarchyEntry) : bool := level e <=? max_level.

Lemma filter_all_false {A} (g : A -> bool) l : (forall x, x ∈ l -> g x = false) -> List.filter g l = [].
Proof.
  induction l as [|x l IH]; intros H; cbn; [done|]. rewrite (H x) by by left. apply IH. intros. apply H. by right.
Qed.

Lemma leaf_stream_level full lvl objs : forall visited e, e ∈ leaf_stream full lvl visited objs -> level e = lvl + 1.
Proof.
  induction objs as [|[ty obj] objs IH]; intros visited e; cbn; [by intros ?%elem_of_nil|].
  destruct (c_char_to_str_opt _); [|apply IH]. destruct (bool_decide _); [apply IH|].
  intros [->|He]%elem_of_cons; [done|by eapply IH].
Qed.

Lemma mapM_elem_inv {A B} (g : A -> option B) l ys y : mapM g l = Some ys -> y ∈ ys -> exists x, g x = Some y.
Proof.
  intros Hm%mapM_Some_1. induction Hm as [|x z l ys Hx Hm IH]; [by intros ?%elem_of_nil|].
  intros [->|Hy]%elem_of_cons; [by exists x|auto].
Qed.

Lemma stream_level fuel : forall module parent lvl max_level cs,
  stream fuel module parent lvl max_level = Some cs -> forall e, e ∈ cs -> lvl <= level e.
Proof.
  induction fuel as [|fuel IH]; intros module parent lvl max_level cs; cbn [stream];
    (destruct (_ && _); [by intros [= <-] e ?%elem_of_nil|]); [done|].
  intros (css & Hm & ->)%fmap_Some_1 e He. rewrite list_elem_of_In in He. apply in_concat in He as (c & Hc & He).
  apply list_elem_of_In in Hc, He.
  destruct (mapM_elem_inv _ _ _ _ Hm Hc) as (child & Hg).
  destruct (c_char_to_str_opt _) as [name|]; [|injection Hg as <-; by apply elem_of_nil in He].
  apply fmap_Some_1 in Hg as (rest & Hrest & ->).
  apply elem_of_cons in He as [->|He]; [cbn; lia|]. apply elem_of_app in He as [He|He].
  - destruct (_ || _); [|by apply elem_of_nil in He]. apply leaf_stream_level in He. lia.
  - specialize (IH _ _ _ _ _ Hrest _ He). lia.
Qed.

Lemma mapM_map_filter {A B} (g0 g1 : A -> option (list B)) keep l css :
  (forall x c, g0 x = Some c -> g1 x = Some (List.filter keep c)) ->
  mapM g0 l = Some css -> mapM g1 l = Some (map (List.filter keep) css).
Proof.
  intros Hg. revert css. induction l as [|x l IH]; intros css; [by intros [= <-]|]. rewrite !mapM_cons.
  destruct (g0 x) as [c|] eqn:E; [|done]. rewrite (Hg _ _ E).
  destruct (mapM g0 l) as [cs|]; [|done]. intros [= <-]. by rewrite (IH cs eq_refl).
Qed.

(** A walk with a level limit finds what the full walk finds up to that level. *)
Lemma stream_upto fuel max_level : max_level <> 0 -> forall module parent lvl cs,
  stream fuel module parent lvl 0 = Some cs ->
  stream fuel module parent lvl max_level = Some (List.filter (upto max_level) cs).
Proof.
  intros Hmax. induction fuel as [|fuel IH]; intros module parent lvl cs Hs; [done|].
  pose proof (stream_level _ _ _ _ _ _ Hs) as Hlvl. cbn [stream] in *. rewrite Z.eqb_refl in Hs. cbn [negb andb orb] in Hs.
  destruct (Z.eqb_spec max_level 0); [done|]. cbn [negb andb orb]. destruct (Z.ltb_spec max_level lvl) as [Hlt|Hge].
  - rewrite filter_all_false; [done|]. intros e He. specialize (Hlvl _ He). unfold upto. lia.
  - apply fmap_Some_1 in Hs as (css & Hm & ->). rewrite <- concat_filter_map.
    erewrite mapM_map_filter; [done| |exact Hm].
    intros child c. cbn beta. destruct (c_char_to_str_opt _) as [name|]; [|by intros [= <-]].
    intros (rest & Hrest & ->)%fmap_Some_1. rewrite (IH _ _ _ _ Hrest). cbn [fmap option_fmap option_map List.filter].
    unfold upto at 2. cbn [level module_entry]. rewrite (proj2 (Z.leb_le _ _) Hge), List.filter_app. do 3 f_equal.
    destruct (Z.ltb_spec lvl max_level); symmetry.
    + apply filter_all_true. intros e He%leaf_stream_level. unfold upto. lia.
    + apply filter_all_false. intros e He%leaf_stream_level. unfold upto. lia.
Qed.

Lemma find_filter_keep {A} (P g : A -> bool) l : (forall x, x ∈ l -> P x = true -> g x = true) ->
  List.find P (List.filter g l) = List.find P l.
Proof.
  induction l as [|x l IH]; intros H; cbn; [done|].
  assert (List.find P (List.filter g l) = List.find P l) as IH' by (apply IH; intros; apply H; [by right|done]).
  destruct (P x) eqn:EP; [rewrite (H x) by (done || by left)|destruct (g x)]; cbn; rewrite ?EP; done.
Qed.

Lemma find_filter_drop {A} (P g : A -> bool) l : (forall x, x ∈ l -> P x = true -> g x = false) ->
  List.find P (List.filter g l) = None.
Proof.
  induction l as [|x l IH]; intros H; cbn; [done|].
  assert (List.find P (List.filter g l) = None) as IH' by (apply IH; intros; apply H; [by right|done]).
  destruct (g x) eqn:Eg; [|done]. cbn. destruct (P x) eqn:EP; [|done]. rewrite (H x) in Eg; [done|by left|done].
Qed.

Lemma find_existsb {A} (P : A -> bool) l : existsb P l = match List.find P l with Some _ => true | None => false end.
Proof. induction l as [|x l IH]; cbn; [done|]. by destruct (P x). Qed.

Lemma merged_level cs p e : one_level cs -> merged cs p = Some e ->
  forall d, d ∈ cs -> full_path d = p -> level d = level e.
Proof.
  intros Hone (c & Hc & ->)%fmap_Some_1 d Hd Hp. apply find_some in Hc as [Hc Hcp].
  unfold at_path in Hcp. apply bool_decide_eq_true in Hcp.
  assert (level d = level c) as -> by (apply Hone; [done|by apply list_elem_of_In|congruence]).
  by destruct (existsb _ cs).
Qed.

Lemma merged_filter max_level cs p : one_level cs ->
  merged (List.filter (upto max_level) cs) p =
  match merged cs p with Some e => if upto max_level e then Some e else None | None => None end.
Proof.
  intros Hone. destruct (merged cs p) as [e|] eqn:E.
  - pose proof (merged_level _ _ _ Hone E) as Hl. unfold merged in *. destruct (upto max_level e) eqn:Eu.
    + rewrite <- E, !find_existsb, !find_filter_keep; [done| |].
      * intros x Hx. unfold at_path. rewrite bool_decide_eq_true. intros Hp. unfold upto in *. by rewrite (Hl _ Hx Hp).
      * intros x Hx (Hp & _)%andb_true_iff. unfold at_path in Hp. rewrite bool_decide_eq_true in Hp.
        unfold upto in *. by rewrite (Hl _ Hx Hp).
    + rewrite find_filter_drop; [done|]. intros x Hx. unfold at_path. rewrite bool_decide_eq_true. intros Hp.
      unfold upto in *. by rewrite (Hl _ Hx Hp).
  - unfold merged in *. apply fmap_None in E. rewrite find_filter_drop; [done|].
    intros x Hx Hp. rewrite list_elem_of_In in Hx. by rewrite (find_none _ _ E x Hx) in Hp.
Qed.

Lemma StronglySorted_Filter {A} (R : A -> A -> Prop) g l : StronglySorted R l -> StronglySorted R (List.filter g l).
Proof.
  induction 1 as [|x l Hs IH Hx]; cbn; [constructor|]. destruct (g x); [|done]. constructor; [done|].
  apply Forall_forall. intros y [Hy _]%elem_of_Filter. by eapply Forall_forall in Hx.
Qed.

Lemma collected_from_unique cs es1 es2 : collected_from cs es1 -> collected_from cs es2 -> es1 = es2.
Proof.
  intros (Hs1 & Hn1 & H1) (Hs2 & Hn2 & H2). apply (StronglySorted_unique_strong entry_le); [|done|done|].
  - intros a b Ha Hb Hab Hba. apply H1 in Ha. apply H2 in Hb.
    assert (full_path a = full_path b) as E; [|by rewrite E, Hb in Ha; injection Ha].
    unfold entry_le in *. rewrite (bytes_cmp_antisym (as_bytes (full_path a))) in Hba. apply as_bytes_inj, bytes_cmp_eq.
    by destruct (bytes_cmp _ _).
  - apply NoDup_Permutation; [by eapply NoDup_fmap_1|by eapply NoDup_fmap_1|]. intros e. by rewrite H1, H2.
Qed.

Lemma collected_filter max_level cs es : one_level cs -> collected_from cs es ->
  collected_from (List.filter (upto max_level) cs) (List.filter (upto max_level) es).
Proof.
  intros Hone (Hs & Hn & H). split; [by apply StronglySorted_Filter|]. split.
  - eapply sublist_NoDup; [apply Hn|]. apply (fmap_sublist _), filter_sublist.
  - intros e. rewrite elem_of_Filter, H, merged_filter by done.
    destruct (merged cs (full_path e)) as [d|]; [|naive_solver].
    destruct (upto max_level d) eqn:E; split; try done; [by intros [? _]|by intros [= <-]|by intros [[= <-] ?]; congruence].
Qed.

Lemma emit_upto max_level all ws f tree need : max_level <> 0 ->
  emit_hierarchy (List.filter (upto max_level) all) max_level ws f tree need = emit_hierarchy all max_level ws f tree need.
Proof.
  intros Hmax. unfold emit_hierarchy. destruct (Z.eqb_spec max_level 0); [done|].
  rewrite (filter_all_true (fun e => level e <=? max_level) (List.filter (upto max_level) all)); [done|].
  by intros e [_ He]%elem_of_Filter.
Qed.

(** C32: the hierarchy cache does not change answers.  When the process-wide
    cache serves what a full walk collects, a query with any level limit gives
    the items (or the error) that the build without the cache gives with a walk
    that stops at that limit, provided no path is found at two levels. *)
Theorem cached_query_agrees (fuel : nat) (max_level : Z) (cs all : list HierarchyEntry) (c : CacheEnv)
    (wildcard mname : option (list byte)) (tree need : Z) :
  stream fuel 0 empty_str 0 0 = Some cs -> one_level cs ->
  collect_hierarchy_entries fuel 0 = Some all -> fst (get_or_init_hierarchy_cache (fun _ => all) c) = all ->
  exists r, vpiml_collect_hierarchy false true None fuel max_level wildcard mname tree need = Some (r, None) /\
    vpiml_collect_hierarchy false true (Some c) fuel max_level wildcard mname tree need =
      Some (r, Some (snd (get_or_init_hierarchy_cache (fun _ => all) c))).
Proof.
  intros Hs Hone Hall Hc. unfold vpiml_collect_hierarchy. cbn [negb]. rewrite Hall.
  destruct (get_or_init_hierarchy_cache _ c) as [all' c'] eqn:E. cbn in Hc. subst all'.
  destruct (decide (max_level = 0)) as [->|Hmax]; [rewrite Hall; by eexists|].
  destruct (collect_of_stream _ _ _ Hs) as (all' & Hall' & Hcoll). rewrite Hall in Hall'. injection Hall' as <-.
  destruct (collect_of_stream _ _ _ (stream_upto _ _ Hmax _ _ _ _ Hs)) as (few & Hfew & Hcollf). rewrite Hfew.
  rewrite (collected_from_unique _ _ _ Hcollf (collected_filter max_level _ _ Hone Hcoll)).
  eexists. split; [done|]. by rewrite emit_upto.
Qed.

End Query.

(** ** A design: [tb] over [tb.dut], with a clock found as a net and a register *)

Module QueryDemo.
Definition bs (s : string) : list byte := as_bytes s.

#[local] Instance design : DesignVpi := {|
  iterate_scan ty h :=
    if ty =? hc_vpiModule then (if h =? 0 then [1] else if h =? 1 then [2; 9] else [])
    else if h =? 2 then (if ty =? hc_vpiNet then [3] else if ty =? hc_vpiReg then [4; 5] else []) else [];
  get_str_name h :=
    if h =? 1 then Some (bs "tb") else if h =? 2 then Some (bs "dut") else if h =? 3 then Some (bs "clk")
    else if h =? 4 then Some (bs "tb.dut.clk") else if h =? 5 then Some (bs "count") else None;
  get_str_def_name h := if h =? 2 then Some (bs "Counter") else None;
  get_size h := if h =? 5 then 8 else 1;
  wild_matches p s := bool_decide (p = "*"%string) || bool_decide (p = s)
|}.

Definition demo_rank (h : Z) : nat := if h =? 0 then 2%nat else if h =? 1 then 1%nat else 0%nat.

Lemma demo_depth : depth_bounded demo_rank.
Proof.
  intros h c. unfold demo_rank. cbn.
  destruct (Z.eqb_spec h 0) as [->|]; [by intros ->%list_elem_of_singleton; cbn; lia|].
  destruct (Z.eqb_spec h 1) as [->|]; [|by intros ?%elem_of_nil].
  intros [Hc|Hc]%elem_of_cons; [|apply list_elem_of_singleton in Hc]; subst; cbn; lia.
Defined.

Definition demo_entries : list HierarchyEntry := [
  mkEntry "tb" None None 0 (-1);
  mkEntry "tb.dut" (Some "Counter"%string) None 1 (-1);
  mkEntry "tb.dut.clk" None (Some "reg"%string) 2 1;
  mkEntry "tb.dut.count" None (Some "reg"%string) 2 8 ].

Example demo_collect : collect_hierarchy_entries 4 0 = Some demo_entries.
Proof. vm_compute. reflexivity. Qed.

(** The leaf query in tree mode shows the two scopes above the match. *)
Example demo_tree :
  (r ← vpiml_collect_hierarchy false true None 4 0 (Some (bs " tb.dut.clk ,, x")) None 1 0;
   match r.1 with inl items => Some (map i_path items) | inr _ => None end) =
  Some ["tb"; "tb.dut"; "tb.dut.clk"]%string.
Proof. vm_compute. reflexivity. Qed.

Example collected_hierarchy_spec_witness :
  depth_bounded demo_rank /\ exists cs es, stream 3 0 empty_str 0 0 = Some cs /\
    collect_hierarchy_entries 3 0 = Some es /\ collected_from cs es.
Proof.
  split; [exact demo_depth|]. apply (collected_hierarchy_spec demo_rank 3 0). left. split; [exact demo_depth|cbn; lia].
Defined.

Lemma demo_rooted es e : collect_hierarchy_entries 4 0 = Some es -> e ∈ es -> rooted (full_path e).
Proof.
  rewrite demo_collect. intros [= <-]. revert e. apply Forall_forall. by repeat constructor.
Qed.

Example hierarchy_query_spec_witness :
  exists r, vpiml_collect_hierarchy false true None 4 0 (Some (bs "tb.dut.clk")) None 1 1 = Some (r, None) /\
    (false = true -> r = inr UNSUPPORTED_DPI) /\ (false = false -> true = false -> r = inr INTERNAL_NULL_CB) /\
    (false = false -> true = true -> exists cs all, stream 4 0 empty_str 0 0 = Some cs /\ collected_from cs all /\
       answers all 0 (parse_wildcard_matchers (Some (bs "tb.dut.clk"))) (name_filter None)
         (negb (1 =? 0)) (negb (1 =? 0)) r).
Proof.
  apply (hierarchy_query_spec demo_rank 4 false true 0 _ None 1 1); [exact demo_depth|cbn; lia|exact demo_rooted].
Defined.

(** What the walk finds: the clock twice. *)
Definition demo_stream : list HierarchyEntry := [
  mkEntry "tb" None None 0 (-1);
  mkEntry "tb.dut" (Some "Counter"%string) None 1 (-1);
  mkEntry "tb.dut.clk" None (Some "wire"%string) 2 1;
  mkEntry "tb.dut.clk" None (Some "reg"%string) 2 1;
  mkEntry "tb.dut.count" None (Some "reg"%string) 2 8 ].

Lemma demo_one_level : one_level demo_stream.
Proof.
  intros c d Hc Hd. unfold demo_stream in *. rewrite !elem_of_cons, elem_of_nil in Hc, Hd.
  destruct_or! Hc; destruct_or! Hd; subst; try done.
Qed.

Definition demo_cache : CacheEnv := mkCacheEnv None None None (fun _ => None) true.

(** The limit 1 leaves the clock and the counter out, with and without the
    cache. *)
Example cached_query_agrees_witness :
  exists r, vpiml_collect_hierarchy false true None 4 1 None None 0 0 = Some (r, None) /\
    vpiml_collect_hierarchy false true (Some demo_cache) 4 1 None None 0 0 =
      Some (r, Some (snd (get_or_init_hierarchy_cache (fun _ => demo_entries) demo_cache))).
Proof.
  apply (cached_query_agrees 4 1 demo_stream demo_entries demo_cache None None 0 0).
  - vm_compute. reflexivity.
  - exact demo_one_level.
  - exact demo_collect.
  - reflexivity.
Defined.
End QueryDemo.
