(* ===== verification/WaveHierarchy.v ===== *)
(** * Collecting the hierarchy of a waveform

    [hierarchy_collect.rs] walks the design through the VPI of the simulator it runs
    in; here that simulator is the waveform kernel.  [walk] is the recursion with its
    calls of [vpi_iterate], [vpi_scan], [vpi_get_str] and [vpi_get] made in order on
    the state of the kernel ([WaveHandles.v]).  It computes what [HierarchyCollect.v]
    computes from the abstract object model, on the model that the hierarchy of the
    waveform is ([design]): the kernel implements the interface the walk is proved
    against. *)

From S2P Require Import Prelude Bytes State WaveValue WaveData WaveImpl WaveSession WaveRead WaveFiles Wave WaveJit.
From S2P Require Import WaveHandles WaveHandlesFacts WaveVpi HierarchyCache HierarchyCollect.
From stdpp Require Import sorting.
#[local] Open Scope Z_scope.

(** ** The walk over VPI calls *)

Section Walk.
Context {wellen : Wellen} {serde : Serde} {allocator : Allocator}.

(** [loop { let x = vpi_scan(it); if x.is_null() { break; } .. }]. *)
Fixpoint scan_each {X} (fuel : nat) (it : Z) (body : Z -> X -> HM X) (x : X) : HM X :=
  match fuel with
  | O => out_of_fuel
  | S fuel =>
      let! child := vpi_scan (S fuel) it in
      if child =? 0 then ret x else
      let! x := body child x in
      scan_each fuel it body x
  end.

Definition vpi_for_each {X} (fuel : nat) (ty parent : Z) (body : Z -> X -> HM X) (x : X) : HM X :=
  let! it := vpi_iterate ty parent in
  if it =? 0 then ret x else scan_each fuel it body x.

(** [c_char_to_str_opt(vpi_get_str(..))]. *)
Definition get_str_opt (property h : Z) : HM (option string) :=
  let! p := vpi_get_str property h in ret (c_char_to_str_opt (as_bytes <$> p)).

(** A leaf object; the set of names is [visited_name_set]. *)
Definition visit_leaf (full : string) (lvl ty obj : Z) (x : gset string * Found) : HM (gset string * Found) :=
  let! name := get_str_opt vpiName obj in
  match name with
  | None => ret x
  | Some name =>
      if bool_decide (name ∈ x.1) then ret x else
      let! obj_bitwidth := vpi_get vpiSize obj in
      let e := mkEntry (if str_contains dot name then name else join_path full name) None
                 (Some (if ty =? hc_vpiNet then "wire"%string else "reg"%string)) (lvl + 1) obj_bitwidth in
      ret ({[name]} ∪ x.1, push_hierarchy_entry e x.2)
  end.

Fixpoint visit_leaves (breadth : nat) (types : list Z) (full : string) (lvl child : Z) (x : gset string * Found)
  : HM (gset string * Found) :=
  match types with
  | [] => ret x
  | ty :: types =>
      let! x := vpi_for_each breadth ty child (visit_leaf full lvl ty) x in
      visit_leaves breadth types full lvl child x
  end.

(** [vpiml_collect_hierarchy_recursive]; [breadth] bounds the scans of an iteration. *)
Fixpoint walk (breadth fuel : nat) (module : Z) (parent : string) (lvl max_level : Z) (st : Found) : HM Found :=
  if negb (max_level =? 0) && (max_level <? lvl) then ret st else
  match fuel with
  | O => out_of_fuel
  | S fuel =>
      vpi_for_each breadth hc_vpiModule module (fun child st =>
        let! name := get_str_opt vpiName child in
        match name with
        | None => ret st
        | Some name =>
            let full := path_under parent name in
            let! def := get_str_opt vpiDefName child in
            let e := mkEntry full (match def with Some n => if (str_len n =? 0)%nat then None else Some n | None => None end)
                       None lvl (-1) in
            let st := push_hierarchy_entry e st in
            let! st := (if (max_level =? 0) || (lvl <? max_level)
                        then let! x := visit_leaves breadth leaf_types full lvl child (∅, st) in ret x.2
                        else ret st) in
            walk breadth fuel child full (lvl + 1) max_level st
        end) st
  end.

(** [collect_hierarchy_entries]. *)
Definition vpi_collect_entries (breadth fuel : nat) (max_level : Z) : HM (list HierarchyEntry) :=
  let! st := walk breadth fuel 0 empty_str 0 max_level ([], ∅) in
  ret (merge_sort entry_le st.1).

(** ** The object model of a waveform *)

Definition module_id (s : ScopeRef) : Z := Zpos s~0.
Definition var_id (v : VarRef) : Z := Zpos v~1.

Definition design (content : SignalRef -> Signal) (h : Hierarchy) (wild : string -> string -> bool) : DesignVpi := {|
  iterate_scan ty x :=
    match x with
    | Z0 => if ty =? hc_vpiModule then map module_id (child_modules h None) else []
    | Zpos s~0 => if ty =? hc_vpiModule then map module_id (child_modules h (Some s))
                  else map var_id (distinct_vars h ty ∅ (scope_vars h s))
    | _ => []
    end;
  get_str_name x :=
    match x with
    | Zpos s~0 => Some (as_bytes (scope_name h s))
    | Zpos v~1 => Some (as_bytes (var_full_name h v))
    | _ => None
    end;
  get_str_def_name _ := None;
  get_size x := match x with Zpos v~1 => content_width content (var_signal_ref h v) | _ => 0 end;
  wild_matches := wild
|}.

End Walk.

(** More scans than a scope has members. *)
Definition narrow `{Wellen} (h : Hierarchy) (breadth : nat) : Prop :=
  (length (h_scopes h) < breadth)%nat /\
  forall s, (length (scope_scopes h s) < breadth)%nat /\ (length (scope_vars h s) < breadth)%nat.

Lemma distinct_vars_length `{Wellen} h ty vars : forall seen, (length (distinct_vars h ty seen vars) <= length vars)%nat.
Proof.
  induction vars as [|v vars IH]; intros seen; cbn [distinct_vars]; [done|].
  destruct (_ && _); cbn [length]; [|etransitivity; [apply IH|lia]]. specialize (IH ({[var_signal_ref h v]} ∪ seen)). lia.
Qed.

Lemma omap_length {A B} (f : A -> option B) l : (length (omap f l) <= length l)%nat.
Proof. induction l as [|x l IH]; [done|]. cbn. destruct (f x); cbn; lia. Qed.

Lemma objects_length `{Wellen} h breadth ty ref : narrow h breadth -> (length (objects h ty ref) < breadth)%nat.
Proof.
  intros [H0 Hs]. unfold objects. destruct (u32 ty =? vpiModule).
  - rewrite length_fmap. destruct ref as [s|]; cbn [child_modules].
    + eapply Nat.le_lt_trans; [apply length_filter|apply Hs].
    + eapply Nat.le_lt_trans; [apply length_filter|apply H0].
  - destruct (signal_type ty); [|cbn; lia]. destruct ref as [s|]; [|cbn; lia]. rewrite length_fmap. unfold scope_signals.
    eapply Nat.le_lt_trans; [apply omap_length|]. eapply Nat.le_lt_trans; [apply distinct_vars_length|apply Hs].
Qed.

(** ** The walk refines the abstract one *)

Section Refine.
Context {wellen : Wellen} {serde : Serde} {allocator : Allocator}.
Context (content : SignalRef -> Signal).
Hypothesis wf : waveform content.
Context (opts : JitOptions) (forward : bool).
Hypothesis window : 0 <= compileWindowSize opts.
Context (h : Hierarchy) (wild : string -> string -> bool).

Abbreviation good := (WaveHandlesFacts.good content opts forward).
Abbreviation vruns := (WaveHandlesFacts.vruns content opts forward).
Abbreviation yields := (WaveHandlesFacts.yields content opts forward).

Abbreviation vpi_model := (design content h wild).

(** The steps of a loop over the items of an iteration. *)
Inductive steps {X It} (step : It -> X -> X -> Prop) : list It -> X -> X -> Prop :=
| steps_nil x : steps step [] x x
| steps_cons i items x y z : step i x y -> steps step items y z -> steps step (i :: items) x z.

(** What a body of a loop leaves for the loop. *)
Definition body_ok {X} (Inv : VpiState -> Live -> Prop) (y : X) (v : VpiState) (l : Live) (y' : X) (v' : VpiState) (l' : Live) : Prop :=
  y' = y /\ Inv v' l' /\ iters_kept (fun _ => True) v l v' l' /\ iteratorTypeMap v' = iteratorTypeMap v.

Section Loop.
Context {X It : Type} (ob : It -> Obj) (step : It -> X -> X -> Prop) (body : Z -> X -> HM X).
Context (Inv : VpiState -> Live -> Prop).
Hypothesis Inv_scan : forall v l v' l', moves v l v' l' -> l_names l' = l_names l -> Inv v l -> Inv v' l'.
Hypothesis body_runs : forall i x y v l c,
  good v l -> Inv v l -> yields (ob i) c v l -> step i x y -> vruns (body c x) v l (body_ok Inv y v l).

Lemma scan_each_vruns ty it items : forall fuel x y v l,
  good v l -> Inv v l -> iteratorTypeMap v !! it = Some ty -> Forall (of_type ty) (ob <$> items) ->
  iterator_over (ob <$> items) l it -> Forall (sized_obj content) (ob <$> items) ->
  (length items < fuel)%nat -> steps step items x y ->
  vruns (scan_each fuel it body x) v l (fun y' v' l' =>
    y' = y /\ Inv v' l' /\ iters_kept (fun a => a <> it) v l v' l' /\ iteratorTypeMap v' = delete it (iteratorTypeMap v)).
Proof.
  induction items as [|i items IH]; intros fuel x y v l G HI Hty Hot Hover Hsz Hf Hst; (destruct fuel as [|fuel]; [cbn in Hf; lia|]);
    cbn [scan_each fmap list_fmap] in *;
    (eapply vruns_bind; [eapply (scan_vruns content wf opts forward window);
      [done|done|exact Hot|exact Hover|first [by intros o [=]|by intros o [= <-]; apply Forall_cons in Hsz as [? _]]|lia]|]).
  - intros c v1 l1 G1 M1 (K & Hn & -> & Ht & _). cbn [Z.eqb]. inversion Hst; subst. apply vruns_ret; [done|].
    split_and!; try done. by eapply Inv_scan.
  - intros c v1 l1 G1 M1 (K & Hn & Hc & Hy & Ht & Hover1). destruct (Z.eqb_spec c 0); [done|].
    inversion Hst as [|? ? ? x1 ? Hs1 Hs2]; subst. apply Forall_cons in Hot as [_ Hot].
    eapply vruns_bind; [eapply body_runs; [done|by eapply Inv_scan|exact Hy|exact Hs1]|].
    intros x2 v2 l2 G2 M2 (-> & HI2 & K2 & Ht2).
    destruct (K2 it ty I ltac:(by rewrite Ht)) as [Hty2 Hb2].
    eapply vruns_mono; [apply IH; [done|done|done|exact Hot| |by apply Forall_cons in Hsz as [_ ?]|cbn in Hf; lia|exact Hs2]|].
    + destruct Hover1 as (its & j & Hb & Hfa). exists its, j. split; [by apply Hb2|].
      eapply Forall2_impl; [exact Hfa|]. intros it' o Hio. destruct it' as [s|a]; cbn in *; [done|].
      destruct Hio as (r & -> & Hr). exists r. split; [done|by apply M2].
    + intros y' v' l' _ _ (-> & HI' & K' & Ht'). split_and!; try done.
      * eapply kept_trans; [exact K|]. eapply kept_trans; [by eapply kept_mono, K2|exact K'].
      * by rewrite Ht', Ht2, Ht.
Qed.

Lemma for_each_vruns ty parent ref items fuel x y v l :
  good v l -> iter_type ty -> ref_denotes l parent ref -> objects (l_hier l) ty ref = ob <$> items ->
  Forall (sized_obj content) (ob <$> items) ->
  (forall it v' l', good v' l' -> moves v l v' l' -> iterates ty ref v l it v' l' -> Inv v' l') ->
  (length items < fuel)%nat -> steps step items x y ->
  vruns (vpi_for_each fuel ty parent body x) v l (body_ok Inv y v l).
Proof.
  intros G Hty Href Hobj Hsz Hinv Hf Hst. unfold vpi_for_each.
  eapply vruns_bind; [by apply (iterate_vruns content wf opts)|].
  intros it v1 l1 G1 M1 Hit. pose proof (Hinv it v1 l1 G1 M1 Hit) as HI1. destruct Hit as (K & _ & Hit).
  rewrite Hobj in Hit. destruct items as [|i items]; cbn [fmap list_fmap] in Hit.
  - destruct Hit as [-> Ht]. cbn [Z.eqb]. inversion Hst; subst. apply vruns_ret; [done|]. by split_and!.
  - destruct Hit as (H0 & Hfresh & Ht & Hover). destruct (Z.eqb_spec it 0); [done|].
    pose proof (objects_of_type (l_hier l) ty ref Hty) as Hot. rewrite Hobj in Hot.
    eapply vruns_mono; [eapply (scan_each_vruns ty it (i :: items)); [done|done|by rewrite Ht, lookup_insert_eq|exact Hot|exact Hover|exact Hsz|exact Hf|exact Hst]|].
    intros y' v' l' _ _ (-> & HI' & K' & Ht'). split_and!; try done.
    + intros a ty' _ Ha. destruct (K a ty' I Ha) as [Ha1 Hb1]. destruct (decide (a = it)) as [->|Hne]; [congruence|].
      destruct (K' a ty' Hne Ha1) as [Ha2 Hb2]. split; [done|]. intros. by apply Hb2, Hb1.
    + rewrite Ht', Ht, delete_insert_id; [done|exact Hfresh].
Qed.
End Loop.

(** ** Leaf objects *)

(** A call that changes nothing. *)
Lemma vruns_same {A} (m : HM A) a v l (Q : A -> VpiState -> Live -> Prop) :
  good v l -> m (mkCompat v (world l)) = Ret a (mkCompat v (world l)) -> Q a v l -> vruns m v l Q.
Proof. intros G E HQ. exists a, v, l. split; [done|]. split; [done|]. split; [apply moves_refl|done]. Qed.

Lemma vruns_read {A B} (m : HM A) (k : A -> HM B) a v l (Q : B -> VpiState -> Live -> Prop) :
  m (mkCompat v (world l)) = Ret a (mkCompat v (world l)) -> vruns (k a) v l Q -> vruns (bind m k) v l Q.
Proof.
  intros E (b & v' & l' & E2 & H). exists b, v', l'. split; [|exact H]. by rewrite (bind_Ret _ _ _ _ _ E).
Qed.

Lemma get_str_opt_run p c o st : vpi_get_str p c st = Ret o st ->
  get_str_opt p c st = Ret (c_char_to_str_opt (as_bytes <$> o)) st.
Proof. intros E. unfold get_str_opt. by rewrite (bind_Ret _ _ _ _ _ E). Qed.

Lemma c_name_opt n : c_name n -> c_char_to_str_opt (Some (as_bytes n)) = Some n.
Proof. intros [Hs _]. cbn. by apply from_utf8_as_bytes. Qed.

(** A leaf in the abstract walk, with the names seen. *)
Definition leaf_visit (full : string) (lvl : Z) (x : gset string * Found) (p : Z * Z) : gset string * Found :=
  match c_char_to_str_opt (get_str_name (DesignVpi := vpi_model) p.2) with
  | None => x
  | Some name =>
      if bool_decide (name ∈ x.1) then x
      else ({[name]} ∪ x.1, push_hierarchy_entry (leaf_entry (vpi := vpi_model) full lvl name p.1 p.2) x.2)
  end.

Lemma leaf_loop_visits full lvl objs : forall visited st,
  leaf_loop (vpi := vpi_model) full lvl visited objs st = (fold_left (leaf_visit full lvl) objs (visited, st)).2.
Proof.
  induction objs as [|[ty obj] objs IH]; intros visited st; [done|]. cbn [leaf_loop fold_left]. unfold leaf_visit at 2.
  cbn [fst snd]. destruct (c_char_to_str_opt _) as [name|]; [|apply IH].
  destruct (bool_decide _); apply IH.
Qed.

Lemma fold_steps {X It} (f : X -> It -> X) (P : It -> Prop) items : forall x,
  Forall P items -> steps (fun i x y => P i /\ y = f x i) items x (fold_left f items x).
Proof.
  induction items as [|i items IH]; intros x HP; cbn [fold_left]; [constructor|].
  apply Forall_cons in HP as [Hi HP]. eapply steps_cons; [by split|by apply IH].
Qed.

Definition leaf_inv (vars : list VarRef) (v : VpiState) (l : Live) : Prop :=
  l_hier l = h /\ forall w, w ∈ vars -> l_names l !! var_signal_ref h w = Some (var_full_name h w).

Lemma visit_leaf_vruns full lvl ty vars w x y v l c :
  good v l -> leaf_inv vars v l -> yields (OSignal (var_signal_ref h w)) c v l ->
  w ∈ vars /\ y = leaf_visit full lvl x (ty, var_id w) ->
  vruns (visit_leaf full lvl ty c x) v l (body_ok (leaf_inv vars) y v l).
Proof.
  intros G [Hh Hn] (n & Hr & Hs) [Hw ->]. rewrite (Hn w Hw) in Hr. injection Hr as <-.
  assert (c_name (var_full_name h w)) as Hc by (rewrite <- Hh; apply (g_hier _ _ _ _ _ G)).
  unfold visit_leaf. eapply vruns_read; [eapply get_str_opt_run, (get_name_of_signal content opts); [exact G|exact Hs]|].
  cbn [fmap option_fmap option_map]. rewrite (c_name_opt _ Hc). unfold leaf_visit. cbn [get_str_name design fst snd var_id].
  rewrite (c_name_opt _ Hc). destruct (bool_decide _).
  - eapply vruns_same; [done|done|]. split_and!; try done.
  - eapply vruns_read; [eapply (get_size_of_signal content wf opts); [exact G|exact Hs]|].
    eapply vruns_same; [done|done|]. split_and!; try done.
Qed.

(** The types of leaves; each has its own iteration. *)
Definition leaf_type (ty : Z) : Prop := ty = vpiNet \/ ty = vpiReg \/ ty = vpiMemory.

Lemma leaf_type_iter ty : leaf_type ty -> iter_type ty /\ u32 ty <> vpiModule /\ signal_type ty = true /\ ty <> hc_vpiModule.
Proof. intros [->|[->| ->]]; (split; [unfold iter_type; tauto|split; [done|done]]). Qed.

Lemma leaf_objects_of ty s : leaf_type ty -> full_names h ->
  objects h ty (Some s) = (fun w => OSignal (var_signal_ref h w)) <$> distinct_vars h ty ∅ (scope_vars h s).
Proof.
  intros Hty Hf. destruct (leaf_type_iter ty Hty) as (_ & Hm & Hs & _). unfold objects.
  destruct (Z.eqb_spec (u32 ty) vpiModule); [done|]. rewrite Hs. unfold scope_signals.
  assert (forall w, w ∈ distinct_vars h ty ∅ (scope_vars h s) -> w ∈ scope_vars h s) as Hin by (intros w; apply distinct_vars_in).
  induction (distinct_vars h ty ∅ (scope_vars h s)) as [|w ws IH]; [done|]. cbn.
  rewrite (Hf s w) by (apply Hin, elem_of_cons; by left). cbn. rewrite IH; [done|]. intros. apply Hin, elem_of_cons. by right.
Qed.

Context (breadth : nat).
Hypothesis breadth_ok : narrow h breadth.

(** Every variable has a size: its first value is a bit vector. *)
Definition sized_vars : Prop := forall s w, w ∈ scope_vars h s -> sized (content (var_signal_ref h w)).
Hypothesis vars_sized : sized_vars.

Lemma visit_leaves_vruns types full lvl s : Forall leaf_type types -> forall child x v l,
  good v l -> l_hier l = h -> l_ptrs l !! child = Some s ->
  vruns (visit_leaves breadth types full lvl child x) v l
    (body_ok (fun _ l => l_hier l = h)
      (fold_left (leaf_visit full lvl)
         (flat_map (fun ty => map (pair ty) (iterate_scan (DesignVpi := vpi_model) ty (module_id s))) types) x) v l).
Proof.
  induction 1 as [|ty types Hty _ IH]; intros child x v l G Hh Hc; cbn [visit_leaves flat_map].
  { eapply vruns_same; [done|done|]. split_and!; try done. }
  destruct (leaf_type_iter ty Hty) as (Hit & Hm & Hs & Hne).
  set (vars := distinct_vars h ty ∅ (scope_vars h s)).
  assert (full_names h) as Hfull by (rewrite <- Hh; apply G).
  pose proof (leaf_objects_of ty s Hty Hfull) as Ho. fold vars in Ho.
  eapply vruns_bind.
  { eapply (for_each_vruns (fun w => OSignal (var_signal_ref h w))
      (fun w x y => w ∈ vars /\ y = leaf_visit full lvl x (ty, var_id w)) (visit_leaf full lvl ty)
      (leaf_inv vars)) with (ref := Some s) (items := vars).
    all: try done.
    - intros v0 l0 v' l' M Hn [Hh0 Hn0]. split; [rewrite (mv_hier _ _ _ _ M); done|]. intros w Hw. rewrite Hn. by apply Hn0.
    - intros i x0 y0 v0 l0 c. apply visit_leaf_vruns.
    - by apply ref_scope.
    - by rewrite Hh.
    - apply Forall_fmap, Forall_forall. intros w Hw. apply (vars_sized s). by eapply distinct_vars_in.
    - intros it v' l' G' M (_ & Hn & _). split; [by rewrite (mv_hier _ _ _ _ M)|]. intros w Hw.
      rewrite Hh in Hn. exact (Hn Hm s w eq_refl Hs Hw).
    - pose proof (objects_length h breadth ty (Some s) breadth_ok) as Hl. by rewrite Ho, length_fmap in Hl.
    - apply (fold_steps (fun x w => leaf_visit full lvl x (ty, var_id w)) (fun w => w ∈ vars)), Forall_forall. done. }
  intros y v1 l1 G1 M1 (-> & [Hh1 _] & K1 & Ht1).
  eapply vruns_mono; [apply IH; [done|done|eapply lookup_weaken; [exact Hc|apply M1]]|].
  intros y v2 l2 _ _ (-> & Hh2 & K2 & Ht2). split_and!; try done.
  - rewrite fold_left_app. f_equal. cbn [iterate_scan design module_id].
    destruct (Z.eqb_spec ty hc_vpiModule); [done|]. rewrite map_map. fold vars.
    clear Ho. generalize x. induction vars as [|w ws IHw]; intros x0; [done|]. cbn [map fold_left]. apply IHw.
  - by eapply kept_trans.
  - congruence.
Qed.

(** ** Modules *)

(** A child module in the abstract walk. *)
Definition child_visit (fuel : nat) (parent : string) (lvl max_level : Z) (st : Found) (child : Z) : option Found :=
  match c_char_to_str_opt (get_str_name (DesignVpi := vpi_model) child) with
  | None => Some st
  | Some name =>
      let full := path_under parent name in
      let st := push_hierarchy_entry (module_entry (vpi := vpi_model) full lvl child) st in
      let st := if (max_level =? 0) || (lvl <? max_level)
                then leaf_loop (vpi := vpi_model) full lvl ∅ (leaf_objects (vpi := vpi_model) child) st else st in
      collect_hierarchy_recursive (vpi := vpi_model) fuel child full (lvl + 1) max_level st
  end.

Lemma fold_option_steps {X It J} (f : X -> J -> option X) (g : It -> J) items : forall x y,
  fold_left (fun acc i => match acc with None => None | Some x => f x i end) (map g items) (Some x) = Some y ->
  steps (fun i x y => f x (g i) = Some y) items x y.
Proof.
  induction items as [|i items IH]; intros x y; cbn [fold_left map]; [intros [= <-]; constructor|].
  destruct (f x (g i)) as [x1|] eqn:E.
  - intros H. eapply steps_cons; [exact E|by apply IH].
  - intros H. exfalso. clear IH E. induction items as [|j items IHi]; [done|]. by apply IHi.
Qed.

(** The handle of a module for the kernel and for the design; null is the top. *)
Inductive module_rel (v : VpiState) (l : Live) : Z -> Z -> option ScopeRef -> Prop :=
| rel_top : module_rel v l 0 0 None
| rel_module a s : a ∈ moduleHandleSet v -> l_ptrs l !! a = Some s -> module_rel v l a (module_id s) (Some s).

Lemma module_children v l a m ref : l_hier l = h -> module_rel v l a m ref ->
  ref_denotes l a ref /\ objects (l_hier l) hc_vpiModule ref = OModule <$> child_modules h ref /\
  iterate_scan (DesignVpi := vpi_model) hc_vpiModule m = map module_id (child_modules h ref).
Proof. intros Hh [|b s Hb Hs]; (split; [by constructor|]); split; try done; unfold objects; by rewrite Hh. Qed.

(** The leaves of a module, when its level is not the last. *)
Lemma leaves_vruns st child s full lvl max_level v l :
  good v l -> l_hier l = h -> l_ptrs l !! child = Some s ->
  vruns (if (max_level =? 0) || (lvl <? max_level)
         then let! x := visit_leaves breadth leaf_types full lvl child (∅, st) in ret x.2 else ret st) v l
    (body_ok (fun _ l => l_hier l = h)
       (if (max_level =? 0) || (lvl <? max_level)
        then leaf_loop (vpi := vpi_model) full lvl ∅ (leaf_objects (vpi := vpi_model) (module_id s)) st else st) v l).
Proof.
  intros G Hh Hs. destruct (_ || _); [|by eapply vruns_same; [done|done|split_and!]].
  eapply vruns_bind; [apply (visit_leaves_vruns leaf_types full lvl s); [|done|done|exact Hs]|].
  - unfold leaf_types, leaf_type. repeat constructor; tauto.
  - intros x v1 l1 G1 M1 (-> & H). eapply vruns_same; [done|done|]. split; [|exact H]. by rewrite leaf_loop_visits.
Qed.

Lemma walk_refines fuel : forall module m ref parent lvl max_level st found v l,
  good v l -> l_hier l = h -> module_rel v l module m ref ->
  collect_hierarchy_recursive (vpi := vpi_model) fuel m parent lvl max_level st = Some found ->
  vruns (walk breadth fuel module parent lvl max_level st) v l (body_ok (fun _ l => l_hier l = h) found v l).
Proof.
  induction fuel as [|fuel IH]; intros module m ref parent lvl max_level st found v l G Hh Hm;
    cbn [walk collect_hierarchy_recursive]; destruct (_ && _);
    try (by intros [= ->]; eapply vruns_same; [done|done|split_and!]); try done.
  destruct (module_children v l module m ref Hh Hm) as (Href & Hobj & ->).
  intros Hfold. apply (fold_option_steps (child_visit fuel parent lvl max_level) module_id) in Hfold.
  eapply vruns_mono.
  { eapply (for_each_vruns OModule (fun s x y => child_visit fuel parent lvl max_level x (module_id s) = Some y) _
      (fun _ l => l_hier l = h)) with (items := child_modules h ref) (ref := ref);
      [| |exact G|by left|exact Href|exact Hobj|by apply Forall_fmap, Forall_true| | |exact Hfold].
    - intros v0 l0 v' l' M _ Hh0. by rewrite (mv_hier _ _ _ _ M).
    - intros s x y v0 l0 c G0 Hh0 [Hc Hs] E. cbv beta. unfold child_visit in E. cbn [get_str_name design module_id] in E.
      assert (c_name (scope_name h s)) as Hn by (rewrite <- Hh0; apply (g_hier _ _ _ _ _ G0)). rewrite (c_name_opt _ Hn) in E.
      eapply vruns_read; [eapply get_str_opt_run, (get_str_of_module content opts); [exact G0|exact Hc|exact Hs|tauto]|].
      change (vpiName =? vpiName) with true. cbv iota. rewrite Hh0. cbn [fmap option_fmap option_map]. rewrite (c_name_opt _ Hn).
      eapply vruns_read; [eapply get_str_opt_run, (get_str_of_module content opts); [exact G0|exact Hc|exact Hs|tauto]|].
      change (vpiDefName =? vpiName) with false. change (vpiDefName =? vpiType) with false. cbv iota. cbn [fmap option_fmap option_map c_char_to_str_opt mbind option_bind].
      set (st1 := push_hierarchy_entry _ x) in *. cbv zeta.
      eapply vruns_bind; [apply (leaves_vruns st1 c s (path_under parent (scope_name h s)) lvl max_level); done|].
      intros st2 v1 l1 G1 M1 (-> & Hh1 & K1 & Ht1).
      eapply vruns_mono; [eapply (IH c (module_id s) (Some s)); [done|done| |exact E]|].
      { constructor; [by apply M1|eapply lookup_weaken; [exact Hs|apply M1]]. }
      intros y' v' l' _ _ (-> & Hh' & K' & Ht'). split_and!; try done; [by eapply kept_trans|congruence].
    - intros it v' l' _ M _. by rewrite (mv_hier _ _ _ _ M).
    - pose proof (objects_length h breadth hc_vpiModule ref breadth_ok) as Hl. rewrite <- Hh in Hl at 1.
      by rewrite Hobj, length_fmap in Hl. }
  intros y v' l' _ _ H. exact H.
Qed.

(** C16: collecting the hierarchy of a waveform in which the first value of every
    variable is a bit vector ([vars_sized]) and every variable is found under its full
    name ([full_names], part of [good]).  Run inside the waveform kernel, on whatever
    handles and iterators are in use, the walk of [libverilua] over the VPI of the
    kernel ends (with as much fuel as the hierarchy is deep or the level limit asks, and
    as many scans per iteration as a scope has members); the entries it returns are
    those of the hierarchy the waveform records: sorted, every path once, merged as the
    collection promises.  Every iterator it opened is freed again, the iterators and
    handles of others are left as they were.  A real or string variable, or one without
    a value, aborts the process instead ([unsized_leaf_aborts]). *)
Theorem wave_hierarchy_collected rank fuel max_level v l :
  good v l -> l_hier l = h ->
  (depth_bounded (vpi := vpi_model) rank /\ (rank 0%Z < fuel)%nat \/ max_level <> 0 /\ max_level + 1 < Z.of_nat fuel) ->
  exists cs es v' l',
    stream (vpi := vpi_model) fuel 0 empty_str 0 max_level = Some cs /\ collected_from cs es /\
    vpi_collect_entries breadth fuel max_level (mkCompat v (world l)) = Ret es (mkCompat v' (world l')) /\
    good v' l' /\ moves v l v' l' /\ iters_kept (fun _ => True) v l v' l' /\ iteratorTypeMap v' = iteratorTypeMap v.
Proof.
  intros G Hh Hfuel.
  assert (is_Some (stream (vpi := vpi_model) fuel 0 empty_str 0 max_level)) as [cs Hs].
  { destruct Hfuel as [[Hr Hf]|[Hm Hf]]; [by eapply stream_enough|apply stream_limited; [done|lia]]. }
  destruct (collect_of_stream _ _ _ Hs) as (es & Hes & Hc). unfold collect_hierarchy_entries in Hes.
  destruct (collect_hierarchy_recursive _ _ _ _ _ _) as [found|] eqn:Er; [|done].
  destruct (walk_refines fuel 0 0 None empty_str 0 max_level ([], ∅) found v l G Hh (rel_top _ _) Er)
    as (y & v' & l' & E & G' & M & -> & _ & K & Ht).
  exists cs, es, v', l'. do 2 (split; [done|]). split; [|done].
  unfold vpi_collect_entries. rewrite (bind_Ret _ _ _ _ _ E). destruct found as [fs seen]. cbn in Hes |- *. unfold ret. congruence.
Qed.

(** The iteration over the variables of a scope when the first has no size; the kernel
    lists real and string variables as [vpiReg]. *)
Lemma unsized_leaf_aborts full lvl fuel ty child s w ws x v l :
  bits_of_other -> good v l -> l_hier l = h -> l_ptrs l !! child = Some s -> leaf_type ty ->
  distinct_vars h ty ∅ (scope_vars h s) = w :: ws -> ~ sized (content (var_signal_ref h w)) ->
  exists why st, vpi_for_each (S fuel) ty child (visit_leaf full lvl ty) x (mkCompat v (world l)) = Panic why st.
Proof.
  intros Hx G Hh Hc Hty Hd Hsz. destruct (leaf_type_iter ty Hty) as (Hit & Hm & _ & Hne).
  assert (full_names h) as Hfull by (rewrite <- Hh; apply G).
  destruct (iterate_vruns content wf opts forward ty child (Some s) v l G Hit (ref_scope l child s Hc)) as (it & v1 & l1 & E & G1 & M & _ & _ & Hi).
  rewrite Hh, (leaf_objects_of ty s Hty Hfull), Hd in Hi. destruct Hi as (H0 & _ & Ht & Hover).
  destruct (unsized_scan_panics content wf opts forward (var_signal_ref h w) ((fun w => OSignal (var_signal_ref h w)) <$> ws) ty it v1 l1 Hx G1) as (why & st & Ep);
    [by rewrite Ht, lookup_insert_eq|exact Hne|exact Hover|exact Hsz|].
  exists why, st. unfold vpi_for_each. rewrite (bind_Ret _ _ _ _ _ E). destruct (Z.eqb_spec it 0); [done|].
  cbn [scan_each]. apply bind_Panic. revert Ep. unfold vpi_scan. destruct (it =? 0); [done|].
  unfold v_get. mrun. cbn [vpi]. destruct (negb _); [done|]. mrun. cbn [vpi]. rewrite Ht, lookup_insert_eq. cbn [default scan_loop].
  unfold id. destruct (Z.eqb_spec ty vpiModule); [done|]. unfold bind. destruct (wellen_call _ _) as [a st1| | |]; [|done..].
  destruct (a =? 0); [done|]. by destruct (wellen_call _ st1) as [[nm|] st2| | |].
Qed.

End Refine.

(** ** The small waveform *)

Module HierDemo.
Import Demo VpiDemo.

Definition demo_rank (x : Z) : nat := match x with 0 => 3 | 2 => 2 | 4 => 1 | _ => 0 end.
Definition demo_wild (_ _ : string) : bool := true.

Lemma hier_demo_depth : depth_bounded (vpi := design demo_content tt demo_wild) demo_rank.
Proof.
  intros x c Hc. destruct x as [|[p|p|]|p]; try by apply elem_of_nil in Hc.
  - cbn in Hc. apply list_elem_of_singleton in Hc as ->. cbn. lia.
  - destruct p as [?|?|]; cbn in Hc; try by apply elem_of_nil in Hc.
    apply list_elem_of_singleton in Hc as ->. cbn. lia.
Qed.

Definition entry_text (e : HierarchyEntry) : string * option string * Z * Z := (full_path e, sig_type e, level e, bitwidth e).

(** The clock and its alias are one signal: it is listed once. *)
Example demo_entries :
  match vpi_collect_entries 10 4 0 (mkCompat (blank_vpi 2) (world demo_live)) with
  | Ret es st => (map entry_text es, iteratorTypeMap (vpi st))
  | _ => ([], ∅)
  end =
  ([("top"%string, None, 0, -1); ("top.bus"%string, Some "wire"%string, 1, 64); ("top.clk"%string, Some "wire"%string, 1, 1);
    ("top.data"%string, Some "reg"%string, 1, 4); ("top.sub"%string, None, 1, -1)], ∅).
Proof. vm_compute. reflexivity. Qed.

Lemma wave_hierarchy_collected_witness :
  exists cs es v' l', stream (vpi := design demo_content tt demo_wild) 4 0 empty_str 0 0 = Some cs /\ collected_from cs es /\
    vpi_collect_entries 10 4 0 (mkCompat (blank_vpi 2) (world demo_live)) = Ret es (mkCompat v' (world l')).
Proof.
  destruct (wave_hierarchy_collected demo_content demo_waveform demo_opts true ltac:(done) tt demo_wild 10) with
    (rank := demo_rank) (fuel := 4%nat) (max_level := 0) (v := blank_vpi 2) (l := demo_live) as (cs & es & v' & l' & H1 & H2 & H3 & _).
  - split; [cbn; lia|]. intros [?|?|]; cbn; lia.
  - intros s w _. apply demo_sized.
  - exact (demo_good true).
  - reflexivity.
  - left. split; [exact hier_demo_depth|cbn; lia].
  - exists cs, es, v', l'. split; [exact H1|]. split; [exact H2|exact H3].
Defined.

End HierDemo.
