(* ===== verification/Utils.v ===== *)
(** * Utilities: C strings, symbol addresses, simulator detection, processes

    [libverilua/src/utils/mod.rs]: the conversions between C strings and Rust
    strings, [get_symbol_address] with its per-file symbol tables,
    [get_simulator_auto] with its cached result, and the calls to the operating
    system.  A C string is the list of its bytes without the terminator, [None] a
    null pointer; the file system is a function argument of each call, so that
    files may change between calls; [goblin], [fslock], [wildmatch] and the shell
    are a type class. *)

From S2P Require Import Prelude Bytes.
#[local] Open Scope Z_scope.

(** ** Lossy conversion

    [String::from_utf8_lossy]: each maximal prefix of a character that cannot go
    on becomes U+FFFD. *)

Definition REPLACEMENT : list byte := [xef; xbf; xbd].

(** Whether the text starts with a well-formed character, and the number of bytes
    of that character or of the invalid sequence. *)
Definition lead_range (b0 : byte) : option (nat * Z * Z) :=
  if cont_in 0xC2 0xDF b0 then Some (2%nat, 0x80, 0xBF)
  else if byteZ b0 =? 0xE0 then Some (3%nat, 0xA0, 0xBF)
  else if byteZ b0 =? 0xED then Some (3%nat, 0x80, 0x9F)
  else if cont_in 0xE1 0xEF b0 then Some (3%nat, 0x80, 0xBF)
  else if byteZ b0 =? 0xF0 then Some (4%nat, 0x90, 0xBF)
  else if cont_in 0xF1 0xF3 b0 then Some (4%nat, 0x80, 0xBF)
  else if byteZ b0 =? 0xF4 then Some (4%nat, 0x80, 0x8F)
  else None.

Fixpoint cont_prefix (n : nat) (l : list byte) : nat :=
  match n, l with
  | S n, b :: l => if cont b then S (cont_prefix n l) else O
  | _, _ => O
  end.

Definition char_step (b0 : byte) (l : list byte) : bool * nat :=
  if byteZ b0 <=? 0x7F then (true, 1%nat) else
  match lead_range b0 with
  | None => (false, 1%nat)
  | Some (n, lo, hi) =>
      match l with
      | b1 :: l =>
          if cont_in lo hi b1 then
            let k := cont_prefix (n - 2) l in ((k =? n - 2)%nat, (2 + k)%nat)
          else (false, 1%nat)
      | [] => (false, 1%nat)
      end
  end.

Fixpoint lossy (fuel : nat) (l : list byte) : list byte :=
  match fuel, l with
  | S fuel, b0 :: l' =>
      let '(ok, n) := char_step b0 l' in
      (if ok then take n l else REPLACEMENT) ++ lossy fuel (drop n l)
  | _, _ => []
  end.

Definition from_utf8_lossy (l : list byte) : string := of_bytes (lossy (length l) l).

(** ** The outside *)

(** What [goblin::elf::Elf] gives of a parsed file: the two symbol tables as
    (name index, value), the two string tables, the needed libraries. *)
Record Elf := mkElf {
  syms : list (Z * Z);
  strtab_get_at : Z -> option string;
  dynsyms : list (Z * Z);
  dynstrtab_get_at : Z -> option string;
  libraries : list string
}.

Class UtilsCrates := {
  elf_parse : list byte -> option Elf;
  lock_open : string -> bool;                               (* LockFile::open *)
  lock_lock : string -> bool;                               (* LockFile::lock *)
  sh_output : string -> option (list byte * list byte);     (* stdout, stderr of sh -c *)
  wildmatch_matches : string -> string -> bool
}.

(** ** State: the statics, the boxed locks, and the commands sent to the
    simulator. *)
Record UtilsState := mkUtils {
  SYMBOL_TABLES : gmap string (gmap string Z);
  CACHE_RESULT : option string;
  EXECUTABLE_NAME : option string;
  locks : gmap Z string;
  lock_next : Z;
  controls : list Z
}.

Definition set_symbol_tables t s :=
  mkUtils t (CACHE_RESULT s) (EXECUTABLE_NAME s) (locks s) (lock_next s) (controls s).
Definition set_cache_result r s :=
  mkUtils (SYMBOL_TABLES s) (Some r) (EXECUTABLE_NAME s) (locks s) (lock_next s) (controls s).
Definition set_executable_name n s :=
  mkUtils (SYMBOL_TABLES s) (CACHE_RESULT s) (Some n) (locks s) (lock_next s) (controls s).
Definition set_locks l n s :=
  mkUtils (SYMBOL_TABLES s) (CACHE_RESULT s) (EXECUTABLE_NAME s) l n (controls s).
Definition add_control c s :=
  mkUtils (SYMBOL_TABLES s) (CACHE_RESULT s) (EXECUTABLE_NAME s) (locks s) (lock_next s) (controls s ++ [c]).

Section Utils.
Context {crates : UtilsCrates}.
Local Abbreviation U := (M UtilsState).

(** The build: debug assertions (with overflow checks), and the log levels that
    are enabled. *)
Context (debug_assertions log_info log_debug : bool).

(** ** C strings *)

(** [c_char_to_string]; a null pointer is undefined behaviour in release. *)
Definition c_char_to_string (c : option (list byte)) : U string :=
  match c with
  | Some l => ret (from_utf8_lossy l)
  | None => if debug_assertions then panic "c_char_to_string: null pointer" else undefined "CStr::from_ptr(null)"
  end.

Definition str_opt (c : option (list byte)) : option string := c ≫= from_utf8.

(** [c_char_to_cstr(p).to_str().unwrap()], also [c_char_to_str]. *)
Definition c_char_to_str (c : option (list byte)) : U string :=
  match c with
  | Some l => match from_utf8 l with
              | Some s => ret s
              | None => panic "called `Result::unwrap()` on an `Err` value: Utf8Error" end
  | None => if debug_assertions then panic "c_char_to_str: null pointer" else undefined "CStr::from_ptr(null)"
  end.

(** [string_to_c_char_owned] and [owned_string_to_c_char]. *)
Definition string_to_c_char_owned (s : string) : U (list byte) :=
  if bool_decide (x00 ∈ as_bytes s) then panic "string_to_c_char_owned: string contains null byte"
  else ret (as_bytes s).

(** ** The process *)

Definition PATH_MAX : nat := 4096.

(** [link] is what [readlink] stores: at most [PATH_MAX] bytes, [None] for -1. *)
Definition get_executable_name (link : option (list byte)) : U (list byte) :=
  match link with
  | None => panic "Failed to get executable name"
  | Some path =>
      if (PATH_MAX <=? length path)%nat then panic "index out of bounds"
      else if bool_decide (x00 ∈ path) then panic "CString::new failed"
      else if log_debug && negb (utf8_valid path) then panic "called `Result::unwrap()` on an `Err` value: Utf8Error"
      else ret path
  end.

(** [cmdline]: the content of [/proc/self/cmdline]. *)
Definition get_self_cmdline (cmdline : option (list byte)) : U (list byte) :=
  match cmdline with
  | None => panic "Failed to open /proc/self/cmdline"
  | Some buffer =>
      let buffer := map (fun b => if bool_decide (b = x00) then x20 else b) buffer in
      match from_utf8 buffer with
      | None => panic "Invalid UTF-8 in /proc/self/cmdline"
      | Some s => if bool_decide (x00 ∈ as_bytes s) then panic "Failed to create CString" else ret (as_bytes s)
      end
  end.

(** ** Symbol addresses *)

Definition add_u64 (a b : Z) : option Z :=
  if a + b <? 2 ^ 64 then Some (a + b) else if debug_assertions then None else Some (u64 (a + b)).

(** One loop over a symbol table: [keep_first] is [entry(name).or_insert(..)],
    otherwise [insert]; the sum is computed in either case. *)
Fixpoint load_symbols (keep_first : bool) (name_at : Z -> option string) (offset : Z) (l : list (Z * Z))
    (table : gmap string Z) : option (gmap string Z) :=
  match l with
  | [] => Some table
  | (st_name, st_value) :: l =>
      match name_at st_name with
      | Some name =>
          if (str_len name =? 0)%nat then load_symbols keep_first name_at offset l table else
          match add_u64 st_value offset with
          | None => None
          | Some addr =>
              let table := match table !! name with
                           | Some _ => if keep_first then table else <[name := addr]> table
                           | None => <[name := addr]> table end in
              load_symbols keep_first name_at offset l table
          end
      | None => load_symbols keep_first name_at offset l table
      end
  end.

Definition load_elf_symbol_table (fs : string -> option (list byte)) (filename : string) (offset : Z)
  : U (gmap string Z) :=
  match fs filename with
  | None => panic "Failed to load ELF file"
  | Some buffer =>
      match elf_parse buffer with
      | None => panic "Failed to parse ELF file"
      | Some elf =>
          match load_symbols false (strtab_get_at elf) offset (syms elf) ∅ with
          | None => panic "attempt to add with overflow"
          | Some table =>
              match load_symbols true (dynstrtab_get_at elf) offset (dynsyms elf) table with
              | None => panic "attempt to add with overflow"
              | Some table => ret table
              end
          end
      end
  end.

(** [offset]: [aslr_load_offset()], the load address of the process. *)
Definition get_symbol_address (fs : string -> option (list byte)) (offset : Z) (filename symbol_name : option (list byte))
  : U Z :=
  let! filename := c_char_to_string filename in
  let! symbol_name := c_char_to_string symbol_name in
  let! tables := gets SYMBOL_TABLES in
  (match tables !! filename with
   | Some _ => ret tt
   | None =>
       let! table := load_elf_symbol_table fs filename offset in
       modify (fun s => set_symbol_tables (<[filename := table]> (SYMBOL_TABLES s)) s)
   end) ;;
  let! tables := gets SYMBOL_TABLES in
  ret (default 0 (tables !! filename ≫= (fun t => t !! symbol_name))).

(** ** The simulator *)

Fixpoint starts_with (p l : list byte) : bool :=
  match p, l with
  | [], _ => true
  | b :: p, c :: l => bool_decide (b = c) && starts_with p l
  | _, [] => false
  end.
Fixpoint contains_bytes (p l : list byte) : bool :=
  starts_with p l || match l with [] => false | _ :: l => contains_bytes p l end.
Definition contains (p s : string) : bool := contains_bytes (as_bytes p) (as_bytes s).

Definition simulator_of_library (l : string) : option string :=
  if contains "libverilua_verilator.so" l || contains "libverilua_verilator_dpi.so" l then Some "verilator"%string
  else if contains "libverilua_vcs.so" l || contains "libverilua_vcs_dpi.so" l then Some "vcs"%string
  else if contains "libverilua_xcelium.so" l || contains "libverilua_xcelium_dpi.so" l then Some "xcelium"%string
  else if contains "libverilua_iverilog.so" l then Some "iverilog"%string
  else if contains "libverilua_wave_vpi.so" l then Some "wave_vpi"%string
  else if contains "libverilua_nosim.so" l then Some "nosim"%string
  else None.

(** The loop over the libraries, and the fall-back. *)
Fixpoint detect (libs : list string) : string :=
  match libs with
  | [] => "unknown"
  | l :: libs => match simulator_of_library l with Some sim => sim | None => detect libs end
  end.

Definition get_simulator_auto (fs : string -> option (list byte)) (link : option (list byte)) : U (list byte) :=
  let! cached := gets CACHE_RESULT in
  match cached with
  | Some result => string_to_c_char_owned result
  | None =>
      let! known := gets EXECUTABLE_NAME in
      let! executable_name :=
        match known with
        | Some n => ret n
        | None => let! p := get_executable_name link in
                  let! n := c_char_to_string (Some p) in
                  modify (set_executable_name n) ;; ret n
        end in
      match fs executable_name with
      | None => panic "Failed to open ELF file"
      | Some buffer =>
          match elf_parse buffer with
          | None => panic "Failed to parse ELF file"
          | Some elf => let sim := detect (libraries elf) in modify (set_cache_result sim) ;; string_to_c_char_owned sim
          end
      end
  end.

(** The match on the command is an argument of [log::info!], evaluated only when
    that level is enabled. *)
Definition known_control (cmd : Z) : bool := (66 <=? cmd) && (cmd <=? 69).
Definition i32_of (z : Z) : Z := (z + 2 ^ 31) mod 2 ^ 32 - 2 ^ 31.
Definition c_simulator_control (cmd : Z) : U unit :=
  (if log_info && negb (known_control cmd) then panic "Invalid command" else ret tt) ;;
  modify (add_control (i32_of cmd)).

(** ** Patterns, locks, commands *)

Definition wildmatch (pattern str : option (list byte)) : U bool :=
  let! pattern := c_char_to_str pattern in
  let! str := c_char_to_str str in
  ret (wildmatch_matches pattern str).

Definition acquire_lock (path : option (list byte)) : U Z :=
  match path with
  | None => ret 0
  | Some _ =>
      match str_opt path with
      | None => ret 0
      | Some path_str =>
          if negb (lock_open path_str) then ret 0
          else if negb (lock_lock path_str) then ret 0
          else let! s := get in
               modify (set_locks (<[lock_next s := path_str]> (locks s)) (lock_next s + 1)) ;; ret (lock_next s)
      end
  end.

Definition release_lock (lock_handle : Z) : U unit :=
  if lock_handle =? 0 then panic "Lock handle is null" else
  let! s := get in
  match locks s !! lock_handle with
  | None => undefined "Box::from_raw of a pointer that owns nothing"
  | Some _ => modify (set_locks (delete lock_handle (locks s)) (lock_next s))
  end.

Definition iorun (cmd : option (list byte)) : U (option (list byte)) :=
  match str_opt cmd with
  | None => ret None
  | Some cmd_str =>
      match sh_output cmd_str with
      | None => ret None
      | Some (out, err) =>
          let stdout := from_utf8_lossy out in
          let stderr := from_utf8_lossy err in
          let result := if negb (str_len stdout =? 0)%nat then stdout
                        else if negb (str_len stderr =? 0)%nat then stderr else empty_str in
          if bool_decide (x00 ∈ as_bytes result) then ret None
          else let! r := string_to_c_char_owned result in ret (Some r)
      end
  end.
(* ------------------------------------------------------------------ *)
(** ** What a symbol table answers *)

Definition named (name_at : Z -> option string) (name : string) (sym : Z * Z) : bool :=
  bool_decide (name_at (fst sym) = Some name).

(** The address of a symbol of a loaded file: the last entry of the symbol table
    with the name, else the first of the dynamic one, else 0. *)
Definition address_of (elf : Elf) (offset : Z) (name : string) : Z :=
  if (str_len name =? 0)%nat then 0 else
  match List.find (named (strtab_get_at elf) name) (rev (syms elf)) with
  | Some (_, v) => v + offset
  | None => match List.find (named (dynstrtab_get_at elf) name) (dynsyms elf) with
            | Some (_, v) => v + offset
            | None => 0
            end
  end.

(** Every address is a 64-bit one. *)
Definition addresses_fit (offset : Z) (l : list (Z * Z)) : Prop := Forall (fun sym => snd sym + offset < 2 ^ 64) l.

Lemma find_rev_cons {A} (P : A -> bool) x l :
  List.find P (rev (x :: l)) = match List.find P (rev l) with Some y => Some y | None => if P x then Some x else None end.
Proof.
  cbn [rev]. induction (rev l) as [|y l' IH]; cbn; [done|]. by destruct (P y).
Qed.

Lemma named_eq name_at name n v : named name_at name (n, v) = bool_decide (name_at n = Some name).
Proof. done. Qed.

(** Both loops at once: the table afterwards. *)
Lemma load_symbols_spec keep_first name_at offset l : addresses_fit offset l -> forall table,
  exists table', load_symbols keep_first name_at offset l table = Some table' /\
    table' !! empty_str = table !! empty_str /\
    forall name, name <> empty_str ->
      let found := if keep_first then List.find (named name_at name) l else List.find (named name_at name) (rev l) in
      table' !! name =
        if keep_first then match table !! name with Some a => Some a | None => (fun sym => snd sym + offset) <$> found end
        else match found with Some sym => Some (snd sym + offset) | None => table !! name end.
Proof.
  induction 1 as [|[n v] l Hv Hl IH]; intros table; cbn [load_symbols].
  - exists table. split; [done|]. split; [done|]. intros name _. cbn. destruct keep_first; [by destruct (table !! name)|done].
  - cbn [snd] in Hv. destruct (name_at n) as [nm|] eqn:En.
    2: { destruct (IH table) as (t' & E & E0 & H). exists t'. split; [done|]. split; [done|]. intros name Hne.
         rewrite find_rev_cons. cbn [List.find]. rewrite named_eq, En, bool_decide_false by done.
         specialize (H name Hne). cbn zeta in *. rewrite H. destruct keep_first; [done|].
         by destruct (List.find _ (rev l)). }
    destruct (Nat.eqb_spec (str_len nm) 0) as [Hnm|Hnm].
    + apply str_len_0 in Hnm. subst nm. destruct (IH table) as (t' & E & E0 & H). exists t'.
      split; [done|]. split; [done|]. intros name Hne.
      rewrite find_rev_cons. cbn [List.find]. rewrite named_eq, En, bool_decide_false by congruence.
      specialize (H name Hne). cbn zeta in *. rewrite H. destruct keep_first; [done|].
      by destruct (List.find _ (rev l)).
    + unfold add_u64. destruct (Z.ltb_spec (v + offset) (2 ^ 64)) as [_|]; [|lia].
      assert (nm <> empty_str) as Hnm' by by intros ->.
      match goal with |- context [load_symbols _ _ _ l ?t] => destruct (IH t) as (t' & E & E0 & H) end.
      exists t'. split; [done|]. split.
      { rewrite E0. destruct (table !! nm), keep_first; try done; by rewrite lookup_insert_ne. }
      intros name Hne. rewrite find_rev_cons. cbn [List.find]. rewrite named_eq, En.
      specialize (H name Hne). cbn zeta in *. rewrite H.
      destruct (decide (nm = name)) as [->|Hd].
      * rewrite bool_decide_true by done. destruct keep_first.
        -- destruct (table !! name) eqn:Et; [by rewrite Et|]. by rewrite lookup_insert_eq.
        -- destruct (List.find _ (rev l)) as [[]|]; [done|]. cbn.
           destruct (table !! name); by rewrite lookup_insert_eq.
      * rewrite bool_decide_false by congruence.
        replace (match table !! nm with Some _ => if keep_first then table else <[nm:=v + offset]> table
                 | None => <[nm:=v + offset]> table end !! name) with (table !! name).
        2: { destruct (table !! nm), keep_first; try done; by rewrite lookup_insert_ne. }
        destruct keep_first; [done|]. by destruct (List.find _ (rev l)).
Qed.

(** The file's table is loaded: every name has the address the file gives it. *)
Definition table_is (elf : Elf) (offset : Z) (t : gmap string Z) : Prop :=
  forall name, default 0 (t !! name) = address_of elf offset name.

Lemma load_elf_spec fs filename offset buffer elf s :
  fs filename = Some buffer -> elf_parse buffer = Some elf ->
  addresses_fit offset (syms elf) -> addresses_fit offset (dynsyms elf) ->
  exists t, load_elf_symbol_table fs filename offset s = Ret t s /\ table_is elf offset t.
Proof.
  intros Hfs Hp H1 H2. unfold load_elf_symbol_table. rewrite Hfs, Hp.
  destruct (load_symbols_spec false (strtab_get_at elf) offset _ H1 ∅) as (t1 & E1 & Z1 & T1). rewrite E1.
  destruct (load_symbols_spec true (dynstrtab_get_at elf) offset _ H2 t1) as (t2 & E2 & Z2 & T2). rewrite E2.
  exists t2. split; [done|]. intros name. unfold address_of. destruct (Nat.eqb_spec (str_len name) 0) as [Hn|Hn].
  - apply str_len_0 in Hn as ->. by rewrite Z2, Z1, lookup_empty.
  - assert (name <> empty_str) as Hne by by intros ->. rewrite (T2 name Hne). cbn zeta. rewrite (T1 name Hne).
    destruct (List.find _ (rev (syms elf))) as [[]|]; [done|]. rewrite lookup_empty.
    by destruct (List.find _ (dynsyms elf)) as [[]|].
Qed.

(** One lookup, by any caller, with any state of the files. *)
Definition symbol_lookup (s s' : UtilsState) : Prop :=
  exists fs offset f name r, get_symbol_address fs offset f name s = Ret r s'.

(** A loaded table stays, and answers. *)
Lemma loaded_answers fs offset f name t s : SYMBOL_TABLES s !! from_utf8_lossy f = Some t ->
  get_symbol_address fs offset (Some f) (Some name) s = Ret (default 0 (t !! from_utf8_lossy name)) s.
Proof. intros Ht. unfold get_symbol_address, c_char_to_string. mrun. rewrite Ht. mrun. by rewrite Ht. Qed.

Lemma tables_stay f t s s' : SYMBOL_TABLES s !! f = Some t -> symbol_lookup s s' -> SYMBOL_TABLES s' !! f = Some t.
Proof.
  intros Ht (fs & offset & f2 & name & r & E). unfold get_symbol_address in E. mon_inv.
  destruct f2 as [f2|], name as [name|]; cbn in *; try by destruct debug_assertions.
  unfold ret, gets in *. simplify_eq.
  destruct (SYMBOL_TABLES _ !! from_utf8_lossy f2) as [t2|] eqn:E2; unfold ret in *; simplify_eq; [done|]. mon_inv.
  match goal with H : load_elf_symbol_table _ _ _ _ = Ret _ _ |- _ =>
    unfold load_elf_symbol_table in H; repeat (case_match; try done) end.
  unfold ret in *. simplify_eq. cbn. rewrite lookup_insert_ne; [done|]. congruence.
Qed.

(** C37: a file is parsed once.  The first lookup in a file answers what its
    symbol tables say, and after it every lookup in that file does, whatever other
    lookups happen in between and whatever becomes of the file. *)
Theorem symbol_lookup_spec fs offset f name buffer elf s :
  SYMBOL_TABLES s !! from_utf8_lossy f = None ->
  fs (from_utf8_lossy f) = Some buffer -> elf_parse buffer = Some elf ->
  addresses_fit offset (syms elf) -> addresses_fit offset (dynsyms elf) ->
  exists s1, get_symbol_address fs offset (Some f) (Some name) s = Ret (address_of elf offset (from_utf8_lossy name)) s1 /\
    forall s2 fs2 offset2 name2, rtc symbol_lookup s1 s2 ->
      get_symbol_address fs2 offset2 (Some f) (Some name2) s2 = Ret (address_of elf offset (from_utf8_lossy name2)) s2.
Proof.
  intros Hnone Hfs Hp H1 H2. destruct (load_elf_spec fs _ offset buffer elf s Hfs Hp H1 H2) as (t & El & Ht).
  exists (set_symbol_tables (<[from_utf8_lossy f := t]> (SYMBOL_TABLES s)) s). split.
  - unfold get_symbol_address, c_char_to_string. mrun. rewrite Hnone. mrun El. cbn [SYMBOL_TABLES set_symbol_tables].
    rewrite lookup_insert_eq. cbn. unfold ret. by rewrite (Ht (from_utf8_lossy name)).
  - intros s2 fs2 offset2 name2 Hr.
    assert (SYMBOL_TABLES s2 !! from_utf8_lossy f = Some t) as Hs2.
    { remember (set_symbol_tables _ s) as s1 eqn:E. assert (SYMBOL_TABLES s1 !! from_utf8_lossy f = Some t) as H0
        by (rewrite E; apply lookup_insert_eq). clear E. induction Hr as [|a b c Hab _ IH]; [done|]. apply IH. by eapply tables_stay. }
    rewrite (loaded_answers _ _ _ _ _ _ Hs2). by rewrite (Ht (from_utf8_lossy name2)).
Qed.

(** An undefined (imported) symbol has value 0 in the tables, and its address is
    the load offset, which callers take for a found symbol. *)
Theorem undefined_symbol_found elf offset name n :
  name <> empty_str -> List.find (named (strtab_get_at elf) name) (rev (syms elf)) = Some (n, 0) ->
  address_of elf offset name = offset.
Proof.
  intros Hne Hf. unfold address_of. rewrite Hf. destruct (Nat.eqb_spec (str_len name) 0) as [Hn|]; [|lia].
  by apply str_len_0 in Hn.
Qed.

(** ** The simulator is detected once *)

Lemma detect_no_nul libs : bool_decide (x00 ∈ as_bytes (detect libs)) = false.
Proof.
  induction libs as [|l libs IH]; [done|]. cbn [detect]. unfold simulator_of_library.
  repeat (destruct (contains _ l); cbn [orb]; [done|]). done.
Qed.

(** The simulator is the one of the first recognised library of the
    executable, or unknown; while the cached result stands, the answer no longer
    depends on the files or on the link to the executable. *)
Theorem simulator_detected_once fs link path buffer elf s :
  CACHE_RESULT s = None -> EXECUTABLE_NAME s = None -> link = Some path -> (length path < PATH_MAX)%nat ->
  x00 ∉ path -> (log_debug = true -> utf8_valid path = true) ->
  fs (from_utf8_lossy path) = Some buffer -> elf_parse buffer = Some elf ->
  exists s1, get_simulator_auto fs link s = Ret (as_bytes (detect (libraries elf))) s1 /\
    forall fs2 link2 s2, CACHE_RESULT s2 = CACHE_RESULT s1 ->
      get_simulator_auto fs2 link2 s2 = Ret (as_bytes (detect (libraries elf))) s2.
Proof.
  intros Hc He -> Hlen Hnul Hutf Hfs Hp.
  assert (get_executable_name (Some path) s = Ret path s) as Hexe.
  { unfold get_executable_name. destruct (Nat.leb_spec PATH_MAX (length path)); [lia|].
    rewrite bool_decide_false by done. destruct log_debug; [by rewrite Hutf|done]. }
  exists (set_cache_result (detect (libraries elf)) (set_executable_name (from_utf8_lossy path) s)). split.
  - unfold get_simulator_auto. mrun. rewrite Hc. mrun. rewrite He. mrun Hexe. cbn [c_char_to_string]. mrun.
    rewrite Hfs, Hp. mrun. unfold string_to_c_char_owned. by rewrite detect_no_nul.
  - intros fs2 link2 s2 E. unfold get_simulator_auto. mrun. rewrite E. cbn [CACHE_RESULT set_cache_result].
    unfold string_to_c_char_owned. by rewrite detect_no_nul.
Qed.

(** With the info level off, a command that is none of the four reaches the
    simulator; with it on, the call panics. *)
Theorem control_check_depends_on_log cmd s :
  known_control cmd = false ->
  c_simulator_control cmd s =
  if log_info then Panic "Invalid command" s else Ret tt (add_control (i32_of cmd) s).
Proof. intros Hk. unfold c_simulator_control. rewrite Hk. by destruct log_info. Qed.

End Utils.

(** ** An executable with an imported symbol *)

Module UtilsDemo.
#[local] Instance crates : UtilsCrates := {|
  elf_parse data := match data with
    | [] => None
    | _ => Some (mkElf [(1, 0x1000); (2, 0); (1, 0x2000)] (fun n => if n =? 1 then Some "main"%string else if n =? 2 then Some "puts"%string else None)
                   [(1, 0x3000); (2, 0x40)] (fun n => if n =? 1 then Some "main"%string else Some "tick"%string)
                   ["libc.so.6"; "/opt/lib/libverilua_vcs_dpi.so"; "libverilua_nosim.so"])
    end;
  lock_open _ := true; lock_lock _ := true; sh_output _ := None; wildmatch_matches p s := bool_decide (p = s)
|}.
Definition demo_elf : Elf := default (mkElf [] (fun _ => None) [] (fun _ => None) []) (elf_parse [x7f]).
Definition demo_state : UtilsState := mkUtils ∅ None None ∅ 1 [].
Definition demo_fs : string -> option (list byte) := fun _ => Some [x7f].
Definition exe : list byte := as_bytes "/bin/sim".

(** Ill-formed text: a lone continuation byte, and a character cut short. *)
Example demo_lossy : lossy 10 [x41; x80; xe2; x82; x42; xe2; x82; xac] =
  [x41] ++ REPLACEMENT ++ REPLACEMENT ++ [x42; xe2; x82; xac].
Proof. vm_compute. reflexivity. Qed.

Example demo_detect : detect (libraries demo_elf) = "vcs"%string.
Proof. vm_compute. reflexivity. Qed.

Example undefined_symbol_found_demo : address_of demo_elf 0x555500000000 "puts" = 0x555500000000.
Proof. vm_compute. reflexivity. Qed.

(** [main] is the last of its two symbols; [tick] is found in the dynamic table,
    also after the file is gone. *)
Example symbol_lookup_spec_witness :
  exists s1, get_symbol_address false demo_fs 0x10 (Some exe) (Some (as_bytes "main")) demo_state = Ret 0x2010 s1 /\
    get_symbol_address false (fun _ => None) 0 (Some exe) (Some (as_bytes "tick")) s1 = Ret 0x50 s1.
Proof.
  destruct (symbol_lookup_spec false demo_fs 0x10 exe (as_bytes "main") [x7f] demo_elf demo_state) as (s1 & E & H).
  - reflexivity.
  - reflexivity.
  - reflexivity.
  - repeat constructor.
  - repeat constructor.
  - exists s1. split; [exact E|]. exact (H s1 (fun _ => None) 0 (as_bytes "tick") (rtc_refl _ s1)).
Defined.

Example simulator_detected_once_witness :
  exists s1, get_simulator_auto false false demo_fs (Some exe) demo_state = Ret (as_bytes "vcs") s1 /\
    get_simulator_auto false false (fun _ => None) None s1 = Ret (as_bytes "vcs") s1.
Proof.
  destruct (simulator_detected_once false false demo_fs (Some exe) exe [x7f] demo_elf demo_state) as (s1 & E & H).
  - reflexivity.
  - reflexivity.
  - reflexivity.
  - apply Nat.ltb_lt. vm_compute. reflexivity.
  - apply (bool_decide_unpack _). vm_compute. exact I.
  - discriminate.
  - reflexivity.
  - reflexivity.
  - exists s1. split; [exact E|]. exact (H (fun _ => None) None s1 eq_refl).
Defined.
End UtilsDemo.
